(* ===== verification/_CoqProject ===== *)
-Q . S2P
Prelude.v
Sql.v
AgentTypes.v
Store.v
Leases.v
Workers.v
Runs.v
Sessions.v
Handoff.v
Journals.v
Retire.v
Recovery.v
Holders.v
Projects.v
Text.v
Models.v
TextLemmas.v
Markers.v
MarkerLemmas.v
TaskNotes.v
Metadata.v
MetadataLemmas.v
TextProps.v
TaskEntry.v
Files.v
Board.v
BoardOrder.v
BoardRewrite.v
BoardStore.v
BoardTree.v
TreeLemmas.v
BoardMarkdown.v
BoardManaged.v
BoardProps.v
Coordination.v
CoordGraph.v
CoordinationProps.v
World.v
Surroundings.v
Git.v
Manifest.v
Scheduling.v
Projection.v
GitStart.v
SnapshotLoad.v
Guards.v
Workflow.v
Completion.v
GitRetire.v
GitPublish.v
GitRepair.v
GitFinalize.v
Supervisor.v
Completed.v
Reattach.v
GitRecovery.v
Dispatch.v
Scheduler.v
Job.v
Interactive.v
GitQuiet.v
Registry.v
Footprint.v
ControlInv.v
WorkerInv.v
JournalInv.v
LeaseInv.v
RegistryInv.v
Isolation.v
RegistryProps.v
OperationProps.v
WorldScenario.v
SupervisorProps.v
SnapshotProps.v
WorkflowProps.v
GitFinalizeProps.v
History.v
SchedulerProps.v
JobProps.v
InteractiveProps.v
