(* ===== verification/Prelude.v ===== *)
(** CLT: task boards worked on by Codex sessions.

    * The program

    CLT keeps a task board in a directory: four status stores (Todo, Doing,
    Done, Backlog), each a Markdown list or a directory with a file or folder
    per task. A task carries what the program needs to know of it inside its
    text: marker words, a link to the Codex conversation that works on it,
    launch directives and a comment with coordination metadata. An SQLite
    database, the agent registry, records the projects, who holds a project
    (leases), the workers and runs, the control state of each conversation and
    the managed Git journal that proves a finished task was committed. A
    scheduler dispatches one worker per project; the worker launches Codex and
    settles the registry when the process group has exited; users and running
    conversations change tasks through operations that consult both the board
    and the registry; terminals take conversations over interactively and give
    them back.

    * The files

    Foundations
    - Prelude: notations, record update, results, lemmas on maps and lists.
    - Sql: three-valued conditions and the statements of a table.
    - Text, TextLemmas: Rust's [str] and its library operations; prefixes,
      splitting, words, numbers in names.
    - Files: a tree of directories and files with [std::fs].

    The agent registry (src/agent.rs, src/agent/repositories/)
    - AgentTypes: the closed vocabularies (agent.rs, session_control.rs).
    - Store: the tables of schema version 20 and transactions.
    - Leases, Workers: workers_leases.rs.
    - Runs, Sessions, Handoff: sessions_runs.rs.
    - Journals, Retire, Recovery: git_journals.rs.
    - Projects, Models: projects_models.rs, supervisor.rs.
    - Holders: lease holders and liveness (scheduler.rs, session_recovery.rs).
    - Registry: every operation above as a command, and reachability.
    - Footprint: how rows of a table may change, and which tables an operation
      leaves alone. Isolation: which rows of other projects it leaves alone.
    - ControlInv, WorkerInv, LeaseInv, JournalInv, RegistryInv: the
      invariants, one table at a time and together, and databases along one
      managed run, for witnesses.
    - RegistryProps, OperationProps: the properties of reachable registries, and
      what single operations do.

    Tasks and boards (src/task.rs, src/task/)
    - Markers, TaskNotes, Metadata, TaskEntry: what a task's text says.
    - MarkerLemmas, MetadataLemmas, TextProps: their properties.
    - Board, BoardTree: stores, searches through nested boards, whole boards.
    - BoardOrder, BoardRewrite, BoardStore, BoardMarkdown,
      BoardManaged, TreeLemmas, BoardProps: their properties.

    Coordination (src/coordination.rs)
    - Coordination, SnapshotLoad: the dependency graph, overlaps, admission and
      the snapshot it is decided on.
    - CoordGraph, CoordinationProps, SnapshotProps: properties.

    Board and registry together (src/application.rs, src/worker.rs)
    - World: the pair of a file tree and a registry; operations that keep what
      they changed when they fail, and the steps that leave a part alone.
    - Surroundings: Git, the clock, the codecs and the operating system.
    - Guards, Workflow, Completion: what users and runs do to a task.
    - WorldScenario, WorkflowProps: their properties.

    Managed Git (src/managed_git.rs, src/managed_git/repair.rs)
    - Git, Manifest, Projection: reading commits, the manifest of a task, and
      the private projections that seal it.
    - GitStart: the boundary a run starts from.
    - GitRetire, GitPublish, GitRepair, GitFinalize: the lease of a
      finalization, journals nobody will finish, publishing, the repair of the
      board's order, and the reconciliation of a journal.
    - GitQuiet, GitFinalizeProps: what they leave alone, and the
      properties.

    The supervisor (src/supervisor.rs)
    - Supervisor: evidence, gate, reviews and retries. SupervisorProps: what it
      may change and whom it may let through.

    The scheduler (src/scheduler.rs and what it calls)
    - Completed: conversations of completed tasks (session_control/completed.rs).
    - Reattach: leases whose holder is gone, and processes that outlived their
      worker (session_recovery.rs).
    - GitRecovery: explicit and automatic recovery of a task whose Git attempt
      cannot continue (application/git_recovery.rs).
    - Dispatch: launching workers and what becomes of them (worker.rs).
    - Scheduling, Scheduler: the stage decision; stale controls, resumes, the
      acquisition of a job, the visit of a project, the pass over all projects.
    - History, SchedulerProps: the commands a pass issues, and its properties.
      A visit is shown, operation by operation along the code, to issue only
      commands about its project, none of which begins or ends a worker; every
      invariant of reachable registries therefore holds after each pass, and the
      workers that are unfinished then are those the pass counted as busy.

    A job (src/worker.rs)
    - Job: the run of an agent on a project: what it starts from, what is made of
      the runner's result, the journal and the control of its conversation, and
      what is recorded; inline workers, the process of a worker, and a pass in
      the foreground. The runner (src/runner.rs) is the class AgentRunner.
    - JobProps: their properties; where they need to know what the runner does
      to the registry, the law IsolatedRunner says it issues commands that write
      rows of the project of its request, and runner_keeps_runs that it deletes
      no run.

    A terminal (src/session_control.rs)
    - Interactive: what a terminal does to a conversation: stopping and resuming
      it, taking it over, reserving it, handing it back, the end of its guardian,
      and the process that resumes a queued conversation. InteractiveProps: the
      properties.

    * What the theorems show

    Board and registry together:
    - C1: a run that moves its task to Done recorded its intent first
    - C3: a change by hand cancels an open journal and never overrides a
      sealed one
    - C4: a sealed journal refuses every change of its task
    - C5: a task starts only when its prerequisites are proven
    - C6: a run takes a task only with its journal bound to it
    - C7: searches through nested boards end
    Git and the registry together:
    - C2: a journal is completed only for a commit Git proved
    - C8: a finalization takes the steps of an abstract finalizer
    - C9: the rounds of a finalization suffice
    A job:
    - C10: a successful job left nothing to finish in Git
    - C11: what a job leaves of its worker, its run and its lease
    - C18: each run a foreground pass started is a new row
    - C19: a job changes rows of its project only
    - C20: when the loop over the control of a conversation ends
    - C21: the task a run is found to have added
    A terminal and a conversation:
    - C14: a terminal holds the project exactly if its takeover succeeded
    - C15: a reservation resumes only what automation may continue
    - C16: the stop key changes one control, and how
    The scheduler and what it calls:
    - C12: each job of a pass holds a project nobody worked on
    - C13: a failed pass gives back what it acquired
    - C17: a pass ends only workers that are lost
    - C22: the limit on jobs over all projects
    - C23: a recovery checks before it acts and releases however it ends
    - C24: whom the supervisor of an orphan signals, and when
    The supervisor:
    - C25: how often it retries
    Every reachable registry:
    - C26: the shape of a session control in each state
    - C27: the transitions a session control may take
    - C28: one unfinished worker per project
    - C29: an unfinished worker keeps its lease
    - C30: what a journal records in each state
    - C31: one pending journal and one launch boundary per project
    - C32: a journal never loses what it records
    Coordination:
    - C33: the dependency check ends and decides soundness
    - C34: the dependency search decides reachability
    - C35: exactly when a task is admitted
    - C36: dependencies alone never stop a board
    - C37: an update keeps dependencies sound
    Task texts and stores:
    - C38: metadata is read back
    - C39: a directory implements a list of tasks
    - C40: a Markdown file implements a list of tasks

    * How the code is modelled

    Every statement of the registry keeps SQLite's documented meaning: three
    valued conditions, affected rows, [INSERT OR IGNORE], casts of text to
    integers. A transaction is one step; a path that returns before the commit
    rolls back. [try_acquire_lease], [record_run_outcome] and
    [register_project] run several statements without one, each a step of its
    own. Errors of the database engine are outside the model. Clock readings
    and answers of the operating system are arguments of the operation, so a
    statement about all commands covers every interleaving of the processes
    that share the registry. The file system is a tree with read-only files
    and without symbolic links; an atomic replacement of a file is one step.
    The board lock makes an operation on a board one step with respect to
    other CLT processes. The rounds of a finalization follow each other without
    a change of the registry by another process between them: the branches that
    read a journal again after a refused compare-and-set are there, but not
    taken. Likewise one turn of the supervision of a process is one step. Where
    the code polls, the steps other processes take
    in between are an argument.

    Texts are lists of Unicode scalar values; offsets count them where Rust
    counts bytes, on character boundaries both times. Identifiers stored in
    the registry are byte strings, and [World.utf8] leads from the one to the
    other. Machine integers are [Z] with their saturation or range written
    out where the code depends on it.

    Code outside src/ is a parameter: the JSON codec and UUID functions, the
    Unicode case tables, the output of [git status], the answers of services and
    processes, the clock. Git is an oracle: its answer depends on the command and
    on how many commands ran before, so it may change between any two questions;
    nothing relates one answer to another.

    * Bounds

    Recursions that are not structural carry fuel, and theorems show that it
    is enough: the dependency searches use the number of tasks plus two (C33,
    C34), searches through nested boards the depth of the tree plus one (C7),
    fresh names the number of entries of the directory plus one, a wait for a
    session forty polls as in the code. The loop of a job over the control of its
    conversation has no bound in the code and may not end (C20): it takes a
    number of looks, and running out of them is an error of its own, never a
    result. So do the loops of Interactive, which wait for other processes: each
    of their turns comes with what those did before it. Order prefixes are four digits wide
    below ten thousand tasks, the bound under which C39 speaks of the order.

    * Not modelled

    - Processes, threads, pipes, terminals and services (runner.rs,
      platform.rs and the process parts of session_control.rs): operating-
      system calls; their answers are arguments, the runner is an interface,
      and their effects on the registry are the commands of Registry.
    - What Git computes: its answers are an oracle of the command and of how
      many ran before it; so are the files of its own directory.
    - Rendering and key handling of the terminal interface (tui.rs) and
      argument parsing (cli.rs).
    - The repair of database files on disk (agent/recovery.rs) and the
      migrations from older schemas.
    *)
From Stdlib Require Export Ascii ZArith Lia.
From stdpp Require Export base list gmap strings pretty numbers sorting.

(** ** Notation scope

    [x == y] is Rust's [==] (and SQL's [=] between two values that are not
    NULL) as a boolean; [r <| f := v |>] is a record update. *)

Declare Scope clt_scope.
Delimit Scope clt_scope with clt.
#[global] Open Scope clt_scope.

Notation "x == y" := (bool_decide (x = y)) (at level 70, no associativity) : clt_scope.
Notation "x =! y" := (negb (bool_decide (x = y))) (at level 70, no associativity) : clt_scope.

(** ** Functional record update

    A record type declares its eta expansion once; the setter of each field is
    then computed from it by abstracting the projection. *)

Class Eta (R : Type) := eta : R -> R.
Class Update {R F : Type} (proj : R -> F) := update : F -> R -> R.

Ltac derive_update p :=
  match goal with
  | |- @Update ?R ?F _ =>
      let inst := constr:(_ : Eta R) in
      let body := eval hnf in inst in
      let abst := eval pattern p in body in
      match abst with
      | ?g _ =>
          let t := constr:(fun (v : F) => g (fun _ : R => v)) in
          let t := eval cbv beta in t in
          exact t
      end
  end.

#[export] Hint Extern 1 (Update ?p) => derive_update p : typeclass_instances.

Notation "r <| f := v |>" := (@update _ _ f _ v r)
  (at level 1, left associativity, f at level 9, v at level 99) : clt_scope.

(** ** Results of fallible operations

    [anyhow::Result] with the error kept as a value; [?] is [res_bind]. *)

Inductive res (E A : Type) : Type :=
| Ok (a : A)
| Err (e : E).
Arguments Ok {E A} a.
Arguments Err {E A} e.

Definition res_bind {E A B : Type} (r : res E A) (k : A -> res E B) : res E B :=
  match r with
  | Ok a => k a
  | Err e => Err e
  end.

Notation "'let?' x ':=' c 'in' k" := (res_bind c (fun x => k))
  (at level 10, x pattern, c at level 200, k at level 200) : clt_scope.

Definition is_ok {E A : Type} (r : res E A) : bool :=
  match r with Ok _ => true | Err _ => false end.

Definition res_ok {E A : Type} (r : res E A) : option A :=
  match r with Ok a => Some a | Err _ => None end.

Lemma res_bind_ok {E A B} (r : res E A) (k : A -> res E B) b :
  res_bind r k = Ok b <-> exists a, r = Ok a /\ k a = Ok b.
Proof. destruct r; simpl; split; [eauto|by intros (? & [= ->] & ?)|done|by intros (? & ? & ?)]. Qed.

Lemma res_bind_assoc {E A B C} (r : res E A) (k : A -> res E B) (h : B -> res E C) :
  res_bind (res_bind r k) h = res_bind r (fun a => res_bind (k a) h).
Proof. by destruct r. Qed.

(** ** Tactics *)

(** Case analysis on the boolean tests a translated handler branches on. *)
Ltac bool_cases :=
  repeat (match goal with
          | H : andb _ _ = true |- _ => apply andb_true_iff in H; destruct H
          | H : orb _ _ = false |- _ => apply orb_false_iff in H; destruct H
          | H : negb _ = true |- _ => apply negb_true_iff in H
          | H : negb _ = false |- _ => apply negb_false_iff in H
          | H : bool_decide _ = true |- _ => apply bool_decide_eq_true in H
          | H : bool_decide _ = false |- _ => apply bool_decide_eq_false in H
          end).

(** [inv_step H] follows the branches of a handler in hypothesis [H]. *)
Ltac inv_branch H :=
  repeat (case_match; simplify_eq/=); bool_cases; simplify_eq/=.

(** ** Lists *)

Lemma existsb_elem_of {A} (f : A -> bool) (l : list A) :
  existsb f l = true <-> exists x, x ∈ l /\ f x = true.
Proof.
  rewrite existsb_exists. by setoid_rewrite list_elem_of_In.
Qed.

Lemma existsb_false {A} (f : A -> bool) (l : list A) :
  existsb f l = false <-> forall x, x ∈ l -> f x = false.
Proof.
  rewrite <- not_true_iff_false, existsb_elem_of. split.
  - intros H x Hx. apply not_true_iff_false. intros Hf. apply H. eauto.
  - intros H (x & Hx & Hf). specialize (H x Hx). congruence.
Qed.

Lemma forallb_elem_of {A} (f : A -> bool) (l : list A) :
  forallb f l = true <-> forall x, x ∈ l -> f x = true.
Proof.
  rewrite forallb_forall. by setoid_rewrite list_elem_of_In.
Qed.

(** A stable sort by a total preorder given as a boolean: [sort_by] and
    [ORDER BY]. *)
Section Sort.
Context {A : Type} (le : A -> A -> bool).

Fixpoint insert_by (x : A) (l : list A) : list A :=
  match l with
  | [] => [x]
  | y :: l' => if le x y then x :: l else y :: insert_by x l'
  end.

Definition sort_by (l : list A) : list A := foldr insert_by [] l.

Lemma insert_by_perm x l : insert_by x l ≡ₚ x :: l.
Proof.
  induction l as [|y l IH]; simpl; [done|]. destruct (le x y); [done|].
  rewrite IH. apply Permutation_swap.
Qed.

Lemma sort_by_perm l : sort_by l ≡ₚ l.
Proof. induction l as [|x l IH]; simpl; [done|]. by rewrite insert_by_perm, IH. Qed.

Lemma insert_by_sorted x l :
  (forall a b, le a b = false -> le b a = true) ->
  Sorted (fun a b => le a b = true) l -> Sorted (fun a b => le a b = true) (insert_by x l).
Proof.
  intros Htot Hs. induction Hs as [|y l Hs IH Hy]; simpl; [by repeat constructor|].
  destruct (le x y) eqn:Hxy.
  - by repeat constructor.
  - constructor; [done|]. destruct Hy as [|z l Hyz]; simpl.
    + by constructor; apply Htot.
    + destruct (le x z); constructor; auto.
Qed.

Lemma sort_by_sorted l :
  (forall a b, le a b = false -> le b a = true) ->
  Sorted (fun a b => le a b = true) (sort_by l).
Proof. intros Ht. induction l; simpl; [constructor|by apply insert_by_sorted]. Qed.
End Sort.

(** ** Strings (Rust [str] as UTF-8 bytes) *)

(** [str::strip_prefix] and [str::starts_with]. *)
Fixpoint strip_prefix (pre s : string) : option string :=
  match pre, s with
  | EmptyString, _ => Some s
  | String a pre', String b s' => if a == b then strip_prefix pre' s' else None
  | String _ _, EmptyString => None
  end.

Definition starts_with (pre s : string) : bool :=
  match strip_prefix pre s with Some _ => true | None => false end.

Lemma strip_prefix_Some pre s r :
  strip_prefix pre s = Some r <-> s = (pre +:+ r)%string.
Proof.
  revert s. induction pre as [|a pre IH]; intros s; simpl.
  - split; [by intros [= ->]|by intros ->].
  - destruct s as [|b s]; [by split|].
    case_bool_decide as Hab; subst.
    + rewrite IH. split; [by intros ->|by intros [= ->]].
    + split; [done|]. intros [= ? _]. congruence.
Qed.

#[global] Arguments strip_prefix : simpl never.
#[global] Arguments starts_with : simpl never.

Lemma starts_with_strip pre s :
  starts_with pre s = true <-> exists r, s = (pre +:+ r)%string.
Proof.
  unfold starts_with. setoid_rewrite <- strip_prefix_Some.
  destruct (strip_prefix pre s) as [r|]; split; [by exists r|done|done|by intros [? [=]]].
Qed.

Lemma starts_with_app pre s : starts_with pre (pre +:+ s) = true.
Proof.
  apply starts_with_strip. by exists s.
Qed.

Lemma string_app_assoc (a b c : string) : ((a +:+ b) +:+ c = a +:+ (b +:+ c))%string.
Proof. induction a as [|x a IH]; [done|]. change (String x ((a +:+ b) +:+ c) = String x (a +:+ (b +:+ c))). by rewrite IH. Qed.

Lemma string_app_nil_r (a : string) : (a +:+ "" = a)%string.
Proof. induction a as [|x a IH]; [done|]. change (String x (a +:+ "") = String x a). by rewrite IH. Qed.

Lemma string_length_app (a b : string) :
  String.length (a +:+ b) = String.length a + String.length b.
Proof. induction a as [|x a IH]; [done|]. change (S (String.length (a +:+ b)) = S (String.length a + String.length b)). by rewrite IH. Qed.

(** An outcome known by its first part. *)
Lemma result_is {A B} (p : A * B) (a : A) : p.1 = a -> p = (a, p.2).
Proof. by destruct p; simpl; intros ->. Qed.
