(* ===== verification/Sql.v ===== *)
(** The fragment of SQL the agent registry is written in: three-valued
    conditions, [LIKE] on a literal prefix, [CAST .. AS INTEGER], and the
    statements of a table with a primary key, each returning the number of rows
    it affected as [Connection::execute] does.

    The engine (vendor/turso_core) executes these statements; what is modelled
    here is the documented meaning of the statements src/agent sends to it. *)
From S2P Require Import Prelude.

(** ** Conditions

    A condition over nullable columns evaluates to TRUE, FALSE or NULL
    ([Some true], [Some false], [None]); [WHERE] keeps the rows where it is
    TRUE. *)

Definition tri := option bool.

Definition tri_and (a b : tri) : tri :=
  match a, b with
  | Some false, _ | _, Some false => Some false
  | Some true, Some true => Some true
  | _, _ => None
  end.

Definition tri_or (a b : tri) : tri :=
  match a, b with
  | Some true, _ | _, Some true => Some true
  | Some false, Some false => Some false
  | _, _ => None
  end.

Definition tri_not (a : tri) : tri := negb <$> a.

Definition sql_holds (a : tri) : bool :=
  match a with Some true => true | _ => false end.

(** [a = b] between nullable values. *)
Definition tri_eq `{EqDecision A} (a b : option A) : tri :=
  match a, b with
  | Some x, Some y => Some (x == y)
  | _, _ => None
  end.

Definition tri_is_null {A} (a : option A) : tri :=
  Some (match a with None => true | Some _ => false end).

Definition tri_is_not_null {A} (a : option A) : tri := tri_not (tri_is_null a).

(** [a = b] as the whole of a positive [WHERE] conjunct. *)
Definition sql_eq `{EqDecision A} (a b : option A) : bool :=
  sql_holds (tri_eq a b).

(** [a IS b]. *)
Definition sql_is `{EqDecision A} (a b : option A) : bool := a == b.

Definition is_null {A} (a : option A) : bool :=
  match a with None => true | Some _ => false end.

(** [(col = ?n OR (col IS NULL AND ?n IS NULL))]. *)
Definition sql_eq_or_null `{EqDecision A} (a b : option A) : bool :=
  sql_eq a b || (is_null a && is_null b).

Lemma sql_eq_Some `{EqDecision A} (a : option A) (x : A) :
  sql_eq a (Some x) = true <-> a = Some x.
Proof.
  destruct a as [y|]; unfold sql_eq; simpl; [|done].
  case_bool_decide; naive_solver.
Qed.

Lemma sql_eq_or_null_is `{EqDecision A} (a b : option A) :
  sql_eq_or_null a b = true <-> a = b.
Proof.
  destruct a as [x|], b as [y|]; unfold sql_eq_or_null, sql_eq; simpl;
    try done; rewrite ?orb_false_r; case_bool_decide; naive_solver.
Qed.

Lemma is_null_true {A} (a : option A) : is_null a = true <-> a = None.
Proof. by destruct a. Qed.

(** ** Text *)

Definition ascii_lower (c : Ascii.ascii) : Ascii.ascii :=
  let n := Ascii.N_of_ascii c in
  if (65 <=? n)%N && (n <=? 90)%N then Ascii.ascii_of_N (n + 32)%N else c.

(** [s LIKE 'pre%'] for a [pre] without wildcards: a prefix test that ignores
    ASCII case. *)
Fixpoint like_prefix (pre s : string) : bool :=
  match pre, s with
  | EmptyString, _ => true
  | String a pre', String b s' => (ascii_lower a == ascii_lower b) && like_prefix pre' s'
  | String _ _, EmptyString => false
  end.

#[global] Arguments like_prefix : simpl never.

Lemma like_prefix_app pre s : like_prefix pre (pre +:+ s) = true.
Proof.
  induction pre as [|a pre IH]; [done|].
  change ((ascii_lower a == ascii_lower a) && like_prefix pre (pre +:+ s) = true).
  by rewrite IH, bool_decide_true.
Qed.

Lemma starts_with_like pre s : starts_with pre s = true -> like_prefix pre s = true.
Proof. intros [r ->]%starts_with_strip. apply like_prefix_app. Qed.

(** [col LIKE 'pre%'] on a nullable column, as a positive conjunct. *)
Definition sql_like_prefix (pre : string) (a : option string) : bool :=
  match a with Some s => like_prefix pre s | None => false end.

Definition tri_like_prefix (a : option string) (pre : string) : tri := like_prefix pre <$> a.

(** The binary collation of TEXT values: bytes first, then length. *)
Fixpoint text_leb (a b : string) : bool :=
  match a, b with
  | EmptyString, _ => true
  | String _ _, EmptyString => false
  | String x a', String y b' =>
      let m := Ascii.N_of_ascii x in
      let n := Ascii.N_of_ascii y in
      if (m <? n)%N then true else if (n <? m)%N then false else text_leb a' b'
  end.

Definition text_ltb (a b : string) : bool := negb (text_leb b a).

(** ** [CAST (text AS INTEGER)]: leading spaces, a sign, the longest run of
    digits, saturated to 64 bits; 0 when there is no digit. *)

Definition i64_max : Z := 9223372036854775807.
Definition i64_min : Z := -9223372036854775808.
Definition u64_max : Z := 18446744073709551615.
Definition u32_max : Z := 4294967295.

Definition digit_value (c : Ascii.ascii) : option Z :=
  let n := Z.of_N (Ascii.N_of_ascii c) in
  if (48 <=? n)%Z && (n <=? 57)%Z then Some (n - 48)%Z else None.

Definition ascii_space (c : Ascii.ascii) : bool :=
  let n := Ascii.N_of_ascii c in
  (n =? 32)%N || ((9 <=? n)%N && (n <=? 13)%N).

Fixpoint digits_prefix (acc : Z) (s : string) : Z :=
  match s with
  | EmptyString => acc
  | String c s' =>
      match digit_value c with
      | Some d => digits_prefix (acc * 10 + d)%Z s'
      | None => acc
      end
  end.

Fixpoint skip_spaces (s : string) : string :=
  match s with
  | String c s' => if ascii_space c then skip_spaces s' else s
  | EmptyString => s
  end.

Definition clamp_i64 (n : Z) : Z := Z.max i64_min (Z.min i64_max n).

Definition cast_integer (s : string) : Z :=
  match skip_spaces s with
  | String c s' =>
      if c == "-"%char then clamp_i64 (- digits_prefix 0 s')
      else if c == "+"%char then clamp_i64 (digits_prefix 0 s')
      else clamp_i64 (digits_prefix 0 (String c s'))
  | EmptyString => 0%Z
  end.

(** [str::parse::<u64>]: an optional [+], then only digits, within range. *)
Fixpoint all_digits (acc : Z) (s : string) : option Z :=
  match s with
  | EmptyString => Some acc
  | String c s' =>
      match digit_value c with
      | Some d => all_digits (acc * 10 + d)%Z s'
      | None => None
      end
  end.

Definition parse_unsigned (bound : Z) (s : string) : option Z :=
  let digits :=
    match s with
    | String "+" s' => s'
    | _ => s
    end%char in
  match digits with
  | EmptyString => None
  | _ =>
      match all_digits 0 digits with
      | Some n => if (n <=? bound)%Z then Some n else None
      | None => None
      end
  end.

Definition parse_u64 : string -> option Z := parse_unsigned u64_max.
Definition parse_u32 : string -> option Z := parse_unsigned u32_max.

(** [COALESCE] and [Option::or]. *)
Definition coalesce {A} (a b : option A) : option A :=
  match a with Some _ => a | None => b end.

(** [COLLATE NOCASE]: ASCII letters compare in lower case. *)
Fixpoint string_lower (s : string) : string :=
  match s with EmptyString => EmptyString | String a r => String (ascii_lower a) (string_lower r) end.

(** A column of an [ORDER BY]: the keys of two rows, and the order of the rest. *)
Definition nocase_before (a b : string) (rest : bool) : bool :=
  text_ltb (string_lower a) (string_lower b) || ((string_lower a == string_lower b) && rest).
(** [ORDER BY flag DESC]. *)
Definition flag_before (a b : bool) (rest : bool) : bool := (a && negb b) || ((eqb a b) && rest).

(** [ToString] of an integer. *)
Definition dec (n : Z) : string := pretty n.

#[global] Arguments dec : simpl never.
#[global] Arguments cast_integer : simpl never.
#[global] Arguments parse_unsigned : simpl never.

(** ** Statements over a table with a primary key *)

Section Table.
Context {K V : Type} `{Countable K}.
Implicit Types (t : gmap K V) (p : K -> V -> bool).

Definition rows t : list (K * V) := map_to_list t.

(** [SELECT COUNT of the rows where p]. *)
Definition sql_count p t : Z :=
  Z.of_nat (length (filter (fun kv => p kv.1 kv.2 = true) (rows t))).

(** [EXISTS (SELECT 1 FROM t WHERE p)]. *)
Definition sql_exists p t : bool := existsb (fun kv => p kv.1 kv.2) (rows t).

(** [UPDATE t SET f WHERE p] without a key. *)
Definition sql_update_where p (f : K -> V -> V) t : gmap K V * Z :=
  (map_imap (fun k v => Some (if p k v then f k v else v)) t, sql_count p t).

(** [DELETE FROM t WHERE p]. *)
Definition sql_delete_where p t : gmap K V * Z :=
  (filter (fun kv => p kv.1 kv.2 = false) t, sql_count p t).

(** [UPDATE t SET f WHERE key = k AND p]. *)
Definition sql_update (k : K) (p : V -> bool) (f : V -> V) t : gmap K V * Z :=
  match t !! k with
  | Some v => if p v then (<[k := f v]> t, 1) else (t, 0)
  | None => (t, 0)
  end%Z.

(** [DELETE FROM t WHERE key = k AND p]. *)
Definition sql_delete (k : K) (p : V -> bool) t : gmap K V * Z :=
  match t !! k with
  | Some v => if p v then (delete k t, 1) else (t, 0)
  | None => (t, 0)
  end%Z.

(** [SELECT .. FROM t WHERE key = k AND p]. *)
Definition sql_select (k : K) (p : V -> bool) t : option V :=
  match t !! k with
  | Some v => if p v then Some v else None
  | None => None
  end.

Lemma sql_exists_spec p t :
  sql_exists p t = true <-> exists k v, t !! k = Some v /\ p k v = true.
Proof.
  unfold sql_exists, rows. rewrite existsb_elem_of. split.
  - intros ([k v] & Hin & Hp). apply elem_of_map_to_list in Hin. eauto.
  - intros (k & v & Hk & Hp). exists (k, v). by rewrite elem_of_map_to_list.
Qed.

Lemma sql_exists_false p t :
  sql_exists p t = false <-> forall k v, t !! k = Some v -> p k v = false.
Proof.
  unfold sql_exists, rows. rewrite existsb_false. split.
  - intros Hf k v Hk. apply (Hf (k, v)). by apply elem_of_map_to_list.
  - intros Hf [k v] Hin. apply Hf. by apply elem_of_map_to_list.
Qed.

Lemma sql_count_nonneg p t : (0 <= sql_count p t)%Z.
Proof. unfold sql_count. lia. Qed.

Lemma sql_count_zero p t :
  sql_count p t = 0%Z <-> forall k v, t !! k = Some v -> p k v = false.
Proof.
  unfold sql_count, rows. split.
  - intros Hc k v Hk.
    destruct (p k v) eqn:Hp; [|done].
    assert (Hin : (k, v) ∈ filter (fun kv => p kv.1 kv.2 = true) (map_to_list t)).
    { apply list_elem_of_filter. by rewrite elem_of_map_to_list. }
    destruct (filter _ _) as [|x l] eqn:Hf; [by apply not_elem_of_nil in Hin|].
    simpl in Hc. lia.
  - intros Hf.
    destruct (filter _ _) as [|[k v] l] eqn:Hl; [done|].
    assert (Hin : (k, v) ∈ filter (fun kv => p kv.1 kv.2 = true) (map_to_list t)).
    { rewrite Hl. left. }
    apply list_elem_of_filter in Hin as [Hp Hin]. simpl in Hp.
    apply elem_of_map_to_list in Hin. apply Hf in Hin. congruence.
Qed.

Lemma sql_count_exists p t :
  (0 <? sql_count p t)%Z = sql_exists p t.
Proof.
  pose proof (sql_count_nonneg p t).
  destruct (sql_exists p t) eqn:He.
  - apply Z.ltb_lt. enough (sql_count p t <> 0%Z) by lia.
    rewrite sql_count_zero. apply sql_exists_spec in He as (k & v & Hk & Hp).
    intros Hf. apply Hf in Hk. congruence.
  - apply Z.ltb_ge. enough (sql_count p t = 0%Z) by lia.
    apply sql_count_zero. by apply sql_exists_false.
Qed.

Lemma lookup_update_where p f t k :
  (sql_update_where p f t).1 !! k = (fun v => if p k v then f k v else v) <$> t !! k.
Proof. simpl. rewrite map_lookup_imap. by destruct (t !! k). Qed.

Lemma lookup_delete_where p t k :
  (sql_delete_where p t).1 !! k =
    match t !! k with Some v => if p k v then None else Some v | None => None end.
Proof.
  simpl. rewrite map_lookup_filter. destruct (t !! k) as [v|]; simpl; [|done].
  case_guard as Hp; destruct (p k v); done.
Qed.

(** The two outcomes of a keyed statement. *)
Lemma sql_update_cases k (p : V -> bool) f t :
  (exists v, t !! k = Some v /\ p v = true /\ sql_update k p f t = (<[k := f v]> t, 1%Z)) \/
  ((forall v, t !! k = Some v -> p v = false) /\ sql_update k p f t = (t, 0%Z)).
Proof.
  unfold sql_update. destruct (t !! k) as [v|] eqn:Hk.
  - destruct (p v) eqn:Hp; [left; eauto|right]. split; [by intros ? [= <-]|done].
  - right. by split; [intros ? [=]|].
Qed.

Lemma sql_delete_cases k (p : V -> bool) t :
  (exists v, t !! k = Some v /\ p v = true /\ sql_delete k p t = (delete k t, 1%Z)) \/
  ((forall v, t !! k = Some v -> p v = false) /\ sql_delete k p t = (t, 0%Z)).
Proof.
  unfold sql_delete. destruct (t !! k) as [v|] eqn:Hk.
  - destruct (p v) eqn:Hp; [left; eauto|right]. split; [by intros ? [= <-]|done].
  - right. by split; [intros ? [=]|].
Qed.
Lemma lookup_sql_update k (p : V -> bool) f t k' :
  (sql_update k p f t).1 !! k' =
    (fun v => if (k' == k) && p v then f v else v) <$> t !! k'.
Proof.
  unfold sql_update. case_bool_decide as Hk; simpl; [subst k'|].
  - destruct (t !! k) as [v|] eqn:Ht; simpl; [|by rewrite Ht].
    destruct (p v) eqn:Hp; simpl; rewrite ?lookup_insert_eq, ?Ht; simpl; by rewrite ?Hp.
  - destruct (t !! k) as [v|]; [destruct (p v)|]; simpl;
      rewrite ?lookup_insert_ne by done; by destruct (t !! k').
Qed.

Lemma lookup_sql_delete k (p : V -> bool) t k' :
  (sql_delete k p t).1 !! k' =
    match t !! k' with
    | Some v => if (k' == k) && p v then None else Some v
    | None => None
    end.
Proof.
  unfold sql_delete. case_bool_decide as Hk; simpl; [subst k'|].
  - destruct (t !! k) as [v|] eqn:Ht; simpl; [|by rewrite Ht].
    destruct (p v) eqn:Hp; simpl; rewrite ?lookup_delete_eq, ?Ht; simpl; by rewrite ?Hp.
  - destruct (t !! k) as [v|]; [destruct (p v)|]; simpl;
      rewrite ?lookup_delete_ne by done; by destruct (t !! k').
Qed.

(** A property of all rows is kept by statements that keep it row by row. *)
Lemma map_Forall_sql_update (P : K -> V -> Prop) k (p : V -> bool) f t :
  (forall v, t !! k = Some v -> P k v -> p v = true -> P k (f v)) ->
  map_Forall P t -> map_Forall P (sql_update k p f t).1.
Proof.
  intros Hf Ht k' v'. rewrite lookup_sql_update. intros (v & Hk' & ->)%fmap_Some.
  specialize (Ht _ _ Hk'). case_bool_decide; simpl; [subst|done].
  destruct (p v) eqn:Hp; eauto.
Qed.

Lemma map_Forall_sql_delete (P : K -> V -> Prop) k (p : V -> bool) t :
  map_Forall P t -> map_Forall P (sql_delete k p t).1.
Proof.
  intros Ht k' v'. rewrite lookup_sql_delete. destruct (t !! k') eqn:Hk'; [|done].
  case_match; intros [= <-]; eauto.
Qed.

Lemma map_Forall_sql_update_where (P : K -> V -> Prop) p f t :
  (forall k v, t !! k = Some v -> P k v -> p k v = true -> P k (f k v)) ->
  map_Forall P t -> map_Forall P (sql_update_where p f t).1.
Proof.
  intros Hf Ht k' v'. rewrite lookup_update_where. intros (v & Hk' & ->)%fmap_Some.
  specialize (Ht _ _ Hk'). destruct (p k' v) eqn:Hp; eauto.
Qed.

Lemma map_Forall_sql_delete_where (P : K -> V -> Prop) p t :
  map_Forall P t -> map_Forall P (sql_delete_where p t).1.
Proof.
  intros Ht k' v'. rewrite lookup_delete_where. destruct (t !! k') eqn:Hk'; [|done].
  case_match; intros [= <-]; eauto.
Qed.
End Table.

#[export] Hint Resolve map_Forall_sql_delete map_Forall_sql_delete_where
  map_Forall_insert_2 : sql_rows.

(** [INTEGER PRIMARY KEY] without AUTOINCREMENT: one more than the largest
    row id, 1 in an empty table. *)
Definition next_rowid {V} (t : gmap Z V) : Z :=
  (1 + foldr (fun kv m => Z.max kv.1 m) 0 (map_to_list t))%Z.

Lemma next_rowid_bound {V} (t : gmap Z V) k :
  is_Some (t !! k) -> (k < next_rowid t)%Z.
Proof.
  intros [v Hk]. apply elem_of_map_to_list in Hk. unfold next_rowid.
  induction (map_to_list t) as [|[k' v'] l IH]; [by apply not_elem_of_nil in Hk|].
  simpl. apply elem_of_cons in Hk as [[= <- <-]|Hin]; [lia|]. specialize (IH Hin). lia.
Qed.

Lemma next_rowid_fresh {V} (t : gmap Z V) : t !! next_rowid t = None.
Proof.
  destruct (t !! next_rowid t) eqn:He; [|done].
  pose proof (next_rowid_bound t (next_rowid t)) as Hb.
  rewrite He in Hb. specialize (Hb (mk_is_Some _ _ eq_refl)). lia.
Qed.

(** ** Decimal numerals: [dec] and the two readers agree on their range *)

Lemma digit_value_pretty (x : N) :
  (x < 10)%N -> digit_value (pretty_N_char x) = Some (Z.of_N x).
Proof.
  intros Hlt. destruct x as [|p]; [done|].
  do 4 (destruct p as [p|p|]; try done); exfalso; lia.
Qed.

Lemma all_digits_pretty_go (x : N) s :
  (0 < x)%N -> all_digits 0 (pretty_N_go x s) = all_digits (Z.of_N x) s.
Proof.
  revert s. induction (N.lt_wf_0 x) as [x _ IH]; intros s Hx.
  rewrite pretty_N_go_step by done.
  assert (Hmod : (x `mod` 10 < 10)%N) by (by apply N.mod_lt).
  assert (Hdiv : (x = 10 * (x `div` 10) + x `mod` 10)%N) by (by apply N.div_mod).
  destruct (decide (x `div` 10 = 0)%N) as [Hz|Hnz].
  - rewrite Hz, pretty_N_go_0. simpl. rewrite digit_value_pretty by done.
    f_equal. lia.
  - rewrite IH by (try apply N.div_lt; lia). simpl.
    rewrite digit_value_pretty by done. f_equal. lia.
Qed.

Lemma all_digits_dec (n : Z) : (0 <= n)%Z -> all_digits 0 (dec n) = Some n.
Proof.
  intros Hn. destruct n as [|p|p]; [done| |lia].
  unfold dec. change (pretty (Z.pos p)) with (pretty_N_go (N.pos p) "").
  by rewrite all_digits_pretty_go by lia.
Qed.

Lemma digits_prefix_all acc s n : all_digits acc s = Some n -> digits_prefix acc s = n.
Proof.
  revert acc. induction s as [|c s IH]; intros acc; simpl; [by intros [= ->]|].
  destruct (digit_value c); [apply IH|done].
Qed.

Lemma digit_char_plain c d :
  digit_value c = Some d -> c <> "+"%char /\ c <> "-"%char /\ ascii_space c = false.
Proof.
  unfold digit_value, ascii_space. case_match eqn:Hr; [|done]. intros _.
  apply andb_true_iff in Hr as [H1%Z.leb_le H2%Z.leb_le].
  split; [by intros ->|]. split; [by intros ->|].
  apply orb_false_iff. split; [apply N.eqb_neq; lia|].
  apply andb_false_iff. right. apply N.leb_gt. lia.
Qed.

Lemma dec_head (n : Z) :
  (0 <= n)%Z -> exists c s, dec n = String c s /\ is_Some (digit_value c).
Proof.
  intros Hn. pose proof (all_digits_dec n Hn) as Ha.
  destruct (dec n) as [|c s] eqn:Hd.
  - exfalso. simpl in Ha. injection Ha as <-. by compute in Hd.
  - exists c, s. split; [done|]. simpl in Ha. by destruct (digit_value c).
Qed.

Lemma parse_unsigned_dec bound (n : Z) :
  (0 <= n <= bound)%Z -> parse_unsigned bound (dec n) = Some n.
Proof.
  intros [Hn Hb]. pose proof (all_digits_dec n Hn) as Ha.
  destruct (dec_head n Hn) as (c & s & Hd & [d Hc]).
  destruct (digit_char_plain c d Hc) as (Hplus & _ & _).
  rewrite Hd in *. unfold parse_unsigned.
  replace (match String c s with String "+" s' => s' | _ => String c s end)%char
    with (String c s).
  - by rewrite Ha, (proj2 (Z.leb_le _ _) Hb).
  - destruct c as [[] [] [] [] [] [] [] []]; done.
Qed.

Lemma cast_integer_dec (n : Z) : (0 <= n <= i64_max)%Z -> cast_integer (dec n) = n.
Proof.
  intros [Hn Hb]. pose proof (all_digits_dec n Hn) as Ha.
  destruct (dec_head n Hn) as (c & s & Hd & [d Hc]).
  destruct (digit_char_plain c d Hc) as (Hplus & Hminus & Hsp).
  rewrite Hd in *. unfold cast_integer. cbn [skip_spaces]. rewrite Hsp.
  rewrite !bool_decide_false by done.
  rewrite (digits_prefix_all _ _ _ Ha). unfold clamp_i64, i64_min, i64_max in *. lia.
Qed.

#[export] Instance dec_inj : Inj (=) (=) dec.
Proof. intros a b. apply (inj pretty). Qed.

(** ** The text order of timestamps

    Several statements compare timestamps as TEXT ([expires_at <= ?2]) and
    others as integers. The two agree on numerals of equal length. *)

Lemma digit_value_range c d : digit_value c = Some d ->
  (0 <= d <= 9)%Z /\ Z.of_N (Ascii.N_of_ascii c) = (d + 48)%Z.
Proof.
  unfold digit_value. case_match eqn:Hr; [|done]. intros [= <-].
  apply andb_true_iff in Hr as [H1%Z.leb_le H2%Z.leb_le]. lia.
Qed.

Lemma all_digits_bounds acc s n :
  all_digits acc s = Some n ->
  (acc * 10 ^ Z.of_nat (String.length s) <= n
   < (acc + 1) * 10 ^ Z.of_nat (String.length s))%Z.
Proof.
  revert acc. induction s as [|c s IH]; intros acc; simpl String.length; cbn [all_digits].
  - intros [= ->]. simpl. lia.
  - destruct (digit_value c) as [d|] eqn:Hc; [|done]. intros Hn%IH.
    apply digit_value_range in Hc as [Hd _].
    rewrite Nat2Z.inj_succ, Z.pow_succ_r by lia.
    assert (0 < 10 ^ Z.of_nat (String.length s))%Z by (apply Z.pow_pos_nonneg; lia).
    nia.
Qed.

Lemma text_leb_digits acc a b m n :
  String.length a = String.length b ->
  all_digits acc a = Some m -> all_digits acc b = Some n ->
  text_leb a b = (m <=? n)%Z.
Proof.
  revert acc b. induction a as [|x a IH]; intros acc [|y b] Hlen; try done.
  - simpl. intros [= ->] [= ->]. symmetry. apply Z.leb_refl.
  - cbn [all_digits text_leb]. injection Hlen as Hlen.
    destruct (digit_value x) as [dx|] eqn:Hx; [|done].
    destruct (digit_value y) as [dy|] eqn:Hy; [|done]. intros Hm Hn.
    pose proof (digit_value_range _ _ Hx) as [Hdx Hax].
    pose proof (digit_value_range _ _ Hy) as [Hdy Hay].
    pose proof (all_digits_bounds _ _ _ Hm) as Bm.
    pose proof (all_digits_bounds _ _ _ Hn) as Bn. rewrite <- Hlen in Bn.
    assert (0 < 10 ^ Z.of_nat (String.length a))%Z by (apply Z.pow_pos_nonneg; lia).
    destruct (N.ltb_spec (Ascii.N_of_ascii x) (Ascii.N_of_ascii y)).
    + symmetry. apply Z.leb_le. nia.
    + destruct (N.ltb_spec (Ascii.N_of_ascii y) (Ascii.N_of_ascii x)).
      * symmetry. apply Z.leb_gt. nia.
      * assert (dx = dy) as -> by lia. by apply (IH (acc * 10 + dy)%Z).
Qed.

Lemma text_leb_dec (m n : Z) :
  (0 <= m)%Z -> (0 <= n)%Z -> String.length (dec m) = String.length (dec n) ->
  text_leb (dec m) (dec n) = (m <=? n)%Z.
Proof.
  intros Hm Hn Hlen. apply (text_leb_digits 0); auto using all_digits_dec.
Qed.

(** A positive numeral has no leading zero, so its length is its magnitude. *)
Lemma pretty_go_head (x : N) s :
  (0 < x)%N ->
  exists c r d, pretty_N_go x s = String c r /\ digit_value c = Some d /\ (0 < d)%Z.
Proof.
  revert s. induction (N.lt_wf_0 x) as [x _ IH]; intros s Hx.
  rewrite pretty_N_go_step by done.
  assert (Hmod : (x `mod` 10 < 10)%N) by (by apply N.mod_lt).
  assert (Hdiv : (x = 10 * (x `div` 10) + x `mod` 10)%N) by (by apply N.div_mod).
  destruct (decide (x `div` 10 = 0)%N) as [Hz|Hnz].
  - rewrite Hz, pretty_N_go_0. eexists _, _, _. split; [done|].
    rewrite digit_value_pretty by done. split; [done|lia].
  - apply IH; [apply N.div_lt|]; lia.
Qed.

Lemma dec_magnitude (n : Z) (k : nat) :
  (10 ^ Z.of_nat k <= n < 10 ^ Z.of_nat (S k))%Z -> String.length (dec n) = S k.
Proof.
  intros Hn. assert (0 < 10 ^ Z.of_nat k)%Z by (apply Z.pow_pos_nonneg; lia).
  pose proof (all_digits_dec n ltac:(lia)) as Ha.
  pose proof (all_digits_bounds _ _ _ Ha) as [_ Hup]. destruct n as [|p|p]; [lia| |lia].
  unfold dec in *. change (pretty (Z.pos p)) with (pretty_N_go (N.pos p) "") in *.
  destruct (pretty_go_head (N.pos p) "" ltac:(lia)) as (c & r & d & Hs & Hc & Hd).
  rewrite Hs in *. simpl in Ha. rewrite Hc in Ha.
  pose proof (all_digits_bounds _ _ _ Ha) as [Hlow _]. simpl String.length in *.
  assert (10 ^ Z.of_nat (String.length r) < 10 ^ Z.of_nat (S k))%Z as Hlt by nia.
  apply Z.pow_lt_mono_r_iff in Hlt; [|lia..].
  assert (10 ^ Z.of_nat k < 10 ^ Z.of_nat (S (String.length r)))%Z as Hlt2 by lia.
  apply Z.pow_lt_mono_r_iff in Hlt2; lia.
Qed.

#[global] Arguments text_leb : simpl never.

(** An update that keeps a column keeps it in every row. *)
Lemma sql_update_keeps {K V A} `{Countable K} (c : V -> A) (k k' : K) p f (t t' : gmap K V) n :
  sql_update k p f t = (t', n) -> (forall v, c (f v) = c v) -> c <$> t' !! k' = c <$> t !! k'.
Proof.
  intros Hu Hc. replace t' with (sql_update k p f t).1 by (by rewrite Hu).
  rewrite lookup_sql_update. destruct (t !! k'); simpl; [|done].
  case_match; [by rewrite Hc|done].
Qed.

(** Statements that match no row, or exactly the row of the key. *)
Lemma sql_delete_none {K V} `{Countable K} (k : K) p (t : gmap K V) :
  (forall v, t !! k = Some v -> p v = false) -> sql_delete k p t = (t, 0%Z).
Proof.
  intros Hp. unfold sql_delete. destruct (t !! k) as [v|] eqn:Hv; [|done]. by rewrite Hp.
Qed.

Lemma sql_update_none {K V} `{Countable K} (k : K) p f (t : gmap K V) :
  (forall v, t !! k = Some v -> p v = false) -> sql_update k p f t = (t, 0%Z).
Proof.
  intros Hp. unfold sql_update. destruct (t !! k) as [v|] eqn:Hv; [|done]. by rewrite Hp.
Qed.

Lemma sql_update_one {K V} `{Countable K} (k : K) p f (t t' : gmap K V) :
  sql_update k p f t = (t', 1%Z) ->
  exists v, t !! k = Some v /\ p v = true /\ t' = <[k := f v]> t.
Proof.
  unfold sql_update. destruct (t !! k) as [v|]; [|by intros [=]].
  destruct (p v) eqn:Hp; intros [= <-]. eauto.
Qed.
