(* ===== verification/AgentTypes.v ===== *)
(** The closed vocabularies of the agent registry (src/agent.rs,
    src/session_control.rs): Git modes, Git finalization states, session
    control states and interactive guardian holders, with their database
    encodings. *)
From S2P Require Import Prelude Sql.

(** ** Git modes *)

Inductive AgentGitMode := GitOff | GitCommit | GitCommitAndPush.
#[export] Instance AgentGitMode_eq_dec : EqDecision AgentGitMode.
Proof. solve_decision. Defined.

Module GitMode.
Definition next (m : AgentGitMode) : AgentGitMode :=
  match m with
  | GitOff => GitCommit
  | GitCommit => GitCommitAndPush
  | GitCommitAndPush => GitOff
  end.

Definition database_value (m : AgentGitMode) : string :=
  match m with
  | GitOff => "off"
  | GitCommit => "commit"
  | GitCommitAndPush => "commit-and-push"
  end.

Definition from_database (value : string) : option AgentGitMode :=
  if value == "off" then Some GitOff
  else if value == "commit" then Some GitCommit
  else if value == "commit-and-push" then Some GitCommitAndPush
  else None.

Definition label (m : AgentGitMode) : string :=
  match m with
  | GitOff => "off"
  | GitCommit => "commit"
  | GitCommitAndPush => "commit & push"
  end.

Definition tui_label (m : AgentGitMode) : string :=
  match m with
  | GitOff => "OFF"
  | GitCommit => "COM"
  | GitCommitAndPush => "PUSH"
  end.
End GitMode.

(** ** Git finalization journals *)

Inductive GitFinalizationState :=
| Working | Tracking | CommitPending | PushPending | Completed | Cancelled.
#[export] Instance GitFinalizationState_eq_dec : EqDecision GitFinalizationState.
Proof. solve_decision. Defined.

Module Finalization.
Definition database_value (s : GitFinalizationState) : string :=
  match s with
  | Working => "working"
  | Tracking => "tracking"
  | CommitPending => "commit_pending"
  | PushPending => "push_pending"
  | Completed => "completed"
  | Cancelled => "cancelled"
  end.

Definition from_database (value : string) : option GitFinalizationState :=
  if value == "working" then Some Working
  else if value == "tracking" then Some Tracking
  else if value == "commit_pending" then Some CommitPending
  else if value == "push_pending" then Some PushPending
  else if value == "completed" then Some Completed
  else if value == "cancelled" then Some Cancelled
  else None.

Definition is_terminal (s : GitFinalizationState) : bool :=
  match s with Completed | Cancelled => true | _ => false end.

Definition is_finalizing (s : GitFinalizationState) : bool :=
  match s with Tracking | CommitPending | PushPending => true | _ => false end.

Definition status_label (s : GitFinalizationState) : string :=
  match s with
  | Working => "WORKING"
  | Tracking | CommitPending => "FINALIZING"
  | PushPending => "PUSH-PENDING"
  | Completed => "DONE"
  | Cancelled => "CANCELLED"
  end.

Definition can_transition_to (s next : GitFinalizationState) : bool :=
  match s with
  | Working => match next with Working | Tracking | Cancelled => true | _ => false end
  | Tracking => match next with Tracking | CommitPending => true | _ => false end
  | CommitPending =>
      match next with CommitPending | PushPending | Completed => true | _ => false end
  | PushPending => match next with PushPending | Completed => true | _ => false end
  | Completed | Cancelled => false
  end.

(** Position along the finalization path; the two terminal states are last. *)
Definition rank (s : GitFinalizationState) : nat :=
  match s with
  | Working => 0 | Tracking => 1 | CommitPending => 2 | PushPending => 3
  | Completed | Cancelled => 4
  end.

Lemma can_transition_rank s s' : can_transition_to s s' = true -> rank s <= rank s'.
Proof. destruct s, s'; simpl; intros; first [done | lia]. Qed.

Lemma terminal_is_final s s' : is_terminal s = true -> can_transition_to s s' = false.
Proof. by destruct s. Qed.
End Finalization.

(** ** Session controls *)

Inductive AgentSessionControlAction := ActStop | ActInterrupt.
#[export] Instance AgentSessionControlAction_eq_dec : EqDecision AgentSessionControlAction.
Proof. solve_decision. Defined.

Inductive AgentSessionControlState :=
| Running | StopRequested | Stopped | InterruptRequested
| ReadyInteractive | Interactive | ResumeRequested.
#[export] Instance AgentSessionControlState_eq_dec : EqDecision AgentSessionControlState.
Proof. solve_decision. Defined.

Module Control.
Definition database_value (s : AgentSessionControlState) : string :=
  match s with
  | Running => "running"
  | StopRequested => "stop_requested"
  | Stopped => "stopped"
  | InterruptRequested => "interrupt_requested"
  | ReadyInteractive => "ready_interactive"
  | Interactive => "interactive"
  | ResumeRequested => "resume_requested"
  end.

Definition from_database (value : string) : option AgentSessionControlState :=
  if value == "running" then Some Running
  else if value == "stop_requested" then Some StopRequested
  else if value == "stopped" then Some Stopped
  else if value == "interrupt_requested" then Some InterruptRequested
  else if value == "ready_interactive" then Some ReadyInteractive
  else if value == "interactive" then Some Interactive
  else if value == "resume_requested" then Some ResumeRequested
  else None.

Definition requested_action (s : AgentSessionControlState)
  : option AgentSessionControlAction :=
  match s with
  | StopRequested => Some ActStop
  | InterruptRequested => Some ActInterrupt
  | _ => None
  end.
End Control.

(** ** Explicit cancellations of a managed task *)

Inductive GitTaskCancellation := ExternalCompletion | Deletion.
#[export] Instance GitTaskCancellation_eq_dec : EqDecision GitTaskCancellation.
Proof. solve_decision. Defined.

Definition AGENT_EXTERNAL_COMPLETION_REASON : string :=
  "Managed Git proof was cancelled because a user explicitly moved the task to Done as an external completion".
Definition AGENT_TASK_DELETION_REASON : string :=
  "Managed Git proof was cancelled because a user explicitly deleted the idle task".

Definition cancellation_reason (c : GitTaskCancellation) : string :=
  match c with
  | ExternalCompletion => AGENT_EXTERNAL_COMPLETION_REASON
  | Deletion => AGENT_TASK_DELETION_REASON
  end.

Definition AGENT_GIT_FINALIZATION_RESUME_TOKEN_PREFIX : string := "clt-git-finalization:".

(** [format!("{PREFIX}{generation}")], and [PREFIX || CAST(generation AS TEXT)]. *)
Definition recovery_token (generation : Z) : string :=
  AGENT_GIT_FINALIZATION_RESUME_TOKEN_PREFIX +:+ dec generation.

(** ** Interactive guardians *)

Inductive InteractiveCodexResumeMode := ModeResumeExec | WritableIdle | WritableShared.
#[export] Instance InteractiveCodexResumeMode_eq_dec : EqDecision InteractiveCodexResumeMode.
Proof. solve_decision. Defined.

Inductive InteractiveGuardianDisposition :=
| ResumeExec | PreserveIdleSession | RestoreStopped
| PreserveSharedSession | RestoreStoppedShared.
#[export] Instance InteractiveGuardianDisposition_eq_dec :
  EqDecision InteractiveGuardianDisposition.
Proof. solve_decision. Defined.

Definition is_stopped_shared_interactive_holder (holder : string) : bool :=
  starts_with "clt-stopped-shared-interactive-" holder
  || starts_with "clt-stopped-readonly-interactive-" holder.

(** [s.split('-').next()]: the text before the first dash. *)
Fixpoint before_dash (s : string) : string :=
  match s with
  | EmptyString => EmptyString
  | String c s' => if c == "-"%char then EmptyString else String c (before_dash s')
  end.

Module Guardian.
Definition from_handoff (mode : InteractiveCodexResumeMode) (from_holder : string)
  : InteractiveGuardianDisposition :=
  if mode == ModeResumeExec then ResumeExec
  else if mode == WritableShared then
    if is_stopped_shared_interactive_holder from_holder
    then RestoreStoppedShared else PreserveSharedSession
  else if starts_with "clt-stopped-interactive-" from_holder then RestoreStopped
  else PreserveIdleSession.

Definition holds_project_lease (d : InteractiveGuardianDisposition) : bool :=
  match d with
  | PreserveSharedSession | RestoreStoppedShared => false
  | _ => true
  end.

Definition guardian_holder_prefix (d : InteractiveGuardianDisposition) : string :=
  match d with
  | ResumeExec => "clt-interactive-worker"
  | PreserveIdleSession => "clt-idle-interactive-worker"
  | RestoreStopped => "clt-stopped-interactive-worker"
  | PreserveSharedSession => "clt-shared-interactive-worker"
  | RestoreStoppedShared => "clt-stopped-shared-interactive-worker"
  end.

Definition dispositions : list InteractiveGuardianDisposition :=
  [ResumeExec; PreserveIdleSession; RestoreStopped; PreserveSharedSession;
   RestoreStoppedShared].

Definition from_guardian_holder (holder : string)
  : option InteractiveGuardianDisposition :=
  if starts_with "clt-stopped-readonly-interactive-worker-" holder
  then Some RestoreStoppedShared
  else if starts_with "clt-readonly-interactive-worker-" holder
  then Some PreserveSharedSession
  else List.find (fun d => starts_with (guardian_holder_prefix d) holder) dispositions.

Definition guardian_process_id (holder : string) : option Z :=
  match from_guardian_holder holder with
  | None => None
  | Some disposition =>
      match strip_prefix (guardian_holder_prefix disposition) holder with
      | None => None
      | Some suffix =>
          match strip_prefix "-" suffix with
          | None => None
          | Some rest => parse_u32 (before_dash rest)
          end
      end
  end.

(** [local_process_is_running] is the operating system's answer. *)
Definition guardian_process_is_proven_dead
    (local_process_is_running : Z -> option bool) (holder : string) : bool :=
  match guardian_process_id holder with
  | Some pid => local_process_is_running pid == Some false
  | None => false
  end.

(** The holder a guardian of disposition [d] runs under. *)
Lemma from_guardian_holder_prefix d rest :
  from_guardian_holder (guardian_holder_prefix d +:+ rest) = Some d.
Proof. by destruct d. Qed.
End Guardian.
