(* ===== verification/Store.v ===== *)
(** The agent registry database (src/agent.rs, table definitions in
    [AGENT_MIGRATIONS] at schema version 20): one finite map per table, keyed by
    its primary key, and the transactions that update it.

    Columns with a closed vocabulary hold the enumeration whose
    [database_value] is stored; timestamps stay TEXT because some statements
    compare them as text. *)
From S2P Require Import Prelude Sql AgentTypes.

(** ** Rows *)

Record project_row := mkProject {
  p_path : string; p_name : string; p_enabled : bool; p_git_mode : AgentGitMode;
  p_codex_provider : option string; p_codex_model : option string;
  p_codex_reasoning_effort : option string; p_codex_fast_enabled : bool;
  p_last_scan_at : option string; p_last_daemon_scan_status : option string;
  p_last_daemon_scan_error : option string; p_last_run_at : option string;
  p_last_success_at : option string; p_last_failure_at : option string;
  p_last_blocked_recovery_at : option string; p_failure_count : Z;
  p_registered_at : string; p_updated_at : string
}.
#[export] Instance project_row_eta : Eta project_row := fun r =>
  mkProject (p_path r) (p_name r) (p_enabled r) (p_git_mode r) (p_codex_provider r)
    (p_codex_model r) (p_codex_reasoning_effort r) (p_codex_fast_enabled r)
    (p_last_scan_at r) (p_last_daemon_scan_status r) (p_last_daemon_scan_error r)
    (p_last_run_at r) (p_last_success_at r) (p_last_failure_at r)
    (p_last_blocked_recovery_at r) (p_failure_count r) (p_registered_at r) (p_updated_at r).

Record lease_row := mkLease { l_holder : string; l_acquired_at : string; l_expires_at : string }.
#[export] Instance lease_row_eta : Eta lease_row := fun r =>
  mkLease (l_holder r) (l_acquired_at r) (l_expires_at r).
#[export] Instance lease_row_eq_dec : EqDecision lease_row.
Proof. solve_decision. Defined.

Inductive worker_state :=
| Dispatching | WRunning | WFinalizing | WCompleted | Abandoned | Superseded.
#[export] Instance worker_state_eq_dec : EqDecision worker_state.
Proof. solve_decision. Defined.

(** [state IN ('dispatching', 'running', 'finalizing')]. *)
Definition worker_state_active (s : worker_state) : bool :=
  match s with Dispatching | WRunning | WFinalizing => true | _ => false end.

Module WorkerState.
Definition database_value (s : worker_state) : string :=
  match s with
  | Dispatching => "dispatching"
  | WRunning => "running"
  | WFinalizing => "finalizing"
  | WCompleted => "completed"
  | Abandoned => "abandoned"
  | Superseded => "superseded"
  end.

#[export] Instance database_value_inj : Inj (=) (=) database_value.
Proof. by intros [] []. Qed.
End WorkerState.

Record worker_row := mkWorker {
  w_project_id : Z; w_state : worker_state; w_protocol_version : Z;
  w_lease_holder : string; w_service_label : string; w_binary_path : string;
  w_command_arguments : string; w_path_env : string; w_codex_path : option string;
  w_task_selection : string; w_resume_session_id : option string;
  w_worker_pid : option Z; w_created_at : string; w_started_at : option string;
  w_heartbeat_at : option string; w_finished_at : option string;
  w_run_id : option Z; w_error : option string; w_service_cleaned_at : option string
}.
#[export] Instance worker_row_eta : Eta worker_row := fun r =>
  mkWorker (w_project_id r) (w_state r) (w_protocol_version r) (w_lease_holder r)
    (w_service_label r) (w_binary_path r) (w_command_arguments r) (w_path_env r)
    (w_codex_path r) (w_task_selection r) (w_resume_session_id r) (w_worker_pid r)
    (w_created_at r) (w_started_at r) (w_heartbeat_at r) (w_finished_at r) (w_run_id r)
    (w_error r) (w_service_cleaned_at r).

Record control_row := mkControl {
  sc_state : AgentSessionControlState; sc_child_pid : option Z;
  sc_run_token : option string; sc_interactive_holder : option string;
  sc_interactive_launch_token : option string; sc_stdout_path : option string;
  sc_stderr_path : option string; sc_updated_at : string
}.
#[export] Instance control_row_eta : Eta control_row := fun r =>
  mkControl (sc_state r) (sc_child_pid r) (sc_run_token r) (sc_interactive_holder r)
    (sc_interactive_launch_token r) (sc_stdout_path r) (sc_stderr_path r) (sc_updated_at r).
#[export] Instance control_row_eq_dec : EqDecision control_row.
Proof. solve_decision. Defined.

Record run_row := mkRun {
  r_project_id : Z; r_status : string; r_started_at : string;
  r_finished_at : option string; r_exit_code : option Z; r_log_dir : option string;
  r_stdout_path : option string; r_stderr_path : option string;
  r_summary : option string; r_codex_session_id : option string;
  r_worker_token : option string
}.
#[export] Instance run_row_eq_dec : EqDecision run_row.
Proof. solve_decision. Defined.

Record journal_row := mkJournal {
  g_state : GitFinalizationState; g_git_mode : AgentGitMode;
  g_starting_head : option string; g_branch_ref : option string;
  g_upstream_ref : option string; g_worktree_baseline : string;
  g_task_identity : option string; g_owner_run_token : option string;
  g_commit_oid : option string; g_generation : Z; g_last_error : option string;
  g_created_at : string; g_updated_at : string; g_completed_at : option string;
  g_acknowledged_at : option string; g_acknowledged_run_id : option Z
}.
#[export] Instance journal_row_eta : Eta journal_row := fun r =>
  mkJournal (g_state r) (g_git_mode r) (g_starting_head r) (g_branch_ref r)
    (g_upstream_ref r) (g_worktree_baseline r) (g_task_identity r) (g_owner_run_token r)
    (g_commit_oid r) (g_generation r) (g_last_error r) (g_created_at r) (g_updated_at r)
    (g_completed_at r) (g_acknowledged_at r) (g_acknowledged_run_id r).
#[export] Instance journal_row_eq_dec : EqDecision journal_row.
Proof. solve_decision. Defined.

Record launch_row := mkLaunch {
  a_git_mode : AgentGitMode; a_starting_head : string; a_branch_ref : option string;
  a_upstream_ref : option string; a_worktree_baseline : string; a_created_at : string
}.
#[export] Instance launch_row_eq_dec : EqDecision launch_row.
Proof. solve_decision. Defined.

Record checkin_row := mkCheckin {
  ci_mode : string; ci_started_at : string; ci_checked_in_at : string; ci_expires_at : string
}.

(** The time stamps of the following tables are never read and left out. *)
Record provider_row := mkProvider {
  mp_name : string; mp_base_url : option string; mp_env_key : option string;
  mp_api_key : option string; mp_built_in : bool; mp_enabled : bool
}.
#[export] Instance provider_row_eta : Eta provider_row := fun r =>
  mkProvider (mp_name r) (mp_base_url r) (mp_env_key r) (mp_api_key r) (mp_built_in r)
    (mp_enabled r).

Record target_row := mkTarget {
  mt_label : string; mt_enabled : bool; mt_favorite : bool; mt_reasoning_effort : option string
}.
#[export] Instance target_row_eta : Eta target_row := fun r =>
  mkTarget (mt_label r) (mt_enabled r) (mt_favorite r) (mt_reasoning_effort r).

(** The columns [supervisor_settings] and [record] hold the JSON of these
    records, which serde reads back as it wrote it (src/supervisor.rs). *)
Record SupervisorSettings := mkSupervisorSettings {
  ss_enabled : bool; ss_provider : option string; ss_model : option string;
  ss_thinking : option string; ss_fast : bool
}.

Inductive DecisionKind := Retry | Wait | User | Replan | Repair.
#[export] Instance DecisionKind_eq_dec : EqDecision DecisionKind.
Proof. solve_decision. Defined.

Record Decision := mkDecision {
  de_decision : DecisionKind; de_task : N; de_reason : string; de_next_action : string
}.
#[export] Instance Decision_eq_dec : EqDecision Decision.
Proof. solve_decision. Defined.

Record SupervisorReview := mkReview {
  rv_evidence : string; rv_state : string; rv_attempts : N; rv_retries : N;
  rv_decision : option Decision; rv_retry_session : option string; rv_error : option string
}.
#[export] Instance SupervisorReview_eta : Eta SupervisorReview := fun r =>
  mkReview (rv_evidence r) (rv_state r) (rv_attempts r) (rv_retries r) (rv_decision r)
    (rv_retry_session r) (rv_error r).
#[export] Instance SupervisorReview_eq_dec : EqDecision SupervisorReview.
Proof. solve_decision. Defined.

Record settings_row := mkSettings {
  as_default_provider : option string; as_default_model : option string;
  as_supervisor_settings : option SupervisorSettings
}.
#[export] Instance settings_row_eta : Eta settings_row := fun r =>
  mkSettings (as_default_provider r) (as_default_model r) (as_supervisor_settings r).

(** ** The database *)

Record db := mkDb {
  projects : gmap Z project_row;
  leases : gmap Z lease_row;
  agent_workers : gmap string worker_row;
  session_controls : gmap (Z * string) control_row;
  runs : gmap Z run_row;
  git_finalizations : gmap (Z * string) journal_row;
  agent_git_launch_states : gmap (Z * string) launch_row;
  session_git_modes : gmap (Z * string) AgentGitMode;
  daemon_checkins : gmap string checkin_row;
  model_providers : gmap string provider_row;
  model_targets : gmap (string * string) target_row;
  agent_settings : gmap Z settings_row;
  supervisor_reviews : gmap Z SupervisorReview
}.
#[export] Instance db_eta : Eta db := fun d =>
  mkDb (projects d) (leases d) (agent_workers d) (session_controls d) (runs d)
    (git_finalizations d) (agent_git_launch_states d) (session_git_modes d)
    (daemon_checkins d) (model_providers d) (model_targets d) (agent_settings d)
    (supervisor_reviews d).

(** What the migrations put into the tables. *)
Definition built_in_providers : gmap string provider_row :=
  {[ "openai" := mkProvider "OpenAI" None (Some "OPENAI_API_KEY") None true true ]}.

Definition built_in_targets : gmap (string * string) target_row :=
  list_to_map ((fun x => (("openai", x.1.1), mkTarget x.1.2 true x.2 None)) <$>
    [("gpt-5.6-sol", "GPT-5.6 Sol", true); ("gpt-5.6-terra", "GPT-5.6 Terra", true);
     ("gpt-5.6-luna", "GPT-5.6 Luna", false); ("gpt-5.5", "GPT-5.5", false);
     ("gpt-5.4", "GPT-5.4", false); ("gpt-5.3-codex-spark", "GPT-5.3 Codex Spark", false)]).

Definition empty_db : db :=
  mkDb ∅ ∅ ∅ ∅ ∅ ∅ ∅ ∅ ∅ built_in_providers built_in_targets
    {[ 1%Z := mkSettings None None None ]} ∅.

(** ** Transactions

    A transaction that returns before [commit] is rolled back when its handle
    is dropped; an error does the same. *)

Inductive store_error :=
| ForeignKeyViolation
| UniqueViolation
| WorkerGenerationLost
| DifferentRunGeneration
| GitModeImmutable
| ManagedGitEvidence
| NoCompatibleLaunchState
| LaunchStateLost
| SessionChangedDuringHandoff
| InvalidGuardianHolder
| CompletedWorkerWithoutRun
| QueryReturnedNoRows
| GitModeOff
| OtherLaunchBoundary
| DifferentLaunchBoundary
| EmptySessionId
| OwnerTokenRequired
| InvalidTransition (from to : GitFinalizationState)
| PushModeRequired
| TaskIdentityChanged
| TaskIdentityMissing
| CommitOidChanged
| CommitOidMissing
| CompletionBeforeStep
| GenerationOverflow
| AcknowledgementChanged
| HistoryInUse
| ProjectBusy
| WorkersActive (n : Z)
| LeaseActive
| MigrationPending
| MaxWorkersOutOfRange
| PidOutOfRange
| LatestRunChanged
| RecoveryRecordChanged
| RecoveryNotIdle
| WriterConflictChanged
| StaleActivationChanged
| FailedActivationChanged
| SessionStoppedBeforeRecovery
| RecoveryLostReservation
| IncompleteBoundary
| ActiveWorkerOwnsTask
| SessionStillActive
| ManyLaunchBoundaries
| IntentRequiresOwner.
#[export] Instance store_error_eq_dec : EqDecision store_error.
Proof. solve_decision. Defined.

Inductive txn (A : Type) :=
| Commit (a : A) (d : db)
| Rollback (r : res store_error A).
Arguments Commit {A} a d.
Arguments Rollback {A} r.

(** An operation of the store: its result and the database after it. *)
Definition store_op (A : Type) := db -> res store_error A * db.

Definition transaction {A} (body : db -> txn A) : store_op A := fun d =>
  match body d with
  | Commit a d' => (Ok a, d')
  | Rollback r => (r, d)
  end.

(** Statements executed outside a transaction commit one by one. *)
Definition autocommit {A} (body : db -> res store_error (A * db)) : store_op A := fun d =>
  match body d with
  | Ok (a, d') => (Ok a, d')
  | Err e => (Err e, d)
  end.

(** [?] inside a transaction: an error returns before the commit. *)
Definition txn_try {A B} (r : res store_error A) (k : A -> txn B) : txn B :=
  match r with
  | Ok a => k a
  | Err e => Rollback (Err e)
  end.

Notation "'try' x ':=' c 'in' k" := (txn_try c (fun x => k))
  (at level 10, x pattern, c at level 200, k at level 200) : clt_scope.

(** [if !guard { return Ok(v) }] inside a transaction. *)
Notation "'require' g 'else' v ; k" := (if g then k else Rollback (Ok v))
  (at level 10, g at level 200, v at level 200, k at level 200) : clt_scope.

Lemma transaction_rollback {A} (body : db -> txn A) d r :
  body d = Rollback r -> transaction body d = (r, d).
Proof. unfold transaction. by intros ->. Qed.

(** ** Conditions shared by the repositories *)

(** [EXISTS (SELECT 1 FROM agent_workers WHERE project_id = ?
    AND state IN ('dispatching', 'running', 'finalizing'))]. *)
Definition has_active_worker (d : db) (pid : Z) : bool :=
  sql_exists (fun _ w => (w_project_id w == pid) && worker_state_active (w_state w))
    (agent_workers d).

Definition any_active_worker (d : db) : bool :=
  sql_exists (fun _ w => worker_state_active (w_state w)) (agent_workers d).

(** [EXISTS (SELECT 1 FROM leases WHERE project_id = ? AND holder = ?)]. *)
Definition lease_held_by (d : db) (pid : Z) (holder : string) : bool :=
  match leases d !! pid with
  | Some l => l_holder l == holder
  | None => false
  end.

(** [CAST(expires_at AS INTEGER) > CAST(now AS INTEGER)]. *)
Definition lease_live (l : lease_row) (now : string) : bool :=
  (cast_integer now <? cast_integer (l_expires_at l))%Z.

Definition has_live_lease (d : db) (pid : Z) (now : string) : bool :=
  match leases d !! pid with
  | Some l => lease_live l now
  | None => false
  end.

(** [JOIN leases l ON l.project_id = w.project_id AND l.holder = w.lease_holder]. *)
Definition worker_owns_lease (d : db) (w : worker_row) : bool :=
  lease_held_by d (w_project_id w) (w_lease_holder w).

(** [state IN ('working', 'tracking', 'commit_pending', 'push_pending')]. *)
Definition journal_pending (g : journal_row) : bool :=
  negb (Finalization.is_terminal (g_state g)).

Definition project_exists (d : db) (pid : Z) : bool :=
  match projects d !! pid with Some _ => true | None => false end.

Definition worker_lease_holder (worker_token : string) : string :=
  "clt-worker-" +:+ worker_token.

(** ** Run outcomes *)

Record AgentRunOutcome := mkOutcome {
  o_project_id : Z; o_status : string; o_started_at : string;
  o_finished_at : option string; o_exit_code : option Z; o_log_dir : option string;
  o_stdout_path : option string; o_stderr_path : option string;
  o_summary : option string; o_codex_session_id : option string
}.

Definition run_of_outcome (o : AgentRunOutcome) (worker_token : option string) : run_row :=
  mkRun (o_project_id o) (o_status o) (o_started_at o) (o_finished_at o) (o_exit_code o)
    (o_log_dir o) (o_stdout_path o) (o_stderr_path o) (o_summary o)
    (o_codex_session_id o) worker_token.

(** The columns the outcome's status sets. *)
Definition project_after_run (o : AgentRunOutcome) (p : project_row) : project_row :=
  let finished_at := default (o_started_at o) (o_finished_at o) in
  let status := o_status o in
  if (status == "success") || (status == "idle") then
    p <| p_last_run_at := Some finished_at |>
      <| p_last_success_at := Some finished_at |>
      <| p_last_failure_at := None |>
      <| p_last_blocked_recovery_at := None |>
      <| p_failure_count := 0%Z |>
      <| p_updated_at := finished_at |>
  else if status == "blocked" then
    p <| p_last_run_at := Some finished_at |>
      <| p_last_blocked_recovery_at := Some finished_at |>
      <| p_updated_at := finished_at |>
  else if (status == "failure") || (status == "timeout") then
    p <| p_last_run_at := Some finished_at |>
      <| p_last_failure_at := Some finished_at |>
      <| p_failure_count := (p_failure_count p + 1)%Z |>
      <| p_updated_at := finished_at |>
  else
    p <| p_last_run_at := Some finished_at |>
      <| p_updated_at := finished_at |>.

Definition update_project_after_run (o : AgentRunOutcome) (d : db) : db :=
  d <| projects :=
    (sql_update (o_project_id o) (fun _ => true) (project_after_run o) (projects d)).1 |>.
