(* ===== verification/Leases.v ===== *)
(** Project leases (src/agent/repositories/workers_leases.rs, first half):
    acquisition, renewal and release, and the guarded leases of the Git
    finalizer. *)
From S2P Require Import Prelude Sql AgentTypes Store.

(** ** The finalizer's condition on session controls

    [GIT_FINALIZATION_NONBLOCKING_CONTROL], in three-valued logic because the
    statements negate it over nullable columns. *)

Definition nonblocking_stopped (sc : control_row) : tri :=
  Some (sc_state sc == Stopped).

Definition nonblocking_recovery (d : db) (k : Z * string) (sc : control_row) : tri :=
  tri_and (Some (sc_state sc == ResumeRequested))
  (tri_and (tri_is_null (sc_child_pid sc))
  (tri_and (tri_is_null (sc_interactive_holder sc))
  (tri_and (tri_is_null (sc_interactive_launch_token sc))
    (Some (match git_finalizations d !! k with
           | Some g => journal_pending g
                       && sql_eq (sc_run_token sc) (Some (recovery_token (g_generation g)))
           | None => false
           end))))).

Definition nonblocking_shared (d : db) (k : Z * string) (sc : control_row) : tri :=
  tri_and (Some (bool_decide (sc_state sc ∈ [ReadyInteractive; Interactive; StopRequested])))
  (tri_and (tri_is_not_null (sc_interactive_holder sc))
  (tri_and
    (tri_or (tri_like_prefix (sc_interactive_holder sc) "clt-shared-interactive-")
    (tri_or (tri_like_prefix (sc_interactive_holder sc) "clt-stopped-shared-interactive-")
    (tri_or (tri_like_prefix (sc_interactive_holder sc) "clt-readonly-interactive-")
            (tri_like_prefix (sc_interactive_holder sc) "clt-stopped-readonly-interactive-"))))
  (tri_and
    (tri_or
      (tri_and (Some (sc_state sc == ReadyInteractive))
        (tri_and (tri_is_null (sc_child_pid sc)) (tri_is_null (sc_interactive_launch_token sc))))
      (tri_and (Some (bool_decide (sc_state sc ∈ [Interactive; StopRequested])))
        (tri_and (tri_is_not_null (sc_interactive_launch_token sc))
          (tri_eq (sc_interactive_launch_token sc) (sc_interactive_holder sc)))))
    (Some (match git_finalizations d !! k with
           | Some g => Finalization.is_terminal (g_state g)
           | None => true
           end))))).

Definition GIT_FINALIZATION_NONBLOCKING_CONTROL
    (d : db) (k : Z * string) (sc : control_row) : tri :=
  tri_or (nonblocking_stopped sc)
    (tri_or (nonblocking_recovery d k sc) (nonblocking_shared d k sc)).

(** [NOT EXISTS (SELECT 1 FROM session_controls sc WHERE sc.project_id = ?
    AND NOT (..))]. *)
Definition controls_allow_finalization (d : db) (pid : Z) : bool :=
  negb (sql_exists
    (fun k sc => (k.1 == pid)
                 && sql_holds (tri_not (GIT_FINALIZATION_NONBLOCKING_CONTROL d k sc)))
    (session_controls d)).

Definition project_has_pending_journal (d : db) (pid : Z) : bool :=
  sql_exists (fun k g => (k.1 == pid) && journal_pending g) (git_finalizations d).

(** ** Statements on the lease table *)

Definition insert_lease_or_ignore (pid : Z) (l : lease_row) (d : db)
  : res store_error (Z * db) :=
  match leases d !! pid with
  | Some _ => Ok (0%Z, d)
  | None =>
      if project_exists d pid
      then Ok (1%Z, d <| leases := <[pid := l]> (leases d) |>)
      else Err ForeignKeyViolation
  end.

(** The first statement of [try_acquire_lease]: an expired lease goes, unless a
    replacement supervisor holds it or an unfinished worker owns it. The
    expiry test compares TEXT. *)
Definition expired_lease_clearable (d : db) (pid : Z) (now : string) (l : lease_row) : bool :=
  text_leb (l_expires_at l) now
  && negb (like_prefix "clt-reattached-" (l_holder l))
  && negb (sql_exists
       (fun _ w => (w_project_id w == pid) && (w_lease_holder w == l_holder l)
                   && worker_state_active (w_state w)) (agent_workers d)).

Definition clear_expired_lease (pid : Z) (now : string) (d : db) : db :=
  d <| leases := (sql_delete pid (expired_lease_clearable d pid now) (leases d)).1 |>.

Definition try_acquire_lease (pid : Z) (holder acquired_at expires_at : string)
  : store_op bool := fun d =>
  let d1 := clear_expired_lease pid acquired_at d in
  match insert_lease_or_ignore pid (mkLease holder acquired_at expires_at) d1 with
  | Ok (inserted, d2) => (Ok (0 <? inserted)%Z, d2)
  | Err e => (Err e, d1)
  end.

(** ** The finalizer's lease *)

(** Repair of stale recovery fences: an idle queued resume of an unfinished
    journal is tagged with the journal's current generation. *)
Definition stale_recovery_fence (d : db) (pid : Z) (k : Z * string) (sc : control_row) : bool :=
  (k.1 == pid) && (sc_state sc == ResumeRequested)
  && is_null (sc_child_pid sc) && is_null (sc_interactive_holder sc)
  && is_null (sc_interactive_launch_token sc)
  && sql_like_prefix AGENT_GIT_FINALIZATION_RESUME_TOKEN_PREFIX (sc_run_token sc)
  && match git_finalizations d !! k with Some g => journal_pending g | None => false end.

Definition pending_generation (d : db) (k : Z * string) : option Z :=
  match git_finalizations d !! k with
  | Some g => if journal_pending g then Some (g_generation g) else None
  | None => None
  end.

Definition repair_recovery_fences (pid : Z) (now : string) (d : db) : db :=
  d <| session_controls :=
    (sql_update_where (stale_recovery_fence d pid)
       (fun k sc => sc <| sc_run_token := recovery_token <$> pending_generation d k |>
                       <| sc_updated_at := now |>)
       (session_controls d)).1 |>.

Definition finalizer_may_clear (d : db) (pid : Z) (now : string)
    (reclaim_holder : option string) (l : lease_row) : bool :=
  ((negb (like_prefix "clt-reattached-" (l_holder l))
    && (cast_integer (l_expires_at l) <=? cast_integer now)%Z)
   || match reclaim_holder with Some h => l_holder l == h | None => false end)
  && negb (has_active_worker d pid)
  && controls_allow_finalization d pid.

Definition try_acquire_git_finalization_lease
    (pid : Z) (holder acquired_at expires_at : string) (reclaim_holder : option string)
  : store_op bool :=
  transaction (fun d =>
    let d := repair_recovery_fences pid acquired_at d in
    let d := d <| leases :=
      (sql_delete pid (finalizer_may_clear d pid acquired_at reclaim_holder) (leases d)).1 |> in
    if project_has_pending_journal d pid
       && negb (has_active_worker d pid)
       && controls_allow_finalization d pid
    then
      match insert_lease_or_ignore pid (mkLease holder acquired_at expires_at) d with
      | Ok (inserted, d) => Commit (inserted == 1%Z) d
      | Err e => Rollback (Err e)
      end
    else Commit false d).

Definition renew_git_finalization_lease (pid : Z) (holder expires_at : string)
  : store_op bool := fun d =>
  let '(ls, changed) :=
    sql_update pid
      (fun l => (l_holder l == holder) && negb (has_active_worker d pid)
                && controls_allow_finalization d pid)
      (fun l => l <| l_expires_at := expires_at |>) (leases d) in
  (Ok (changed == 1%Z), d <| leases := ls |>).

Definition git_finalization_lease_is_owned (pid : Z) (holder now : string) (d : db) : bool :=
  match leases d !! pid with
  | Some l => (l_holder l == holder) && lease_live l now
              && negb (has_active_worker d pid) && controls_allow_finalization d pid
  | None => false
  end.

(** ** Renewal and release by the exact holder *)

Definition renew_lease (pid : Z) (holder expires_at : string) : store_op bool := fun d =>
  let '(ls, changed) :=
    sql_update pid (fun l => l_holder l == holder)
      (fun l => l <| l_expires_at := expires_at |>) (leases d) in
  let d := d <| leases := ls |> in
  if (0 <? changed)%Z then (Ok true, d) else (Ok (lease_held_by d pid holder), d).

Definition release_lease (pid : Z) (holder : string) : store_op bool := fun d =>
  let '(ls, removed) := sql_delete pid (fun l => l_holder l == holder) (leases d) in
  (Ok (0 <? removed)%Z, d <| leases := ls |>).

(** ** Reads *)

Definition lease_for_project (pid : Z) (d : db)
  : option (Z * string * string * string * string * string) :=
  match leases d !! pid, projects d !! pid with
  | Some l, Some p =>
      Some (pid, p_name p, p_path p, l_holder l, l_acquired_at l, l_expires_at l)
  | _, _ => None
  end.

(** ** Lemmas *)

Lemma tri_and_total a b :
  (exists x, a = Some x) -> (a = Some true -> exists y, b = Some y) -> exists z, tri_and a b = Some z.
Proof. intros [[] ->] Hb; [destruct (Hb eq_refl) as [[] ->]|]; simpl; eauto. Qed.

Lemma tri_or_total a b :
  (exists x, a = Some x) -> (exists y, b = Some y) -> exists z, tri_or a b = Some z.
Proof. intros [[] ->] [[] ->]; simpl; eauto. Qed.

#[export] Hint Resolve tri_and_total tri_or_total : clt_tri.

Lemma nonblocking_control_total d k sc :
  exists b, GIT_FINALIZATION_NONBLOCKING_CONTROL d k sc = Some b.
Proof.
  apply tri_or_total; [unfold nonblocking_stopped; eauto|].
  apply tri_or_total; unfold nonblocking_recovery, nonblocking_shared.
  - repeat (apply tri_and_total; [unfold tri_is_null; eauto|intros _]). eauto.
  - apply tri_and_total; [eauto|intros _].
    destruct (sc_interactive_holder sc) as [h|]; [|by exists false].
    apply tri_and_total; [by exists true|intros _].
    apply tri_and_total; [repeat apply tri_or_total; by eexists|intros _].
    apply tri_and_total; [|intros _; by eexists].
    apply tri_or_total; (apply tri_and_total; [by eexists|intros _]).
    + apply tri_and_total; [by eexists|intros _; by eexists].
    + destruct (sc_interactive_launch_token sc) as [t|]; [|by exists false].
      apply tri_and_total; [by exists true|intros _; by eexists].
Qed.

(** A control does not block the finalizer exactly when it satisfies one of the
    three clauses. *)
Lemma controls_allow_spec d pid :
  controls_allow_finalization d pid = true <->
  forall sid sc, session_controls d !! (pid, sid) = Some sc ->
    GIT_FINALIZATION_NONBLOCKING_CONTROL d (pid, sid) sc = Some true.
Proof.
  unfold controls_allow_finalization. rewrite negb_true_iff, sql_exists_false. split.
  - intros Hf sid sc Hsc. specialize (Hf _ _ Hsc). cbn [fst] in Hf.
    rewrite bool_decide_true in Hf by done.
    destruct (nonblocking_control_total d (pid, sid) sc) as [[] Hb]; by rewrite Hb in Hf |- *.
  - intros Hf [p sid] sc Hsc. cbn [fst]. case_bool_decide as Hp; [subst|done].
    by rewrite (Hf _ _ Hsc).
Qed.

Lemma insert_lease_or_ignore_cases pid l d r :
  insert_lease_or_ignore pid l d = r ->
  (exists l0, leases d !! pid = Some l0 /\ r = Ok (0%Z, d)) \/
  (leases d !! pid = None /\ project_exists d pid = true
   /\ r = Ok (1%Z, d <| leases := <[pid := l]> (leases d) |>)) \/
  (leases d !! pid = None /\ project_exists d pid = false /\ r = Err ForeignKeyViolation).
Proof.
  unfold insert_lease_or_ignore. intros <-.
  destruct (leases d !! pid); [left; eauto|right].
  destruct (project_exists d pid); eauto.
Qed.

Lemma clear_expired_lease_lookup pid now d p :
  leases (clear_expired_lease pid now d) !! p =
    match leases d !! p with
    | Some l => if (p == pid) && expired_lease_clearable d pid now l then None else Some l
    | None => None
    end.
Proof. exact (lookup_sql_delete _ _ _ _). Qed.
