(* ===== verification/Workers.v ===== *)
(** Independent workers (src/agent/repositories/workers_leases.rs, second half):
    reservation, claim, heartbeat, abandonment and finalization of the worker
    that runs one task of a project under the project's lease. *)
From S2P Require Import Prelude Sql AgentTypes Store.

(** ** Statements *)

(** [INSERT OR IGNORE INTO agent_workers]: ignored when the token, the lease
    holder or the service label is taken, or the project already has an
    unfinished worker; a missing project is an error. *)
Definition worker_conflicts (token : string) (w : worker_row) (d : db) : bool :=
  match agent_workers d !! token with Some _ => true | None => false end
  || sql_exists (fun _ v => (w_lease_holder v == w_lease_holder w)
                            || (w_service_label v == w_service_label w)) (agent_workers d)
  || (worker_state_active (w_state w) && has_active_worker d (w_project_id w)).

Definition insert_worker_or_ignore (token : string) (w : worker_row) (d : db)
  : res store_error (Z * db) :=
  if worker_conflicts token w d then Ok (0%Z, d)
  else if project_exists d (w_project_id w)
  then Ok (1%Z, d <| agent_workers := <[token := w]> (agent_workers d) |>)
  else Err ForeignKeyViolation.

(** [INSERT OR IGNORE INTO runs] with a worker token; [Some id] is the
    [last_insert_rowid()] of an inserted row. *)
Definition run_of_token (token : string) (_ : Z) (r : run_row) : bool :=
  sql_eq (r_worker_token r) (Some token).

Definition insert_run_or_ignore (token : string) (r : run_row) (d : db)
  : res store_error (option Z * db) :=
  if sql_exists (run_of_token token) (runs d) then Ok (None, d)
  else if project_exists d (r_project_id r)
  then let id := next_rowid (runs d) in
       Ok (Some id, d <| runs := <[id := r]> (runs d) |>)
  else Err ForeignKeyViolation.

(** [SELECT id FROM runs WHERE worker_token = ?1 AND project_id = ?2]. *)
Definition run_id_of_token (token : string) (pid : Z) (d : db) : res store_error Z :=
  match List.find (fun kv => run_of_token token kv.1 kv.2 && (r_project_id kv.2 == pid))
          (map_to_list (runs d)) with
  | Some (id, _) => Ok id
  | None => Err QueryReturnedNoRows
  end.

(** Record the run of a finished worker once: a second attempt reuses the row. *)
Definition record_worker_run (token : string) (o : AgentRunOutcome) (d : db)
  : res store_error (Z * db) :=
  let? inserted := insert_run_or_ignore token (run_of_outcome o (Some token)) d in
  match inserted with
  | (Some id, d) => Ok (id, update_project_after_run o d)
  | (None, d) => let? id := run_id_of_token token (o_project_id o) d in Ok (id, d)
  end.

(** ** Reservation and claim *)

Record AgentWorkerReservation := mkReservation {
  res_project_id : Z; res_worker_token : string; res_expected_lease_holder : string;
  res_max_active_workers : Z; res_protocol_version : Z; res_service_label : string;
  res_binary_path : string; res_command_arguments : string; res_path_env : string;
  res_codex_path : option string; res_task_selection : string;
  res_resume_session_id : option string; res_created_at : string
}.

Definition reserved_worker (r : AgentWorkerReservation) : worker_row :=
  mkWorker (res_project_id r) Dispatching (res_protocol_version r)
    (worker_lease_holder (res_worker_token r)) (res_service_label r) (res_binary_path r)
    (res_command_arguments r) (res_path_env r) (res_codex_path r) (res_task_selection r)
    (res_resume_session_id r) None (res_created_at r) None (Some (res_created_at r))
    None None None None.

Definition active_worker_count (d : db) : Z :=
  sql_count (fun _ w => worker_state_active (w_state w)) (agent_workers d).

Definition supersede_other_abandoned (pid : Z) (token : string) (d : db) : db :=
  d <| agent_workers :=
    (sql_update_where
       (fun t w => (w_project_id w == pid) && (w_state w == Abandoned) && (t =! token))
       (fun _ w => w <| w_state := Superseded |>) (agent_workers d)).1 |>.

(** The claim statement shared by an inline reservation and [claim_worker]. *)
Definition claim_dispatching (token : string) (worker_pid : Z) (started_at : string) (d : db)
  : db * Z :=
  let '(ws, changed) :=
    sql_update token
      (fun w => (w_state w == Dispatching) && worker_owns_lease d w)
      (fun w => w <| w_state := WRunning |> <| w_worker_pid := Some worker_pid |>
                  <| w_started_at := Some started_at |>
                  <| w_heartbeat_at := Some started_at |> <| w_error := None |>)
      (agent_workers d) in
  (d <| agent_workers := ws |>, changed).

Definition reserve_worker (r : AgentWorkerReservation) (initial_claim : option (Z * string))
  : store_op bool :=
  transaction (fun d =>
    let token := res_worker_token r in
    let pid := res_project_id r in
    let max_active_workers := res_max_active_workers r in
    if (i64_max <? max_active_workers)%Z then Rollback (Err MaxWorkersOutOfRange) else
    require negb ((max_active_workers <=? 0)%Z
                  || (max_active_workers <=? active_worker_count d)%Z) else false;
    try (inserted, d) := insert_worker_or_ignore token (reserved_worker r) d in
    require inserted == 1%Z else false;
    let '(ls, transferred) :=
      sql_update pid (fun l => l_holder l == res_expected_lease_holder r)
        (fun l => l <| l_holder := worker_lease_holder token |>) (leases d) in
    let d := d <| leases := ls |> in
    require transferred == 1%Z else false;
    let d := supersede_other_abandoned pid token d in
    match initial_claim with
    | Some (worker_pid, started_at) =>
        let '(d, claimed) := claim_dispatching token worker_pid started_at d in
        require claimed == 1%Z else false;
        Commit true d
    | None => Commit true d
    end).

Definition already_claimed (token : string) (worker_pid : Z) (d : db) : bool :=
  match agent_workers d !! token with
  | Some w => worker_owns_lease d w && (w_state w == WRunning)
              && sql_eq (w_worker_pid w) (Some worker_pid)
  | None => false
  end.

Definition claim_worker (token : string) (worker_pid : Z) (started_at : string)
  : store_op bool :=
  transaction (fun d =>
    let '(d, changed) := claim_dispatching token worker_pid started_at d in
    if changed == 1%Z then Commit true d
    else Commit (already_claimed token worker_pid d) d).

(** ** Heartbeat *)

(** A statement affects one row when its key matches; the read-back of an
    unchanged row is the [||] branch of the code. *)
Definition renew_worker (token : string) (worker_pid : Z)
    (heartbeat_at lease_expires_at : string) : store_op bool :=
  transaction (fun d =>
    match agent_workers d !! token with
    | None => Rollback (Ok false)
    | Some w =>
        require worker_owns_lease d w && (w_state w == WRunning)
                && sql_eq (w_worker_pid w) (Some worker_pid) else false;
        let project_id := w_project_id w in
        let lease_holder := w_lease_holder w in
        let running := fun w => (w_state w == WRunning)
                                && sql_eq (w_worker_pid w) (Some worker_pid) in
        let '(ws, worker_changed) :=
          sql_update token running (fun w => w <| w_heartbeat_at := Some heartbeat_at |>)
            (agent_workers d) in
        let d := d <| agent_workers := ws |> in
        require (worker_changed == 1%Z)
                || match agent_workers d !! token with
                   | Some w => running w && sql_eq (w_heartbeat_at w) (Some heartbeat_at)
                   | None => false
                   end else false;
        let '(ls, lease_changed) :=
          sql_update project_id (fun l => l_holder l == lease_holder)
            (fun l => l <| l_expires_at := lease_expires_at |>) (leases d) in
        let d := d <| leases := ls |> in
        require (lease_changed == 1%Z)
                || match leases d !! project_id with
                   | Some l => (l_holder l == lease_holder)
                               && (l_expires_at l == lease_expires_at)
                   | None => false
                   end else false;
        Commit true d
    end).

(** The diagnostic text of a lost heartbeat. *)
Definition worker_fence_snapshot (token : string) (expected_worker_pid : Z) (d : db) : string :=
  match agent_workers d !! token with
  | None => "worker=missing expected_pid=" +:+ dec expected_worker_pid
  | Some w =>
      let lease :=
        match leases d !! w_project_id w with
        | Some l => l_holder l +:+ "@" +:+ l_expires_at l
        | None => "missing"
        end in
      "state=" +:+ WorkerState.database_value (w_state w)
      +:+ " worker_pid=" +:+ match w_worker_pid w with Some p => dec p | None => "missing" end
      +:+ " expected_pid=" +:+ dec expected_worker_pid
      +:+ " worker_lease_holder=" +:+ w_lease_holder w
      +:+ " project_lease=" +:+ lease
      +:+ " heartbeat_at=" +:+ default "missing" (w_heartbeat_at w)
  end.

(** ** Terminal workers *)

Definition supersede_abandoned_workers_for_lease (pid : Z) (expected_lease_holder : string)
  : store_op Z := fun d =>
  let '(ws, changed) :=
    sql_update_where
      (fun _ w => (w_project_id w == pid) && (w_state w == Abandoned)
                  && lease_held_by d (w_project_id w) expected_lease_holder)
      (fun _ w => w <| w_state := Superseded |>) (agent_workers d) in
  (Ok changed, d <| agent_workers := ws |>).

Definition mark_worker_service_cleaned (token cleaned_at : string) : store_op bool := fun d =>
  let '(ws, changed) :=
    sql_update token (fun w => negb (worker_state_active (w_state w)))
      (fun w => w <| w_service_cleaned_at := Some cleaned_at |>) (agent_workers d) in
  (Ok (changed == 1%Z), d <| agent_workers := ws |>).

(** [ORDER BY CAST(created_at AS INTEGER), worker_token]. *)
Definition worker_before (a b : string * worker_row) : bool :=
  let ta := cast_integer (w_created_at a.2) in
  let tb := cast_integer (w_created_at b.2) in
  (ta <? tb)%Z || ((ta =? tb)%Z && text_leb a.1 b.1).

Definition worker_record (d : db) (tw : string * worker_row)
  : res store_error (list (string * worker_row * string * string)) :=
  match projects d !! w_project_id tw.2 with
  | None => Ok []
  | Some p =>
      match w_worker_pid tw.2 with
      | Some n => if (0 <=? n)%Z && (n <=? u32_max)%Z then Ok [(tw, p_name p, p_path p)]
                  else Err PidOutOfRange
      | None => Ok [(tw, p_name p, p_path p)]
      end
  end.

Definition list_workers_by_terminal_state (terminal : bool) (d : db)
  : res store_error (list (string * worker_row * string * string)) :=
  foldr (fun tw acc => let? r := worker_record d tw in let? rs := acc in Ok (r ++ rs))
    (Ok [])
    (sort_by worker_before
       (filter (fun tw => worker_state_active (w_state tw.2) = negb terminal)
          (map_to_list (agent_workers d)))).

(** [state = ?] AND [worker_pid], [heartbeat_at] as observed. *)
Record AgentWorkerAbandonment := mkAbandonment {
  ab_worker_token : string; ab_expected_state : string;
  ab_expected_worker_pid : option Z; ab_expected_heartbeat_at : option string;
  ab_finished_at : string; ab_error : string;
  ab_permitted_successor_holder : option string
}.

Definition abandonment_matches (a : AgentWorkerAbandonment) (w : worker_row) : bool :=
  (WorkerState.database_value (w_state w) == ab_expected_state a)
  && sql_eq_or_null (w_worker_pid w) (ab_expected_worker_pid a)
  && sql_eq_or_null (w_heartbeat_at w) (ab_expected_heartbeat_at a).

Definition preserve_successor_lease (observed : option string) (worker_holder : string)
    (permitted : option string) : option bool :=
  match observed with
  | None => Some false
  | Some holder =>
      if holder == worker_holder then Some false
      else if permitted == Some holder then Some true
      else None
  end.

Definition abandoned_outcome (a : AgentWorkerAbandonment) (w : worker_row) : AgentRunOutcome :=
  mkOutcome (w_project_id w) "failure" (default (w_created_at w) (w_started_at w))
    (Some (ab_finished_at a)) None None None None (Some (ab_error a)) None.

Definition abandon_worker (a : AgentWorkerAbandonment) : store_op bool :=
  transaction (fun d =>
    let token := ab_worker_token a in
    match sql_select token (abandonment_matches a) (agent_workers d) with
    | None => Rollback (Ok false)
    | Some w =>
        let project_id := w_project_id w in
        let observed := l_holder <$> leases d !! project_id in
        match preserve_successor_lease observed (w_lease_holder w)
                (ab_permitted_successor_holder a) with
        | None => Rollback (Ok false)
        | Some _ =>
            try (run_id, d) := record_worker_run token (abandoned_outcome a w) d in
            let '(ws, changed) :=
              sql_update token (abandonment_matches a)
                (fun w => w <| w_state := Abandoned |>
                            <| w_finished_at := Some (ab_finished_at a) |>
                            <| w_error := Some (ab_error a) |>
                            <| w_run_id := Some run_id |>) (agent_workers d) in
            let d := d <| agent_workers := ws |> in
            require changed == 1%Z else false;
            if observed == Some (w_lease_holder w) then
              let '(ls, released) :=
                sql_delete project_id (fun l => l_holder l == w_lease_holder w) (leases d) in
              let d := d <| leases := ls |> in
              require released == 1%Z else false;
              Commit true d
            else Commit true d
        end
    end).

Record AgentWorkerFinalization := mkFinalization {
  fz_worker_token : string; fz_expected_worker_pid : option Z;
  fz_expected_lease_holder : string; fz_status : string; fz_finished_at : string;
  fz_exit_code : option Z; fz_log_dir : option string; fz_stdout_path : option string;
  fz_stderr_path : option string; fz_summary : option string;
  fz_codex_session_id : option string; fz_error : option string
}.

Definition finalized_outcome (f : AgentWorkerFinalization) (w : worker_row) : AgentRunOutcome :=
  mkOutcome (w_project_id w) (fz_status f) (default (w_created_at w) (w_started_at w))
    (Some (fz_finished_at f)) (fz_exit_code f) (fz_log_dir f) (fz_stdout_path f)
    (fz_stderr_path f) (fz_summary f) (fz_codex_session_id f).

(** Mark the run, complete the worker and release the lease it was reserved
    under: the second half of [finalize_worker]. *)
Definition complete_finalizing (f : AgentWorkerFinalization) (w : worker_row) (d : db)
  : txn (option Z) :=
  let token := fz_worker_token f in
  try (run_id, d) := record_worker_run token (finalized_outcome f w) d in
  let '(ws, completed) :=
    sql_update token (fun w => w_state w == WFinalizing)
      (fun w => w <| w_state := WCompleted |>
                  <| w_finished_at := Some (fz_finished_at f) |>
                  <| w_run_id := Some run_id |> <| w_error := fz_error f |>)
      (agent_workers d) in
  let d := d <| agent_workers := ws |> in
  require completed == 1%Z else None;
  let holder := w_lease_holder <$> agent_workers d !! token in
  let d := d <| leases :=
    (sql_delete (w_project_id w) (fun l => sql_eq (Some (l_holder l)) holder) (leases d)).1 |> in
  Commit (Some run_id) d.

Definition finalize_worker (f : AgentWorkerFinalization) : store_op (option Z) :=
  transaction (fun d =>
    let token := fz_worker_token f in
    match agent_workers d !! token with
    | None => Rollback (Ok None)
    | Some w =>
        if w_state w == WCompleted then
          match w_run_id w with
          | Some id => Commit (Some id) d
          | None => Rollback (Err CompletedWorkerWithoutRun)
          end
        else
          require worker_state_active (w_state w)
                  && (w_worker_pid w == fz_expected_worker_pid f) else None;
          require lease_held_by d (w_project_id w) (fz_expected_lease_holder f) else None;
          let '(ws, claimed) :=
            sql_update token
              (fun v => (w_state v == w_state w)
                        && sql_eq_or_null (w_worker_pid v) (fz_expected_worker_pid f))
              (fun v => v <| w_state := WFinalizing |>) (agent_workers d) in
          let d := d <| agent_workers := ws |> in
          require claimed == 1%Z else None;
          complete_finalizing f w d
    end).
