(* ===== verification/Runs.v ===== *)
(** Run history, daemon check-ins and history cleaning
    (src/agent/repositories/sessions_runs.rs, first part). *)
From S2P Require Import Prelude Sql AgentTypes Store.

(** ** Run history *)

(** [runs r JOIN projects p]: the run with its id and the project's name and
    path. *)
Definition AgentRunRecord : Type := Z * run_row * string * string.

Definition run_record (d : db) (kv : Z * run_row) : option AgentRunRecord :=
  (fun p => (kv, p_name p, p_path p)) <$> projects d !! r_project_id kv.2.

(** [SELECT .. FROM runs r JOIN projects p WHERE cond ORDER BY r.id DESC]. *)
Definition runs_desc (cond : Z -> run_row -> bool) (d : db) : list AgentRunRecord :=
  omap (run_record d)
    (sort_by (fun a b => (b.1 <=? a.1)%Z)
       (filter (fun kv => cond kv.1 kv.2 = true) (map_to_list (runs d)))).

(** [LIMIT n]; a negative limit is no limit. *)
Definition sql_limit {A} (n : Z) (l : list A) : list A :=
  if (n <? 0)%Z then l else take (Z.to_nat n) l.

Definition list_recent_runs (limit : Z) (d : db) : list AgentRunRecord :=
  sql_limit limit (runs_desc (fun _ _ => true) d).

Definition latest_run_for_project (pid : Z) (d : db) : option AgentRunRecord :=
  head (sql_limit 1 (runs_desc (fun _ r => r_project_id r == pid) d)).

Definition run_for_worker_token (pid : Z) (worker_token : string) (d : db)
  : option AgentRunRecord :=
  head (runs_desc (fun _ r => (r_project_id r == pid)
                              && sql_eq (r_worker_token r) (Some worker_token)) d).

Definition latest_run_for_codex_session (pid : Z) (sid : string) (output_only : bool)
    (before_run_id : option Z) (d : db) : option AgentRunRecord :=
  head (sql_limit 1 (runs_desc
    (fun id r =>
       (r_project_id r == pid) && sql_eq (r_codex_session_id r) (Some sid)
       && (negb output_only || negb (is_null (r_stdout_path r))
           || negb (is_null (r_stderr_path r)))
       && match before_run_id with None => true | Some b => (id <? b)%Z end) d)).

(** Two statements outside a transaction: the run row, then the project's
    counters. *)
Definition record_run_outcome (o : AgentRunOutcome) : store_op Z :=
  autocommit (fun d =>
    if project_exists d (o_project_id o) then
      let run_id := next_rowid (runs d) in
      let d := d <| runs := <[run_id := run_of_outcome o None]> (runs d) |> in
      Ok (run_id, update_project_after_run o d)
    else Err ForeignKeyViolation).

(** ** Daemon check-ins *)

Definition record_daemon_checkin (holder mode started_at checked_in_at expires_at : string)
  : store_op unit := fun d =>
  (Ok tt, d <| daemon_checkins :=
    <[holder := mkCheckin mode started_at checked_in_at expires_at]> (daemon_checkins d) |>).

Definition clear_daemon_checkin (holder : string) : store_op bool := fun d =>
  let '(cs, removed) := sql_delete holder (fun _ => true) (daemon_checkins d) in
  (Ok (0 <? removed)%Z, d <| daemon_checkins := cs |>).

(** [ORDER BY CAST(checked_in_at AS INTEGER) DESC, holder]. *)
Definition checkin_before (a b : string * checkin_row) : bool :=
  let ta := cast_integer (ci_checked_in_at a.2) in
  let tb := cast_integer (ci_checked_in_at b.2) in
  (tb <? ta)%Z || ((ta =? tb)%Z && text_leb a.1 b.1).

Definition list_daemon_checkins (d : db) : list (string * checkin_row) :=
  sort_by checkin_before (map_to_list (daemon_checkins d)).

(** ** Cleaning the history *)

Record AgentCleanSummary := mkCleanSummary {
  projects_reset : Z; runs_deleted : Z; leases_deleted : Z; daemon_checkins_deleted : Z
}.

Definition project_has_failure (_ : Z) (p : project_row) : bool :=
  (p_failure_count p =! 0%Z) || negb (is_null (p_last_failure_at p))
  || negb (is_null (p_last_blocked_recovery_at p)).

Definition clean_blocked (cleaned_at : string) (d : db) : option store_error :=
  if any_active_worker d then Some HistoryInUse
  else if sql_exists (fun _ g => journal_pending g) (git_finalizations d)
  then Some HistoryInUse
  else if sql_exists (fun _ (_ : launch_row) => true) (agent_git_launch_states d)
  then Some HistoryInUse
  else if sql_exists (fun _ l => lease_live l cleaned_at) (leases d)
  then Some HistoryInUse
  else None.

Definition clean_agent_history (cleaned_at : string) : store_op AgentCleanSummary :=
  transaction (fun d =>
    match clean_blocked cleaned_at d with
    | Some e => Rollback (Err e)
    | None =>
        let '(ps, projects_reset) :=
          sql_update_where project_has_failure
            (fun _ p => p <| p_failure_count := 0%Z |> <| p_last_failure_at := None |>
                          <| p_last_blocked_recovery_at := None |>
                          <| p_updated_at := cleaned_at |>) (projects d) in
        Commit
          (mkCleanSummary projects_reset
             (sql_count (fun _ _ => true) (runs d)) (sql_count (fun _ _ => true) (leases d))
             (sql_count (fun _ _ => true) (daemon_checkins d)))
          (d <| projects := ps |> <| agent_workers := ∅ |> <| git_finalizations := ∅ |>
             <| agent_git_launch_states := ∅ |> <| runs := ∅ |> <| leases := ∅ |>
             <| daemon_checkins := ∅ |>)
    end).

(** ** Whether a planning conversation may begin its first automated run *)

Definition planning_session_can_start (pid : Z) (sid : string) (d : db) : bool :=
  match session_controls d !! (pid, sid) with
  | Some sc =>
      negb ((sc_state sc =! Stopped) || negb (is_null (sc_run_token sc))
            || negb (is_null (sc_child_pid sc)) || negb (is_null (sc_interactive_holder sc))
            || negb (is_null (sc_interactive_launch_token sc)))
  | None => true
  end
  && negb (sql_exists (fun _ r => (r_project_id r == pid)
                                  && sql_eq (r_codex_session_id r) (Some sid)) (runs d))
  && is_null (session_git_modes d !! (pid, sid))
  && is_null (git_finalizations d !! (pid, sid)).
