(* ===== verification/Sessions.v ===== *)
(** Session controls (src/agent/repositories/sessions_runs.rs, second part):
    registration of the Codex session a run owns, and the stop, interrupt,
    resume and planning requests against it. *)
From S2P Require Import Prelude Sql AgentTypes Store Runs.

(** ** Statements on session controls *)

Definition update_control (k : Z * string) (p : control_row -> bool)
    (f : control_row -> control_row) (d : db) : db * Z :=
  let '(cs, changed) := sql_update k p f (session_controls d) in
  (d <| session_controls := cs |>, changed).

Definition delete_control (k : Z * string) (p : control_row -> bool) (d : db) : db * Z :=
  let '(cs, removed) := sql_delete k p (session_controls d) in
  (d <| session_controls := cs |>, removed).

(** [INSERT .. ON CONFLICT(project_id, codex_session_id) DO NOTHING]. *)
Definition insert_control (k : Z * string) (sc : control_row) (d : db)
  : res store_error (Z * db) :=
  match session_controls d !! k with
  | Some _ => Ok (0%Z, d)
  | None =>
      if project_exists d k.1
      then Ok (1%Z, d <| session_controls := <[k := sc]> (session_controls d) |>)
      else Err ForeignKeyViolation
  end.

(** A control with only its state and holder set. *)
Definition fresh_control (s : AgentSessionControlState) (holder : option string) (now : string)
  : control_row := mkControl s None None holder None None None now.

(** [state = .., child_pid = NULL, interactive_holder = NULL,
    interactive_launch_token = NULL, updated_at = ..]. *)
Definition settle (s : AgentSessionControlState) (now : string) (sc : control_row) : control_row :=
  sc <| sc_state := s |> <| sc_child_pid := None |> <| sc_interactive_holder := None |>
     <| sc_interactive_launch_token := None |> <| sc_updated_at := now |>.

(** [state = 'ready_interactive'] for [holder]. *)
Definition reserve_for (holder now : string) (sc : control_row) : control_row :=
  sc <| sc_state := ReadyInteractive |> <| sc_child_pid := None |>
     <| sc_interactive_holder := Some holder |>
     <| sc_interactive_launch_token := None |> <| sc_updated_at := now |>.

Definition control_is_unowned (sc : control_row) : bool :=
  is_null (sc_child_pid sc) && is_null (sc_interactive_holder sc)
  && is_null (sc_interactive_launch_token sc).

(** [state NOT IN ('stopped', 'resume_requested') OR child_pid IS NOT NULL OR ..]. *)
Definition control_blocks_planning (sc : control_row) : bool :=
  negb (bool_decide (sc_state sc ∈ [Stopped; ResumeRequested])) || negb (control_is_unowned sc).

(** ** Registration of a running session

    Worker generations fence the registration: a run token that names a worker
    must name an unfinished worker that still owns the project's lease. *)

Definition known_worker (token : string) (d : db) : bool :=
  negb (is_null (agent_workers d !! token)).

Definition fenced_worker (token : string) (pid : Z) (d : db) : bool :=
  match agent_workers d !! token with
  | Some w => worker_owns_lease d w && (w_project_id w == pid) && worker_state_active (w_state w)
  | None => false
  end.

Definition registered_control (child_pid : Z) (run_token stdout stderr now : string)
    (old : option control_row) : control_row :=
  match old with
  | None => mkControl Running (Some child_pid) (Some run_token) None None
              (Some stdout) (Some stderr) now
  | Some sc =>
      let same_run := sql_eq (sc_run_token sc) (Some run_token) in
      sc <| sc_state :=
             if same_run && bool_decide (sc_state sc ∈ [StopRequested; InterruptRequested])
             then sc_state sc else Running |>
         <| sc_child_pid := Some child_pid |>
         <| sc_run_token := Some run_token |>
         <| sc_interactive_holder :=
             if same_run && (sc_state sc == InterruptRequested)
             then sc_interactive_holder sc else None |>
         <| sc_stdout_path := Some stdout |> <| sc_stderr_path := Some stderr |>
         <| sc_updated_at := now |>
  end.

(** [INSERT OR IGNORE INTO session_git_modes], then the row must agree. *)
Definition fix_git_mode (k : Z * string) (mode : AgentGitMode) (run_token : string) (d : db)
  : res store_error db :=
  let d := match session_git_modes d !! k with
           | Some _ => d
           | None => d <| session_git_modes := <[k := mode]> (session_git_modes d) |>
           end in
  if session_git_modes d !! k == Some mode then
    if (mode == GitOff)
       && negb (is_null (git_finalizations d !! k)
                && is_null (agent_git_launch_states d !! (k.1, run_token)))
    then Err ManagedGitEvidence
    else Ok d
  else Err GitModeImmutable.

(** The journal a launch boundary becomes when its session is registered. *)
Definition journal_of_launch (a : launch_row) (run_token created_at : string) : journal_row :=
  mkJournal Working (a_git_mode a) (Some (a_starting_head a)) (a_branch_ref a)
    (a_upstream_ref a) (a_worktree_baseline a) None (Some run_token) None 0 None
    created_at created_at None None None.

Definition compatible_journal (k : Z * string) (mode : AgentGitMode) (run_token : string) (d : db)
  : bool :=
  match git_finalizations d !! k with
  | Some g => (g_state g == Working) && (g_git_mode g == mode)
              && sql_eq (g_owner_run_token g) (Some run_token)
  | None => false
  end.

Definition journal_matches_launch (k : Z * string) (mode : AgentGitMode) (run_token : string)
    (d : db) : bool :=
  compatible_journal k mode run_token d &&
  match git_finalizations d !! k, agent_git_launch_states d !! (k.1, run_token) with
  | Some g, Some a =>
      (g_git_mode g == a_git_mode a) && sql_eq (g_starting_head g) (Some (a_starting_head a))
      && sql_is (g_branch_ref g) (a_branch_ref a) && sql_is (g_upstream_ref g) (a_upstream_ref a)
      && (g_worktree_baseline g == a_worktree_baseline a)
  | Some _, None => true
  | None, _ => false
  end.

(** Consume the launch boundary of the run into the session's journal, or
    accept the journal an earlier registration of the same run created. *)
Definition attach_journal (k : Z * string) (mode : AgentGitMode) (run_token created_at : string)
    (d : db) : res store_error db :=
  let launch := sql_select (k.1, run_token) (fun a => a_git_mode a == mode)
                  (agent_git_launch_states d) in
  let '(inserted, d) :=
    match launch, git_finalizations d !! k with
    | Some a, None =>
        (true, d <| git_finalizations :=
                 <[k := journal_of_launch a run_token created_at]> (git_finalizations d) |>)
    | _, _ => (false, d)
    end in
  if negb (compatible_journal k mode run_token d)
     || (negb inserted && negb (journal_matches_launch k mode run_token d))
  then Err NoCompatibleLaunchState
  else if inserted then
    let '(ls, deleted) := sql_delete (k.1, run_token) (fun _ => true)
                            (agent_git_launch_states d) in
    if deleted == 1%Z then Ok (d <| agent_git_launch_states := ls |>) else Err LaunchStateLost
  else Ok d.

Definition mark_session_running (pid : Z) (sid : string) (child_pid : Z)
    (run_token stdout stderr : string) (git_mode : option AgentGitMode) (now : string)
  : store_op unit :=
  transaction (fun d =>
    let k := (pid, sid) in
    let fenced := fenced_worker run_token pid d in
    if known_worker run_token d && negb fenced then Rollback (Err WorkerGenerationLost)
    else if fenced && match session_controls d !! k with
                      | Some sc => match sc_run_token sc with
                                   | Some t => t =! run_token
                                   | None => false
                                   end
                      | None => false
                      end
    then Rollback (Err DifferentRunGeneration)
    else if negb (project_exists d pid) && is_null (session_controls d !! k)
    then Rollback (Err ForeignKeyViolation)
    else
      let sc := registered_control child_pid run_token stdout stderr now
                  (session_controls d !! k) in
      let d := d <| session_controls := <[k := sc]> (session_controls d) |> in
      match git_mode with
      | None => Commit tt d
      | Some mode =>
          try d := fix_git_mode k mode run_token d in
          if mode == GitOff then Commit tt d
          else try d := attach_journal k mode run_token now d in Commit tt d
      end).

(** ** Requests against a running session *)

Definition runs_generation (child_pid : Z) (run_token : string) (sc : control_row) : bool :=
  (sc_state sc == Running) && sql_eq (sc_child_pid sc) (Some child_pid)
  && sql_eq (sc_run_token sc) (Some run_token).

Definition request_session_interrupt (pid : Z) (sid : string) (expected_child_pid : Z)
    (expected_run_token interactive_holder now : string) : store_op bool := fun d =>
  let '(d, changed) :=
    update_control (pid, sid) (runs_generation expected_child_pid expected_run_token)
      (fun sc => sc <| sc_state := InterruptRequested |>
                    <| sc_interactive_holder := Some interactive_holder |>
                    <| sc_updated_at := now |>) d in
  (Ok (0 <? changed)%Z, d).

Definition cancel_session_interrupt_handoff (pid : Z) (sid interactive_holder now : string)
  : store_op bool := fun d =>
  let '(d, changed) :=
    update_control (pid, sid)
      (fun sc => bool_decide (sc_state sc ∈ [InterruptRequested; ReadyInteractive])
                 && sql_eq (sc_interactive_holder sc) (Some interactive_holder))
      (fun sc =>
         let running := sc_state sc == InterruptRequested in
         sc <| sc_state := if running then Running else ResumeRequested |>
            <| sc_child_pid := if running then sc_child_pid sc else None |>
            <| sc_interactive_holder := None |>
            <| sc_interactive_launch_token := None |> <| sc_updated_at := now |>) d in
  (Ok (0 <? changed)%Z, d).

Definition request_session_stop (pid : Z) (sid : string) (expected_child_pid : Z)
    (expected_run_token now : string) : store_op bool := fun d =>
  let '(d, changed) :=
    update_control (pid, sid) (runs_generation expected_child_pid expected_run_token)
      (fun sc => sc <| sc_state := StopRequested |> <| sc_updated_at := now |>) d in
  (Ok (0 <? changed)%Z, d).

Definition request_interactive_session_stop (pid : Z) (sid : string) (expected_child_pid : Z)
    (expected_interactive_holder now : string) : store_op bool := fun d =>
  let '(d, changed) :=
    update_control (pid, sid)
      (fun sc => (sc_state sc == Interactive)
                 && sql_eq (sc_child_pid sc) (Some expected_child_pid)
                 && sql_eq (sc_interactive_holder sc) (Some expected_interactive_holder)
                 && sql_eq (sc_interactive_launch_token sc) (Some expected_interactive_holder))
      (fun sc => sc <| sc_state := StopRequested |> <| sc_updated_at := now |>) d in
  (Ok (0 <? changed)%Z, d).

Definition request_stopped_session_resume (pid : Z) (sid : string)
    (expected_run_token : option string) (now : string) : store_op bool := fun d =>
  let '(d, changed) :=
    update_control (pid, sid)
      (fun sc => (sc_state sc == Stopped)
                 && sql_eq_or_null (sc_run_token sc) expected_run_token)
      (settle ResumeRequested now) d in
  (Ok (0 <? changed)%Z, d).

Definition transition_session_control_state (pid : Z) (sid : string)
    (from to : AgentSessionControlState) (now : string) : store_op bool := fun d =>
  let '(d, changed) :=
    update_control (pid, sid) (fun sc => sc_state sc == from)
      (fun sc => sc <| sc_state := to |>
                    <| sc_child_pid := if to == Running then sc_child_pid sc else None |>
                    <| sc_interactive_launch_token := None |> <| sc_updated_at := now |>) d in
  (Ok (0 <? changed)%Z, d).

Definition begin_stopped_session_interactive (pid : Z) (sid interactive_holder : string)
    (expected_run_token : option string) (now : string) : store_op bool := fun d =>
  let '(d, changed) :=
    update_control (pid, sid)
      (fun sc => (sc_state sc == Stopped)
                 && sql_eq_or_null (sc_run_token sc) expected_run_token)
      (reserve_for interactive_holder now) d in
  (Ok (0 <? changed)%Z, d).

(** A stop is complete unless the run token names a worker that lost its lease. *)
Definition complete_session_stop (pid : Z) (sid run_token now : string)
  : store_op bool := fun d =>
  let '(d, changed) :=
    update_control (pid, sid)
      (fun sc => (sc_state sc == StopRequested) && sql_eq (sc_run_token sc) (Some run_token)
                 && (negb (known_worker run_token d) || fenced_worker run_token pid d))
      (settle Stopped now) d in
  (Ok (0 <? changed)%Z, d).

(** ** Planning conversations *)

Definition register_planning_session (pid : Z) (sid lease_holder now : string)
  : store_op bool :=
  autocommit (fun d =>
    if match leases d !! pid with
       | Some l => (l_holder l == lease_holder) && lease_live l now
       | None => false
       end
       && negb (has_active_worker d pid)
       && negb (sql_exists (fun k sc => (k.1 == pid) && control_blocks_planning sc)
                  (session_controls d))
    then let? (changed, d) := insert_control (pid, sid) (fresh_control Stopped None now) d in
         Ok (changed == 1%Z, d)
    else Ok (false, d)).

Definition register_shared_planning_session (pid : Z) (sid now : string) : store_op bool :=
  autocommit (fun d =>
    let? (changed, d) := insert_control (pid, sid) (fresh_control Stopped None now) d in
    Ok (changed == 1%Z, d)).

(** ** Reservations for interactive use *)

Definition other_control (pid : Z) (sid : string) (p : control_row -> bool) (d : db) : bool :=
  sql_exists (fun k sc => (k.1 == pid) && (k.2 =! sid) && p sc) (session_controls d).

Definition reserve_idle_session_interactive_for_state (pid : Z)
    (sid interactive_holder : string) (expected_stopped_run_token : option string)
    (expected_state : option AgentSessionControlState) (now : string) : store_op bool :=
  autocommit (fun d =>
    if starts_with "clt-stopped-interactive-" interactive_holder then
      let '(d', changed) :=
        update_control (pid, sid)
          (fun sc =>
             bool_decide (sc_state sc ∈ [Stopped; ResumeRequested])
             && sql_eq (Some (sc_state sc)) expected_state
             && control_is_unowned sc
             && match leases d !! pid with
                | Some l => (l_holder l == interactive_holder) && lease_live l now
                | None => false
                end
             && negb (has_active_worker d pid)
             && sql_eq_or_null (sc_run_token sc) expected_stopped_run_token
             && negb (other_control pid sid control_blocks_planning d))
          (reserve_for interactive_holder now) d in
      Ok ((0 <? changed)%Z, d')
    else if negb (sql_exists (fun k sc => (k.1 == pid) && (sc_state sc =! Stopped))
                    (session_controls d))
    then let? (changed, d) :=
           insert_control (pid, sid)
             (fresh_control ReadyInteractive (Some interactive_holder) now) d in
         Ok ((0 <? changed)%Z, d)
    else Ok (false, d)).

(** Shared use needs an owner of the project to share with. *)
Definition project_has_owner (pid : Z) (sid : string) (has_manual_owner : bool) (d : db) : bool :=
  has_manual_owner || negb (is_null (leases d !! pid))
  || other_control pid sid (fun sc => sc_state sc =! Stopped) d.

Definition resume_is_unowned (pid : Z) (sid : string) (run_token : option string)
    (sc : control_row) (d : db) : bool :=
  (sc_state sc == ResumeRequested) && is_null (sc_child_pid sc)
  && is_null (sc_interactive_holder sc)
  && negb (sql_exists
       (fun token w => (w_project_id w == pid) && worker_state_active (w_state w)
                       && (sql_eq (Some token) run_token
                           || sql_eq (w_resume_session_id w) (Some sid))) (agent_workers d)).

Definition reserve_shared_session_interactive (pid : Z) (sid interactive_holder : string)
    (expected_stopped_run_token : option string) (has_manual_owner : bool) (now : string)
  : store_op bool :=
  transaction (fun d =>
    if is_stopped_shared_interactive_holder interactive_holder then
      let '(d', changed) :=
        update_control (pid, sid)
          (fun sc =>
             ((sc_state sc == Stopped)
              || resume_is_unowned pid sid expected_stopped_run_token sc d)
             && sql_eq_or_null (sc_run_token sc) expected_stopped_run_token
             && project_has_owner pid sid has_manual_owner d)
          (reserve_for interactive_holder now) d in
      Commit (0 <? changed)%Z d'
    else if is_null (session_controls d !! (pid, sid))
            && project_has_owner pid sid has_manual_owner d
    then try (changed, d) :=
           insert_control (pid, sid)
             (fresh_control ReadyInteractive (Some interactive_holder) now) d in
         Commit (0 <? changed)%Z d
    else Commit false d).

Definition cancel_idle_session_interactive (pid : Z) (sid interactive_holder now : string)
  : store_op bool := fun d =>
  let ready := fun sc => (sc_state sc == ReadyInteractive)
                         && sql_eq (sc_interactive_holder sc) (Some interactive_holder) in
  let '(d, changed) :=
    if starts_with "clt-stopped-interactive-" interactive_holder
       || is_stopped_shared_interactive_holder interactive_holder
    then update_control (pid, sid) ready (settle Stopped now) d
    else delete_control (pid, sid) ready d in
  (Ok (0 <? changed)%Z, d).

(** ** Reads *)

Definition control_record (sc : control_row) : res store_error control_row :=
  match sc_child_pid sc with
  | Some n => if (0 <=? n)%Z && (n <=? u32_max)%Z then Ok sc else Err PidOutOfRange
  | None => Ok sc
  end.

Definition session_control (pid : Z) (sid : string) (d : db)
  : res store_error (option control_row) :=
  match session_controls d !! (pid, sid) with
  | None => Ok None
  | Some sc => let? sc := control_record sc in Ok (Some sc)
  end.

(** [ORDER BY updated_at, codex_session_id]. *)
Definition control_before (a b : (Z * string) * control_row) : bool :=
  text_ltb (sc_updated_at a.2) (sc_updated_at b.2)
  || ((sc_updated_at a.2 == sc_updated_at b.2) && text_leb a.1.2 b.1.2).

Definition session_controls_for_project (pid : Z) (d : db)
  : res store_error (list ((Z * string) * control_row)) :=
  foldr (fun kv acc => let? sc := control_record kv.2 in
                       let? rest := acc in Ok ((kv.1, sc) :: rest))
    (Ok [])
    (sort_by control_before
       (filter (fun kv => kv.1.1 = pid) (map_to_list (session_controls d)))).

Definition suspending_session_project_ids (d : db) : list Z :=
  remove_dups (map (fun kv => kv.1.1)
    (filter (fun kv => sc_state kv.2 <> Stopped) (map_to_list (session_controls d)))).
