(* ===== verification/Handoff.v ===== *)
(** Interactive guardians and handoffs (src/agent/repositories/sessions_runs.rs):
    the transactions that move a session, with its project lease, between an
    automated run, a reserved interactive holder and its guardian process. *)
From S2P Require Import Prelude Sql AgentTypes Store Runs Sessions.

(** [UPDATE leases SET holder = ?, acquired_at = ?, expires_at = ?
    WHERE project_id = ? AND holder = ?]. *)
Definition transfer_lease (pid : Z) (from_holder : string) (l : lease_row) (d : db) : db * Z :=
  let '(ls, changed) :=
    sql_update pid (fun l0 => l_holder l0 == from_holder) (fun _ => l) (leases d) in
  (d <| leases := ls |>, changed).

Definition delete_lease_of (pid : Z) (holder : string) (d : db) : db :=
  d <| leases := (sql_delete pid (fun l => l_holder l == holder) (leases d)).1 |>.

(** [UPDATE leases SET expires_at = ?1 WHERE .. AND expires_at > ?4]: TEXT order. *)
Definition refresh_unexpired_lease (pid : Z) (holder now fresh_expiry : string) (d : db)
  : db * Z :=
  let '(ls, changed) :=
    sql_update pid (fun l => (l_holder l == holder) && text_ltb now (l_expires_at l))
      (fun l => l <| l_expires_at := fresh_expiry |>) (leases d) in
  (d <| leases := ls |>, changed).

(** ** Guardians *)

Definition adopt_interactive_guardian (pid : Z) (codex_session_id : option string)
    (from_holder guardian_holder acquired_at expires_at now : string) : store_op bool :=
  match Guardian.from_guardian_holder guardian_holder with
  | None => fun d => (Err InvalidGuardianHolder, d)
  | Some disposition =>
      transaction (fun d =>
        let '(d, transferred) :=
          if Guardian.holds_project_lease disposition
          then transfer_lease pid from_holder (mkLease guardian_holder acquired_at expires_at) d
          else (d, 1%Z) in
        require transferred =! 0%Z else false;
        match codex_session_id with
        | None => Commit true d
        | Some sid =>
            let '(d, changed) :=
              update_control (pid, sid)
                (fun sc => (sc_state sc == ReadyInteractive)
                           && sql_eq (sc_interactive_holder sc) (Some from_holder))
                (fun sc => sc <| sc_state := Interactive |>
                              <| sc_interactive_holder := Some guardian_holder |>
                              <| sc_interactive_launch_token := Some guardian_holder |>
                              <| sc_child_pid := None |> <| sc_updated_at := now |>) d in
            require changed =! 0%Z else false;
            Commit true d
        end)
  end.

Definition register_interactive_guardian_child (pid : Z) (sid guardian_holder : string)
    (child_pid : Z) (now fresh_expiry : string) : store_op bool :=
  match Guardian.from_guardian_holder guardian_holder with
  | None => fun d => (Err InvalidGuardianHolder, d)
  | Some disposition =>
      transaction (fun d =>
        let '(d, lease_changed) :=
          if Guardian.holds_project_lease disposition
          then refresh_unexpired_lease pid guardian_holder now fresh_expiry d
          else (d, 1%Z) in
        require lease_changed == 1%Z else false;
        let '(d, control_changed) :=
          update_control (pid, sid)
            (fun sc => (sc_state sc == Interactive)
                       && sql_eq (sc_interactive_holder sc) (Some guardian_holder)
                       && sql_eq (sc_interactive_launch_token sc) (Some guardian_holder)
                       && is_null (sc_child_pid sc))
            (fun sc => sc <| sc_child_pid := Some child_pid |> <| sc_updated_at := now |>) d in
        require control_changed == 1%Z else false;
        Commit true d)
  end.

(** The state a finished guardian leaves: back to exec mode, or stopped. *)
Definition guardian_terminal_state (disposition : InteractiveGuardianDisposition)
    (s : AgentSessionControlState) : AgentSessionControlState :=
  match disposition with
  | ResumeExec => if s == StopRequested then Stopped else ResumeRequested
  | PreserveIdleSession | PreserveSharedSession | RestoreStopped | RestoreStoppedShared =>
      Stopped
  end.

Definition finish_interactive_guardian (pid : Z) (sid guardian_holder : string)
    (disposition : InteractiveGuardianDisposition) (now : string) : store_op bool :=
  transaction (fun d =>
    let '(d, changed) :=
      update_control (pid, sid)
        (fun sc => bool_decide (sc_state sc ∈ [Interactive; StopRequested])
                   && sql_eq (sc_interactive_holder sc) (Some guardian_holder))
        (fun sc => settle (guardian_terminal_state disposition (sc_state sc)) now sc) d in
    require changed =! 0%Z else false;
    if Guardian.holds_project_lease disposition
    then Commit true (delete_lease_of pid guardian_holder d)
    else Commit true d).

Definition recover_stale_interactive_guardian (pid : Z) (sid guardian_holder : string)
    (expected_child_pid : option Z) (disposition : InteractiveGuardianDisposition)
    (now : string) : store_op bool :=
  transaction (fun d =>
    let '(d, changed) :=
      update_control (pid, sid)
        (fun sc => bool_decide (sc_state sc ∈ [Interactive; StopRequested])
                   && sql_eq (sc_interactive_holder sc) (Some guardian_holder)
                   && sql_eq (sc_interactive_launch_token sc) (Some guardian_holder)
                   && sql_eq_or_null (sc_child_pid sc) expected_child_pid)
        (fun sc => settle (guardian_terminal_state disposition (sc_state sc)) now sc) d in
    require changed == 1%Z else false;
    if Guardian.holds_project_lease disposition
    then Commit true (delete_lease_of pid guardian_holder d)
    else Commit true d).

(** ** Handoff of an interrupted run *)

Definition interrupted_generation (run_token : string) (sc : control_row) : bool :=
  (sc_state sc == InterruptRequested) && sql_eq (sc_run_token sc) (Some run_token).

Definition complete_session_interrupt_handoff (pid : Z)
    (sid run_token from_holder acquired_at expires_at now : string)
  : store_op (option string) :=
  transaction (fun d =>
    match sql_select (pid, sid) (interrupted_generation run_token) (session_controls d) with
    | None => Rollback (Ok None)
    | Some sc =>
        match sc_interactive_holder sc with
        | None => Rollback (Ok None)
        | Some interactive_holder =>
            let '(d, transferred) :=
              transfer_lease pid from_holder
                (mkLease interactive_holder acquired_at expires_at) d in
            require transferred =! 0%Z else None;
            let '(d, changed) :=
              update_control (pid, sid) (interrupted_generation run_token)
                (fun sc => sc <| sc_state := ReadyInteractive |> <| sc_child_pid := None |>
                              <| sc_interactive_launch_token := None |>
                              <| sc_updated_at := now |>) d in
            if changed == 0%Z then Rollback (Err SessionChangedDuringHandoff)
            else Commit (Some interactive_holder) d
        end
    end).

(** ** Recovery of sessions whose process is gone *)

Definition recover_stale_automated_session_control (pid : Z) (sid : string)
    (from to : AgentSessionControlState) (expected_child_pid : Z)
    (expected_run_token : option string) (now : string) : store_op bool := fun d =>
  let '(d, changed) :=
    update_control (pid, sid)
      (fun sc => (sc_state sc == from) && sql_eq (sc_child_pid sc) (Some expected_child_pid)
                 && sql_eq_or_null (sc_run_token sc) expected_run_token)
      (settle to now) d in
  (Ok (0 <? changed)%Z, d).

Definition recover_stale_interactive_session_control (pid : Z) (sid : string)
    (from to : AgentSessionControlState) (expected_interactive_holder : option string)
    (now : string) : store_op bool := fun d =>
  let '(d, changed) :=
    update_control (pid, sid)
      (fun sc => (sc_state sc == from)
                 && sql_eq_or_null (sc_interactive_holder sc) expected_interactive_holder)
      (settle to now) d in
  (Ok (0 <? changed)%Z, d).

(** The control a monitor observed before it claims supervision. *)
Record ObservedControl := mkObserved {
  ob_project_id : Z; ob_session_id : string; ob_row : control_row
}.

Definition automated_state (s : AgentSessionControlState) : bool :=
  bool_decide (s ∈ [Running; StopRequested; InterruptRequested]).

Definition claim_orphaned_session_supervision (expected : ObservedControl)
    (holder acquired_at expires_at : string) : store_op bool := fun d0 =>
  match sc_child_pid (ob_row expected), sc_run_token (ob_row expected) with
  | Some child_pid, Some run_token =>
      if (child_pid == 0%Z) || (run_token == "") || (holder == "")
         || negb (is_null (sc_interactive_launch_token (ob_row expected)))
         || negb (automated_state (sc_state (ob_row expected)))
      then (Ok false, d0)
      else
        let pid := ob_project_id expected in
        let sid := ob_session_id expected in
        transaction (fun d =>
          let claimable :=
            match session_controls d !! (pid, sid) with
            | Some sc => sql_eq (sc_child_pid sc) (Some child_pid)
                         && sql_eq (sc_run_token sc) (Some run_token)
                         && automated_state (sc_state sc)
                         && is_null (sc_interactive_launch_token sc)
            | None => false
            end
            && is_null (leases d !! pid)
            && negb (has_active_worker d pid)
            && negb (other_control pid sid (fun sc => sc_state sc =! Stopped) d) in
          require claimable else false;
          if project_exists d pid
          then Commit true
                 (d <| leases := <[pid := mkLease holder acquired_at expires_at]> (leases d) |>)
          else Rollback (Err ForeignKeyViolation)) d0
  | _, _ => (Ok false, d0)
  end.

(** ** Finalization after the process group of an automated run exited *)

Definition exit_terminal_state (s : AgentSessionControlState)
  : option AgentSessionControlState :=
  match s with
  | Running => Some ResumeRequested
  | StopRequested => Some Stopped
  | InterruptRequested => Some ReadyInteractive
  | _ => None
  end.

Definition exited_generation (pid : Z) (child_pid : Z) (run_token : string)
    (reattached : option string) (k : Z * string) (sc : control_row) : bool :=
  (k.1 == pid) && sql_eq (sc_child_pid sc) (Some child_pid)
  && sql_eq (sc_run_token sc) (Some run_token)
  && match reattached with
     | None => true
     | Some sid => (k.2 == sid) && is_null (sc_interactive_launch_token sc)
     end.

(** The lease moves to the interactive holder, is created for it, or already
    is its own. *)
Definition hand_lease_over (pid : Z) (lease_holder : string) (l : lease_row) (d : db)
  : txn bool :=
  let '(d, transferred) := transfer_lease pid lease_holder l d in
  if transferred == 0%Z then
    match leases d !! pid with
    | None =>
        if project_exists d pid
        then Commit true (d <| leases := <[pid := l]> (leases d) |>)
        else Rollback (Err ForeignKeyViolation)
    | Some existing =>
        if l_holder existing == l_holder l then Commit true d else Rollback (Ok false)
    end
  else Commit true d.

Definition settle_exited (pid : Z) (sid : string) (state terminal : AgentSessionControlState)
    (child_pid : Z) (run_token lease_holder now : string) (d : db) : txn bool :=
  let '(d, changed) :=
    update_control (pid, sid)
      (fun sc => (sc_state sc == state) && sql_eq (sc_child_pid sc) (Some child_pid)
                 && sql_eq (sc_run_token sc) (Some run_token))
      (fun sc => sc <| sc_state := terminal |> <| sc_child_pid := None |>
                    <| sc_interactive_holder :=
                         if terminal == ReadyInteractive
                         then sc_interactive_holder sc else None |>
                    <| sc_updated_at := now |>) d in
  require changed == 1%Z else false;
  if terminal == ReadyInteractive then Commit true d
  else Commit true (delete_lease_of pid lease_holder d).

Definition finalize_automated_session_after_exit (pid : Z) (child_pid : Z)
    (run_token lease_holder : string) (reattached_session_id : option string)
    (acquired_at expires_at now : string) : store_op bool :=
  transaction (fun d =>
    require is_null reattached_session_id || lease_held_by d pid lease_holder else false;
    match List.find
            (fun kv => exited_generation pid child_pid run_token reattached_session_id kv.1 kv.2)
            (map_to_list (session_controls d)) with
    | None => Rollback (Ok false)
    | Some ((_, sid), sc) =>
        match exit_terminal_state (sc_state sc) with
        | None => Rollback (Ok false)
        | Some terminal =>
            if terminal == ReadyInteractive then
              match sc_interactive_holder sc with
              | None => Rollback (Ok false)
              | Some holder =>
                  match hand_lease_over pid lease_holder
                          (mkLease holder acquired_at expires_at) d with
                  | Rollback r => Rollback r
                  | Commit _ d =>
                      settle_exited pid sid (sc_state sc) terminal child_pid run_token
                        lease_holder now d
                  end
              end
            else settle_exited pid sid (sc_state sc) terminal child_pid run_token
                   lease_holder now d
        end
    end).

(** The two callers: a reattached monitor names the session it observed. *)
Definition finalize_reattached_automated_session (expected : ObservedControl)
    (holder acquired_at expires_at now : string) : store_op bool := fun d =>
  match sc_child_pid (ob_row expected), sc_run_token (ob_row expected) with
  | Some child_pid, Some run_token =>
      finalize_automated_session_after_exit (ob_project_id expected) child_pid run_token
        holder (Some (ob_session_id expected)) acquired_at expires_at now d
  | _, _ => (Ok false, d)
  end.

Definition finalize_reaped_automated_session (pid : Z) (expected_child_pid : Z)
    (expected_run_token lease_holder acquired_at expires_at now : string) : store_op bool :=
  finalize_automated_session_after_exit pid expected_child_pid expected_run_token
    lease_holder None acquired_at expires_at now.

(** ** Queued resumes *)

Definition idle_resume (sc : control_row) : bool :=
  (sc_state sc == ResumeRequested) && is_null (sc_child_pid sc)
  && is_null (sc_interactive_holder sc).

Definition ensure_pending_git_finalization_resume_requested (pid : Z) (sid now : string)
  : store_op bool :=
  transaction (fun d =>
    match sql_select (pid, sid) journal_pending (git_finalizations d) with
    | None => Commit false d
    | Some g =>
        let token := recovery_token (g_generation g) in
        let '(d, _) :=
          update_control (pid, sid) idle_resume
            (fun sc => sc <| sc_run_token := Some token |> <| sc_updated_at := now |>) d in
        try (_, d) :=
          insert_control (pid, sid)
            (mkControl ResumeRequested None (Some token) None None None None now) d in
        Commit match session_controls d !! (pid, sid) with
               | Some sc => idle_resume sc
               | None => false
               end d
    end).

Definition retire_completed_resume_request (expected : ObservedControl) (now : Z)
  : store_op bool := fun d =>
  let row := ob_row expected in
  let k := (ob_project_id expected, ob_session_id expected) in
  if (sc_state row =! ResumeRequested) || negb (control_is_unowned row) then (Ok false, d)
  else
    let '(d, changed) :=
      update_control k
        (fun sc =>
           (sc_state sc == ResumeRequested) && control_is_unowned sc
           && sql_is (sc_run_token sc) (sc_run_token row)
           && (sc_updated_at sc == sc_updated_at row)
           && negb (has_active_worker d k.1)
           && negb (has_live_lease d k.1 (dec now))
           && negb (sql_exists (fun k' (_ : launch_row) => k'.1 == k.1)
                      (agent_git_launch_states d))
           && match git_finalizations d !! k with
              | Some g => Finalization.is_terminal (g_state g)
              | None =>
                  sql_eq (match session_git_modes d !! k with
                          | Some m => Some m
                          | None => p_git_mode <$> projects d !! k.1
                          end) (Some GitOff)
              end)
        (fun sc => sc <| sc_state := Stopped |> <| sc_updated_at := dec now |>) d in
    (Ok (changed == 1%Z), d).

Definition clear_orphaned_resume_requested_session (pid : Z) (sid : string) (now : Z)
  : store_op bool :=
  transaction (fun d =>
    require negb (has_active_worker d pid || has_live_lease d pid (dec now)) else false;
    let '(d, removed) := delete_control (pid, sid) idle_resume d in
    Commit (0 <? removed)%Z d).

Definition clear_autonomous_push_resume_request (pid : Z) (sid : string) : store_op bool :=
  fun d =>
  let '(d, removed) :=
    delete_control (pid, sid)
      (fun sc => (sc_state sc == ResumeRequested) && is_null (sc_child_pid sc)
                 && match git_finalizations d !! (pid, sid) with
                    | Some g => g_state g == PushPending
                    | None => false
                    end
                 && negb (has_active_worker d pid)) d in
  (Ok (removed == 1%Z), d).

Definition clear_running_session_control (pid : Z) (sid : string) (run_token : option string)
  : store_op bool :=
  transaction (fun d =>
    require match run_token with
            | None => negb (has_active_worker d pid)
            | Some t => negb (known_worker t d) || fenced_worker t pid d
            end else false;
    let '(d, removed) :=
      delete_control (pid, sid)
        (fun sc => (sc_state sc == Running)
                   && match run_token with
                      | None => true
                      | Some t => sql_eq (sc_run_token sc) (Some t)
                      end) d in
    Commit (0 <? removed)%Z d).

(** ** Registration of a session whose identity is known before launch *)

Record AgentKnownSessionRegistration := mkKnownSession {
  ks_project_id : Z; ks_session_id : string; ks_child_pid : Z; ks_run_token : string;
  ks_stdout_path : string; ks_stderr_path : string; ks_lease_holder : string;
  ks_claim_requested_resume : bool; ks_claim_planning_session : bool
}.

Definition claim_requested_resume (r : AgentKnownSessionRegistration) (now : string) (d : db)
  : db * Z :=
  update_control (ks_project_id r, ks_session_id r)
    (fun sc => sc_state sc == ResumeRequested)
    (fun sc => sc <| sc_state := Running |> <| sc_child_pid := Some (ks_child_pid r) |>
                  <| sc_run_token := Some (ks_run_token r) |>
                  <| sc_interactive_holder := None |>
                  <| sc_interactive_launch_token := None |>
                  <| sc_stdout_path := Some (ks_stdout_path r) |>
                  <| sc_stderr_path := Some (ks_stderr_path r) |>
                  <| sc_updated_at := now |>) d.

(** [INSERT .. ON CONFLICT DO UPDATE .. WHERE ?8 AND ..]. *)
Definition claim_new_or_planning (r : AgentKnownSessionRegistration) (now : string) (d : db)
  : res store_error (Z * db) :=
  let k := (ks_project_id r, ks_session_id r) in
  match session_controls d !! k with
  | None =>
      insert_control k
        (mkControl Running (Some (ks_child_pid r)) (Some (ks_run_token r)) None None
           (Some (ks_stdout_path r)) (Some (ks_stderr_path r)) now) d
  | Some _ =>
      let '(d, changed) :=
        update_control k
          (fun sc => ks_claim_planning_session r && (sc_state sc == Stopped)
                     && is_null (sc_run_token sc) && control_is_unowned sc)
          (fun sc => sc <| sc_state := Running |> <| sc_child_pid := Some (ks_child_pid r) |>
                        <| sc_run_token := Some (ks_run_token r) |>
                        <| sc_stdout_path := Some (ks_stdout_path r) |>
                        <| sc_stderr_path := Some (ks_stderr_path r) |>
                        <| sc_updated_at := now |>) d in
      Ok (changed, d)
  end.

Definition register_known_session_with_child
    (r : AgentKnownSessionRegistration) (now fresh_expiry : string) : store_op bool :=
  transaction (fun d =>
    let '(d, lease_changed) :=
      refresh_unexpired_lease (ks_project_id r) (ks_lease_holder r) now fresh_expiry d in
    require lease_changed == 1%Z else false;
    require negb (ks_claim_planning_session r
                  && (ks_claim_requested_resume r
                      || negb (planning_session_can_start (ks_project_id r)
                                 (ks_session_id r) d))) else false;
    if ks_claim_requested_resume r then
      let '(d, control_changed) := claim_requested_resume r now d in
      require control_changed == 1%Z else false;
      Commit true d
    else
      try (control_changed, d) := claim_new_or_planning r now d in
      require control_changed == 1%Z else false;
      Commit true d).
