(* ===== verification/Journals.v ===== *)
(** Managed Git journals (src/agent/repositories/git_journals.rs): the launch
    boundary recorded before a run, the finalization journal of a session and
    its compare-and-set, and the acknowledgement of a completed journal. *)
From S2P Require Import Prelude Sql AgentTypes Store Runs Sessions.

Definition update_journal (k : Z * string) (p : journal_row -> bool)
    (f : journal_row -> journal_row) (d : db) : db * Z :=
  let '(gs, changed) := sql_update k p f (git_finalizations d) in
  (d <| git_finalizations := gs |>, changed).

(** ** Launch boundaries *)

Record AgentGitStartState := mkStart {
  st_starting_head : string; st_branch_ref : option string;
  st_upstream_ref : option string; st_worktree_baseline : string
}.

Definition launch_of (mode : AgentGitMode) (s : AgentGitStartState) (created_at : string)
  : launch_row :=
  mkLaunch mode (st_starting_head s) (st_branch_ref s) (st_upstream_ref s)
    (st_worktree_baseline s) created_at.

Definition launch_is (mode : AgentGitMode) (s : AgentGitStartState) (a : launch_row) : bool :=
  (a_git_mode a == mode) && (a_starting_head a == st_starting_head s)
  && sql_is (a_branch_ref a) (st_branch_ref s)
  && sql_is (a_upstream_ref a) (st_upstream_ref s)
  && (a_worktree_baseline a == st_worktree_baseline s).

Definition has_other_git_launch_state (pid : Z) (run_token : string) (d : db) : bool :=
  sql_exists (fun k (_ : launch_row) => (k.1 == pid) && (k.2 =! run_token))
    (agent_git_launch_states d).

Definition record_git_launch_state (pid : Z) (run_token : string) (mode : AgentGitMode)
    (start : AgentGitStartState) (created_at : string) : store_op bool :=
  transaction (fun d =>
    let k := (pid, run_token) in
    if mode == GitOff then Rollback (Err GitModeOff)
    else if has_other_git_launch_state pid run_token d then Rollback (Err OtherLaunchBoundary)
    else
      match agent_git_launch_states d !! k with
      | Some a =>
          if launch_is mode start a then Commit false d
          else Rollback (Err DifferentLaunchBoundary)
      | None =>
          if project_exists d pid
          then Commit true
                 (d <| agent_git_launch_states :=
                    <[k := launch_of mode start created_at]> (agent_git_launch_states d) |>)
          else Rollback (Err ForeignKeyViolation)
      end).

Definition launch_before (a b : (Z * string) * launch_row) : bool :=
  text_ltb (a_created_at a.2) (a_created_at b.2)
  || ((a_created_at a.2 == a_created_at b.2) && text_leb a.1.2 b.1.2).

Definition git_launch_state_for_project (pid : Z) (d : db)
  : res store_error (option (string * launch_row)) :=
  match sort_by launch_before
          (filter (fun kv => kv.1.1 = pid) (map_to_list (agent_git_launch_states d))) with
  | [] => Ok None
  | [(k, a)] => Ok (Some (k.2, a))
  | _ => Err ManyLaunchBoundaries
  end.

Definition worker_state_settled (s : worker_state) : bool :=
  match s with WCompleted | Abandoned | Superseded => true | _ => false end.

Definition reclaim_unchanged_git_launch_state (pid : Z) (run_token : string)
    (mode : AgentGitMode) (start : AgentGitStartState) : store_op bool :=
  transaction (fun d =>
    let terminal_worker :=
      match agent_workers d !! run_token with
      | Some w => (w_project_id w == pid) && worker_state_settled (w_state w)
      | None => false
      end in
    let any_session :=
      sql_exists (fun k sc => (k.1 == pid) && sql_eq (sc_run_token sc) (Some run_token))
        (session_controls d) in
    if negb terminal_worker || any_session then Commit false d
    else
      let '(ls, deleted) :=
        sql_delete (pid, run_token) (launch_is mode start) (agent_git_launch_states d) in
      Commit (deleted == 1%Z) (d <| agent_git_launch_states := ls |>)).

Definition git_launch_state (pid : Z) (run_token : string) (d : db) : option launch_row :=
  agent_git_launch_states d !! (pid, run_token).

Definition delete_git_launch_state (pid : Z) (run_token : string) : store_op bool := fun d =>
  let '(ls, deleted) := sql_delete (pid, run_token) (fun _ => true)
                          (agent_git_launch_states d) in
  (Ok (deleted == 1%Z), d <| agent_git_launch_states := ls |>).

(** ** Creation *)

Record NewGitFinalization := mkNewJournal {
  n_project_id : Z; n_session_id : string; n_git_mode : AgentGitMode;
  n_starting_head : option string; n_branch_ref : option string;
  n_upstream_ref : option string; n_worktree_baseline : string;
  n_task_identity : option string; n_owner_run_token : option string;
  n_created_at : string
}.

Definition new_journal (n : NewGitFinalization) : journal_row :=
  mkJournal Working (n_git_mode n) (n_starting_head n) (n_branch_ref n) (n_upstream_ref n)
    (n_worktree_baseline n) (n_task_identity n) (n_owner_run_token n) None 0 None
    (n_created_at n) (n_created_at n) None None None.

Definition running_owner (pid : Z) (sid run_token : string) (d : db) : bool :=
  match session_controls d !! (pid, sid) with
  | Some sc => (sc_state sc == Running) && sql_eq (sc_run_token sc) (Some run_token)
  | None => false
  end.

Definition create_git_finalization (n : NewGitFinalization) : store_op bool :=
  transaction (fun d =>
    let k := (n_project_id n, n_session_id n) in
    if n_session_id n == "" then Rollback (Err EmptySessionId)
    else if n_git_mode n == GitOff then Rollback (Err GitModeOff)
    else
      let selected :=
        match n_owner_run_token n with
        | Some t => running_owner k.1 k.2 t d
        | None => true
        end in
      match selected, git_finalizations d !! k with
      | true, None =>
          if project_exists d k.1
          then Commit true
                 (d <| git_finalizations := <[k := new_journal n]> (git_finalizations d) |>)
          else Rollback (Err ForeignKeyViolation)
      | _, _ => Commit false d
      end).

(** ** Reads *)

Definition git_finalization (pid : Z) (sid : string) (d : db) : option journal_row :=
  git_finalizations d !! (pid, sid).

(** [ORDER BY CAST(col AS INTEGER), project_id, codex_session_id]. *)
Definition journal_before (col : journal_row -> Z) (a b : (Z * string) * journal_row) : bool :=
  let ta := col a.2 in
  let tb := col b.2 in
  (ta <? tb)%Z
  || ((ta =? tb)%Z && ((a.1.1 <? b.1.1)%Z || ((a.1.1 =? b.1.1)%Z && text_leb a.1.2 b.1.2))).

Definition list_journals (cond : journal_row -> bool) (col : journal_row -> Z)
    (project_id : option Z) (d : db) : list ((Z * string) * journal_row) :=
  sort_by (journal_before col)
    (filter (fun kv => cond kv.2 && from_option (fun p => kv.1.1 == p) true project_id = true)
       (map_to_list (git_finalizations d))).

Definition list_pending_git_finalizations :=
  list_journals journal_pending (fun g => cast_integer (g_updated_at g)).

Definition list_unacknowledged_completed_git_finalizations :=
  list_journals
    (fun g => (g_state g == Completed) && is_null (g_acknowledged_at g))
    (fun g => from_option cast_integer 0%Z (g_completed_at g)).

(** ** Compare and set *)

Record JournalUpdate := mkUpdate {
  u_next_state : GitFinalizationState; u_task_identity : option string;
  u_worktree_baseline : option string; u_require_running_owner : bool;
  u_owner_run_token : option string; u_commit_oid : option string;
  u_last_error : option string; u_updated_at : string
}.

(** [(a, b)] both present and different. *)
Definition changes_recorded (recorded next : option string) : bool :=
  match recorded, next with
  | Some a, Some b => a =! b
  | _, _ => false
  end.

(** The checks between the fence and the statement, in the order of the code. *)
Definition update_rejected (g : journal_row) (u : JournalUpdate) : option store_error :=
  let next := u_next_state u in
  if negb (Finalization.can_transition_to (g_state g) next)
  then Some (InvalidTransition (g_state g) next)
  else if (next == PushPending) && (g_git_mode g =! GitCommitAndPush)
  then Some PushModeRequired
  else if changes_recorded (g_task_identity g) (u_task_identity u)
  then Some TaskIdentityChanged
  else if Finalization.is_finalizing next
          && is_null (coalesce (u_task_identity u) (g_task_identity g))
  then Some TaskIdentityMissing
  else if changes_recorded (g_commit_oid g) (u_commit_oid u)
  then Some CommitOidChanged
  else if bool_decide (next ∈ [PushPending; Completed])
          && is_null (coalesce (u_commit_oid u) (g_commit_oid g))
  then Some CommitOidMissing
  else if (next == Completed)
          && (((g_git_mode g == GitCommit) && (g_state g =! CommitPending))
              || ((g_git_mode g == GitCommitAndPush) && (g_state g =! PushPending)))
  then Some CompletionBeforeStep
  else None.

Definition updated_journal (u : JournalUpdate) (g : journal_row) : journal_row :=
  g <| g_state := u_next_state u |>
    <| g_task_identity := coalesce (g_task_identity g) (u_task_identity u) |>
    <| g_worktree_baseline := default (g_worktree_baseline g) (u_worktree_baseline u) |>
    <| g_owner_run_token := u_owner_run_token u |>
    <| g_commit_oid := coalesce (u_commit_oid u) (g_commit_oid g) |>
    <| g_generation := (g_generation g + 1)%Z |>
    <| g_last_error := u_last_error u |>
    <| g_updated_at := u_updated_at u |>
    <| g_completed_at :=
         if Finalization.is_terminal (u_next_state u) then Some (u_updated_at u) else None |>.

(** UNIQUE INDEX git_finalizations_pending_project_unique: another session of
    the project is already finalizing. *)
Definition pending_index_conflict (k : Z * string) (next : GitFinalizationState) (d : db) : bool :=
  Finalization.is_finalizing next
  && sql_exists (fun k' g => (k'.1 == k.1) && (k' =! k) && Finalization.is_finalizing (g_state g))
       (git_finalizations d).

(** The queued resume that carries the journal's generation. *)
Definition recovery_fence (generation : Z) (sc : control_row) : bool :=
  (sc_state sc == ResumeRequested) && control_is_unowned sc
  && sql_eq (sc_run_token sc) (Some (recovery_token generation)).

Definition advance_fence (k : Z * string) (generation : Z) (u : JournalUpdate) (d : db) : db :=
  if Finalization.is_terminal (u_next_state u)
  then (delete_control k (recovery_fence generation) d).1
  else (update_control k (recovery_fence generation)
          (fun sc => sc <| sc_run_token := Some (recovery_token (generation + 1)) |>
                        <| sc_updated_at := u_updated_at u |>) d).1.

Definition compare_and_set_git_finalization (pid : Z) (sid : string)
    (expected_generation : Z) (u : JournalUpdate) : store_op bool :=
  transaction (fun d =>
    let k := (pid, sid) in
    match git_finalizations d !! k with
    | None => Commit false d
    | Some g =>
        if g_generation g =! expected_generation then Commit false d
        else
          let fence :=
            if u_require_running_owner u then
              match u_owner_run_token u with
              | None => Err IntentRequiresOwner
              | Some t => Ok (running_owner pid sid t d)
              end
            else Ok true in
          try owned := fence in
          if negb owned then Commit false d
          else
            match update_rejected g u with
            | Some e => Rollback (Err e)
            | None =>
                if pending_index_conflict k (u_next_state u) d
                then Rollback (Err UniqueViolation)
                else
                  let '(d, changed) :=
                    update_journal k (fun g => g_generation g == expected_generation)
                      (updated_journal u) d in
                  if changed == 1%Z then
                    if (i64_max <? expected_generation + 1)%Z
                    then Rollback (Err GenerationOverflow)
                    else Commit true (advance_fence k expected_generation u d)
                  else Commit false d
            end
    end).

(** The callers fix which fields a step may set. *)
Definition compare_and_set_plain (pid : Z) (sid : string) (generation : Z)
    (next : GitFinalizationState) (owner commit_oid last_error : option string)
    (updated_at : string) : store_op bool :=
  compare_and_set_git_finalization pid sid generation
    (mkUpdate next None None false owner commit_oid last_error updated_at).

Definition compare_and_set_owned_git_finalization (pid : Z) (sid : string) (generation : Z)
    (next : GitFinalizationState) (owner : string) (commit_oid last_error : option string)
    (updated_at : string) : store_op bool :=
  compare_and_set_git_finalization pid sid generation
    (mkUpdate next None None true (Some owner) commit_oid last_error updated_at).

Definition compare_and_set_git_finalization_with_identity (pid : Z) (sid : string)
    (generation : Z) (next : GitFinalizationState) (task_identity : string)
    (owner : option string) (updated_at : string) : store_op bool :=
  compare_and_set_git_finalization pid sid generation
    (mkUpdate next (Some task_identity) None true owner None None updated_at).

Definition track_git_finalization_with_manifest (pid : Z) (sid : string) (generation : Z)
    (task_identity worktree_baseline owner updated_at : string) : store_op bool :=
  compare_and_set_git_finalization pid sid generation
    (mkUpdate Tracking (Some task_identity) (Some worktree_baseline) true (Some owner)
       None None updated_at).

Definition reseal_git_finalization_manifest (pid : Z) (sid : string) (generation : Z)
    (task_identity worktree_baseline owner updated_at : string) : store_op bool :=
  compare_and_set_git_finalization pid sid generation
    (mkUpdate CommitPending (Some task_identity) (Some worktree_baseline) true (Some owner)
       None None updated_at).

Definition recover_git_finalization_intent (pid : Z) (sid : string) (generation : Z)
    (task_identity : string) (owner : option string) (updated_at : string) : store_op bool :=
  compare_and_set_git_finalization pid sid generation
    (mkUpdate Tracking (Some task_identity) None false owner None None updated_at).

(** ** Acknowledgement of a completed journal *)

Definition late_resume (sc : control_row) : bool :=
  (sc_state sc == ResumeRequested) && is_null (sc_child_pid sc)
  && is_null (sc_interactive_holder sc)
  && sql_like_prefix AGENT_GIT_FINALIZATION_RESUME_TOKEN_PREFIX (sc_run_token sc).

(** [SELECT MAX(id) FROM runs WHERE p], 0 when there is none. *)
Definition max_run_id (p : Z -> run_row -> bool) (d : db) : Z :=
  foldr (fun kv m => if p kv.1 kv.2 then Z.max kv.1 m else m) 0%Z (map_to_list (runs d)).

(** [a >= b] on [Option<u64>]: [None] is least. *)
Definition option_geb (a b : option Z) : bool :=
  match a, b with
  | _, None => true
  | None, Some _ => false
  | Some x, Some y => (y <=? x)%Z
  end.

Fixpoint take_bytes (n : nat) (s : string) : string :=
  match n, s with
  | S n', String c s' => String c (take_bytes n' s')
  | _, _ => EmptyString
  end.

Definition recovered_summary (commit_oid : option string) : string :=
  "CLT recovered the proven Git finalization at commit "
  +:+ from_option (take_bytes 12) "unknown" commit_oid
  +:+ " after an interrupted run acknowledgement.".

Definition run_acknowledges (completed_at : string) (r : run_row) : bool :=
  bool_decide (r_status r ∈ ["success"; "idle"])
  && option_geb (r_finished_at r ≫= parse_u64) (parse_u64 completed_at).

(** [SELECT .. FROM runs WHERE .. ORDER BY id DESC LIMIT 1]. *)
Definition latest_session_run (pid : Z) (sid : string) (d : db) : option (Z * run_row) :=
  head (sort_by (fun a b => (b.1 <=? a.1)%Z)
    (filter (fun kv => (r_project_id kv.2 == pid)
                       && sql_eq (r_codex_session_id kv.2) (Some sid) = true)
       (map_to_list (runs d)))).

(** Reuse the latest run of the session when it succeeded after the journal
    completed, otherwise record the recovered success. *)
Definition acknowledged_run (pid : Z) (sid completed_at summary : string) (d : db) : Z * db :=
  let insert :=
    let id := next_rowid (runs d) in
    (id, d <| runs := <[id := mkRun pid "success" completed_at (Some completed_at) None None
                                None None (Some summary) (Some sid) None]> (runs d) |>) in
  match latest_session_run pid sid d with
  | Some (id, r) => if run_acknowledges completed_at r then (id, d) else insert
  | None => insert
  end.

Definition acknowledge_completed_git_finalization_session (pid : Z)
    (sid acknowledged_at : string) : store_op bool :=
  transaction (fun d =>
    let k := (pid, sid) in
    match sql_select k (fun g => g_state g == Completed) (git_finalizations d) with
    | None => Commit false d
    | Some g =>
        match g_completed_at g, g_acknowledged_at g with
        | None, _ => Rollback (Err QueryReturnedNoRows)
        | Some _, Some _ => Commit true (delete_control k late_resume d).1
        | Some completed_at, None =>
            let summary := recovered_summary (g_commit_oid g) in
            let '(run_id, d) := acknowledged_run pid sid completed_at summary d in
            let d :=
              if max_run_id (fun _ r => r_project_id r == pid) d == run_id
              then update_project_after_run
                     (mkOutcome pid "success" completed_at (Some completed_at) None None None
                        None (Some summary) (Some sid)) d
              else d in
            let '(d, marked) :=
              update_journal k
                (fun g => (g_state g == Completed) && is_null (g_acknowledged_at g))
                (fun g => g <| g_acknowledged_at := Some acknowledged_at |>
                            <| g_acknowledged_run_id := Some run_id |>) d in
            if marked == 1%Z
            then Commit true (delete_control k late_resume d).1
            else Rollback (Err AcknowledgementChanged)
        end
    end).
