(* ===== verification/Retire.v ===== *)
(** Retirement of managed Git journals (src/agent/repositories/git_journals.rs,
    first half): enabling Git for a session, explicit recovery of an idle
    project, and the cancellations of a journal no run owns any more. *)
From S2P Require Import Prelude Sql AgentTypes Store Runs Sessions Journals.

(** ** Conditions *)

(** A control that belongs to no process: stopped, or waiting for a resume. *)
Definition control_is_idle (sc : control_row) : bool := negb (control_blocks_planning sc).

Definition any_blocking_control (pid : Z) (d : db) : bool :=
  sql_exists (fun k sc => (k.1 == pid) && control_blocks_planning sc) (session_controls d).

Definition has_launch_state (pid : Z) (d : db) : bool :=
  sql_exists (fun k (_ : launch_row) => k.1 == pid) (agent_git_launch_states d).

Definition live_lease_of (d : db) (pid : Z) (holder now : string) : bool :=
  match leases d !! pid with
  | Some l => (l_holder l == holder) && lease_live l now
  | None => false
  end.

(** [EXISTS (SELECT 1 FROM session_controls WHERE run_token = token AND ..)]. *)
Definition control_runs_token (p : (Z * string) -> bool) (token : string) (d : db) : bool :=
  sql_exists (fun k sc => p k && sql_eq (sc_run_token sc) (Some token)) (session_controls d).

Definition session_can_enable_git (pid : Z) (sid lease_holder now : string) (d : db) : bool :=
  (session_git_modes d !! (pid, sid) == Some GitOff)
  && live_lease_of d pid lease_holder now
  && is_null (git_finalizations d !! (pid, sid))
  && negb (has_launch_state pid d)
  && negb (sql_exists
       (fun _ w => (w_project_id w == pid) && worker_state_active (w_state w)
                   && (w_lease_holder w =! lease_holder)) (agent_workers d))
  && negb (any_blocking_control pid d).

(** Every live worker and lease must belong to another conversation, or to a
    supervisor review. *)
Definition worker_may_own_task (pid : Z) (sid : string) (g : journal_row) (d : db)
    (token : string) (w : worker_row) : bool :=
  (w_project_id w == pid) && worker_state_active (w_state w)
  && (sql_is (Some token) (g_owner_run_token g)
      || sql_is (w_resume_session_id w) (Some sid)
      || control_runs_token (fun k => k == (pid, sid)) token d
      || (is_null (w_resume_session_id w) && (w_task_selection w =! "supervisor_review")
          && negb (control_runs_token (fun k => (k.1 == pid) && (k.2 =! sid)) token d))).

Definition lease_of_nobody_else (pid : Z) (sid now : string) (d : db) (l : lease_row) : bool :=
  lease_live l now
  && negb (sql_exists
       (fun _ w => (w_project_id w == pid) && (w_lease_holder w == l_holder l)
                   && worker_state_active (w_state w)) (agent_workers d))
  && negb (other_control pid sid
             (fun sc => sql_eq (sc_interactive_holder sc) (Some (l_holder l))) d).

Definition journal_is_unsealed (generation : Z) (task_identity : option string)
    (g : journal_row) : bool :=
  (g_state g == Working) && (g_generation g == generation)
  && sql_is (g_task_identity g) task_identity && is_null (g_commit_oid g).

Definition can_delete_idle_task (pid : Z) (sid : string) (generation : Z)
    (task_identity : option string) (now : string) (d : db) : bool :=
  match git_finalizations d !! (pid, sid) with
  | None => false
  | Some g =>
      journal_is_unsealed generation task_identity g
      && match session_controls d !! (pid, sid) with
         | Some sc => control_is_idle sc
         | None => true
         end
      && negb (sql_exists (worker_may_own_task pid sid g d) (agent_workers d))
      && negb (has_launch_state pid d)
      && match leases d !! pid with
         | Some l => negb (lease_of_nobody_else pid sid now d l)
         | None => true
         end
  end.

(** A cancelled attempt that was the project's last failure no longer cools the
    project down. *)
Definition cancelled_attempt_run (pid : Z) (sid : string) (d : db) (p : project_row) : bool :=
  sql_exists
    (fun id r =>
       (id == max_run_id (fun _ r => r_project_id r == pid) d)
       && (r_status r == "failure") && sql_eq (r_finished_at r) (p_last_failure_at p)
       && (sql_eq (r_codex_session_id r) (Some sid)
           || match git_finalizations d !! (pid, sid) with
              | Some g =>
                  sql_exists
                    (fun token w => (w_project_id w == pid)
                                    && sql_eq (w_run_id w) (Some id)
                                    && sql_eq (g_owner_run_token g) (Some token))
                    (agent_workers d)
              | None => false
              end))
    (runs d).

Definition reset_failures (updated_at : string) (p : project_row) : project_row :=
  p <| p_failure_count := 0%Z |> <| p_last_failure_at := None |>
    <| p_last_blocked_recovery_at := None |> <| p_updated_at := updated_at |>.

Definition clear_cancelled_attempt_failure (pid : Z) (sid updated_at : string) (d : db) : db :=
  d <| projects := (sql_update pid (cancelled_attempt_run pid sid d)
                      (reset_failures updated_at) (projects d)).1 |>.

(** [state = 'cancelled', owner_run_token = NULL, generation = generation + 1, ..]. *)
Definition cancel_journal (reason at_ : string) (g : journal_row) : journal_row :=
  g <| g_state := Cancelled |> <| g_owner_run_token := None |>
    <| g_generation := (g_generation g + 1)%Z |> <| g_last_error := Some reason |>
    <| g_updated_at := at_ |> <| g_completed_at := Some at_ |>.

(** ** Enabling Git for a session *)

Definition enable_session_git (n : NewGitFinalization) (lease_holder now : string)
  : store_op bool := fun d0 =>
  if (n_git_mode n == GitOff) || is_null (n_starting_head n) || is_null (n_task_identity n)
     || is_null (n_owner_run_token n)
  then (Err IncompleteBoundary, d0)
  else
    transaction (fun d =>
      let k := (n_project_id n, n_session_id n) in
      require session_can_enable_git k.1 k.2 lease_holder now d else false;
      Commit true
        (d <| git_finalizations := <[k := new_journal n]> (git_finalizations d) |>
           <| session_git_modes :=
                (sql_update k (fun _ => true) (fun _ => n_git_mode n)
                   (session_git_modes d)).1 |>)) d0.

Definition recover_unmanaged_session_git_mode (pid : Z) (sid stderr_path : string)
  : store_op unit := fun d =>
  let k := (pid, sid) in
  if match session_controls d !! k with
     | Some sc => sql_eq (sc_stderr_path sc) (Some stderr_path)
     | None => false
     end
     && is_null (git_finalizations d !! k) && negb (has_launch_state pid d)
     && is_null (session_git_modes d !! k)
  then (Ok tt, d <| session_git_modes := <[k := GitOff]> (session_git_modes d) |>)
  else (Ok tt, d).

(** Modes are not read before the migration that introduces them. *)
Definition session_git_mode (pending_migration_version : option Z) (pid : Z) (sid : string)
    (d : db) : option AgentGitMode :=
  match pending_migration_version with
  | Some v => if (v <=? 19)%Z then None else session_git_modes d !! (pid, sid)
  | None => session_git_modes d !! (pid, sid)
  end.

(** ** Cancelling an unbound journal no task refers to *)

Definition journal_snapshot : Type := (Z * string) * journal_row.

Definition is_current (expected : journal_snapshot) (d : db) : bool :=
  git_finalizations d !! expected.1 == Some expected.2.

Definition journal_is_unbound (g : journal_row) : bool :=
  (g_state g == Working) && is_null (g_task_identity g) && is_null (g_commit_oid g)
  && is_null (g_owner_run_token g) && is_null (g_completed_at g)
  && is_null (g_acknowledged_at g) && is_null (g_acknowledged_run_id g).

Definition pending_generation_of (k : Z * string) (d : db) : option Z :=
  g_generation <$> sql_select k journal_pending (git_finalizations d).

(** Idle: stopped, or queued for the recovery of a pending journal. *)
Definition idle_or_recovering (d : db) (k : Z * string) (sc : control_row) : bool :=
  control_is_unowned sc
  && ((sc_state sc == Stopped)
      || ((sc_state sc == ResumeRequested)
          && match pending_generation_of k d with
             | Some generation => sql_eq (sc_run_token sc) (Some (recovery_token generation))
             | None => false
             end)).

Definition own_fence (token : string) (sc : control_row) : bool :=
  ((sc_state sc == ResumeRequested) && sql_eq (sc_run_token sc) (Some token))
  || ((sc_state sc == Stopped)
      && (is_null (sc_run_token sc) || sql_eq (sc_run_token sc) (Some token))).

Definition owns_idle_project (pid : Z) (sid finalizer_holder token now : string) (d : db)
  : bool :=
  live_lease_of d pid finalizer_holder now
  && negb (has_active_worker d pid)
  && negb (sql_exists (fun k sc => (k.1 == pid) && negb (idle_or_recovering d k sc))
             (session_controls d))
  && match session_controls d !! (pid, sid) with
     | Some sc => own_fence token sc
     | None => true
     end.

Definition cancel_orphaned_working_git_finalization (expected : journal_snapshot)
    (finalizer_holder reason updated_at now : string) : store_op bool :=
  transaction (fun d =>
    let k := expected.1 in
    let generation := g_generation expected.2 in
    let token := recovery_token generation in
    require is_current expected d && journal_is_unbound expected.2 else false;
    require owns_idle_project k.1 k.2 finalizer_holder token now d else false;
    if (i64_max <? generation + 1)%Z then Rollback (Err GenerationOverflow) else
    let '(d, changed) :=
      update_journal k
        (fun g => (g_state g == Working) && (g_generation g == generation)
                  && is_null (g_task_identity g) && is_null (g_commit_oid g)
                  && is_null (g_owner_run_token g)) (cancel_journal reason updated_at) d in
    require changed == 1%Z else false;
    Commit true
      (delete_control k (fun sc => control_is_unowned sc && own_fence token sc) d).1).

(** ** Retiring a journal whose run ended before it claimed a task *)

Definition control_holds_project (d : db) (sc : control_row) : bool :=
  control_blocks_planning sc
  || sql_exists (fun token w => worker_state_active (w_state w)
                                && sql_eq (sc_run_token sc) (Some token)) (agent_workers d).

Definition abandoned_journal_is_idle (pid : Z) (sid : string) (generation : Z)
    (completed_task : bool) (now : string) (d : db) : bool :=
  match git_finalizations d !! (pid, sid) with
  | None => false
  | Some g =>
      (g_state g == Working) && (g_generation g == generation)
      && is_null (g_task_identity g) && is_null (g_commit_oid g)
      && is_null (g_completed_at g) && is_null (g_acknowledged_at g)
      && (negb (is_null (g_owner_run_token g)) || completed_task)
      && negb (has_active_worker d pid)
      && negb (has_launch_state pid d)
      && negb (has_live_lease d pid now)
      && negb (sql_exists (fun k sc => (k.1 == pid) && control_holds_project d sc)
                 (session_controls d))
  end.

Definition delete_idle_control (k : Z * string) (d : db) : db :=
  (delete_control k control_is_idle d).1.

Definition retire_abandoned_unbound_git_finalization (pid : Z) (sid : string)
    (generation : Z) (completed_task : bool) (reason updated_at : string) : store_op bool :=
  transaction (fun d =>
    let k := (pid, sid) in
    require abandoned_journal_is_idle pid sid generation completed_task updated_at d else false;
    let d := clear_cancelled_attempt_failure pid sid updated_at d in
    let d := (update_journal k
                (fun g => (g_state g == Working) && (g_generation g == generation))
                (cancel_journal reason updated_at) d).1 in
    Commit true (delete_idle_control k d)).

(** ** Retiring an attempt another session superseded *)

Definition supersedes (expected completed : journal_snapshot) : bool :=
  (g_state expected.2 == Working) && is_null (g_commit_oid expected.2)
  && is_null (g_completed_at expected.2) && is_null (g_acknowledged_at expected.2)
  && negb (is_null (g_task_identity expected.2))
  && (g_state completed.2 == Completed) && negb (is_null (g_commit_oid completed.2))
  && (expected.1.1 == completed.1.1) && (expected.1.2 =! completed.1.2)
  && (g_task_identity expected.2 == g_task_identity completed.2).

Definition project_is_busy (pid : Z) (now : string) (d : db) : bool :=
  has_active_worker d pid || has_launch_state pid d || has_live_lease d pid now
  || any_blocking_control pid d.

Definition superseded_reason (completed : journal_snapshot) : string :=
  "Superseded unsealed attempt: the same task was completed in Codex session "
  +:+ completed.1.2 +:+ " with verified commit " +:+ default "" (g_commit_oid completed.2).

Definition retire_superseded_working_git_finalization
    (expected completed : journal_snapshot) (updated_at : string) : store_op bool := fun d0 =>
  if negb (supersedes expected completed) then (Ok false, d0)
  else
    transaction (fun d =>
      let k := expected.1 in
      require is_current expected d && is_current completed d else false;
      require negb (project_is_busy k.1 updated_at d) else false;
      let d := clear_cancelled_attempt_failure k.1 k.2 updated_at d in
      let d := (update_journal k (fun _ => true)
                  (cancel_journal (superseded_reason completed) updated_at) d).1 in
      Commit true (delete_control k (fun _ => true) d).1) d0.

(** ** Cancellation by the user: external completion, or deletion of the task *)

(** The project-wide fence of a cancellation that is not scoped to an idle
    session; [Ok false] when the journal changed. *)
Definition fence_project (pid : Z) (sid : string) (generation : Z)
    (task_identity : option string) (holder acquired_at expires_at : string) (d : db)
  : res store_error (bool * db) :=
  if has_active_worker d pid then Err ActiveWorkerOwnsTask
  else if any_blocking_control pid d then Err SessionStillActive
  else if has_launch_state pid d then Err OtherLaunchBoundary
  else
    let d := d <| leases :=
      (sql_delete pid
         (fun l => (cast_integer (l_expires_at l) <=? cast_integer acquired_at)%Z)
         (leases d)).1 |> in
    if negb (is_null (leases d !! pid)) then Err LeaseActive
    else if match git_finalizations d !! (pid, sid) with
            | Some g => journal_is_unsealed generation task_identity g
            | None => false
            end
    then Ok (true, d <| leases := <[pid := mkLease holder acquired_at expires_at]> (leases d) |>)
    else Ok (false, d).

(** The journal is cancelled, then the session stays stopped (deletion) or its
    queued resume goes (external completion). *)
Definition settle_cancelled_session (k : Z * string) (cancellation : GitTaskCancellation)
    (at_ : string) (d : db) : db :=
  match cancellation with
  | Deletion =>
      match session_controls d !! k with
      | None => d <| session_controls :=
                  <[k := fresh_control Stopped None at_]> (session_controls d) |>
      | Some _ =>
          (update_control k (fun _ => true)
             (fun sc => sc <| sc_state := Stopped |> <| sc_run_token := None |>
                           <| sc_updated_at := at_ |>) d).1
      end
  | ExternalCompletion => delete_idle_control k d
  end.

Definition cancel_idle_working_git_finalization (pid : Z) (sid : string) (generation : Z)
    (task_identity : option string) (lease_holder acquired_at expires_at : string)
    (cancellation : GitTaskCancellation) : store_op bool :=
  transaction (fun d =>
    let k := (pid, sid) in
    let session_scoped :=
      (cancellation == Deletion)
      && can_delete_idle_task pid sid generation task_identity acquired_at d in
    try (fenced, d) :=
      (if session_scoped then Ok (true, d)
       else fence_project pid sid generation task_identity lease_holder acquired_at
              expires_at d) in
    if negb fenced then Commit false d
    else
      let d := clear_cancelled_attempt_failure pid sid acquired_at d in
      let '(d, changed) :=
        update_journal k
          (fun g => (g_state g == Working) && (g_generation g == generation)
                    && sql_is (g_task_identity g) task_identity)
          (cancel_journal (cancellation_reason cancellation) acquired_at) d in
      require changed == 1%Z else false;
      Commit true (settle_cancelled_session k cancellation acquired_at d)).
