(* ===== verification/Recovery.v ===== *)
(** Explicit recovery of a project whose Git attempt cannot continue
    (begin_missing_git_recovery_blocking of
    src/agent/repositories/git_journals.rs). *)
From S2P Require Import Prelude Sql AgentTypes Store Runs Sessions Journals Retire.

Definition AGENT_MISSING_GIT_RECOVERY_TOKEN_PREFIX : string := "clt-git-recovery:".
Definition AGENT_BRANCH_GIT_RECOVERY_REASON : string :=
  "User explicitly retired the previous Git attempt after changing checkout branches".

Record RecoveryRequest := mkRecovery {
  q_project_id : Z; q_project_path : string; q_session_id : string;
  q_expected_run_id : Z; q_expected_journal : option journal_snapshot;
  q_require_resume_requested : bool; q_restart : bool; q_stale_start : bool;
  q_writer_conflict : option (Z * string); q_holder : string;
  q_acquired_at : string; q_expires_at : string
}.

Definition q_owner (q : RecoveryRequest) : option string :=
  kv ← q_expected_journal q; g_owner_run_token kv.2.

(** [SELECT MAX(id) FROM runs WHERE p]: NULL when there is none. *)
Definition sql_max_id (p : Z -> run_row -> bool) (d : db) : option Z :=
  if sql_exists p (runs d) then Some (max_run_id p d) else None.

(** The run the recovery was reviewed against is still the latest one. *)
Definition latest_run_is (q : RecoveryRequest) (d : db) : bool :=
  let pid := q_project_id q in
  let of_session := sql_max_id (fun _ r => (r_project_id r == pid)
                      && sql_eq (r_codex_session_id r) (Some (q_session_id q))) d in
  let of_owner := sql_max_id (fun _ r => (r_project_id r == pid)
                    && sql_eq (r_worker_token r) (q_owner q)) d in
  let latest :=
    if q_restart q && (q_require_resume_requested q || q_stale_start q)
    then Some (Z.max (default 0%Z of_owner) (default 0%Z of_session))
    else if q_restart q then coalesce of_session of_owner
    else sql_max_id (fun _ r => r_project_id r == pid) d in
  match runs d !! q_expected_run_id q with
  | Some r =>
      (r_project_id r == pid)
      && (q_restart q || bool_decide (r_status r ∈ ["failure"; "timeout"]))
      && match projects d !! pid with
         | Some p => p_path p == q_project_path q
         | None => false
         end
      && sql_eq (Some (q_expected_run_id q)) latest
  | None => false
  end.

Definition expected_journal_holds (q : RecoveryRequest) (d : db) : bool :=
  match q_expected_journal q with
  | None => true
  | Some expected =>
      let g := expected.2 in
      (expected.1 == (q_project_id q, q_session_id q))
      && is_current expected d && is_null (g_commit_oid g)
      && (if q_restart q then bool_decide (g_state g ∈ [Working; Cancelled])
          else bool_decide (g_state g ∈ [Working; Tracking; CommitPending])
               || ((g_state g == Cancelled)
                   && (g_last_error g == Some AGENT_BRANCH_GIT_RECOVERY_REASON)))
  end.

(** No other journal, launch boundary, worker, lease or session is in use. *)
Definition recovery_blocked (q : RecoveryRequest) (d : db) : bool :=
  let pid := q_project_id q in
  let sid := q_session_id q in
  let has_journal := negb (is_null (q_expected_journal q)) in
  sql_exists
    (fun k g => (k.1 == pid) && ((k.2 == sid) || journal_pending g)
                && negb (has_journal && (k.2 == sid))
                && negb (q_restart q && (k.2 =! sid) && (g_state g == Working)))
    (git_finalizations d)
  || has_launch_state pid d
  || has_active_worker d pid
  || negb (is_null (leases d !! pid))
  || sql_exists
       (fun k sc => (k.1 == pid)
          && (negb (control_is_unowned sc)
              || ((sc_state sc =! Stopped)
                  && negb ((sc_state sc == ResumeRequested)
                           && ((k.2 == sid)
                               || (q_restart q
                                   && match git_finalizations d !! k with
                                      | Some g => g_state g == Working
                                      | None => false
                                      end))))))
       (session_controls d).

Definition project_enabled (pid : Z) (d : db) : bool :=
  from_option p_enabled false (projects d !! pid).

(** The worker that recorded run [id], if any, completed with that run. *)
Definition worker_completed_run (d : db) (pid : Z) (token : string) (id : Z) : bool :=
  match agent_workers d !! token with
  | Some w => (w_project_id w == pid) && (w_state w == WCompleted)
              && sql_eq (w_run_id w) (Some id)
  | None => false
  end.

(** Two consecutive failures of the session that a persistent writer conflict
    explains. *)
Definition writer_conflict_run (q : RecoveryRequest) (previous : Z) (token : string) (d : db)
    (id : Z) (r : run_row) : bool :=
  let pid := q_project_id q in
  let sid := q_session_id q in
  let run := q_expected_run_id q in
  (r_project_id r == pid) && sql_eq (r_codex_session_id r) (Some sid)
  && bool_decide (id ∈ [run; previous]) && (r_status r == "failure")
  && negb (is_null (r_finished_at r))
  && match r_exit_code r with Some c => c =! 0%Z | None => false end
  && match r_worker_token r with
     | None => true
     | Some t => worker_completed_run d pid t id
     end
  && sql_eq (Some previous)
       (sql_max_id (fun i r => (r_project_id r == pid)
          && sql_eq (r_codex_session_id r) (Some sid) && (i <? run)%Z) d)
  && project_enabled pid d
  && match session_controls d !! (pid, sid) with
     | Some sc => (sc_state sc == ResumeRequested) && sql_eq (sc_run_token sc) (Some token)
     | None => false
     end
  && ((id =! run) || is_null (r_worker_token r) || sql_eq (r_worker_token r) (Some token)
      || match q_expected_journal q with
         | Some expected => token == recovery_token (g_generation expected.2)
         | None => false
         end)
  && (negb (is_null (q_expected_journal q))
      || (session_git_modes d !! (pid, sid) == Some GitOff)).

Definition writer_conflict_holds (q : RecoveryRequest) (d : db) : bool :=
  match q_writer_conflict q with
  | None => true
  | Some (previous, token) =>
      q_restart q && negb (q_require_resume_requested q) && negb (q_stale_start q)
      && match q_expected_journal q with
         | None => true
         | Some expected => g_state expected.2 == Working
         end
      && (sql_count (writer_conflict_run q previous token d) (runs d) == 2%Z)
  end.

(** The old attempt never bound a task, and its owner is gone. *)
Definition stale_start_run (q : RecoveryRequest) (owner : option string) (d : db) : bool :=
  let pid := q_project_id q in
  let sid := q_session_id q in
  match runs d !! q_expected_run_id q with
  | None => false
  | Some r =>
      (r_project_id r == pid)
      && (sql_eq (r_codex_session_id r) (Some sid)
          || (is_null (r_codex_session_id r) && sql_eq (r_worker_token r) owner))
      && bool_decide (r_status r ∈ ["failure"; "blocked"; "timeout"])
      && negb (is_null (r_finished_at r))
      && (sql_eq (r_worker_token r) owner
          || (is_null (r_worker_token r) && sql_eq (r_codex_session_id r) (Some sid)))
      && match t ← r_worker_token r; agent_workers d !! t with
         | Some w => (w_state w == WCompleted)
                     && sql_eq (w_run_id w) (Some (q_expected_run_id q))
         | None => true
         end
      && match session_controls d !! (pid, sid) with
         | Some sc => (sc_state sc == ResumeRequested) && sql_eq (sc_run_token sc) owner
         | None => true
         end
      && project_enabled pid d
  end.

Definition stale_start_holds (q : RecoveryRequest) (d : db) : bool :=
  negb (q_stale_start q) ||
  match q_expected_journal q with
  | None => false
  | Some (_, g) =>
      q_restart q && negb (q_require_resume_requested q)
      && (g_state g == Working) && is_null (g_task_identity g)
      && negb (is_null (g_starting_head g))
      && stale_start_run q (g_owner_run_token g) d
  end.

(** The failed activation of an automatic restart still owns its session. *)
Definition failed_activation_holds (q : RecoveryRequest) (d : db) : bool :=
  let pid := q_project_id q in
  let sid := q_session_id q in
  negb (q_restart q && q_require_resume_requested q) ||
  match q_expected_journal q with
  | None => false
  | Some (_, g) =>
      (g_state g == Working) && is_null (g_task_identity g)
      && match g_owner_run_token g with
         | None => false
         | Some owner =>
             match session_controls d !! (pid, sid), runs d !! q_expected_run_id q with
             | Some sc, Some r =>
                 (r_project_id r == pid) && sql_eq (sc_run_token sc) (Some owner)
                 && (r_status r == "failure") && negb (is_null (r_finished_at r))
                 && (is_null (r_codex_session_id r)
                     || sql_eq (r_codex_session_id r) (Some sid))
                 && ((sql_eq (r_worker_token r) (Some owner)
                      && worker_completed_run d pid owner (q_expected_run_id q))
                     || (is_null (r_worker_token r)
                         && sql_eq (r_codex_session_id r) (Some sid)))
                 && project_enabled pid d
             | _, _ => false
             end
         end
  end.

Definition resume_still_requested (q : RecoveryRequest) (d : db) : bool :=
  negb (q_require_resume_requested q) ||
  match session_controls d !! (q_project_id q, q_session_id q) with
  | Some sc => sc_state sc == ResumeRequested
  | None => false
  end.

Definition recovery_reason (q : RecoveryRequest) : string :=
  if negb (is_null (q_writer_conflict q)) then
    "Automatically restarted persistent Codex writer conflict; old Git boundary preserved"
  else if q_stale_start q || (q_restart q && q_require_resume_requested q) then
    "Automatically restarted failed task activation; old Git boundary preserved"
  else if q_restart q then
    "Owner explicitly restarted the unfinished task; old Git boundary preserved"
  else AGENT_BRANCH_GIT_RECOVERY_REASON.

(** Retire the reviewed journal, reserve the project and stop the session. *)
Definition retire_reviewed_journal (q : RecoveryRequest) (d : db) : db :=
  match q_expected_journal q with
  | Some (k, g) =>
      if negb (q_restart q) || (g_state g =! Cancelled)
      then (update_journal (q_project_id q, q_session_id q) (fun _ => true)
              (cancel_journal (recovery_reason q) (q_acquired_at q)) d).1
      else d
  | None => d
  end.

Definition stop_recovered_session (q : RecoveryRequest) (d : db) : db :=
  let k := (q_project_id q, q_session_id q) in
  let token := AGENT_MISSING_GIT_RECOVERY_TOKEN_PREFIX +:+ dec (q_expected_run_id q) in
  let sc :=
    match session_controls d !! k with
    | None => fresh_control Stopped None (q_acquired_at q)
    | Some sc => sc <| sc_state := Stopped |> <| sc_updated_at := q_acquired_at q |>
    end in
  d <| session_controls :=
    <[k := sc <| sc_run_token := Some token |>]> (session_controls d) |>.

Definition recovery_refused (q : RecoveryRequest) (d : db) : option store_error :=
  if negb (latest_run_is q d) then Some LatestRunChanged
  else if negb (expected_journal_holds q d) then Some RecoveryRecordChanged
  else if recovery_blocked q d then Some RecoveryNotIdle
  else if negb (writer_conflict_holds q d) then Some WriterConflictChanged
  else if negb (stale_start_holds q d) then Some StaleActivationChanged
  else if negb (failed_activation_holds q d) then Some FailedActivationChanged
  else if negb (resume_still_requested q d) then Some SessionStoppedBeforeRecovery
  else None.

Definition begin_missing_git_recovery (q : RecoveryRequest) : store_op unit :=
  transaction (fun d =>
    match recovery_refused q d with
    | Some e => Rollback (Err e)
    | None =>
        let d := retire_reviewed_journal q d in
        let d := d <| leases :=
          <[q_project_id q := mkLease (q_holder q) (q_acquired_at q) (q_expires_at q)]>
            (leases d) |> in
        Commit tt (stop_recovered_session q d)
    end).

Definition finish_missing_git_recovery (pid : Z) (holder now : string) : store_op unit :=
  fun d =>
  let '(ps, changed) :=
    sql_update pid (fun _ => live_lease_of d pid holder now) (reset_failures now)
      (projects d) in
  if changed == 1%Z then (Ok tt, d <| projects := ps |>)
  else (Err RecoveryLostReservation, d <| projects := ps |>).
