(* ===== verification/Holders.v ===== *)
(** Lease holders and the processes behind them (src/scheduler.rs,
    src/session_recovery.rs): the process id a holder names, whether that
    process is alive, and whether its lease may be reclaimed. *)
From S2P Require Import Prelude Sql AgentTypes Store.

Inductive AgentLeaseHolderLiveness := CurrentProcess | Alive | Dead | Unknown.
#[export] Instance AgentLeaseHolderLiveness_eq_dec : EqDecision AgentLeaseHolderLiveness.
Proof. solve_decision. Defined.

Definition RECOVERED_HOLDER_PREFIX : string := "clt-reattached-".

Definition recovered_supervisor_pid (holder : string) : option Z :=
  suffix ← strip_prefix RECOVERED_HOLDER_PREFIX holder; parse_u32 (before_dash suffix).

Definition interactive_holder_prefixes : list string :=
  ["clt-stopped-shared-interactive-"; "clt-shared-interactive-";
   "clt-stopped-readonly-interactive-"; "clt-readonly-interactive-";
   "clt-stopped-interactive-"; "clt-idle-interactive-"; "clt-interactive-"].

(** [Iterator::find_map]. *)
Fixpoint find_map {A B} (f : A -> option B) (l : list A) : option B :=
  match l with
  | [] => None
  | x :: l' => match f x with Some y => Some y | None => find_map f l' end
  end.

Definition interactive_lease_holder_pid (holder : string) : option Z :=
  match Guardian.guardian_process_id holder with
  | Some pid => Some pid
  | None =>
      find_map
        (fun prefix => suffix ← strip_prefix prefix holder; parse_u32 (before_dash suffix))
        interactive_holder_prefixes
  end.

Definition agent_lease_holder_pid (holder : string) : option Z :=
  match recovered_supervisor_pid holder with
  | Some pid => Some pid
  | None =>
      match strip_prefix "clt-agent-" holder, strip_prefix "clt-scheduler-" holder,
            strip_prefix "clt-interactive-" holder with
      | Some suffix, _, _ | None, Some suffix, _ | None, None, Some suffix => parse_u32 suffix
      | None, None, None => None
      end
  end.

Section Liveness.
(** This process's id, and the operating system's answer for another. *)
Context (own_pid : Z) (local_process_is_running : Z -> option bool).

Definition agent_pid_liveness (pid : Z) : AgentLeaseHolderLiveness :=
  if pid == own_pid then CurrentProcess
  else match local_process_is_running pid with
       | Some true => Alive
       | Some false => Dead
       | None => Unknown
       end.

Definition agent_lease_holder_liveness (holder : string) : AgentLeaseHolderLiveness :=
  match agent_lease_holder_pid holder with
  | None => Unknown
  | Some pid => agent_pid_liveness pid
  end.

Definition interactive_lease_holder_liveness (holder : string)
  : option AgentLeaseHolderLiveness :=
  agent_pid_liveness <$> interactive_lease_holder_pid holder.

Definition interactive_lease_holder_is_proven_dead (holder : string) : bool :=
  interactive_lease_holder_liveness holder == Some Dead.

(** Whether an observed lease may be taken over at time [now]. *)
Definition agent_lease_is_reclaimable (l : lease_row)
    (reclaim_current_process_leases : bool) (now : Z) : bool :=
  if negb (is_null (recovered_supervisor_pid (l_holder l)))
  then agent_lease_holder_liveness (l_holder l) == Dead
  else if match parse_u64 (l_expires_at l) with
          | Some expires_at => (expires_at <=? now)%Z
          | None => false
          end then true
  else match agent_lease_holder_liveness (l_holder l) with
       | Dead => true
       | CurrentProcess => reclaim_current_process_leases
       | Alive | Unknown => false
       end.
End Liveness.

(** ** Holders name the process that created them *)

Lemma before_dash_dec n rest : before_dash (dec n +:+ "-" +:+ rest) = dec n \/ (n < 0)%Z.
Proof.
  destruct (Z_lt_ge_dec n 0) as [|Hn]; [by right|left].
  pose proof (all_digits_dec n ltac:(lia)) as Hd. revert Hd. generalize 0%Z as acc.
  induction (dec n) as [|c s IH]; intros acc; [done|].
  change (all_digits acc (String c s)) with
    (match digit_value c with Some d => all_digits (acc * 10 + d)%Z s | None => None end).
  change (String c s +:+ "-" +:+ rest) with (String c (s +:+ "-" +:+ rest)).
  destruct (digit_value c) eqn:Hc; [|done]. intros Hs. simpl.
  destruct (digit_char_plain _ _ Hc) as (_ & Hdash & _).
  rewrite bool_decide_false by done. f_equal. by eapply IH.
Qed.
