(* ===== verification/Projects.v ===== *)
(** Registered projects (src/agent/repositories/projects_models.rs): settings,
    scans, registration and unregistration. *)
From S2P Require Import Prelude Sql AgentTypes Store Holders.

Definition project_with_path (path : string) (_ : Z) (p : project_row) : bool :=
  p_path p == path.

(** [(SELECT id FROM projects WHERE path = ?1)]: the path is UNIQUE. *)
Definition project_id_of_path (path : string) (d : db) : option Z :=
  fst <$> List.find (fun kv => project_with_path path kv.1 kv.2) (map_to_list (projects d)).

Definition update_project (pid : Z) (f : project_row -> project_row) (d : db) : db * Z :=
  let '(ps, changed) := sql_update pid (fun _ => true) f (projects d) in
  (d <| projects := ps |>, changed).

Definition update_project_at (path : string) (f : project_row -> project_row) (d : db)
  : db * Z :=
  let '(ps, changed) := sql_update_where (project_with_path path) (fun _ => f) (projects d) in
  (d <| projects := ps |>, changed).

(** ** Settings *)

Definition set_project_enabled (pid : Z) (enabled : bool) (now : string) : store_op bool :=
  fun d =>
  let '(d, changed) :=
    update_project pid (fun p => p <| p_enabled := enabled |> <| p_updated_at := now |>) d in
  (Ok (0 <? changed)%Z, d).

Definition set_project_enabled_for_path (path : string) (enabled : bool) (now : string)
  : store_op bool := fun d =>
  let '(d, changed) :=
    update_project_at path (fun p => p <| p_enabled := enabled |> <| p_updated_at := now |>) d in
  (Ok (0 <? changed)%Z, d).

Definition clear_project_failure_backoff_for_path (path now : string) : store_op bool :=
  transaction (fun d =>
    let busy :=
      match project_id_of_path path d with
      | Some pid => has_active_worker d pid || has_live_lease d pid now
      | None => false
      end in
    if busy then Rollback (Err ProjectBusy)
    else
      let '(d, changed) :=
        update_project_at path
          (fun p => p <| p_failure_count := 0%Z |> <| p_updated_at := now |>) d in
      Commit (0 <? changed)%Z d).

(** Sessions that already ran unmanaged keep that contract when the project's
    default changes. *)
Definition unmanaged_session (pid : Z) (d : db) (k : Z * string) (sc : control_row) : bool :=
  (k.1 == pid) && negb (is_null (sc_run_token sc))
  && is_null (git_finalizations d !! k)
  && negb (sql_exists (fun k' (_ : launch_row) => k'.1 == k.1) (agent_git_launch_states d)).

Definition pin_unmanaged_sessions (pid : Z) (d : db) : db :=
  match projects d !! pid with
  | Some p =>
      if p_git_mode p == GitOff then
        d <| session_git_modes :=
          session_git_modes d ∪
          ((fun _ => GitOff) <$>
             filter (fun kv => unmanaged_session pid d kv.1 kv.2 = true) (session_controls d)) |>
      else d
  | None => d
  end.

Definition git_mode_upgrade_pending (pending_migration_version : option Z) : bool :=
  match pending_migration_version with Some v => (v <=? 19)%Z | None => false end.

Definition set_project_git_mode (pending_migration_version : option Z) (pid : Z)
    (mode : AgentGitMode) (now : string) : store_op bool := fun d0 =>
  if git_mode_upgrade_pending pending_migration_version then (Err MigrationPending, d0)
  else
    transaction (fun d =>
      let '(d, changed) :=
        update_project pid (fun p => p <| p_git_mode := mode |> <| p_updated_at := now |>)
          (pin_unmanaged_sessions pid d) in
      Commit (0 <? changed)%Z d) d0.

Definition set_project_git_mode_for_path (pending_migration_version : option Z)
    (path : string) (mode : AgentGitMode) (now : string) : store_op bool := fun d0 =>
  if git_mode_upgrade_pending pending_migration_version then (Err MigrationPending, d0)
  else
    transaction (fun d =>
      let d := match project_id_of_path path d with
               | Some pid => pin_unmanaged_sessions pid d
               | None => d
               end in
      let '(d, changed) :=
        update_project_at path
          (fun p => p <| p_git_mode := mode |> <| p_updated_at := now |>) d in
      Commit (0 <? changed)%Z d) d0.

Definition set_project_codex_settings (pid : Z)
    (provider model reasoning_effort : option string) (fast_enabled : bool) (now : string)
  : store_op bool := fun d =>
  let '(d, changed) :=
    update_project pid
      (fun p => p <| p_codex_provider := provider |> <| p_codex_model := model |>
                  <| p_codex_reasoning_effort := reasoning_effort |>
                  <| p_codex_fast_enabled := fast_enabled |> <| p_updated_at := now |>) d in
  (Ok (0 <? changed)%Z, d).

(** ** Scans *)

Definition record_project_scan (pid : Z) (scanned_at : string) : store_op string := fun d =>
  (Ok scanned_at,
   (update_project pid
      (fun p => p <| p_last_scan_at := Some scanned_at |> <| p_updated_at := scanned_at |>) d).1).

Definition record_project_daemon_scan (pid : Z) (status : string) (error : option string)
    (scanned_at : string) : store_op string := fun d =>
  (Ok scanned_at,
   (update_project pid
      (fun p => p <| p_last_scan_at := Some scanned_at |>
                  <| p_last_daemon_scan_status := Some status |>
                  <| p_last_daemon_scan_error := error |>
                  <| p_updated_at := scanned_at |>) d).1).

(** ** Registration *)

Definition new_project (path name now : string) : project_row :=
  mkProject path name true GitOff None None None false None None None None None None None
    0 now now.

(** Two statements: the path is looked up, then updated or inserted. *)
Definition register_project (path name now : string) : store_op bool := fun d =>
  match project_id_of_path path d with
  | Some _ =>
      (Ok false,
       (update_project_at path
          (fun p => p <| p_name := name |> <| p_enabled := true |> <| p_updated_at := now |>) d).1)
  | None =>
      (Ok true,
       d <| projects := <[next_rowid (projects d) := new_project path name now]> (projects d) |>)
  end.

(** Rows of a project in the tables keyed by project and name. *)
Definition drop_project_rows {V} (pid : Z) (t : gmap (Z * string) V) : gmap (Z * string) V :=
  filter (fun kv => kv.1.1 <> pid) t.

(** [DELETE FROM projects] cascades to the tables declared ON DELETE CASCADE;
    the rows of the others are deleted by their own statements before. *)
Definition delete_project (pid : Z) (d : db) : db :=
  d <| agent_workers := filter (fun kv => w_project_id kv.2 <> pid) (agent_workers d) |>
    <| git_finalizations := drop_project_rows pid (git_finalizations d) |>
    <| runs := filter (fun kv => r_project_id kv.2 <> pid) (runs d) |>
    <| projects := delete pid (projects d) |>
    <| session_controls := drop_project_rows pid (session_controls d) |>
    <| agent_git_launch_states := drop_project_rows pid (agent_git_launch_states d) |>
    <| session_git_modes := drop_project_rows pid (session_git_modes d) |>
    <| supervisor_reviews := delete pid (supervisor_reviews d) |>.

Definition active_workers_of (pid : Z) (d : db) : Z :=
  sql_count (fun _ w => (w_project_id w == pid) && worker_state_active (w_state w))
    (agent_workers d).

Section Unregister.
Context (own_pid : Z) (local_process_is_running : Z -> option bool).

Definition unregister_reclaimable (l : lease_row) (now : Z) : bool :=
  match parse_u64 (l_expires_at l) with
  | Some expires_at => (expires_at <=? now)%Z
  | None => false
  end
  || (agent_lease_holder_liveness own_pid local_process_is_running (l_holder l) == Dead).

Definition unregister_project (path : string) (now : Z) : store_op bool :=
  transaction (fun d =>
    match project_id_of_path path d with
    | None => Commit false d
    | Some pid =>
        let active := active_workers_of pid d in
        if (0 <? active)%Z then Rollback (Err (WorkersActive active))
        else
          match leases d !! pid with
          | Some l =>
              if unregister_reclaimable l now
              then Commit true (delete_project pid (d <| leases := delete pid (leases d) |>))
              else Rollback (Err LeaseActive)
          | None => Commit true (delete_project pid d)
          end
    end).
End Unregister.
