(* ===== verification/Text.v ===== *)
(** Rust's [str] and the operations of its standard library the task code uses.

    A text is the list of its Unicode scalar values. Offsets count scalar values
    where Rust counts UTF-8 bytes: every offset the code computes lies on a
    character boundary, so slicing means the same. Where a byte length matters
    ([str::len]) it is [utf8_len]. *)
From S2P Require Import Prelude.

Definition text := list N.
Implicit Types (s t w : text) (c : N).

Fixpoint str (literal : string) : text :=
  match literal with
  | EmptyString => []
  | String a rest => N_of_ascii a :: str rest
  end.

#[global] Arguments str _ : simpl never.

(** ** Characters *)

(** [char::is_whitespace]: the White_Space property of Unicode. *)
Definition is_whitespace c : bool :=
  ((9 <=? c) && (c <=? 13) || (c =? 32) || (c =? 133) || (c =? 160) || (c =? 5760)
   || (8192 <=? c) && (c <=? 8202) || (c =? 8232) || (c =? 8233) || (c =? 8239)
   || (c =? 8287) || (c =? 12288))%N.

Definition is_ascii_digit c : bool := ((48 <=? c) && (c <=? 57))%N.
Definition is_ascii_lowercase c : bool := ((97 <=? c) && (c <=? 122))%N.
Definition is_ascii_uppercase c : bool := ((65 <=? c) && (c <=? 90))%N.
Definition is_ascii_alphabetic c : bool := is_ascii_lowercase c || is_ascii_uppercase c.
Definition is_ascii_alphanumeric c : bool := is_ascii_alphabetic c || is_ascii_digit c.
Definition is_ascii_hexdigit c : bool :=
  is_ascii_digit c || ((97 <=? c) && (c <=? 102) || (65 <=? c) && (c <=? 70))%N.

Definition ascii_uppercase_char c : N := if is_ascii_lowercase c then (c - 32)%N else c.
Definition ascii_lowercase_char c : N := if is_ascii_uppercase c then (c + 32)%N else c.

Definition to_ascii_uppercase s : text := ascii_uppercase_char <$> s.
Definition to_ascii_lowercase s : text := ascii_lowercase_char <$> s.
Definition eq_ignore_ascii_case s t : bool := to_ascii_lowercase s == to_ascii_lowercase t.

(** [char::len_utf8] and [str::len]. *)
Definition len_utf8 c : Z :=
  if (c <? 128)%N then 1%Z else if (c <? 2048)%N then 2%Z else if (c <? 65536)%N then 3%Z else 4%Z.
Definition utf8_len s : Z := foldr (fun c n => len_utf8 c + n)%Z 0%Z s.

(** ** Trimming *)

Fixpoint trim_start_matches (p : N -> bool) s : text :=
  match s with
  | [] => []
  | c :: s' => if p c then trim_start_matches p s' else s
  end.

Definition trim_end_matches (p : N -> bool) s : text := reverse (trim_start_matches p (reverse s)).
Definition trim_start : text -> text := trim_start_matches is_whitespace.
Definition trim_end : text -> text := trim_end_matches is_whitespace.
Definition trim s : text := trim_end (trim_start s).

(** [char::is_*] as the pattern of a set of characters. *)
Definition one_of (cs : text) c : bool := bool_decide (c ∈ cs).

(** [[' ', '\t']]. *)
Definition space_or_tab c : bool := ((c =? 32) || (c =? 9))%N.

(** ** Prefixes, suffixes and occurrences *)

Fixpoint strip_prefix (prefix s : text) : option text :=
  match prefix, s with
  | [], _ => Some s
  | p :: prefix', c :: s' => if (p =? c)%N then strip_prefix prefix' s' else None
  | _ :: _, [] => None
  end.

Definition starts_with (prefix s : text) : bool := negb (strip_prefix prefix s == None).
Definition strip_suffix (suffix s : text) : option text :=
  reverse <$> strip_prefix (reverse suffix) (reverse s).
Definition ends_with (suffix s : text) : bool := negb (strip_suffix suffix s == None).

(** [chars().next_back()] and the tests the code makes of it. *)
Definition next_back s : option N := last s.
Definition ends_with_char (p : N -> bool) s : bool :=
  match last s with Some c => p c | None => false end.
Definition starts_with_char (p : N -> bool) s : bool :=
  match s with c :: _ => p c | [] => false end.

(** [str::find] and [str::contains] of a non-empty pattern, and of a character. *)
Fixpoint find_text (pat s : text) : option nat :=
  if starts_with pat s then Some 0
  else match s with [] => None | _ :: s' => S <$> find_text pat s' end.

Definition contains (pat s : text) : bool := negb (find_text pat s == None).

Fixpoint find_char (p : N -> bool) s : option nat :=
  match s with
  | [] => None
  | c :: s' => if p c then Some 0 else S <$> find_char p s'
  end.

(** [str::match_indices] of a non-empty pattern: the starts of the disjoint
    occurrences found from the left. [skip] counts the characters of the
    occurrence being passed over. *)
Fixpoint match_indices_from (pat : text) (skip offset : nat) s : list nat :=
  match s with
  | [] => []
  | _ :: s' =>
      match skip with
      | S skip' => match_indices_from pat skip' (S offset) s'
      | O =>
          if starts_with pat s then offset :: match_indices_from pat (length pat - 1) (S offset) s'
          else match_indices_from pat 0 (S offset) s'
      end
  end.

Definition match_indices (pat s : text) : list nat := match_indices_from pat 0 0 s.

(** [str::rmatch_indices]: the disjoint occurrences found from the right, the
    last one first. *)
Definition rmatch_indices (pat s : text) : list nat :=
  (fun i => length s - (i + length pat)) <$> match_indices (reverse pat) (reverse s).

Definition rfind (pat s : text) : option nat := head (rmatch_indices pat s).

(** ** Slices: [&s[..i]], [&s[i..]], [&s[i..j]] and [String::replace_range] with
    the empty string. *)

Definition upto (i : nat) s : text := take i s.
Definition from (i : nat) s : text := drop i s.
Definition slice (i j : nat) s : text := drop i (take j s).
Definition remove_range (i j : nat) s : text := take i s ++ drop j s.
Definition insert_str (i : nat) (inserted s : text) : text := take i s ++ inserted ++ drop i s.

(** [split_once] and [rsplit_once]. *)
Definition split_once (pat s : text) : option (text * text) :=
  (fun i => (take i s, drop (i + length pat) s)) <$> find_text pat s.
Definition rsplit_once (pat s : text) : option (text * text) :=
  (fun i => (take i s, drop (i + length pat) s)) <$> rfind pat s.

(** ** Words and lines *)

Fixpoint split_whitespace s : list text :=
  match s with
  | [] => []
  | c :: s' =>
      if is_whitespace c then split_whitespace s'
      else match s' with
           | [] => [[c]]
           | d :: _ =>
               if is_whitespace d then [c] :: split_whitespace s'
               else match split_whitespace s' with
                    | w :: ws => (c :: w) :: ws
                    | [] => [[c]]
                    end
           end
  end.

(** [split_inclusive('\n')]: each piece keeps its newline. *)
Fixpoint split_inclusive_newline s : list text :=
  match s with
  | [] => []
  | c :: s' =>
      if (c =? 10)%N then [c] :: split_inclusive_newline s'
      else match split_inclusive_newline s' with
           | l :: ls => (c :: l) :: ls
           | [] => [[c]]
           end
  end.

(** [str::lines]: the pieces without their newline, or carriage return and
    newline. *)
Definition without_newline (line : text) : text :=
  match strip_suffix [10%N] line with
  | Some l => default l (strip_suffix [13%N] l)
  | None => line
  end.
Definition lines s : list text := without_newline <$> split_inclusive_newline s.

(** [[T]::join]. *)
Fixpoint join (sep : text) (parts : list text) : text :=
  match parts with
  | [] => []
  | [p] => p
  | p :: rest => p ++ sep ++ join sep rest
  end.

(** [str::split] of a character. *)
Fixpoint split_char (sep : N) s : list text :=
  match s with
  | [] => [[]]
  | c :: s' =>
      if (c =? sep)%N then [] :: split_char sep s'
      else match split_char sep s' with
           | p :: ps => (c :: p) :: ps
           | [] => [[c]]
           end
  end.

(** ** Decimal numbers *)

Definition digit_char (d : N) : N := (48 + d)%N.

(** [{n}]: [fuel] is the number of digits, at most [n + 1]. *)
Fixpoint decimal_digits (fuel : nat) (n : N) : text :=
  match fuel with
  | O => []
  | S fuel' =>
      if (n <? 10)%N then [digit_char n]
      else decimal_digits fuel' (n / 10)%N ++ [digit_char (n mod 10)%N]
  end.
Definition decimal (n : N) : text := decimal_digits (S (N.to_nat (N.log2 n))) n.

(** [{n:0width}]. *)
Definition zero_padded (width : nat) (n : N) : text :=
  replicate (width - length (decimal n)) (digit_char 0) ++ decimal n.

(** A plus sign before the digits is allowed. *)
Definition unsigned_digits s : text :=
  match s with
  | c :: d :: rest => if (c =? 43)%N then d :: rest else s
  | _ => s
  end.

(** [str::parse] of an unsigned integer with maximum [bound]: [None] is an
    error. *)
Fixpoint parse_digits (acc : N) s : option N :=
  match s with
  | [] => Some acc
  | c :: s' => if is_ascii_digit c then parse_digits (acc * 10 + (c - 48))%N s' else None
  end.
Definition parse_unsigned (bound : N) s : option N :=
  match unsigned_digits s with
  | [] => None
  | _ =>
      match parse_digits 0 (unsigned_digits s) with
      | Some n => if (n <=? bound)%N then Some n else None
      | None => None
      end
  end.

(** ** Order: [str::cmp] compares UTF-8 bytes, which orders texts as their scalar
    values do. *)

Fixpoint text_le (s t : text) : bool :=
  match s, t with
  | [], _ => true
  | _ :: _, [] => false
  | c :: s', d :: t' => ((c <? d) || (c =? d) && text_le s' t')%N
  end.

(** The iteration order of a [BTreeSet] and of the keys of a [BTreeMap]. *)
Definition set_to_list (X : gset text) : list text := sort_by text_le (elements X).
Definition map_to_sorted {A} (m : gmap text A) : list (text * A) :=
  sort_by (fun kv kw => text_le kv.1 kw.1) (map_to_list m).

(** [str::replace] of one character. *)
Definition replace_char (c : N) (by_ s : text) : text :=
  s ≫= (fun d => if (d =? c)%N then by_ else [d]).

(** ** UTF-8 *)

Definition utf8_char (c : N) : list N :=
  (if c <? 128 then [c]
   else if c <? 2048 then [192 + c / 64; 128 + c mod 64]
   else if c <? 65536 then [224 + c / 4096; 128 + (c / 64) mod 64; 128 + c mod 64]
   else [240 + c / 262144; 128 + (c / 4096) mod 64; 128 + (c / 64) mod 64; 128 + c mod 64])%N.

Definition utf8 (t : text) : string :=
  foldr (fun (b : N) (r : string) => String (ascii_of_N b) r) EmptyString (t ≫= utf8_char).

(** Rust's strings are valid UTF-8, so the length of a character follows from
    its first byte. *)
Fixpoint of_utf8 (s : string) : text :=
  match s with
  | EmptyString => []
  | String a r =>
      let b := N_of_ascii a in
      if (b <? 128)%N then b :: of_utf8 r
      else
        match r with
        | EmptyString => []
        | String a1 r1 =>
            let b1 := (N_of_ascii a1 - 128)%N in
            if (b <? 224)%N then ((b - 192) * 64 + b1)%N :: of_utf8 r1
            else
              match r1 with
              | EmptyString => []
              | String a2 r2 =>
                  let b2 := (N_of_ascii a2 - 128)%N in
                  if (b <? 240)%N then ((b - 224) * 4096 + b1 * 64 + b2)%N :: of_utf8 r2
                  else
                    match r2 with
                    | EmptyString => []
                    | String a3 r3 =>
                        ((b - 240) * 262144 + b1 * 4096 + b2 * 64 + (N_of_ascii a3 - 128))%N
                        :: of_utf8 r3
                    end
              end
        end
  end.
