(* ===== verification/Models.v ===== *)
(** Model providers, model targets and the defaults launches use
    (src/agent/repositories/projects_models.rs, src/agent.rs), and the records of
    the supervisor (src/agent/repositories/supervisor.rs). *)
From S2P Require Import Prelude Sql AgentTypes Store Text.

(** ** Credentials *)

Definition AGENT_DEFAULT_PROVIDER_ENV_KEY : string := "OPENAI_API_KEY".

Definition trimmed (s : string) : string := utf8 (trim (of_utf8 s)).

Definition agent_provider_env_key (env_key : option string) : string :=
  match env_key with
  | Some key => if trimmed key == "" then AGENT_DEFAULT_PROVIDER_ENV_KEY else key
  | None => AGENT_DEFAULT_PROVIDER_ENV_KEY
  end.

Inductive AgentProviderCredentialSource := Clt | Environment.
#[export] Instance AgentProviderCredentialSource_eq_dec : EqDecision AgentProviderCredentialSource.
Proof. solve_decision. Defined.

Record AgentProviderCredential := mkCredential {
  cr_source : AgentProviderCredentialSource; cr_value : string
}.

Definition usable_credential (value : option string) : option string :=
  match trimmed <$> value with
  | Some v => if v == "" then None else Some v
  | None => None
  end.

(** The stored key first, then the environment's. *)
Definition resolve_agent_provider_credential (stored environment : option string)
    : option AgentProviderCredential :=
  match usable_credential stored with
  | Some v => Some (mkCredential Clt v)
  | None => mkCredential Environment <$> usable_credential environment
  end.

(** ** Reading *)

Section Compatibility.
(** The schema change the registry waits for: the key column is missing. *)
Context (pending_migration_version : option Z).

Definition provider_api_key_column_is_available : bool := pending_migration_version == None.

Definition visible_provider (p : provider_row) : provider_row :=
  if provider_api_key_column_is_available then p else p <| mp_api_key := None |>.

(** [ORDER BY built_in DESC, name COLLATE NOCASE, provider_id COLLATE NOCASE]. *)
Definition provider_before (a b : string * provider_row) : bool :=
  flag_before (mp_built_in a.2) (mp_built_in b.2)
    (nocase_before (mp_name a.2) (mp_name b.2) (text_leb (string_lower a.1) (string_lower b.1))).

Definition list_model_providers (d : db) : list (string * provider_row) :=
  (fun p => (p.1, visible_provider p.2)) <$> sort_by provider_before (rows (model_providers d)).

Definition model_provider (provider_id : string) (d : db) : option provider_row :=
  visible_provider <$> model_providers d !! provider_id.

(** [ORDER BY favorite DESC, label COLLATE NOCASE, model_id COLLATE NOCASE]. *)
Definition target_before (a b : (string * string) * target_row) : bool :=
  flag_before (mt_favorite a.2) (mt_favorite b.2)
    (nocase_before (mt_label a.2) (mt_label b.2)
       (text_leb (string_lower a.1.2) (string_lower b.1.2))).

Definition list_model_targets (provider_id : option string) (d : db)
    : list ((string * string) * target_row) :=
  sort_by target_before
    (List.filter (fun t => sql_eq_or_null provider_id (Some t.1.1)) (rows (model_targets d))).

(** [JOIN model_providers p ON p.provider_id = t.provider_id]. *)
Definition enabled_target (d : db) (t : (string * string) * target_row)
    : option (provider_row * ((string * string) * target_row)) :=
  p ← model_providers d !! t.1.1;
  if mp_enabled p && mt_enabled t.2 then Some (p, t) else None.

(** [ORDER BY t.favorite DESC, p.name, t.label, t.model_id]. *)
Definition enabled_before (a b : provider_row * ((string * string) * target_row)) : bool :=
  flag_before (mt_favorite a.2.2) (mt_favorite b.2.2)
    (nocase_before (mp_name a.1) (mp_name b.1)
       (nocase_before (mt_label a.2.2) (mt_label b.2.2)
          (text_leb (string_lower a.2.1.2) (string_lower b.2.1.2)))).

Definition list_enabled_model_targets (d : db) : list ((string * string) * target_row) :=
  snd <$> sort_by enabled_before (omap (enabled_target d) (rows (model_targets d))).

Record AgentModelDefaults := mkDefaults {
  md_provider_id : option string; md_model_id : option string
}.

Definition model_defaults (d : db) : AgentModelDefaults :=
  match agent_settings d !! 1%Z with
  | Some s => mkDefaults (as_default_provider s) (as_default_model s)
  | None => mkDefaults None None
  end.

(** The model a project's launches use: its own, then the default. *)
Definition resolve_model_target (p : project_row) (d : db) : AgentModelDefaults :=
  match p_codex_model p with
  | Some model_id =>
      mkDefaults (Some (default "openai" (p_codex_provider p))) (Some model_id)
  | None => model_defaults d
  end.

Definition model_target_reasoning (provider_id model_id : string) (d : db) : option string :=
  model_targets d !! (provider_id, model_id) ≫= mt_reasoning_effort.

(** [environment]: the variables of the process; the answer names the variable
    the credential is handed over in. *)
Definition resolve_provider_credential (environment : string -> option string)
    (provider_id : string) (d : db) : option (string * AgentProviderCredential) :=
  let provider := model_provider provider_id d in
  let env_key := agent_provider_env_key (provider ≫= mp_env_key) in
  let environment :=
    if match provider with Some p => negb (is_null (mp_env_key p)) | None => true end
    then environment env_key else None in
  pair env_key <$> resolve_agent_provider_credential (provider ≫= mp_api_key) environment.

(** [codex_config]: the provider the user's Codex configuration selects. *)
Definition resolve_credential_provider (codex_config : option string) (p : project_row) (d : db)
    : option string :=
  if negb (is_null (p_codex_provider p)) || negb (is_null (p_codex_model p))
  then Some (default "openai" (p_codex_provider p))
  else
    match md_provider_id (model_defaults d) with
    | Some provider => Some provider
    | None => codex_config
    end.

(** ** Writing *)

(** Without the key column a stored key is neither written nor replaced. *)
Definition saved_provider (p : provider_row) (old : option provider_row) : provider_row :=
  match old with
  | Some o =>
      p <| mp_api_key := if provider_api_key_column_is_available
                         then coalesce (mp_api_key p) (mp_api_key o) else mp_api_key o |>
  | None => p <| mp_api_key := if provider_api_key_column_is_available
                               then mp_api_key p else None |>
  end.

Definition upsert_model_provider (provider_id : string) (p : provider_row) : store_op unit := fun d =>
  (Ok tt,
   d <| model_providers :=
     <[provider_id := saved_provider p (model_providers d !! provider_id)]> (model_providers d) |>).

Definition clear_provider_of_projects (provider_id now : string) (d : db) : db :=
  d <| projects :=
    (sql_update_where (fun _ p => p_codex_provider p == Some provider_id)
       (fun _ p => p <| p_codex_provider := None |> <| p_codex_model := None |>
                     <| p_updated_at := now |>) (projects d)).1 |>.

Definition clear_default_provider (provider_id : string) (d : db) : db :=
  d <| agent_settings :=
    (sql_update_where (fun _ s => as_default_provider s == Some provider_id)
       (fun _ s => s <| as_default_provider := None |> <| as_default_model := None |>)
       (agent_settings d)).1 |>.

(** Nothing refers to a provider that is deleted. *)
Definition delete_model_provider (provider_id now : string) : store_op bool :=
  transaction (fun d =>
    let d := clear_default_provider provider_id (clear_provider_of_projects provider_id now d) in
    let d := d <| model_targets := (sql_delete_where (fun k _ => k.1 == provider_id) (model_targets d)).1 |> in
    let '(providers, deleted) := sql_delete provider_id (fun _ => true) (model_providers d) in
    Commit (0 <? deleted)%Z (d <| model_providers := providers |>)).

(** The target's provider is a foreign key. *)
Definition upsert_model_target (provider_id model_id : string) (t : target_row) : store_op unit :=
  autocommit (fun d =>
    match model_providers d !! provider_id with
    | None => Err ForeignKeyViolation
    | Some _ => Ok (tt, d <| model_targets := <[(provider_id, model_id) := t]> (model_targets d) |>)
    end).

Definition update_provider (provider_id : string) (f : provider_row -> provider_row) : store_op bool :=
  fun d =>
  let '(providers, changed) := sql_update provider_id (fun _ => true) f (model_providers d) in
  (Ok (0 <? changed)%Z, d <| model_providers := providers |>).

Definition set_model_provider_enabled (provider_id : string) (enabled : bool) : store_op bool :=
  update_provider provider_id (fun p => p <| mp_enabled := enabled |>).

Definition set_model_provider_api_key (provider_id : string) (api_key : option string) : store_op bool :=
  if provider_api_key_column_is_available
  then update_provider provider_id (fun p => p <| mp_api_key := api_key |>)
  else fun d => (Err MigrationPending, d).

Definition update_target (k : string * string) (f : target_row -> target_row) : store_op bool := fun d =>
  let '(targets, changed) := sql_update k (fun _ => true) f (model_targets d) in
  (Ok (0 <? changed)%Z, d <| model_targets := targets |>).

Definition set_model_target_flags (provider_id model_id : string) (enabled favorite : bool)
    : store_op bool :=
  update_target (provider_id, model_id)
    (fun t => t <| mt_enabled := enabled |> <| mt_favorite := favorite |>).

Definition set_model_target_reasoning (provider_id model_id : string)
    (reasoning_effort : option string) : store_op bool :=
  update_target (provider_id, model_id) (fun t => t <| mt_reasoning_effort := reasoning_effort |>).

Definition update_settings (f : settings_row -> settings_row) (d : db) : db :=
  d <| agent_settings := (sql_update 1%Z (fun _ => true) f (agent_settings d)).1 |>.

Definition set_model_default (provider_id model_id : string) : store_op unit := fun d =>
  (Ok tt, update_settings (fun s => s <| as_default_provider := Some provider_id |>
                                      <| as_default_model := Some model_id |>) d).

(** ** The supervisor's records *)

Definition default_supervisor_settings : SupervisorSettings :=
  mkSupervisorSettings false None None (Some "high") false.

(** The tables exist from schema version 20 on. *)
Definition supervisor_tables_missing : bool :=
  match pending_migration_version with Some version => (version <=? 20)%Z | None => false end.

Definition supervisor_settings (d : db) : SupervisorSettings :=
  if supervisor_tables_missing then default_supervisor_settings
  else default default_supervisor_settings (agent_settings d !! 1%Z ≫= as_supervisor_settings).

Definition set_supervisor_settings (settings : SupervisorSettings) : store_op unit := fun d =>
  if pending_migration_version == None
  then (Ok tt, update_settings (fun s => s <| as_supervisor_settings := Some settings |>) d)
  else (Err MigrationPending, d).

Definition supervisor_review (pid : Z) (d : db) : option SupervisorReview :=
  if supervisor_tables_missing then None else supervisor_reviews d !! pid.

Definition save_supervisor_review (pid : Z) (review : SupervisorReview) : store_op unit :=
  autocommit (fun d =>
    if project_exists d pid
    then Ok (tt, d <| supervisor_reviews := <[pid := review]> (supervisor_reviews d) |>)
    else Err ForeignKeyViolation).

Definition clear_supervisor_review (pid : Z) : store_op unit := fun d =>
  if supervisor_tables_missing then (Ok tt, d)
  else (Ok tt, d <| supervisor_reviews := delete pid (supervisor_reviews d) |>).
End Compatibility.
