(* ===== verification/TextLemmas.v ===== *)
(** Lemmas on text: prefixes, splitting and replacing; runs of words, the unit in
    which markers are found and removed; and the decimal numbers that order the
    names of a directory. *)
From S2P Require Import Prelude Text.

Implicit Types (s t w : text) (c : N).

(** ** Prefixes *)

Lemma strip_prefix_spec (pre s r : text) : strip_prefix pre s = Some r <-> s = pre ++ r.
Proof.
  revert s. induction pre as [|p pre IH]; intros s; simpl.
  { split; [by intros [= ->]|by intros ->]. }
  destruct s as [|c s]; [by split|]. destruct (N.eqb_spec p c) as [->|Hne].
  - rewrite IH. split; [by intros ->|by intros [= ->]].
  - split; [done|]. by intros [= ->].
Qed.

Lemma strip_prefix_app (pre r : text) : strip_prefix pre (pre ++ r) = Some r.
Proof. by apply strip_prefix_spec. Qed.

Lemma starts_with_spec (pre s : text) : starts_with pre s = true <-> exists r, s = pre ++ r.
Proof.
  unfold starts_with. rewrite negb_true_iff, bool_decide_eq_false.
  setoid_rewrite <- strip_prefix_spec. destruct (strip_prefix pre s); split; eauto; try done.
  by intros [? ?].
Qed.

Lemma strip_suffix_spec (suf s r : text) : strip_suffix suf s = Some r <-> s = r ++ suf.
Proof.
  unfold strip_suffix. rewrite fmap_Some. setoid_rewrite strip_prefix_spec. split.
  - intros (x & Hx & ->). apply (f_equal reverse) in Hx.
    by rewrite reverse_involutive, reverse_app, reverse_involutive in Hx.
  - intros ->. exists (reverse r). by rewrite reverse_app, reverse_involutive.
Qed.

(** ** Splitting and joining *)

Lemma split_char_ne c s : split_char c s <> [].
Proof. destruct s as [|d s]; simpl; [done|]. destruct (d =? c)%N; [done|]. by destruct (split_char c s). Qed.

Lemma join_app (sep : text) (ps qs : list text) :
  ps <> [] -> qs <> [] -> join sep (ps ++ qs) = join sep ps ++ sep ++ join sep qs.
Proof.
  intros Hps Hqs. induction ps as [|p ps IH]; [done|]. destruct ps as [|q ps].
  - simpl. by destruct qs.
  - change (p ++ sep ++ join sep ((q :: ps) ++ qs) = (p ++ sep ++ join sep (q :: ps)) ++ sep ++ join sep qs).
    rewrite IH by done. by rewrite <- !(assoc_L (++)).
Qed.

Lemma join_split_char c s : join [c] (split_char c s) = s.
Proof.
  induction s as [|d s IH]; simpl; [done|].
  pose proof (split_char_ne c s) as Hne. destruct (N.eqb_spec d c) as [->|].
  - destruct (split_char c s); [done|]. change (c :: join [c] (t :: l) = c :: s). by rewrite IH.
  - destruct (split_char c s) as [|p ps]; [done|]. rewrite <- IH. by destruct ps.
Qed.

Lemma split_char_app c s t : split_char c (s ++ c :: t) = split_char c s ++ split_char c t.
Proof.
  induction s as [|d s IH]; simpl; [by rewrite N.eqb_refl|].
  destruct (d =? c)%N; [by rewrite IH|]. rewrite IH.
  pose proof (split_char_ne c s). by destruct (split_char c s).
Qed.

(** ** Order *)

Lemma text_le_total s t : text_le s t = false -> text_le t s = true.
Proof.
  revert t. induction s as [|c s IH]; intros [|d t]; simpl; try done.
  destruct (N.ltb_spec c d); [done|]. destruct (N.eqb_spec c d) as [->|]; simpl.
  - rewrite N.eqb_refl. simpl. intros Hle. by rewrite (IH t Hle), orb_true_r.
  - intros _. assert ((d <? c)%N = true) as -> by (apply N.ltb_lt; lia). done.
Qed.

Lemma text_le_antisym s t : text_le s t = true -> text_le t s = true -> s = t.
Proof.
  revert t. induction s as [|c s IH]; intros [|d t]; simpl; try done.
  destruct (N.ltb_spec c d) as [Hlt|Hge]; simpl.
  - destruct (N.ltb_spec d c); [lia|]. destruct (N.eqb_spec d c); [lia|done].
  - destruct (N.eqb_spec c d) as [->|]; [|done]. simpl.
    destruct (N.ltb_spec d d); [lia|]. rewrite N.eqb_refl. simpl. intros. f_equal. auto.
Qed.

Lemma text_le_refl s : text_le s s = true.
Proof. induction s as [|c s IH]; simpl; [done|]. by rewrite N.eqb_refl, IH, orb_true_r. Qed.

Lemma sort_pair s t : sort_by text_le [s; t] = sort_by text_le [t; s].
Proof.
  simpl. destruct (text_le s t) eqn:Hst, (text_le t s) eqn:Hts; try done.
  - by rewrite (text_le_antisym s t).
  - apply text_le_total in Hst. congruence.
Qed.

(** ** Lists *)

Lemma head_omap_None {A B} (f : A -> option B) (l : list A) :
  head (omap f l) = None <-> forall x, x ∈ l -> f x = None.
Proof.
  induction l as [|x l IH]; simpl; [set_solver|]. destruct (f x) eqn:Hx; simpl.
  - split; [done|]. intros H. specialize (H x). rewrite H in Hx by left. done.
  - rewrite IH. set_solver.
Qed.

Lemma omap_nil_iff {A B} (f : A -> option B) (l : list A) :
  omap f l = [] <-> forall x, x ∈ l -> f x = None.
Proof. rewrite <- head_omap_None. by destruct (omap f l). Qed.

Lemma filter_nil_iff {A} (f : A -> bool) (l : list A) :
  List.filter f l = [] <-> forall x, x ∈ l -> f x = false.
Proof.
  induction l as [|x l IH]; simpl; [set_solver|]. destruct (f x) eqn:Hx.
  - split; [done|]. intros H. specialize (H x). rewrite H in Hx by left. done.
  - rewrite IH. set_solver.
Qed.

Lemma fmap_nil_iff {A B} (f : A -> B) (l : list A) : f <$> l = [] <-> l = [].
Proof. by destruct l. Qed.

Lemma elements_nil (X : gset text) : elements X = [] <-> X = ∅.
Proof. split; [intros H%elements_empty_inv; by apply leibniz_equiv|intros ->; apply elements_empty]. Qed.

Lemma list_to_set_nil_iff (l : list text) : list_to_set (C := gset text) l = ∅ <-> l = [].
Proof.
  split; [|by intros ->]. destruct l as [|x l]; [done|]. rewrite list_to_set_cons. set_solver.
Qed.

(** ** Searching *)

Lemma find_text_None (pat s : text) :
  find_text pat s = None <-> forall i, i <= length s -> starts_with pat (drop i s) = false.
Proof.
  split.
  - revert s. induction s as [|c s IH]; cbn [find_text].
    + destruct (starts_with pat []) eqn:H; [done|]. intros _ i _. by rewrite drop_nil.
    + destruct (starts_with pat (c :: s)) eqn:H; [done|]. destruct (find_text pat s) eqn:Hf; [done|].
      intros _ [|i] Hi; [done|]. apply (IH eq_refl). simpl in Hi. lia.
  - intros H. induction s as [|c s IH]; cbn [find_text].
    + by rewrite (H 0 (le_n 0) : starts_with pat [] = false).
    + rewrite (H 0 ltac:(lia) : starts_with pat (c :: s) = false), IH; [done|].
      intros i Hi. apply (H (S i)). simpl. lia.
Qed.

Lemma find_text_Some (pat s : text) i :
  find_text pat s = Some i <->
  starts_with pat (drop i s) = true /\ i <= length s /\
  (forall j, j < i -> starts_with pat (drop j s) = false).
Proof.
  revert i. induction s as [|c s IH]; intros i; cbn [find_text].
  - destruct (starts_with pat []) eqn:H.
    + split; [intros [= <-]|intros (_ & Hi & _); simpl in Hi; f_equal; lia].
      rewrite drop_nil. split_and!; [done|simpl; lia|lia].
    + split; [done|]. rewrite drop_nil. intros (? & _). congruence.
  - destruct (starts_with pat (c :: s)) eqn:H.
    + split; [intros [= <-]; split_and!; [done|lia|lia]|]. intros (_ & _ & Hj). destruct i; [done|].
      specialize (Hj 0 ltac:(lia)). simpl in Hj. congruence.
    + destruct i as [|i].
      { split; [by destruct (find_text pat s)|]. intros (Hs & _). simpl in Hs. congruence. }
      rewrite fmap_Some. split.
      * intros (k & Hk & [= ->]). apply IH in Hk as (Hs & Hl & Hj). split_and!; [done|simpl; lia|].
        intros [|j] Hlt; [done|]. apply Hj. lia.
      * intros (Hs & Hl & Hj). exists i. split; [|done]. apply IH. split_and!; [done|simpl in Hl; lia|].
        intros j Hlt. apply (Hj (S j)). lia.
Qed.

Lemma contains_false (pat s : text) :
  contains pat s = false <-> forall i, i <= length s -> starts_with pat (drop i s) = false.
Proof. unfold contains. rewrite negb_false_iff, bool_decide_eq_true. apply find_text_None. Qed.

Lemma starts_with_lookup (pat s : list N) k c :
  starts_with pat s = true -> pat !! k = Some c -> s !! k = Some c.
Proof. intros [r ->]%starts_with_spec Hk. by apply lookup_app_l_Some. Qed.

Implicit Types (pat : text).

Definition solid w : Prop := Forall (fun c => is_whitespace c = false) w.
#[export] Instance solid_dec w : Decision (solid w) := _.

(** ** Words *)

Lemma split_whitespace_cons_solid c s :
  is_whitespace c = false ->
  split_whitespace (c :: s) =
  match s with
  | [] => [[c]]
  | d :: _ =>
      if is_whitespace d then [c] :: split_whitespace s
      else match split_whitespace s with w :: ws => (c :: w) :: ws | [] => [[c]] end
  end.
Proof. intros Hc. cbn [split_whitespace]. rewrite Hc. by destruct s. Qed.

Lemma split_whitespace_ws c s : is_whitespace c = true -> split_whitespace (c :: s) = split_whitespace s.
Proof. intros Hc. cbn [split_whitespace]. by rewrite Hc. Qed.

Lemma split_whitespace_solid w : solid w -> w <> [] -> split_whitespace w = [w].
Proof.
  induction w as [|c w IH]; [done|]. intros [Hc Hw]%Forall_cons _.
  rewrite split_whitespace_cons_solid by done. destruct w as [|d w]; [done|].
  pose proof Hw as [Hd _]%Forall_cons. rewrite Hd, IH by done. done.
Qed.

Lemma split_whitespace_solid_ne c s : is_whitespace c = false -> split_whitespace (c :: s) <> [].
Proof.
  intros Hc. rewrite split_whitespace_cons_solid by done. destruct s as [|d s]; [done|].
  destruct (is_whitespace d); [done|]. by destruct (split_whitespace (d :: s)).
Qed.

Lemma split_whitespace_app_ws s c t :
  is_whitespace c = true ->
  split_whitespace (s ++ c :: t) = split_whitespace s ++ split_whitespace t.
Proof.
  intros Hc. induction s as [|d s IH]; [by apply split_whitespace_ws|].
  change ((d :: s) ++ c :: t) with (d :: (s ++ c :: t)).
  destruct (is_whitespace d) eqn:Hd; [by rewrite !split_whitespace_ws|].
  rewrite !(split_whitespace_cons_solid d) by done. destruct s as [|e s].
  - cbn [app]. by rewrite Hc, split_whitespace_ws.
  - change ((e :: s) ++ c :: t) with (e :: (s ++ c :: t)) in *. destruct (is_whitespace e) eqn:He.
    + by rewrite He, IH.
    + rewrite He, IH. pose proof (split_whitespace_solid_ne e s He) as Hne.
      by destruct (split_whitespace (e :: s)).
Qed.

(** ** Boundaries *)

(** Where a word may end: at the end of the text or before white space. *)
Definition boundary t : Prop := t = [] \/ exists c t', t = c :: t' /\ is_whitespace c = true.

Lemma boundary_ws c t : is_whitespace c = true -> boundary (c :: t).
Proof. intros H. right. by exists c, t. Qed.

Lemma split_whitespace_app s t :
  boundary t -> split_whitespace (s ++ t) = split_whitespace s ++ split_whitespace t.
Proof.
  intros [->|(c & t' & -> & Hc)]; [by rewrite !app_nil_r|].
  by rewrite split_whitespace_app_ws, (split_whitespace_ws c).
Qed.

(** ** Runs *)

(** The text made of a first word and the later ones, each with the white space
    character before it; a word may be empty. *)
Definition run_text (r : N * text) : text := r.1 :: r.2.
Definition unruns (w : text) (rs : list (N * text)) : text := w ++ concat (run_text <$> rs).

Definition runs_ok (w : text) (rs : list (N * text)) : Prop :=
  solid w /\ Forall (fun r => is_whitespace r.1 = true /\ solid r.2) rs.

Lemma runs_exist s : exists w rs, runs_ok w rs /\ s = unruns w rs.
Proof.
  induction s as [|c s (w & rs & [Hw Hrs] & ->)].
  { exists [], []. split; [|done]. split; constructor. }
  destruct (is_whitespace c) eqn:Hc.
  - exists [], ((c, w) :: rs). split; [|done]. split; [constructor|]. by constructor.
  - exists (c :: w), rs. split; [|done]. split; [by constructor|done].
Qed.

Lemma unruns_snoc w rs c v : unruns w (rs ++ [(c, v)]) = unruns w rs ++ c :: v.
Proof.
  unfold unruns. rewrite fmap_app, concat_app. cbn. rewrite app_nil_r. by rewrite (assoc_L (++)).
Qed.

Lemma runs_ok_snoc w rs r :
  runs_ok w (rs ++ [r]) <-> runs_ok w rs /\ is_whitespace r.1 = true /\ solid r.2.
Proof. unfold runs_ok. rewrite Forall_app, Forall_singleton. tauto. Qed.

Definition nonempty (w : text) : bool := negb (w == []).

Lemma split_whitespace_unruns w rs :
  runs_ok w rs -> split_whitespace (unruns w rs) = List.filter nonempty (w :: rs.*2).
Proof.
  assert (Hone : forall v, solid v -> split_whitespace v = List.filter nonempty [v]).
  { intros v Hv. unfold nonempty. simpl. case_bool_decide as Hne; [by subst|].
    by apply split_whitespace_solid. }
  induction rs as [|[c v] rs IH] using rev_ind.
  - intros [Hw _]. unfold unruns. simpl. rewrite app_nil_r. by apply Hone.
  - intros (Hok & Hc & Hv)%runs_ok_snoc. rewrite unruns_snoc, split_whitespace_app_ws, IH, Hone by done.
    rewrite fmap_app. change (w :: rs.*2 ++ [(c, v)].*2) with ((w :: rs.*2) ++ [v]).
    by rewrite List.filter_app.
Qed.

(** ** Trimming *)

Lemma trim_start_matches_spec p s :
  exists t, s = t ++ trim_start_matches p s /\ Forall (fun c => p c = true) t /\
    (forall c, head (trim_start_matches p s) = Some c -> p c = false).
Proof.
  induction s as [|c s (t & Heq & Ht & Hh)]; simpl; [by exists []|].
  destruct (p c) eqn:Hc.
  - exists (c :: t). split; [simpl; by f_equal|]. split; [by constructor|done].
  - exists []. split; [done|]. split; [constructor|]. by intros d [= <-].
Qed.

Lemma trim_end_matches_spec p s :
  exists t, s = trim_end_matches p s ++ t /\ Forall (fun c => p c = true) t /\
    (forall c, last (trim_end_matches p s) = Some c -> p c = false).
Proof.
  unfold trim_end_matches. destruct (trim_start_matches_spec p (reverse s)) as (t & Heq & Ht & Hh).
  exists (reverse t). split; [|split].
  - rewrite <- reverse_app, <- Heq. by rewrite reverse_involutive.
  - by apply Forall_reverse.
  - intros c. rewrite last_reverse. apply Hh.
Qed.

Lemma split_whitespace_all_ws t :
  Forall (fun c => is_whitespace c = true) t -> split_whitespace t = [].
Proof. induction 1; [done|]. by rewrite split_whitespace_ws. Qed.

Lemma split_whitespace_app_all_ws s t :
  Forall (fun c => is_whitespace c = true) t -> split_whitespace (s ++ t) = split_whitespace s.
Proof.
  intros Ht. rewrite split_whitespace_app.
  - by rewrite (split_whitespace_all_ws t), app_nil_r.
  - destruct Ht; [by left|by apply boundary_ws].
Qed.

Lemma split_whitespace_trim_end s : split_whitespace (trim_end s) = split_whitespace s.
Proof.
  destruct (trim_end_matches_spec is_whitespace s) as (t & Heq & Ht & _).
  rewrite Heq at 2. by rewrite split_whitespace_app_all_ws.
Qed.

Lemma trim_end_id s : (forall c, last s = Some c -> is_whitespace c = false) -> trim_end s = s.
Proof.
  intros Hl. unfold trim_end, trim_end_matches. destruct s as [|c s _] using rev_ind; [done|].
  rewrite last_snoc in Hl. rewrite reverse_snoc. cbn [trim_start_matches].
  rewrite (Hl c) by done. by rewrite reverse_cons, reverse_involutive.
Qed.

Lemma trim_end_app_solid s w : solid w -> w <> [] -> trim_end (s ++ w) = s ++ w.
Proof.
  intros Hw Hne. apply trim_end_id. intros c. destruct w as [|d w _] using rev_ind; [done|].
  rewrite (assoc_L (++)), last_snoc. intros [= ->]. apply Forall_app in Hw as [_ Hc].
  by inversion Hc.
Qed.

(** The last word of a text ends it, up to white space. *)
Lemma last_word s w :
  last (split_whitespace s) = Some w ->
  exists p, trim_end s = p ++ w /\ solid w /\ w <> [] /\
    (p = [] \/ exists p' c, p = p' ++ [c] /\ is_whitespace c = true).
Proof.
  rewrite <- split_whitespace_trim_end. pose proof (runs_exist (trim_end s)) as (v & rs & Hok & Heq).
  destruct (trim_end_matches_spec is_whitespace s) as (tail0 & _ & _ & Hl). clear tail0.
  fold (trim_end s) in Hl. revert Hl. rewrite Heq. clear Heq s. intros Hl.
  rewrite split_whitespace_unruns by done.
  destruct rs as [|[c u] rs _] using rev_ind.
  - destruct Hok as [Hv _]. unfold unruns in *. simpl in *. rewrite app_nil_r in *.
    unfold nonempty. case_bool_decide; [done|]. intros [= <-]. exists []. split_and!; auto.
  - apply runs_ok_snoc in Hok as (Hok & Hc & Hu). rewrite unruns_snoc in *.
    rewrite fmap_app. change (v :: rs.*2 ++ [(c, u)].*2) with ((v :: rs.*2) ++ [u]).
    rewrite List.filter_app. destruct u as [|d u].
    + exfalso. specialize (Hl c). rewrite last_snoc in Hl. cbn in Hc. by rewrite Hl in Hc.
    + cbn [List.filter nonempty]. unfold nonempty. cbn. rewrite last_snoc. intros [= <-].
      exists (unruns v rs ++ [c]). split; [by rewrite <- (assoc_L (++))|].
      split; [done|]. split; [done|]. right. by exists (unruns v rs), c.
Qed.

Implicit Types (n d : N).

Definition digits s : Prop := Forall (fun c => is_ascii_digit c = true) s.

Lemma digit_char_digit d : (d < 10)%N -> is_ascii_digit (digit_char d) = true.
Proof.
  intros Hd. unfold is_ascii_digit, digit_char. apply andb_true_iff. rewrite !N.leb_le. lia.
Qed.

Lemma decimal_digits_digits fuel n : digits (decimal_digits fuel n).
Proof.
  revert n. induction fuel as [|fuel IH]; intros n; cbn [decimal_digits]; [constructor|].
  destruct (N.ltb_spec n 10).
  - constructor; [by apply digit_char_digit|constructor].
  - apply Forall_app. split; [apply IH|]. constructor; [|constructor].
    apply digit_char_digit. by apply N.mod_lt.
Qed.

Lemma parse_digits_app acc s t :
  parse_digits acc (s ++ t) = parse_digits acc s ≫= fun acc' => parse_digits acc' t.
Proof.
  revert acc. induction s as [|c s IH]; intros acc; [done|]. cbn [app parse_digits].
  destruct (is_ascii_digit c); [apply IH|done].
Qed.

Lemma parse_digit acc d : (d < 10)%N -> parse_digits acc [digit_char d] = Some (acc * 10 + d)%N.
Proof.
  intros Hd. cbn [parse_digits]. rewrite digit_char_digit by done. unfold digit_char. f_equal. lia.
Qed.

Lemma parse_decimal_digits fuel n :
  (n < 2 ^ N.of_nat fuel)%N -> parse_digits 0 (decimal_digits fuel n) = Some n.
Proof.
  revert n. induction fuel as [|fuel IH]; intros n Hn.
  - change (2 ^ N.of_nat 0)%N with 1%N in Hn. assert (n = 0%N) as -> by lia. done.
  - cbn [decimal_digits]. destruct (N.ltb_spec n 10).
    + by rewrite parse_digit.
    + rewrite parse_digits_app, IH.
      * cbn [mbind option_bind]. rewrite parse_digit by by apply N.mod_lt.
        f_equal. rewrite N.mul_comm. symmetry. by apply N.div_mod.
      * rewrite Nat2N.inj_succ, N.pow_succ_r' in Hn. apply N.Div0.div_lt_upper_bound. lia.
Qed.

Lemma parse_decimal n : parse_digits 0 (decimal n) = Some n.
Proof.
  apply parse_decimal_digits. rewrite Nat2N.inj_succ, N2Nat.id.
  destruct (N.eq_dec n 0%N) as [->|Hn]; [done|]. apply N.log2_spec. lia.
Qed.

Lemma decimal_inj n m : decimal n = decimal m -> n = m.
Proof. intros H. apply (f_equal (parse_digits 0)) in H. rewrite !parse_decimal in H. congruence. Qed.

Lemma decimal_digits_all n : digits (decimal n).
Proof. apply decimal_digits_digits. Qed.

Lemma parse_zeros k s : parse_digits 0 (replicate k (digit_char 0) ++ s) = parse_digits 0 s.
Proof. induction k as [|k IH]; [done|]. cbn. apply IH. Qed.

Lemma parse_zero_padded width n : parse_digits 0 (zero_padded width n) = Some n.
Proof. unfold zero_padded. rewrite parse_zeros. apply parse_decimal. Qed.

Lemma zero_padded_digits width n : digits (zero_padded width n).
Proof.
  unfold zero_padded. apply Forall_app. split; [|apply decimal_digits_all].
  apply Forall_replicate. done.
Qed.

(** The number of digits: [n < 10 ^ k] prints in at most [k] digits. *)
Lemma decimal_digits_length fuel n (k : nat) :
  (0 < k) -> (n < 10 ^ N.of_nat k)%N -> length (decimal_digits fuel n) <= k.
Proof.
  revert n k. induction fuel as [|fuel IH]; intros n k Hk Hn; cbn [decimal_digits]; [simpl; lia|].
  destruct (N.ltb_spec n 10); [simpl; lia|]. rewrite length_app. simpl.
  destruct k as [|[|k]]; [lia|change (10 ^ N.of_nat 1)%N with 10%N in Hn; lia|].
  assert (length (decimal_digits fuel (n / 10)) <= S k); [|lia]. apply IH; [lia|].
  rewrite Nat2N.inj_succ, N.pow_succ_r' in Hn. by apply N.Div0.div_lt_upper_bound.
Qed.

Lemma zero_padded_length (width : nat) n :
  0 < width -> (n < 10 ^ N.of_nat width)%N -> length (zero_padded width n) = width.
Proof.
  intros Hw Hn. unfold zero_padded. rewrite length_app, length_replicate.
  pose proof (decimal_digits_length (S (N.to_nat (N.log2 n))) n width Hw Hn) as Hle.
  fold (decimal n) in Hle. lia.
Qed.

(** ** Order of digit strings of one length *)

Lemma parse_digits_mono s acc : digits s -> exists n, parse_digits acc s = Some n /\
  (acc * 10 ^ N.of_nat (length s) <= n < (acc + 1) * 10 ^ N.of_nat (length s))%N.
Proof.
  intros Hs. revert acc. induction Hs as [|c s Hc Hs IH]; intros acc.
  - exists acc. split; [done|]. change (10 ^ N.of_nat (length (@nil N)))%N with 1%N. lia.
  - cbn [parse_digits]. rewrite Hc. destruct (IH (acc * 10 + (c - 48))%N) as (n & -> & Hlo & Hhi).
    exists n. split; [done|]. cbn [length]. rewrite Nat2N.inj_succ, N.pow_succ_r'.
    unfold is_ascii_digit in Hc. apply andb_true_iff in Hc as [H1 H2]. rewrite N.leb_le in H1, H2.
    set (p := (10 ^ N.of_nat (length s))%N) in *. nia.
Qed.

Lemma text_le_digits s t n m acc (rest rest' : text) :
  digits s -> digits t -> length s = length t ->
  parse_digits acc s = Some n -> parse_digits acc t = Some m -> (n < m)%N ->
  text_le (s ++ rest) (t ++ rest') = true /\ text_le (t ++ rest') (s ++ rest) = false.
Proof.
  intros Hs. revert t acc. induction Hs as [|c s Hc Hs IH]; intros t acc Ht Hlen Hn Hm Hlt.
  - destruct t; [|done]. cbn in Hn, Hm. simplify_eq. lia.
  - destruct Ht as [|d t Hd Ht]; [done|]. cbn [parse_digits] in Hn, Hm. rewrite Hc in Hn.
    rewrite Hd in Hm. injection Hlen as Hlen.
    assert (Hcd : c = d \/ (c < d)%N).
    { destruct (N.lt_trichotomy c d) as [?|[?|Hgt]]; [by right|by left|exfalso].
      destruct (parse_digits_mono s (acc * 10 + (c - 48)) Hs) as (n' & Hn' & Hlo & _).
      destruct (parse_digits_mono t (acc * 10 + (d - 48)) Ht) as (m' & Hm' & _ & Hhi).
      rewrite Hn in Hn'. rewrite Hm in Hm'. simplify_eq. rewrite Hlen in Hlo.
      unfold is_ascii_digit in Hc, Hd. apply andb_true_iff in Hc as [H1 H2], Hd as [H3 H4].
      rewrite N.leb_le in *. set (p := (10 ^ N.of_nat (length t))%N) in *. nia. }
    cbn [app text_le]. destruct Hcd as [->|Hlt'].
    + rewrite N.eqb_refl, N.ltb_irrefl. simpl. by eapply IH.
    + assert ((c <? d)%N = true) as -> by by apply N.ltb_lt.
      assert ((d <? c)%N = false) as -> by (apply N.ltb_ge; lia).
      assert ((d =? c)%N = false) as -> by (apply N.eqb_neq; lia). done.
Qed.

Lemma zero_padded_order (width : nat) n m (rest rest' : text) :
  0 < width -> (m < 10 ^ N.of_nat width)%N -> (n < m)%N ->
  text_le (zero_padded width n ++ rest) (zero_padded width m ++ rest') = true /\
  text_le (zero_padded width m ++ rest') (zero_padded width n ++ rest) = false.
Proof.
  intros Hw Hm Hlt. eapply (text_le_digits _ _ n m 0); try apply zero_padded_digits;
    try apply parse_zero_padded; [|done]. rewrite !zero_padded_length by (done || lia). done.
Qed.

(** A number ends where its digits do. *)
Lemma digits_split s t (c c' : N) (rest rest' : text) :
  digits s -> digits t -> is_ascii_digit c = false -> is_ascii_digit c' = false ->
  s ++ c :: rest = t ++ c' :: rest' -> s = t /\ c :: rest = c' :: rest'.
Proof.
  intros Hs. revert t. induction Hs as [|d s Hd Hs IH]; intros t Ht Hc Hc' Heq.
  - destruct Ht as [|e t He Ht]; [done|]. cbn in Heq. simplify_eq. congruence.
  - destruct Ht as [|e t He Ht]; cbn in Heq; simplify_eq; [congruence|].
    match goal with H : _ ++ _ = _ ++ _ |- _ => destruct (IH t Ht Hc Hc' H) as [-> ?] end. done.
Qed.

Lemma numbered_inj width n m (rest rest' : text) :
  zero_padded width n ++ 45%N :: rest = zero_padded width m ++ 45%N :: rest' -> n = m /\ rest = rest'.
Proof.
  intros Heq. apply digits_split in Heq as [Hz [= ->]]; try apply zero_padded_digits; try done.
  split; [|done]. apply (f_equal (parse_digits 0)) in Hz. rewrite !parse_zero_padded in Hz. congruence.
Qed.
