(* ===== verification/Markers.v ===== *)
(** What marker words say of a task (src/task.rs), and the thinking directive of
    a launch (src/task/thinking.rs). *)
From S2P Require Import Prelude Text.

Module Thinking.
Definition LEVELS : list text :=
  str <$> [""; "low"; "medium"; "high"; "xhigh"; "max"; "ultra"].

(** The level a directive's value names: [Some None] for the default, [None] for
    a value that is prose. *)
Definition directive_level (value : text) : option (option text) :=
  if eq_ignore_ascii_case value (str "default") then Some None
  else Some <$> List.find (eq_ignore_ascii_case value) (tail LEVELS).

(** The token loop: [offset] is where the next token is searched. *)
Fixpoint directives_from (content : text) (offset : nat) (in_comment : bool)
    (tokens : list text) : list (nat * nat * option text) :=
  match tokens with
  | [] => []
  | token :: rest =>
      let start := offset + default 0 (find_text token (from offset content)) in
      let offset := start + length token in
      let in_comment := in_comment || starts_with (str "<!--") token in
      if in_comment then
        directives_from content offset (negb (ends_with (str "-->") token)) rest
      else if negb (token == str "/think") then directives_from content offset false rest
      else
        match rest with
        | [] => []
        | value :: rest' =>
            match directive_level value with
            | None => directives_from content offset false rest
            | Some level =>
                let offset :=
                  offset + default 0 (find_text value (from offset content)) + length value in
                (start, offset, level) :: directives_from content offset false rest'
            end
        end
  end.


Definition directives (content : text) : list (nat * nat * option text) :=
  directives_from content 0 false (split_whitespace content).

Definition read (content : text) : option text :=
  match last (directives content) with
  | Some (_, _, level) => level
  | None => None
  end.

(** One turn of the loop of [strip], on the text left by the later spans. *)
Definition strip_span (result : text) (span : nat * nat) : text :=
  let rest := from span.2 result in
  let span_end := span.2 + (length rest - length (trim_start_matches space_or_tab rest)) in
  let start :=
    if span_end =? span.2 then length (trim_end_matches space_or_tab (upto span.1 result))
    else span.1 in
  remove_range start span_end result.

Definition strip (content : text) : text :=
  trim (foldl strip_span content (reverse (fst <$> directives content))).

Definition position_of_level (current : text) : nat :=
  default 0 (fst <$> list_find (fun level => level = current) LEVELS).

Definition cycle (content : text) : text * option text :=
  let current := default (str "") (read content) in
  let index := position_of_level current in
  let next := default [] (LEVELS !! ((index + 1) mod length LEVELS)) in
  let body := strip content in
  match next with
  | [] => (body, None)
  | _ =>
      let first_line_end := default (length body) (find_char (N.eqb 10) body) in
      (insert_str first_line_end (str " /think " ++ next) body, Some next)
  end.

Definition label (content shown : text) : text :=
  match read content with
  | Some level => str "[think: " ++ level ++ str "] " ++ shown
  | None => shown
  end.

End Thinking.
Export Thinking.

Definition TASK_STOPPED_MARKER : text := str "clt:stopped".
Definition TASK_MANUAL_MARKER : text := str "clt:manual".
Definition TASK_INTERACTIVE_DONE_MARKER : text := str "clt:interactive-done".
Definition CODEX_TASK_SESSION_PREFIX : text := str "codex:".

(** ** Marker words *)

Definition task_content_is_interactive_done (content : text) : bool :=
  existsb (fun word => word == TASK_INTERACTIVE_DONE_MARKER) (split_whitespace content).

Definition task_content_is_manual (content : text) : bool :=
  existsb (fun word => word == TASK_MANUAL_MARKER) (split_whitespace content).

(** One turn of the loop of [task_content_without_marker]: [start] is an
    occurrence in [content], [result] the text left by the later ones. *)
Definition remove_marker_at (content marker result : text) (start : nat) : text :=
  let stop := start + length marker in
  if ((start =? 0) || ends_with_char is_whitespace (upto start content))
     && ((stop =? length content) || starts_with_char is_whitespace (from stop content))
  then
    let start := if ends_with_char (N.eqb 32) (upto start content) then start - 1 else start in
    remove_range start stop result
  else result.

Definition task_content_without_marker (content marker : text) : text :=
  trim_end (foldl (remove_marker_at content marker) content (rmatch_indices marker content)).

Definition task_content_without_interactive_done_marker (content : text) : text :=
  task_content_without_marker content TASK_INTERACTIVE_DONE_MARKER.
Definition task_content_without_manual_marker (content : text) : text :=
  task_content_without_marker content TASK_MANUAL_MARKER.

Definition task_content_is_stopped (content : text) : bool :=
  last (split_whitespace content) == Some TASK_STOPPED_MARKER.

Definition task_content_without_stop_marker (content : text) : text :=
  if task_content_is_stopped content
  then trim_end (default [] (strip_suffix TASK_STOPPED_MARKER (trim_end content)))
  else content.

(** ** The conversation link *)

Definition session_id_char (c : N) : bool := is_ascii_alphanumeric c || (c =? 45)%N.
Definition session_id_is_valid (session_id : text) : bool :=
  negb (session_id == []) && forallb session_id_char session_id.

Definition codex_session_id_from_task_content (content : text) : option text :=
  marker ← last (split_whitespace content);
  session_id ← strip_prefix CODEX_TASK_SESSION_PREFIX marker;
  if session_id_is_valid session_id then Some session_id else None.

(** The marker that starts at [start], if it is a whole word. *)
Definition codex_marker_at (content : text) (start : nat) : option (nat * nat * text) :=
  if (0 <? start) && negb (ends_with_char is_whitespace (upto start content)) then None
  else
    let marker := from start content in
    let stop := default (length content) (Nat.add start <$> find_char is_whitespace marker) in
    session_id ← strip_prefix CODEX_TASK_SESSION_PREFIX (slice start stop content);
    if session_id_is_valid session_id then Some (start, stop, session_id) else None.

Definition codex_session_markers_in_task_content (content : text) : list (nat * nat * text) :=
  omap (codex_marker_at content) (match_indices CODEX_TASK_SESSION_PREFIX content).

Definition codex_session_id_is_uuid (session_id : text) : bool :=
  (utf8_len session_id == 36%Z)
  && forallb
       (fun ib : nat * N =>
          if existsb (Nat.eqb ib.1) [8; 13; 18; 23] then (ib.2 =? 45)%N
          else is_ascii_hexdigit ib.2)
       (imap pair session_id).

(** A marker that is not the last word counts when it is a UUID or ends its
    line. *)
Definition marker_is_recoverable (content : text) (m : nat * nat * text) : bool :=
  let '(_, stop, session_id) := m in
  codex_session_id_is_uuid session_id
  || starts_with_char (N.eqb 13) (from stop content)
  || starts_with_char (N.eqb 10) (from stop content).

Definition recoverable_codex_session_id_from_task_content (content : text) : option text :=
  let content := task_content_without_stop_marker content in
  match codex_session_id_from_task_content content with
  | Some session_id => Some session_id
  | None =>
      match List.filter (marker_is_recoverable content)
              (codex_session_markers_in_task_content content) with
      | [] => None
      | (_, _, session_id) :: markers =>
          if forallb (fun m => m.2 == session_id) markers then Some session_id else None
      end
  end.

Definition task_content_without_codex_session (content : text) : text :=
  let trimmed := trim_end content in
  match codex_session_id_from_task_content trimmed with
  | None => trimmed
  | Some session_id =>
      let marker_len := length CODEX_TASK_SESSION_PREFIX + length session_id in
      trim_end (upto (length trimmed - marker_len) trimmed)
  end.

(** One turn of the loop of [task_content_without_matching_codex_sessions]. *)
Definition copy_before_marker (content session_id : text) (acc : text * nat)
    (m : nat * nat * text) : text * nat :=
  let '(result, cursor) := acc in
  let '(start, stop, candidate) := m in
  if negb (candidate == session_id) then acc
  else
    let removal_start :=
      if ends_with_char space_or_tab (upto start content) then start - 1
      else start in
    (result ++ slice cursor removal_start content, stop).

Definition task_content_without_matching_codex_sessions (content session_id : text) : text :=
  let '(result, cursor) :=
    foldl (copy_before_marker content session_id) ([], 0)
      (codex_session_markers_in_task_content content) in
  trim_end (result ++ from cursor content).

Definition task_content_without_recoverable_codex_session (content : text) : text :=
  let trimmed := trim_end content in
  match recoverable_codex_session_id_from_task_content trimmed with
  | Some session_id => task_content_without_matching_codex_sessions trimmed session_id
  | None => trimmed
  end.

Definition task_content_with_codex_session (content session_id : text) : text :=
  let stopped := task_content_is_stopped content in
  let content := task_content_without_codex_session (task_content_without_stop_marker content) in
  let content := task_content_without_matching_codex_sessions content session_id in
  let linked :=
    match content with
    | [] => CODEX_TASK_SESSION_PREFIX ++ session_id
    | _ => content ++ str " " ++ CODEX_TASK_SESSION_PREFIX ++ session_id
    end in
  if stopped then linked ++ str " " ++ TASK_STOPPED_MARKER else linked.

Definition task_content_with_interactive_done_marker (content : text) : text :=
  let stopped := task_content_is_stopped content in
  let content := task_content_without_stop_marker content in
  let session := recoverable_codex_session_id_from_task_content content in
  let unlinked := task_content_without_recoverable_codex_session content in
  let unmarked := task_content_without_interactive_done_marker unlinked in
  let marked := trim_end unmarked ++ str " " ++ TASK_INTERACTIVE_DONE_MARKER in
  let linked :=
    match session with
    | Some session => task_content_with_codex_session marked session
    | None => marked
    end in
  if stopped then linked ++ str " " ++ TASK_STOPPED_MARKER else linked.

Definition task_content_with_manual_session (content session_id : text) : text :=
  let content :=
    task_content_without_recoverable_codex_session (task_content_without_stop_marker content) in
  let content := task_content_without_manual_marker content in
  task_content_with_codex_session (trim_end content ++ str " " ++ TASK_MANUAL_MARKER) session_id.
