(* ===== verification/MarkerLemmas.v ===== *)
(** Lemmas on markers and on the link of a task to its conversation: words found,
    removed and added leave the others alone. *)
From S2P Require Import Prelude Text TextLemmas Markers.

Implicit Types (s t w v pat m : text) (c : N).

(** ** Occurrences *)

Lemma starts_with_app_ws pat s c t :
  solid pat -> is_whitespace c = true -> starts_with pat (s ++ c :: t) = starts_with pat s.
Proof.
  intros Hp Hc. apply eq_true_iff_eq. rewrite !starts_with_spec. split.
  - revert s. induction Hp as [|p pat Hpc Hp IH]; intros s [r Hr]; [by exists s|].
    destruct s as [|d s]; injection Hr as -> Hr; [congruence|].
    destruct (IH s) as [r' ->]; [by exists r|]. by exists r'.
  - intros [r ->]. exists (r ++ c :: t). by rewrite (assoc_L (++)).
Qed.

Lemma starts_with_length pat s : starts_with pat s = true -> length pat <= length s.
Proof. intros [r ->]%starts_with_spec. rewrite length_app. lia. Qed.

Lemma match_indices_shift pat skip off k s :
  match_indices_from pat skip (off + k) s = Nat.add k <$> match_indices_from pat skip off s.
Proof.
  revert skip off. induction s as [|c s IH]; intros skip off; simpl; [done|].
  destruct skip; [destruct (starts_with pat (c :: s))|]; simpl;
    rewrite <- (IH _ (S off)); (f_equal; lia) || done.
Qed.

Lemma match_indices_app pat skip off s c t :
  solid pat -> pat <> [] -> is_whitespace c = true -> skip <= length s ->
  match_indices_from pat skip off (s ++ c :: t) =
  match_indices_from pat skip off s ++ match_indices_from pat 0 (off + S (length s)) t.
Proof.
  intros Hp Hne Hc. revert skip off. induction s as [|d s IH]; intros skip off Hskip; simpl in Hskip.
  - assert (skip = 0) as -> by lia. cbn [app match_indices_from].
    rewrite (starts_with_app_ws pat [] c t Hp Hc : starts_with pat (c :: t) = _).
    destruct pat; [done|]. cbn. f_equal. lia.
  - change ((d :: s) ++ c :: t) with (d :: (s ++ c :: t)). cbn [match_indices_from].
    destruct skip as [|skip].
    + change (d :: s ++ c :: t) with ((d :: s) ++ c :: t). rewrite starts_with_app_ws by done.
      destruct (starts_with pat (d :: s)) eqn:Hs.
      * apply starts_with_length in Hs. simpl in Hs. rewrite IH by lia. simpl. do 3 f_equal. lia.
      * rewrite IH by lia. simpl. do 2 f_equal. lia.
    + rewrite IH by lia. do 2 f_equal. simpl. lia.
Qed.

Lemma match_indices_snoc pat s c w :
  solid pat -> pat <> [] -> is_whitespace c = true ->
  match_indices pat (s ++ c :: w) =
  match_indices pat s ++ (Nat.add (S (length s)) <$> match_indices pat w).
Proof.
  intros Hp Hne Hc. unfold match_indices. rewrite match_indices_app by (done || lia).
  by rewrite <- match_indices_shift.
Qed.

Lemma match_indices_sound pat skip off s i :
  i ∈ match_indices_from pat skip off s ->
  off <= i /\ starts_with pat (drop (i - off) s) = true.
Proof.
  revert skip off. induction s as [|c s IH]; intros skip off; simpl; [by intros ?%elem_of_nil|].
  assert (Hrec : forall skip, i ∈ match_indices_from pat skip (S off) s ->
    off <= i /\ starts_with pat (drop (i - off) (c :: s)) = true).
  { intros k Hi. destruct (IH _ _ Hi) as [Hle Hs]. split; [lia|].
    by replace (i - off) with (S (i - S off)) by lia. }
  destruct skip as [|skip]; [|apply Hrec].
  destruct (starts_with pat (c :: s)) eqn:Hs; [|apply Hrec].
  intros [->|Hi]%elem_of_cons; [|by eapply Hrec]. by rewrite Nat.sub_diag.
Qed.

Lemma match_indices_bound pat s i : pat <> [] -> i ∈ match_indices pat s -> i + length pat <= length s.
Proof.
  intros Hne Hi. apply match_indices_sound in Hi as [_ Hs]. rewrite Nat.sub_0_r in Hs.
  apply starts_with_length in Hs. rewrite length_drop in Hs. destruct pat; [done|]. simpl in *. lia.
Qed.

Lemma match_indices_self pat : pat <> [] -> match_indices pat pat = [0].
Proof.
  intros Hne. destruct pat as [|c pat]; [done|]. unfold match_indices. cbn [match_indices_from].
  assert (starts_with (c :: pat) (c :: pat) = true) as ->.
  { apply starts_with_spec. exists []. by rewrite app_nil_r. }
  f_equal. assert (Hgen : forall s skip off, length s <= skip ->
    match_indices_from (c :: pat) skip off s = []).
  { induction s as [|d s IH]; intros skip off; simpl; [done|]. destruct skip; [lia|].
    intros. apply IH. lia. }
  apply Hgen. simpl. lia.
Qed.

(** ** Occurrences from the right *)

Lemma rmatch_indices_bound pat s i :
  pat <> [] -> i ∈ rmatch_indices pat s -> i + length pat <= length s.
Proof.
  intros Hne. unfold rmatch_indices. intros (j & -> & Hj)%list_elem_of_fmap.
  apply match_indices_bound in Hj; [|by destruct pat using rev_ind; [done|rewrite reverse_snoc]].
  rewrite !length_reverse in Hj. lia.
Qed.

Lemma solid_reverse w : solid w -> solid (reverse w).
Proof. apply Forall_reverse. Qed.

Lemma reverse_ne pat : pat <> [] -> reverse pat <> [].
Proof. intros Hne H. apply (f_equal reverse) in H. by rewrite reverse_involutive in H. Qed.

Lemma rmatch_indices_snoc pat s c w :
  solid pat -> pat <> [] -> is_whitespace c = true ->
  rmatch_indices pat (s ++ c :: w) =
  (Nat.add (S (length s)) <$> rmatch_indices pat w) ++ rmatch_indices pat s.
Proof.
  intros Hp Hne Hc. unfold rmatch_indices.
  rewrite reverse_app, reverse_cons, <- (assoc_L (++)). cbn [app].
  rewrite match_indices_snoc by (done || by apply solid_reverse || by apply reverse_ne).
  rewrite fmap_app, <- !list_fmap_compose. f_equal; apply list_fmap_ext; intros k i Hi; simpl.
  - apply list_elem_of_lookup_2, match_indices_bound in Hi; [|by apply reverse_ne].
    rewrite !length_reverse in Hi. rewrite length_app. simpl. lia.
  - rewrite length_app, length_reverse. simpl. lia.
Qed.

Lemma rmatch_indices_self pat : pat <> [] -> rmatch_indices pat pat = [0].
Proof.
  intros Hne. unfold rmatch_indices. rewrite match_indices_self by by apply reverse_ne.
  cbn. f_equal. lia.
Qed.

(** An occurrence at the start that reaches the end is the text itself. *)
Lemma rmatch_indices_whole pat w :
  pat <> [] -> 0 ∈ rmatch_indices pat w -> length pat = length w -> w = pat.
Proof.
  intros Hne. unfold rmatch_indices. intros (j & Hj0 & Hj)%list_elem_of_fmap Hlen.
  pose proof (match_indices_bound _ _ _ (reverse_ne _ Hne) Hj) as Hb. rewrite !length_reverse in Hb.
  assert (j = 0) as -> by lia. apply match_indices_sound in Hj as [_ [r Hr]%starts_with_spec].
  simpl in Hr. rewrite drop_0 in Hr. apply (f_equal reverse) in Hr.
  rewrite reverse_app, !reverse_involutive in Hr. rewrite Hr in *.
  rewrite length_app, length_reverse in Hlen. destruct r; [done|simpl in Hlen; lia].
Qed.

(** ** Cutting a word out *)

Section Cut.
Context (m : text) (Hm : solid m) (Hne : m <> []).
(** The white space before a marker that goes with it. *)
Context (goes : N -> bool).

Definition kept_run (r : N * text) : text :=
  if r.2 == m then (if goes r.1 then [] else [r.1]) else run_text r.

Definition without_word (w : text) (rs : list (N * text)) : text :=
  (if w == m then [] else w) ++ concat (kept_run <$> rs).

Lemma without_word_snoc w rs r : without_word w (rs ++ [r]) = without_word w rs ++ kept_run r.
Proof.
  unfold without_word. rewrite fmap_app, concat_app. cbn. rewrite app_nil_r.
  by rewrite (assoc_L (++)).
Qed.

Lemma without_word_words w rs :
  runs_ok w rs ->
  split_whitespace (without_word w rs) =
  List.filter (fun v => negb (v == m)) (split_whitespace (unruns w rs)).
Proof.
  assert (Hone : forall v, solid v -> v <> m ->
    split_whitespace v = List.filter (fun v => negb (v == m)) (split_whitespace v)).
  { intros v Hv Hvm. destruct (decide (v = [])) as [->|Hv0]; [done|].
    rewrite split_whitespace_solid by done. simpl. by rewrite bool_decide_false. }
  induction rs as [|[c v] rs IH] using rev_ind.
  - intros [Hw _]. unfold without_word, unruns. cbn. rewrite !app_nil_r.
    case_bool_decide as Hwm; [|by apply Hone]. subst.
    rewrite (split_whitespace_solid m) by done. simpl. by rewrite bool_decide_true.
  - intros (Hok & Hc & Hv)%runs_ok_snoc. simpl in Hc, Hv.
    rewrite without_word_snoc, unruns_snoc, split_whitespace_app_ws, List.filter_app, <- IH by done.
    unfold kept_run. simpl. case_bool_decide as Hvm.
    + subst v. rewrite (split_whitespace_solid m) by done. simpl. rewrite bool_decide_true by done.
      simpl. rewrite app_nil_r. destruct (goes c); [by rewrite app_nil_r|].
      apply split_whitespace_app_all_ws. by constructor.
    + unfold run_text. simpl. by rewrite split_whitespace_app_ws, <- Hone.
Qed.
End Cut.

(** ** The loop that cuts a marker *)

Lemma foldl_noop {A B} (f : A -> B -> A) (a : A) (l : list B) :
  (forall b, b ∈ l -> f a b = a) -> foldl f a l = a.
Proof.
  intros H. induction l as [|b l IH]; [done|]. simpl. rewrite H by left. apply IH.
  intros b' Hb'. apply H. by right.
Qed.

Lemma starts_with_char_boundary v (T : text) :
  solid v -> boundary T -> v <> [] -> starts_with_char is_whitespace (v ++ T) = false.
Proof. intros Hv _ Hne. destruct Hv; [done|done]. Qed.

Lemma boundary_test (T : text) (n : nat) :
  boundary T -> (n =? n + length T) || starts_with_char is_whitespace T = true.
Proof.
  intros [->|(c & t & -> & Hc)]; [simpl; by rewrite Nat.add_0_r, Nat.eqb_refl|].
  simpl. rewrite Hc. apply orb_true_r.
Qed.

Lemma ends_with_char_snoc (p : N -> bool) s c : ends_with_char p (s ++ [c]) = p c.
Proof. unfold ends_with_char. by rewrite last_snoc. Qed.

(** Inside a run only an occurrence that is the whole run passes the tests. *)
Lemma marker_tests m L v T i :
  solid v -> m <> [] -> boundary T -> (L = [] \/ ends_with_char is_whitespace L = true) ->
  i ∈ rmatch_indices m v ->
  let content := L ++ v ++ T in
  let start := length L + i in
  let stop := start + length m in
  ((start =? 0) || ends_with_char is_whitespace (upto start content))
     && ((stop =? length content) || starts_with_char is_whitespace (from stop content))
  = bool_decide (v = m).
Proof.
  intros Hv Hm HT HL Hi. cbv zeta. pose proof (rmatch_indices_bound _ _ _ Hm Hi) as Hb.
  unfold upto, from. destruct (decide (i = 0)) as [->|Hi0].
  - rewrite Nat.add_0_r, take_app_length.
    assert (((length L =? 0) || ends_with_char is_whitespace L) = true) as ->.
    { destruct HL as [->| ->]; [done|apply orb_true_r]. }
    simpl. rewrite <- drop_drop, drop_app_length. case_bool_decide as Hvm.
    + subst v. rewrite drop_app_length, !length_app. rewrite Nat.add_assoc. by apply boundary_test.
    + assert (Hlt : length m < length v).
      { destruct (decide (length m = length v)) as [Hl|]; [|lia].
        destruct Hvm. by apply rmatch_indices_whole. }
      rewrite drop_app_le by lia. rewrite !length_app.
      destruct (Nat.eqb_spec (length L + length m) (length L + (length v + length T))); [lia|].
      apply starts_with_char_boundary; [by apply Forall_drop|done|].
      intros H. apply (f_equal length) in H. rewrite length_drop in H. simpl in H. lia.
  - assert (Hlen : 0 < length m) by (destruct m; [done|simpl; lia]).
    rewrite bool_decide_false by (intros ->; rewrite rmatch_indices_self in Hi by done; set_solver).
    apply andb_false_intro1. apply orb_false_intro; [apply Nat.eqb_neq; lia|].
    rewrite take_app_add. destruct i as [|i]; [done|].
    rewrite take_app_le by lia. destruct (v !! i) as [c|] eqn:Hc.
    + rewrite (take_S_r v i c Hc), (assoc_L (++)), ends_with_char_snoc.
      by eapply Forall_lookup_1 in Hv.
    + apply lookup_ge_None_1 in Hc. lia.
Qed.

Section Removal.
Context (m : text) (Hm : solid m) (Hne : m <> []).

Lemma remove_marker_run L v T R :
  solid v -> boundary T -> (L = [] \/ ends_with_char is_whitespace L = true) ->
  foldl (remove_marker_at (L ++ v ++ T) m) (L ++ v ++ R)
    (Nat.add (length L) <$> rmatch_indices m v) =
  (if v == m then (if ends_with_char (N.eqb 32) L then take (length L - 1) L else L)
   else L ++ v) ++ R.
Proof.
  intros Hv HT HL. case_bool_decide as Hvm.
  - subst v. rewrite rmatch_indices_self by done. cbn [fmap list_fmap foldl].
    unfold remove_marker_at. rewrite marker_tests by (done || rewrite rmatch_indices_self; set_solver).
    rewrite bool_decide_true, Nat.add_0_r by done. unfold upto. rewrite take_app_length.
    assert (Hdrop : drop (length L + length m) (L ++ m ++ R) = R).
    { by rewrite <- drop_drop, !drop_app_length. }
    unfold remove_range. destruct (ends_with_char (N.eqb 32) L); rewrite Hdrop; f_equal.
    + by rewrite take_app_le by lia.
    + by rewrite take_app_length.
  - rewrite foldl_noop; [by rewrite <- (assoc_L (++))|].
    intros b (i & -> & Hi)%list_elem_of_fmap. unfold remove_marker_at.
    by rewrite marker_tests, bool_decide_false.
Qed.

Lemma remove_marker_runs w rs T R :
  runs_ok w rs -> boundary T ->
  foldl (remove_marker_at (unruns w rs ++ T) m) (unruns w rs ++ R) (rmatch_indices m (unruns w rs)) =
  without_word m (N.eqb 32) w rs ++ R.
Proof.
  revert T R. induction rs as [|[c v] rs IH] using rev_ind; intros T R Hok HT.
  - destruct Hok as [Hw _]. unfold unruns, without_word. cbn. rewrite !app_nil_r.
    pose proof (remove_marker_run [] w T R Hw HT (or_introl eq_refl)) as Hrun. simpl in Hrun.
    rewrite list_fmap_id in Hrun. rewrite Hrun. unfold ends_with_char. cbn. done.
  - apply runs_ok_snoc in Hok as (Hok & Hc & Hv). simpl in Hc, Hv.
    rewrite unruns_snoc, rmatch_indices_snoc, foldl_app, without_word_snoc by done.
    set (L := unruns w rs) in *.
    pose proof (remove_marker_run (L ++ [c]) v T R Hv HT) as Hrun.
    rewrite length_app, Nat.add_1_r, ends_with_char_snoc, <- !(assoc_L (++)) in Hrun. cbn [app] in Hrun.
    rewrite <- !(assoc_L (++)). cbn [app].
    rewrite Hrun by (right; done). clear Hrun.
    assert (HT' : boundary (c :: v ++ T)) by by apply boundary_ws.
    rewrite ends_with_char_snoc. unfold kept_run, run_text. cbn [fst snd].
    rewrite Nat.sub_1_r, Nat.pred_succ, take_app_length.
    case_bool_decide as Hvm; [destruct (N.eqb 32 c)|].
    + by apply IH.
    + rewrite <- (assoc_L (++)). by apply IH.
    + rewrite <- (assoc_L (++)). by apply IH.
Qed.

(** The whole loop: what is left, and its words. *)
Lemma task_content_without_marker_runs w rs :
  runs_ok w rs ->
  task_content_without_marker (unruns w rs) m = trim_end (without_word m (N.eqb 32) w rs).
Proof.
  intros Hok. unfold task_content_without_marker. f_equal.
  pose proof (remove_marker_runs w rs [] [] Hok (or_introl eq_refl)) as H. by rewrite !app_nil_r in H.
Qed.

Lemma task_content_without_marker_words content :
  split_whitespace (task_content_without_marker content m) =
  List.filter (fun v => negb (v == m)) (split_whitespace content).
Proof.
  destruct (runs_exist content) as (w & rs & Hok & ->).
  rewrite task_content_without_marker_runs, split_whitespace_trim_end by done.
  by apply without_word_words.
Qed.
End Removal.

(** ** Conversation links *)

Lemma prefix_solid : solid CODEX_TASK_SESSION_PREFIX.
Proof. by apply (bool_decide_unpack (solid CODEX_TASK_SESSION_PREFIX)). Qed.

(** The session a word links to. *)
Definition session_of_word (v : text) : option text :=
  session_id ← strip_prefix CODEX_TASK_SESSION_PREFIX v;
  if session_id_is_valid session_id then Some session_id else None.

Lemma find_char_run v (T : text) :
  solid v -> boundary T ->
  default (length v + length T) (find_char is_whitespace (v ++ T)) = length v.
Proof.
  intros Hv HT. assert (Hf : find_char is_whitespace (v ++ T) =
    Nat.add (length v) <$> find_char is_whitespace T).
  { induction Hv as [|c v Hc Hv IH]; simpl; [by destruct (find_char _ T)|].
    rewrite Hc, IH. by destruct (find_char _ T). }
  rewrite Hf. destruct HT as [->|(c & t & -> & Hc)]; simpl; [lia|]. rewrite Hc. simpl. lia.
Qed.

Lemma codex_marker_at_run L v T i :
  solid v -> boundary T -> (L = [] \/ ends_with_char is_whitespace L = true) -> i < length v ->
  codex_marker_at (L ++ v ++ T) (length L + i) =
  if i =? 0 then (fun s => (length L, length L + length v, s)) <$> session_of_word v else None.
Proof.
  intros Hv HT HL Hi. unfold codex_marker_at, upto, from. rewrite take_app_add.
  destruct i as [|i]; cbn [Nat.eqb].
  - rewrite Nat.add_0_r, take_0, app_nil_r.
    assert ((0 <? length L) && negb (ends_with_char is_whitespace L) = false) as ->.
    { destruct HL as [->| ->]; [done|apply andb_false_r]. }
    rewrite drop_app_length, !length_app. set (stop := default _ _).
    assert (stop = length L + length v) as ->.
    { unfold stop. rewrite <- (find_char_run v T Hv HT) at 2.
      destruct (find_char is_whitespace (v ++ T)); simpl; lia. }
    unfold slice. rewrite (assoc_L (++)), <- (length_app L v), take_app_length, drop_app_length.
    rewrite length_app. unfold session_of_word.
    destruct (strip_prefix _ v) as [s|]; [|done]. cbn. by destruct (session_id_is_valid s).
  - rewrite take_app_le by lia. destruct (lookup_lt_is_Some_2 v i) as [c Hc]; [lia|].
    rewrite (take_S_r v i c Hc), (assoc_L (++)), ends_with_char_snoc.
    eapply Forall_lookup_1 in Hv; [|done]. simpl in Hv. rewrite Hv.
    destruct (Nat.ltb_spec 0 (length L + S i)); [done|lia].
Qed.

Lemma omap_none {A B} (f : A -> option B) (l : list A) :
  (forall x, x ∈ l -> f x = None) -> omap f l = [].
Proof. apply omap_nil_iff. Qed.

Lemma markers_of_run L v T :
  solid v -> boundary T -> (L = [] \/ ends_with_char is_whitespace L = true) ->
  omap (codex_marker_at (L ++ v ++ T))
    (Nat.add (length L) <$> match_indices CODEX_TASK_SESSION_PREFIX v) =
  match session_of_word v with
  | Some s => [(length L, length L + length v, s)]
  | None => []
  end.
Proof.
  intros Hv HT HL. destruct v as [|c v]; [done|]. unfold match_indices. cbn [match_indices_from].
  assert (Hlater : forall skip, omap (codex_marker_at (L ++ (c :: v) ++ T))
    (Nat.add (length L) <$> match_indices_from CODEX_TASK_SESSION_PREFIX skip 1 v) = []).
  { intros skip. apply omap_none. intros x (i & -> & Hi)%list_elem_of_fmap.
    pose proof (match_indices_sound _ _ _ _ _ Hi) as [Hle Hs]. apply starts_with_length in Hs.
    rewrite length_drop in Hs.
    change (length CODEX_TASK_SESSION_PREFIX) with 6 in Hs.
    rewrite codex_marker_at_run by (done || simpl; lia).
    destruct i; [lia|done]. }
  destruct (starts_with CODEX_TASK_SESSION_PREFIX (c :: v)) eqn:Hs.
  - rewrite fmap_cons. cbn [omap list_omap]. rewrite codex_marker_at_run by (done || simpl; lia).
    cbn [Nat.eqb]. fold (omap (M := list) (codex_marker_at (L ++ (c :: v) ++ T))).
    rewrite Hlater. by destruct (session_of_word (c :: v)).
  - rewrite Hlater. unfold session_of_word. destruct (strip_prefix _ (c :: v)) eqn:Hp; [|done].
    unfold starts_with in Hs. by rewrite Hp in Hs.
Qed.

Definition link (session_id : text) : text := CODEX_TASK_SESSION_PREFIX ++ session_id.

Lemma session_of_word_link s v :
  session_id_is_valid s = true -> (session_of_word v = Some s <-> v = link s).
Proof.
  intros Hs. unfold session_of_word, link. destruct (strip_prefix _ v) as [t|] eqn:Hp.
  - apply strip_prefix_spec in Hp as ->. cbn. destruct (session_id_is_valid t) eqn:Ht.
    + split; [by intros [= ->]|]. by intros ->%app_inv_head.
    + split; [done|]. intros ->%app_inv_head. congruence.
  - split; [done|]. intros ->. by rewrite strip_prefix_app in Hp.
Qed.

Section Links.
Context (s : text) (Hs : session_id_is_valid s = true).

(** The state of the copying loop after the markers of [X]: what it has written
    and what it still has to copy are the text without the links. *)
Definition copied (X : text) (acc : text * nat) (kept : text) : Prop :=
  acc.2 <= length X /\ acc.1 ++ drop acc.2 X = kept.

Lemma copy_run L v T acc kept :
  solid v -> boundary T -> (L = [] \/ ends_with_char is_whitespace L = true) ->
  acc.2 <= length L - 1 \/ (acc.2 <= length L /\ ends_with_char space_or_tab L = false) ->
  acc.1 ++ drop acc.2 L = kept ->
  copied (L ++ v)
    (foldl (copy_before_marker (L ++ v ++ T) s) acc
       (omap (codex_marker_at (L ++ v ++ T))
          (Nat.add (length L) <$> match_indices CODEX_TASK_SESSION_PREFIX v)))
    (if v == link s
     then (if ends_with_char space_or_tab L then acc.1 ++ drop acc.2 (take (length L - 1) L)
           else kept)
     else kept ++ v).
Proof.
  intros Hv HT HL Hacc Hkept. rewrite markers_of_run by done. destruct acc as [res cur].
  simpl in *. assert (Hcur : cur <= length L) by (destruct Hacc as [?|[? _]]; lia).
  assert (Hsame : copied (L ++ v) (res, cur) (kept ++ v)).
  { split; [simpl; rewrite length_app; lia|]. simpl. rewrite drop_app_le by done.
    by rewrite (assoc_L (++)), Hkept. }
  destruct (session_of_word v) as [s'|] eqn:Hv'.
  - cbn [foldl]. unfold copy_before_marker. case_bool_decide as Hss; cbn [negb].
    + subst s'. apply session_of_word_link in Hv'; [|done]. rewrite bool_decide_true by done.
      split; [simpl; by rewrite length_app|]. simpl.
      rewrite drop_ge by (rewrite length_app; lia). rewrite app_nil_r.
      unfold slice, upto. rewrite take_app_length.
      destruct (ends_with_char space_or_tab L) eqn:Hend.
      * by rewrite take_app_le by lia.
      * by rewrite take_app_length.
    + rewrite bool_decide_false; [done|]. intros Hl%(session_of_word_link s); [|done].
      congruence.
  - simpl. rewrite bool_decide_false; [done|]. intros Hl%(session_of_word_link s); [|done]. congruence.
Qed.

(** With the white space character that precedes the run. *)
Lemma copy_first_run w T :
  solid w -> boundary T ->
  copied w
    (foldl (copy_before_marker (w ++ T) s) ([], 0)
       (omap (codex_marker_at (w ++ T)) (match_indices CODEX_TASK_SESSION_PREFIX w)))
    (if w == link s then [] else w).
Proof.
  intros Hw HT. pose proof (copy_run [] w T ([], 0) [] Hw HT (or_introl eq_refl)) as H.
  simpl in H. rewrite list_fmap_id in H. apply H; [by right|done].
Qed.

Lemma copy_runs w rs T :
  runs_ok w rs -> boundary T ->
  copied (unruns w rs)
    (foldl (copy_before_marker (unruns w rs ++ T) s) ([], 0)
       (omap (codex_marker_at (unruns w rs ++ T))
          (match_indices CODEX_TASK_SESSION_PREFIX (unruns w rs))))
    (without_word (link s) space_or_tab w rs).
Proof.
  revert T. induction rs as [|[c v] rs IH] using rev_ind; intros T Hok HT.
  - destruct Hok as [Hw _]. unfold unruns, without_word. cbn. rewrite !app_nil_r.
    by apply copy_first_run.
  - apply runs_ok_snoc in Hok as (Hok & Hc & Hv). simpl in Hc, Hv.
    rewrite unruns_snoc, match_indices_snoc, omap_app, foldl_app, without_word_snoc
      by (done || apply prefix_solid).
    set (L := unruns w rs) in *.
    assert (HT' : boundary (c :: v ++ T)) by by apply boundary_ws.
    pose proof (IH (c :: v ++ T) Hok HT') as Hcopied. rewrite <- (assoc_L (++)). cbn [app].
    destruct (foldl (copy_before_marker (L ++ c :: v ++ T) s) ([], 0)
         (omap (codex_marker_at (L ++ c :: v ++ T)) (match_indices CODEX_TASK_SESSION_PREFIX L)))
      as [res cur]. destruct Hcopied as [Hcur Hkept]. cbn [fst snd] in Hcur, Hkept.
    pose proof (copy_run (L ++ [c]) v T (res, cur)
      (without_word (link s) space_or_tab w rs ++ [c]) Hv HT) as Hrun.
    rewrite ends_with_char_snoc, length_app, Nat.add_1_r, <- !(assoc_L (++)) in Hrun.
    cbn [app fst snd] in Hrun.
    unfold kept_run, run_text. cbn [fst snd].
    rewrite !Nat.sub_1_r, !Nat.pred_succ, take_app_length, Hkept in Hrun.
    rewrite ends_with_char_snoc in Hrun.
    assert (Hfinal : res ++ drop cur (L ++ [c]) = without_word (link s) space_or_tab w rs ++ [c]).
    { by rewrite drop_app_le, (assoc_L (++)), Hkept. }
    specialize (Hrun (or_intror Hc) (or_introl Hcur) Hfinal).
    destruct (v == link s); [|done]. destruct (space_or_tab c); [by rewrite app_nil_r|done].
Qed.

Lemma link_solid : solid (link s).
Proof.
  unfold link. apply Forall_app. split; [apply prefix_solid|].
  unfold session_id_is_valid in Hs. apply andb_true_iff in Hs as [_ Hall].
  rewrite forallb_elem_of in Hall. apply Forall_forall. intros c Hc. specialize (Hall c Hc).
  unfold session_id_char, is_ascii_alphanumeric, is_ascii_alphabetic, is_ascii_lowercase,
    is_ascii_uppercase, is_ascii_digit in Hall. unfold is_whitespace.
  repeat rewrite ?orb_true_iff, ?andb_true_iff, ?orb_false_iff, ?andb_false_iff,
    ?N.leb_le, ?N.eqb_eq, ?N.eqb_neq, ?N.leb_gt in *. lia.
Qed.

Lemma link_ne : link s <> [].
Proof. unfold link. done. Qed.

Lemma without_matching_sessions_runs w rs :
  runs_ok w rs ->
  task_content_without_matching_codex_sessions (unruns w rs) s =
  trim_end (without_word (link s) space_or_tab w rs).
Proof.
  intros Hok. unfold task_content_without_matching_codex_sessions,
    codex_session_markers_in_task_content.
  destruct (copy_runs w rs [] Hok (or_introl eq_refl)) as [_ Hkept]. rewrite !app_nil_r in Hkept.
  destruct (foldl _ _ _) as [res cur]. simpl in Hkept. unfold from. by rewrite Hkept.
Qed.

Lemma without_matching_sessions_words content :
  split_whitespace (task_content_without_matching_codex_sessions content s) =
  List.filter (fun v => negb (v == link s)) (split_whitespace content).
Proof.
  destruct (runs_exist content) as (w & rs & Hok & ->).
  rewrite without_matching_sessions_runs, split_whitespace_trim_end by done.
  apply without_word_words; first [done|apply link_solid|apply link_ne].
Qed.
End Links.

Implicit Types (content : text).

(** ** The last word *)

Definition word_start (p : text) : Prop :=
  p = [] \/ exists p' c, p = p' ++ [c] /\ is_whitespace c = true.

Lemma split_whitespace_snoc p w :
  word_start p -> solid w -> w <> [] -> split_whitespace (p ++ w) = split_whitespace p ++ [w].
Proof.
  intros [->|(p' & c & -> & Hc)] Hw Hne; [by apply split_whitespace_solid|].
  rewrite <- (assoc_L (++)). cbn [app]. rewrite split_whitespace_app_ws by done.
  rewrite (split_whitespace_app_all_ws p' [c]) by by constructor.
  by rewrite (split_whitespace_solid w).
Qed.

Lemma last_split_whitespace_snoc p w :
  word_start p -> solid w -> w <> [] -> last (split_whitespace (p ++ w)) = Some w.
Proof. intros. by rewrite split_whitespace_snoc, last_snoc. Qed.

Lemma word_start_space t : word_start (t ++ str " ").
Proof. right. by exists t, 32%N. Qed.

Lemma stopped_solid : solid TASK_STOPPED_MARKER.
Proof. by apply (bool_decide_unpack (solid TASK_STOPPED_MARKER)). Qed.
Lemma manual_solid : solid TASK_MANUAL_MARKER.
Proof. by apply (bool_decide_unpack (solid TASK_MANUAL_MARKER)). Qed.
Lemma interactive_solid : solid TASK_INTERACTIVE_DONE_MARKER.
Proof. by apply (bool_decide_unpack (solid TASK_INTERACTIVE_DONE_MARKER)). Qed.

(** ** The stop marker *)

Lemma is_stopped_spec content :
  task_content_is_stopped content = true <-> last (split_whitespace content) = Some TASK_STOPPED_MARKER.
Proof. apply bool_decide_eq_true. Qed.

Lemma is_stopped_snoc t : task_content_is_stopped (t ++ str " " ++ TASK_STOPPED_MARKER) = true.
Proof.
  apply is_stopped_spec. rewrite (assoc_L (++)).
  by apply last_split_whitespace_snoc; [apply word_start_space|apply stopped_solid|].
Qed.

Lemma is_stopped_other p w :
  word_start p -> solid w -> w <> [] -> w <> TASK_STOPPED_MARKER ->
  task_content_is_stopped (p ++ w) = false.
Proof.
  intros Hp Hw Hne Hd. unfold task_content_is_stopped. rewrite last_split_whitespace_snoc by done.
  apply bool_decide_eq_false. congruence.
Qed.

Lemma without_stop_marker_words content :
  split_whitespace (task_content_without_stop_marker content) =
  if task_content_is_stopped content then removelast (split_whitespace content)
  else split_whitespace content.
Proof.
  unfold task_content_without_stop_marker. destruct (task_content_is_stopped content) eqn:Hst; [|done].
  apply is_stopped_spec, last_word in Hst as (p & Hp & _ & _ & Hstart).
  rewrite <- (split_whitespace_trim_end content), Hp.
  assert (strip_suffix TASK_STOPPED_MARKER (p ++ TASK_STOPPED_MARKER) = Some p) as ->
    by by apply strip_suffix_spec.
  cbn [from_option id]. rewrite split_whitespace_trim_end.
  rewrite split_whitespace_snoc by (done || apply stopped_solid). by rewrite removelast_last.
Qed.

Lemma without_stop_marker_snoc t w :
  solid w -> w <> [] -> task_content_without_stop_marker (t ++ w ++ str " " ++ TASK_STOPPED_MARKER) = t ++ w.
Proof.
  intros Hw Hne. rewrite (assoc_L (++)). unfold task_content_without_stop_marker.
  rewrite is_stopped_snoc, (assoc_L (++)).
  rewrite (trim_end_app_solid _ _ stopped_solid) by done.
  assert (strip_suffix TASK_STOPPED_MARKER (((t ++ w) ++ str " ") ++ TASK_STOPPED_MARKER) =
          Some ((t ++ w) ++ str " ")) as -> by by apply strip_suffix_spec.
  cbn [from_option id]. transitivity (trim_end (t ++ w)); [|by apply trim_end_app_solid].
  unfold trim_end, trim_end_matches. change (str " ") with [32%N].
  by rewrite reverse_snoc.
Qed.

(** ** Reading a link *)

Lemma codex_session_id_spec content s :
  codex_session_id_from_task_content content = Some s <->
  session_id_is_valid s = true /\ last (split_whitespace content) = Some (link s).
Proof.
  unfold codex_session_id_from_task_content, link. split.
  - intros (marker & Hl & (t & Ht & H)%bind_Some)%bind_Some. apply strip_prefix_spec in Ht as ->.
    destruct (session_id_is_valid t) eqn:Hv; [|done]. injection H as <-. done.
  - intros [Hv ->]. cbn. rewrite strip_prefix_app. cbn. by rewrite Hv.
Qed.

Section Valid.
Context (s : text) (Hs : session_id_is_valid s = true).

Lemma link_not_marker : link s <> TASK_STOPPED_MARKER.
Proof. unfold link, CODEX_TASK_SESSION_PREFIX, TASK_STOPPED_MARKER. vm_compute. done. Qed.

Lemma recoverable_linked p :
  word_start p -> recoverable_codex_session_id_from_task_content (p ++ link s) = Some s.
Proof.
  intros Hp. unfold recoverable_codex_session_id_from_task_content, task_content_without_stop_marker.
  rewrite is_stopped_other by (done || apply link_solid, Hs || apply link_not_marker).
  assert (codex_session_id_from_task_content (p ++ link s) = Some s) as ->; [|done].
  apply codex_session_id_spec. split; [done|].
  by apply last_split_whitespace_snoc; [|apply link_solid|].
Qed.

Lemma recoverable_linked_stopped p :
  word_start p ->
  recoverable_codex_session_id_from_task_content
    (p ++ link s ++ str " " ++ TASK_STOPPED_MARKER) = Some s.
Proof.
  intros Hp. unfold recoverable_codex_session_id_from_task_content.
  rewrite without_stop_marker_snoc by (done || by apply link_solid).
  assert (codex_session_id_from_task_content (p ++ link s) = Some s) as ->; [|done].
  apply codex_session_id_spec. split; [done|].
  by apply last_split_whitespace_snoc; [|apply link_solid|].
Qed.

(** The text that is linked: without the last link and this session's others. *)
Definition unlinked_base (content : text) : text :=
  task_content_without_matching_codex_sessions
    (task_content_without_codex_session (task_content_without_stop_marker content)) s.

Definition link_start (base : text) : text :=
  match base with [] => [] | _ => base ++ str " " end.

Lemma with_codex_session_eq content :
  task_content_with_codex_session content s =
  link_start (unlinked_base content) ++ link s ++
  (if task_content_is_stopped content then str " " ++ TASK_STOPPED_MARKER else []).
Proof.
  unfold task_content_with_codex_session. fold (unlinked_base content).
  unfold link, link_start.
  destruct (unlinked_base content), (task_content_is_stopped content);
    rewrite ?app_nil_r, <- ?(assoc_L (++)); done.
Qed.

Lemma link_start_word_start base : word_start (link_start base).
Proof. destruct base; [by left|apply word_start_space]. Qed.

Lemma link_start_words base : split_whitespace (link_start base) = split_whitespace base.
Proof.
  destruct base; [done|]. unfold link_start. apply split_whitespace_app_all_ws. by constructor.
Qed.

Lemma with_codex_session_recoverable content :
  recoverable_codex_session_id_from_task_content (task_content_with_codex_session content s) = Some s.
Proof.
  rewrite with_codex_session_eq. pose proof (link_start_word_start (unlinked_base content)).
  destruct (task_content_is_stopped content); [by apply recoverable_linked_stopped|].
  rewrite app_nil_r. by apply recoverable_linked.
Qed.

Lemma with_codex_session_stopped content :
  task_content_is_stopped (task_content_with_codex_session content s) =
  task_content_is_stopped content.
Proof.
  rewrite with_codex_session_eq. destruct (task_content_is_stopped content).
  - rewrite (assoc_L (++)). apply is_stopped_snoc.
  - rewrite app_nil_r. apply is_stopped_other; [apply link_start_word_start|by apply link_solid|done|].
    apply link_not_marker.
Qed.

Lemma without_codex_session_words content :
  split_whitespace (task_content_without_codex_session content) =
  match codex_session_id_from_task_content content with
  | Some _ => removelast (split_whitespace content)
  | None => split_whitespace content
  end.
Proof.
  unfold task_content_without_codex_session.
  assert (Htrim : codex_session_id_from_task_content (trim_end content) =
                  codex_session_id_from_task_content content).
  { unfold codex_session_id_from_task_content. by rewrite split_whitespace_trim_end. }
  rewrite Htrim. destruct (codex_session_id_from_task_content content) as [t|] eqn:Ht;
    [|apply split_whitespace_trim_end].
  apply codex_session_id_spec in Ht as [Hv Hl]. apply last_word in Hl as (p & Hp & _ & _ & Hstart).
  rewrite split_whitespace_trim_end, <- (split_whitespace_trim_end content), Hp.
  assert (upto (length (p ++ link t) - (length CODEX_TASK_SESSION_PREFIX + length t)) (p ++ link t) = p) as ->.
  { unfold upto, link. rewrite !length_app, Nat.add_sub. apply take_app_length. }
  rewrite split_whitespace_snoc by (done || by apply link_solid). by rewrite removelast_last.
Qed.

Lemma with_codex_session_words content :
  split_whitespace (task_content_with_codex_session content s) =
  List.filter (fun w => negb (w == link s))
    (split_whitespace
       (task_content_without_codex_session (task_content_without_stop_marker content)))
  ++ [link s] ++ (if task_content_is_stopped content then [TASK_STOPPED_MARKER] else []).
Proof.
  rewrite with_codex_session_eq. pose proof (link_start_word_start (unlinked_base content)) as Hst.
  rewrite <- (without_matching_sessions_words s Hs). fold (unlinked_base content).
  rewrite <- (link_start_words (unlinked_base content)). pose proof (link_solid s Hs) as Hl.
  destruct (task_content_is_stopped content).
  - rewrite !(assoc_L (++)). rewrite split_whitespace_snoc;
      [|apply word_start_space|apply stopped_solid|done]. f_equal.
    rewrite split_whitespace_app_all_ws by by constructor.
    by apply split_whitespace_snoc.
  - rewrite !app_nil_r. by apply split_whitespace_snoc.
Qed.
End Valid.
