(* ===== verification/TaskNotes.v ===== *)
(** What a task's prose says (src/task.rs): blocking notes, follow-up links, the
    durable identity that survives outcome notes, summaries, and the names of
    the files a folder-backed board keeps tasks in. *)
From S2P Require Import Prelude Text Markers.

(** ** Blocking notes *)

Inductive TaskBlockingState := Blocked | Unblocked.
#[export] Instance TaskBlockingState_eq_dec : EqDecision TaskBlockingState.
Proof. solve_decision. Defined.

Definition starts_with_task_note_date (value : text) : bool :=
  match value with
  | a :: b :: c :: d :: e :: f :: g :: h :: i :: j :: k :: _ =>
      forallb is_ascii_digit [a; b; c; d] && (e =? 45)%N
      && forallb is_ascii_digit [f; g] && (h =? 45)%N
      && forallb is_ascii_digit [i; j] && (k =? 58)%N
  | _ => false
  end.

(** A note's marker begins a word and is followed by a date. *)
Definition note_marker_at (uppercase marker : text) (index : nat) : bool :=
  negb (ends_with_char (fun ch => is_ascii_alphanumeric ch || (ch =? 95)%N) (upto index uppercase))
  && starts_with_task_note_date (from (index + length marker) uppercase).

Definition keep_latest (latest : option (nat * TaskBlockingState)) (index : nat)
    (state : TaskBlockingState) : option (nat * TaskBlockingState) :=
  match latest with
  | Some (latest_index, _) => if latest_index <? index then Some (index, state) else latest
  | None => Some (index, state)
  end.

Definition note_markers : list (text * TaskBlockingState) :=
  [(str "BLOCKED ", Blocked); (str "UNBLOCKED ", Unblocked); (str "COMPLETED ", Unblocked)].

Definition latest_task_blocking_note_on_line (line : text) : option (nat * TaskBlockingState) :=
  let uppercase := to_ascii_uppercase line in
  foldl
    (fun latest (ms : text * TaskBlockingState) =>
       foldl
         (fun latest index =>
            if note_marker_at uppercase ms.1 index then keep_latest latest index ms.2 else latest)
         latest (match_indices ms.1 uppercase))
    None note_markers.

Definition latest_task_blocking_state_on_line (line : text) : option TaskBlockingState :=
  snd <$> latest_task_blocking_note_on_line line.

Definition note_heading (line : text) : text :=
  trim (trim_start_matches (one_of (str "#-* ")) (trim line)).

(** The loop of [task_blocking_note]: the note so far and the offset of the
    line. *)
Definition scan_note_line (content : text) (acc : option text * nat) (line : text)
    : option text * nat :=
  let '(note, offset) := acc in
  let note :=
    if eq_ignore_ascii_case (note_heading line) (str "blocked note:")
    then Some (from offset content) else note in
  let note :=
    match latest_task_blocking_note_on_line line with
    | Some (index, state) =>
        if state == Blocked then Some (from (offset + index) content) else None
    | None => note
    end in
  (note, offset + length line).

Definition task_blocking_note (content : text) : option text :=
  (foldl (scan_note_line content) (None, 0) (split_inclusive_newline content)).1.

Definition task_content_is_blocked (content : text) : bool :=
  negb (task_blocking_note content == None).

(** ** Task text *)

Definition normalize_line (line : text) : text :=
  let unheaded := trim_start (trim_start_matches (N.eqb 35) line) in
  trim (match strip_prefix (str "- ") unheaded with
        | Some rest => rest
        | None => default line (strip_prefix (str "* ") unheaded)
        end).

Definition normalize_task_text (content : text) : text :=
  join (str " ")
    (normalize_line <$>
       List.filter (fun line => negb (line == []))
         (trim <$> lines (task_content_without_recoverable_codex_session content))).

Definition sentence_end (ch : N) : bool := one_of (str ".!?") ch.

Definition first_sentence (content : text) : option text :=
  let normalized :=
    normalize_task_text
      (task_content_without_interactive_done_marker (task_content_without_manual_marker content)) in
  if normalized == [] then None
  else
    let end_idx := default (length normalized) (S <$> find_char sentence_end normalized) in
    Some (trim (upto end_idx normalized)).

Definition single_line_content (content : text) : text :=
  let normalized := normalize_task_text content in
  match recoverable_codex_session_id_from_task_content content with
  | Some session_id => task_content_with_codex_session normalized session_id
  | None => normalized
  end.

Definition content_with_metadata (description : text) (metadata : option text) : text :=
  match metadata with
  | Some metadata => description ++ str " (" ++ metadata ++ str ")"
  | None => description
  end.

Definition split_description_metadata (value : text) : text * option text :=
  match rfind (str " (") value with
  | Some start =>
      if ends_with (str ")") value
      then (upto start value, Some (slice (start + 2) (length value - 1) value))
      else (value, None)
  | None => (value, None)
  end.

Definition looks_like_metadata (value : text) : bool :=
  contains (str ",") value
  || (existsb is_ascii_alphabetic value
      && forallb (fun c => negb (is_ascii_lowercase c) && negb ((c =? 34) || (c =? 39))%N) value).

Inductive task_error :=
| EmptyDescription
| InvalidTaskIndex
| TaskIndexZero
| InvalidStatus.

Definition parse_add_task_args (args : list text) : res task_error (text * option text) :=
  match args with
  | [] => Err EmptyDescription
  | _ =>
      let metadata :=
        match last args with
        | Some value => if (1 <? length args) && looks_like_metadata value then Some value else None
        | None => None
        end in
      let words := if metadata == None then args else removelast args in
      let description := join (str " ") words in
      if trim description == [] then Err EmptyDescription else Ok (description, metadata)
  end.

(** [usize] is 64 bits wide. *)
Definition usize_max : N := 18446744073709551615.

Definition parse_one_based_task_index (task_index_str : text) : res task_error N :=
  match parse_unsigned usize_max task_index_str with
  | None => Err InvalidTaskIndex
  | Some task_index => if (task_index =? 0)%N then Err TaskIndexZero else Ok task_index
  end.

(** ** File names *)

Definition u64_max : N := 18446744073709551615.

Definition front_order_rank (name : text) : option N :=
  if (26 <? utf8_len name)%Z && starts_with (str "0000-") name
     && forallb is_ascii_digit (slice 5 25 name) && (name !! 25 == Some 45%N)
  then parse_unsigned u64_max (slice 5 25 name)
  else None.

Definition strip_order_prefix (name : text) : text :=
  if negb (front_order_rank name == None) then from 26 name
  else if (5 <? utf8_len name)%Z && forallb is_ascii_digit (upto 4 name)
          && (name !! 4 == Some 45%N)
  then from 5 name
  else name.

(** [char::to_lowercase], as far as [slugify] can tell: apart from the ASCII
    letters only U+212A and U+0130 have an ASCII character in their lowercase,
    and every other character ends up a separator. *)
Definition lowercase_for_slug (c : N) : text :=
  if is_ascii_uppercase c then [(c + 32)%N]
  else if (c =? 8490)%N then [107%N]
  else if (c =? 304)%N then [105%N; 775%N]
  else [c].

(** The loop of [slugify]. *)
Fixpoint slug_from (slug : text) (last_was_dash : bool) (chars : text) : text :=
  match chars with
  | [] => slug
  | ch :: rest =>
      let '(slug, last_was_dash) :=
        if is_ascii_alphanumeric ch then (slug ++ [ch], false)
        else if negb last_was_dash && negb (slug == []) then (slug ++ [45%N], true)
        else (slug, last_was_dash) in
      if (48 <=? utf8_len slug)%Z then slug else slug_from slug last_was_dash rest
  end.

Definition slugify (value : text) : text :=
  let slug := trim_end_matches (N.eqb 45) (slug_from [] false (value ≫= lowercase_for_slug)) in
  if slug == [] then str "task" else slug.

Definition is_clt_atomic_task_temporary_name (name : text) : bool :=
  match strip_prefix (str ".") name with
  | None => false
  | Some name =>
      match rsplit_once (str ".clt-") name with
      | None => false
      | Some (original_name, suffix) =>
          match strip_suffix (str ".tmp") suffix with
          | None => false
          | Some suffix =>
              match split_once (str "-") suffix with
              | None => false
              | Some (pid, nonce) =>
                  negb (original_name == []) && negb (pid == []) && forallb is_ascii_digit pid
                  && negb (nonce == []) && forallb is_ascii_digit nonce
              end
          end
      end
  end.

(** [format!(".{file_name}.clt-{pid}-{nonce}.tmp")]. *)
Definition temporary_name (file_name : text) (pid nonce : N) : text :=
  str "." ++ file_name ++ str ".clt-" ++ decimal pid ++ str "-" ++ decimal nonce ++ str ".tmp".
