(* ===== verification/Metadata.v ===== *)
(** Coordination metadata (src/task/coordination.rs): the comment that carries a
    task's stable id, dependencies, scope and reviews inside its text, and the
    identity of the task without it (src/task.rs).

    serde_json and uuid are other crates: the encoder, the decoder and the test
    that a text parses as a UUID are parameters. *)
From S2P Require Import Prelude Text Markers TaskNotes.

Definition PREFIX : text := str "<!-- clt-coordination: ".
Definition SUFFIX : text := str " -->".

Record Scope := mkScope {
  intent : text;
  files : list text;
  modules : list text;
  interfaces : list text;
  resources : list text;
  behavior : gmap text text;
}.
#[export] Instance eta_Scope : Eta Scope :=
  fun s => mkScope (intent s) (files s) (modules s) (interfaces s) (resources s) (behavior s).
#[export] Instance Scope_eq_dec : EqDecision Scope.
Proof. solve_decision. Defined.

Definition default_scope : Scope := mkScope [] [] [] [] [] ∅.

Record Review := mkReview {
  rv_other : text; rv_evidence : text; rv_compatible : bool; rv_reason : text;
}.
#[export] Instance Review_eq_dec : EqDecision Review.
Proof. solve_decision. Defined.

Record Metadata := mkMetadata {
  id : text; depends_on : list text; scope : Scope; reviews : list Review;
}.
#[export] Instance eta_Metadata : Eta Metadata :=
  fun m => mkMetadata (id m) (depends_on m) (scope m) (reviews m).
#[export] Instance Metadata_eq_dec : EqDecision Metadata.
Proof. solve_decision. Defined.

Definition default_metadata : Metadata := mkMetadata [] [] default_scope [].

Inductive metadata_error :=
| UnterminatedMetadata
| DuplicateMetadata
| InvalidMetadata
| InvalidStableId
| StableIdChanged.

Definition span (content : text) : res metadata_error (option (nat * nat)) :=
  match find_text PREFIX content with
  | None => Ok None
  | Some start =>
      match find_text SUFFIX (from start content) with
      | None => Err UnterminatedMetadata
      | Some suffix =>
          let stop := suffix + start + length SUFFIX in
          if contains PREFIX (from stop content) then Err DuplicateMetadata
          else Ok (Some (start, stop))
      end
  end.

Definition strip_coordination (content : text) : text :=
  match span content with
  | Ok (Some (start, stop)) => trim (upto start content ++ from stop content)
  | _ => content
  end.

Section Json.
Context (to_json : Metadata -> text) (from_json : text -> option Metadata).
Context (uuid_parses : text -> bool).

Definition read_metadata (content : text) : res metadata_error Metadata :=
  let? found := span content in
  match found with
  | None => Ok default_metadata
  | Some (start, stop) =>
      match from_json (slice (start + length PREFIX) (stop - length SUFFIX) content) with
      | None => Err InvalidMetadata
      | Some metadata => if uuid_parses (id metadata) then Ok metadata else Err InvalidStableId
      end
  end.

(** [serde_json::to_string(metadata)?.replace('>', "\\u003e")]. *)
Definition escaped_json (metadata : Metadata) : text :=
  replace_char 62 (str "\u003e") (to_json metadata).

Definition write_metadata (content : text) (metadata : Metadata) : res metadata_error text :=
  let? _ := span content in
  let stopped := task_content_is_stopped content in
  let session := recoverable_codex_session_id_from_task_content content in
  let body :=
    strip_coordination
      (task_content_without_recoverable_codex_session
         (task_content_without_stop_marker content)) in
  let content := trim_end body ++ str " " ++ PREFIX ++ escaped_json metadata ++ SUFFIX in
  let content :=
    match session with
    | Some session => task_content_with_codex_session content session
    | None => content
    end in
  Ok (if stopped then content ++ str " clt:stopped" else content).

Definition preserve (original edited : text) : res metadata_error text :=
  let? old := read_metadata original in
  match id old with
  | [] => Ok edited
  | _ =>
      let? supplied := read_metadata edited in
      if (id supplied == []) || (id supplied == id old) then write_metadata edited old
      else Err StableIdChanged
  end.
End Json.

(** ** The text behind the metadata *)

Definition task_content_for_edit (content : text) : text :=
  let content := strip_coordination content in
  task_content_without_interactive_done_marker
    (task_content_without_manual_marker
       (task_content_without_recoverable_codex_session
          (task_content_without_stop_marker content))).

Definition earliest_note (note_start : option nat) (index : nat) : option nat :=
  Some (match note_start with Some current => Nat.min current index | None => index end).

(** Where the first outcome note of a line starts. *)
Definition outcome_note_start (trimmed : text) : option nat :=
  let uppercase := to_ascii_uppercase trimmed in
  foldl
    (fun note_start marker =>
       foldl
         (fun note_start index =>
            if note_marker_at uppercase marker index then earliest_note note_start index
            else note_start)
         note_start (match_indices marker uppercase))
    None [str "COMPLETED "; str "BLOCKED "; str "UNBLOCKED "].

Definition stable_line (trimmed : text) : text :=
  let stable :=
    match outcome_note_start trimmed with Some index => upto index trimmed | None => trimmed end in
  join (str " ")
    (split_whitespace
       (trim_end_matches (fun ch => is_whitespace ch || one_of (8212%N :: str "-:;") ch) stable)).

Definition outcome_heading (trimmed : text) : bool :=
  let heading := trim (trim_start_matches (N.eqb 35) trimmed) in
  let normalized_heading := to_ascii_lowercase (trim_end_matches (N.eqb 58) heading) in
  bool_decide (normalized_heading ∈ [str "completion note"; str "blocked note"; str "unblocked note"]).

(** The loop of [durable_task_identity]: the lines kept and whether an outcome
    section is being skipped. *)
Definition scan_identity_line (acc : list text * bool) (line : text) : list text * bool :=
  let '(canonical_lines, skipping) := acc in
  let trimmed := trim line in
  if outcome_heading trimmed then (canonical_lines, true)
  else if skipping && negb (starts_with (str "#") trimmed) then (canonical_lines, true)
  else
    let stable := stable_line trimmed in
    (if stable == [] then canonical_lines else canonical_lines ++ [stable], false).

Definition durable_task_identity (content : text) : option text :=
  let content := Thinking.strip (strip_coordination content) in
  let content :=
    task_content_without_interactive_done_marker
      (task_content_without_recoverable_codex_session content) in
  let '(canonical_lines, _) := foldl scan_identity_line ([], false) (lines content) in
  match canonical_lines with
  | [] => None
  | _ => Some (str "v2" ++ [10%N] ++ join [10%N] canonical_lines)
  end.

Definition FOLLOW_UP_PREFIX : text := str "clt-follow-up:".

Definition follow_up_session (content : text) : option text :=
  marker ← last (split_whitespace content);
  session_id ← strip_prefix FOLLOW_UP_PREFIX marker;
  if session_id_is_valid session_id
     && (length (match_indices FOLLOW_UP_PREFIX content) =? 1)
     && (codex_session_markers_in_task_content content == [])
     && negb (durable_task_identity content == None)
  then Some session_id else None.
