(* ===== verification/MetadataLemmas.v ===== *)
(** The metadata comment is found where it was written. *)
From S2P Require Import Prelude Text TextLemmas Markers MarkerLemmas.
From S2P Require Import MarkerLemmas TaskNotes Metadata.

Implicit Types (s t w body json tail : text) (c : N).

Definition comment (json : text) : text := PREFIX ++ json ++ SUFFIX.

(** The opening of the comment starts with a character it does not repeat. *)
Lemma prefix_inner k : 0 < k -> PREFIX !! k <> Some 60%N.
Proof.
  intros Hk Hl. pose proof (lookup_lt_Some _ _ _ Hl) as Hlt. change (length PREFIX) with 23 in Hlt.
  do 23 (destruct k as [|k]; [try lia; vm_compute in Hl; congruence|]). lia.
Qed.

Lemma find_prefix body rest :
  contains PREFIX (body ++ str " ") = false ->
  find_text PREFIX (body ++ str " " ++ PREFIX ++ rest) = Some (S (length body)).
Proof.
  intros Hno. apply find_text_Some. rewrite (assoc_L (++) body).
  assert (Hlen : length (body ++ str " ") = S (length body)) by (rewrite length_app; simpl; lia).
  split_and!.
  - rewrite <- Hlen, drop_app_length. apply starts_with_spec. by exists rest.
  - rewrite length_app. lia.
  - intros j Hj. apply not_true_iff_false. intros Hs.
    destruct (decide (j + length PREFIX <= S (length body))) as [Hle|Hgt].
    + rewrite contains_false in Hno. specialize (Hno j ltac:(lia)).
      rewrite drop_app_le in Hs by lia. apply starts_with_spec in Hs as [r Hr].
      apply not_true_iff_false in Hno. apply Hno, starts_with_spec.
      exists (drop (length PREFIX) (drop j (body ++ str " "))).
      apply (f_equal (take (length PREFIX))) in Hr. rewrite take_app_length in Hr.
      rewrite take_app_le in Hr by (rewrite length_drop; lia).
      rewrite <- Hr at 1. by rewrite take_drop.
    + assert (Hk : PREFIX !! (S (length body) - j) = Some 60%N).
      { destruct (PREFIX !! (S (length body) - j)) as [c|] eqn:Hc.
        - pose proof (starts_with_lookup _ _ _ _ Hs Hc) as Hl. rewrite lookup_drop in Hl.
          replace (j + (S (length body) - j)) with (length (body ++ str " ") + 0) in Hl by lia.
          rewrite lookup_app_r in Hl by lia. rewrite Nat.add_0_r, Nat.sub_diag in Hl.
          vm_compute in Hl. congruence.
        - apply lookup_ge_None_1 in Hc. lia. }
      apply prefix_inner in Hk; [done|lia].
Qed.

Definition no_closing (s : text) : Prop := Forall (fun c => c <> 62%N) s.

Lemma prefix_no_closing : no_closing PREFIX.
Proof. apply (bool_decide_unpack (no_closing PREFIX)). by vm_compute. Qed.

Lemma find_suffix s rest :
  no_closing s -> find_text SUFFIX (s ++ SUFFIX ++ rest) = Some (length s).
Proof.
  intros Hs. apply find_text_Some. split_and!.
  - rewrite drop_app_length. apply starts_with_spec. by exists rest.
  - rewrite length_app. lia.
  - intros j Hj. apply not_true_iff_false. intros Hst.
    assert (Hl : (s ++ SUFFIX ++ rest) !! (j + 3) = Some 62%N).
    { rewrite <- lookup_drop. by apply (starts_with_lookup SUFFIX). }
    destruct (decide (j + 3 < length s)) as [Hlt|Hge].
    + rewrite lookup_app_l in Hl by lia. by eapply Forall_lookup_1 in Hs.
    + rewrite lookup_app_r in Hl by lia.
      destruct (j + 3 - length s) as [|[|[|k]]] eqn:Hk; [vm_compute in Hl; congruence..|lia].
Qed.

Lemma replace_char_no_closing (by_ s : text) : no_closing by_ -> no_closing (replace_char 62 by_ s).
Proof.
  intros Hby. unfold replace_char, no_closing. induction s as [|c s IH]; [constructor|].
  rewrite bind_cons, Forall_app. split; [|done].
  destruct (N.eqb_spec c 62); [done|]. by constructor.
Qed.

Lemma span_written body json tail :
  contains PREFIX (body ++ str " ") = false -> no_closing json -> contains PREFIX tail = false ->
  span (body ++ str " " ++ comment json ++ tail) =
  Ok (Some (S (length body), S (length body) + length (comment json))).
Proof.
  intros Hb Hj Ht.
  assert (Hlen : S (length body) = length (body ++ str " ")) by (rewrite length_app; simpl; lia).
  assert (Hfrom : from (S (length body)) (body ++ str " " ++ comment json ++ tail) =
                  (PREFIX ++ json) ++ SUFFIX ++ tail).
  { unfold from, comment. rewrite (assoc_L (++) body), Hlen, drop_app_length.
    by rewrite <- !(assoc_L (++)). }
  assert (Htail : from (S (length body) + length (comment json))
                    (body ++ str " " ++ comment json ++ tail) = tail).
  { unfold from. rewrite <- drop_drop. fold (from (S (length body))
      (body ++ str " " ++ comment json ++ tail)). rewrite Hfrom, (assoc_L (++) (PREFIX ++ json)).
    unfold comment. rewrite (assoc_L (++) PREFIX). apply drop_app_length. }
  unfold span. assert (Hfind : find_text PREFIX (body ++ str " " ++ comment json ++ tail) =
    Some (S (length body))).
  { unfold comment. rewrite <- !(assoc_L (++)). by apply find_prefix. }
  rewrite Hfind, Hfrom, find_suffix
    by (apply Forall_app; split; [apply prefix_no_closing|done]).
  replace (length (PREFIX ++ json) + S (length body) + length SUFFIX)
    with (S (length body) + length (comment json))
    by (unfold comment; rewrite !length_app; lia).
  by rewrite Htail, Ht.
Qed.

Lemma slice_written body json tail :
  slice (S (length body) + length PREFIX)
    (S (length body) + length (comment json) - length SUFFIX)
    (body ++ str " " ++ comment json ++ tail) = json.
Proof.
  unfold slice, comment.
  assert (Hsplit : body ++ str " " ++ (PREFIX ++ json ++ SUFFIX) ++ tail =
                   (((body ++ str " ") ++ PREFIX) ++ json) ++ SUFFIX ++ tail).
  { by rewrite <- !(assoc_L (++)). }
  rewrite Hsplit, take_app_length', drop_app_length'; rewrite ?length_app; simpl; lia || done.
Qed.

(** ** The words of a task that carries a comment *)

Lemma comment_words body json :
  split_whitespace (body ++ str " " ++ comment json) =
  split_whitespace body ++ [str "<!--"; str "clt-coordination:"] ++ split_whitespace json ++ [str "-->"].
Proof.
  assert (Hone : forall w, solid w -> w <> [] -> forall rest,
    split_whitespace (w ++ 32%N :: rest) = [w] ++ split_whitespace rest).
  { intros w Hw Hne rest. by rewrite split_whitespace_app_ws, split_whitespace_solid. }
  change (str " ") with [32%N]. cbn [app].
  rewrite (split_whitespace_app_ws body 32) by done. f_equal.
  assert (Heq : comment json =
    str "<!--" ++ 32%N :: str "clt-coordination:" ++ 32%N :: json ++ 32%N :: str "-->").
  { unfold comment. change PREFIX with ((str "<!--" ++ [32%N]) ++ str "clt-coordination:" ++ [32%N]).
    change SUFFIX with (32%N :: str "-->"). by rewrite <- !(assoc_L (++)). }
  rewrite Heq, Hone, Hone by (done || by apply (bool_decide_unpack _)).
  by rewrite split_whitespace_app_ws.
Qed.

(** Links that are not there leave the text as it is. *)
Lemma without_matching_sessions_absent s content :
  session_id_is_valid s = true -> link s ∉ split_whitespace content ->
  task_content_without_matching_codex_sessions content s = trim_end content.
Proof.
  intros Hs Habs. destruct (runs_exist content) as (w & rs & Hok & ->).
  rewrite without_matching_sessions_runs by done. f_equal.
  rewrite split_whitespace_unruns in Habs by done. rewrite list_elem_of_In, filter_In, <- list_elem_of_In in Habs.
  assert (Hrun : link s ∉ w :: rs.*2) by (intros H; apply Habs; split; [done|by unfold nonempty]).
  apply not_elem_of_cons in Hrun as [Hw Hrs]. unfold without_word, unruns.
  rewrite bool_decide_false by congruence. f_equal. f_equal. clear Habs Hok Hw.
  induction rs as [|[c v] rs IH]; [done|]. cbn in *. apply not_elem_of_cons in Hrs as [Hv Hrs].
  rewrite IH by done. unfold kept_run. simpl. by rewrite bool_decide_false by congruence.
Qed.
