(* ===== verification/TextProps.v ===== *)
(** What the task text operations promise: markers and conversation links are
    whole words that are added and removed without disturbing the prose, and
    coordination metadata reads back as it was written. *)
From S2P Require Import Prelude Text TextLemmas Markers MarkerLemmas.
From S2P Require Import MarkerLemmas TaskNotes Metadata MetadataLemmas.

(** ** Marker words *)

(** removing the manual marker, or the interactive-done marker, takes away
    exactly the words that are the marker: the text is a sequence of words with
    the white space character before each, and what remains is the same
    sequence, trimmed at the end, in which a marker word is gone together with
    a plain space before it; every other word stays, in order, and the marker
    is not found any more. *)
Theorem marker_removal_exact content marker :
  marker = TASK_MANUAL_MARKER \/ marker = TASK_INTERACTIVE_DONE_MARKER ->
  (exists w rs, runs_ok w rs /\ content = unruns w rs /\
     task_content_without_marker content marker =
     trim_end (without_word marker (N.eqb 32) w rs)) /\
  split_whitespace (task_content_without_marker content marker) =
  List.filter (fun word => negb (word == marker)) (split_whitespace content) /\
  marker ∉ split_whitespace (task_content_without_marker content marker).
Proof.
  intros Hm. assert (Hsolid : solid marker).
  { destruct Hm as [->| ->]; [apply manual_solid|apply interactive_solid]. }
  assert (Hne : marker <> []) by by destruct Hm as [->| ->].
  pose proof (task_content_without_marker_words marker Hsolid Hne content) as Hwords.
  split; [|split; [done|]].
  - destruct (runs_exist content) as (w & rs & Hok & ->). exists w, rs. split; [done|].
    split; [done|]. by apply task_content_without_marker_runs.
  - rewrite Hwords, list_elem_of_In, filter_In. intros [_ H]. by rewrite bool_decide_true in H.
Qed.

Lemma marker_removal_exact_witness :
  TASK_MANUAL_MARKER ∉
  split_whitespace (task_content_without_marker (str "a clt:manual b") TASK_MANUAL_MARKER).
Proof. apply (marker_removal_exact (str "a clt:manual b") TASK_MANUAL_MARKER). by left. Defined.

(** ** Conversation links *)

Lemma manual_session_words content s :
  session_id_is_valid s = true ->
  exists ws,
    split_whitespace (task_content_with_manual_session content s) =
    ws ++ [TASK_MANUAL_MARKER; link s].
Proof.
  intros Hs. unfold task_content_with_manual_session.
  set (base := trim_end _). rewrite with_codex_session_words by done.
  rewrite (assoc_L (++) base).
  pose proof (word_start_space base) as Hstart.
  assert (Hst : task_content_is_stopped ((base ++ str " ") ++ TASK_MANUAL_MARKER) = false).
  { by apply is_stopped_other; [|apply manual_solid|..]. }
  unfold task_content_without_stop_marker. rewrite Hst, app_nil_r, without_codex_session_words.
  assert (Hno : codex_session_id_from_task_content ((base ++ str " ") ++ TASK_MANUAL_MARKER) = None).
  { destruct (codex_session_id_from_task_content _) as [t|] eqn:Ht; [|done].
    apply codex_session_id_spec in Ht as [_ Hl].
    rewrite last_split_whitespace_snoc in Hl by (done || apply manual_solid).
    injection Hl as Hl. vm_compute in Hl. discriminate Hl. }
  rewrite Hno, split_whitespace_snoc by (done || apply manual_solid).
  rewrite List.filter_app. eexists. rewrite <- (assoc_L (++)). f_equal.
Qed.

(** linking a task to a conversation is read back: the linked text gives
    that session, is stopped exactly when the task was, and its words are those
    of the task without its last link and without other links to the session,
    then the link, then the stop marker of a stopped task. Claiming a task for
    a manual session gives that session too, and the task is manual and not
    stopped. *)
Theorem session_link_roundtrip content s :
  session_id_is_valid s = true ->
  let linked := task_content_with_codex_session content s in
  let claimed := task_content_with_manual_session content s in
  recoverable_codex_session_id_from_task_content linked = Some s /\
  task_content_is_stopped linked = task_content_is_stopped content /\
  split_whitespace linked =
    List.filter (fun w => negb (w == link s))
      (split_whitespace
         (task_content_without_codex_session (task_content_without_stop_marker content)))
    ++ [link s] ++ (if task_content_is_stopped content then [TASK_STOPPED_MARKER] else []) /\
  recoverable_codex_session_id_from_task_content claimed = Some s /\
  task_content_is_manual claimed = true /\ task_content_is_stopped claimed = false.
Proof.
  intros Hs. cbv zeta. destruct (manual_session_words content s Hs) as [ws Hws]. split_and!.
  - by apply with_codex_session_recoverable.
  - by apply with_codex_session_stopped.
  - by apply with_codex_session_words.
  - by apply with_codex_session_recoverable.
  - unfold task_content_is_manual. rewrite Hws, existsb_app. cbn [existsb].
    rewrite bool_decide_true by done. by rewrite orb_true_r.
  - unfold task_content_is_stopped. rewrite Hws.
    change [TASK_MANUAL_MARKER; link s] with ([TASK_MANUAL_MARKER] ++ [link s]).
    rewrite (assoc_L (++)), last_snoc. apply bool_decide_eq_false.
    by intros [=].
Qed.

Lemma session_link_roundtrip_witness :
  recoverable_codex_session_id_from_task_content
    (task_content_with_codex_session (str "Fix it clt:stopped") (str "abc-1")) = Some (str "abc-1").
Proof. apply (session_link_roundtrip (str "Fix it clt:stopped") (str "abc-1")). by vm_compute. Defined.

(** ** Coordination metadata *)

Section Metadata.
Context (to_json : Metadata -> text) (from_json : text -> option Metadata).
Context (uuid_parses : text -> bool).

(** The prose [write] keeps. *)
Definition written_body (content : text) : text :=
  trim_end (strip_coordination
    (task_content_without_recoverable_codex_session (task_content_without_stop_marker content))).

Definition written_tail (content : text) : text :=
  (match recoverable_codex_session_id_from_task_content content with
   | Some s => str " " ++ link s
   | None => []
   end) ++ (if task_content_is_stopped content then str " clt:stopped" else []).

Lemma recoverable_is_valid content s :
  recoverable_codex_session_id_from_task_content content = Some s -> session_id_is_valid s = true.
Proof.
  unfold recoverable_codex_session_id_from_task_content.
  set (base := task_content_without_stop_marker content).
  destruct (codex_session_id_from_task_content base) as [t|] eqn:Ht.
  { intros [= <-]. by apply codex_session_id_spec in Ht as [? _]. }
  destruct (List.filter _ _) as [|[[start stop] t] ms] eqn:Hf; [done|].
  destruct (forallb _ _); [|done]. intros [= <-].
  assert (Hin : In (start, stop, t) (codex_session_markers_in_task_content base)).
  { eapply (proj1 (filter_In _ _ _)). rewrite Hf. by left. }
  unfold codex_session_markers_in_task_content in Hin. apply list_elem_of_In in Hin.
  apply list_elem_of_omap in Hin as (i & _ & Hi). unfold codex_marker_at in Hi.
  destruct (_ && _); [done|]. destruct (strip_prefix _ _) as [u|]; [|done]. cbn in Hi.
  destruct (session_id_is_valid u) eqn:Hu; [|done]. congruence.
Qed.

Lemma write_metadata_eq content m :
  is_ok (span content) = true ->
  (forall s, recoverable_codex_session_id_from_task_content content = Some s ->
     link s ∉ split_whitespace (written_body content) /\
     link s ∉ split_whitespace (escaped_json to_json m)) ->
  write_metadata to_json content m =
  Ok (written_body content ++ str " " ++ comment (escaped_json to_json m) ++ written_tail content).
Proof.
  intros Hspan Habs. unfold write_metadata. destruct (span content) as [sp|]; [|done].
  cbn [res_bind]. fold (written_body content). f_equal. unfold written_tail.
  change (str " clt:stopped") with (str " " ++ TASK_STOPPED_MARKER).
  set (json := escaped_json to_json m) in *. set (body := written_body content) in *.
  destruct (recoverable_codex_session_id_from_task_content content) as [s|] eqn:Hrec.
  - destruct (Habs s eq_refl) as [Hbody Hjson].
    fold (comment json). set (commented := body ++ str " " ++ comment json).
    assert (Hend : commented = ((body ++ str " ") ++ PREFIX ++ json ++ str " ") ++ str "-->").
    { unfold commented, comment. change SUFFIX with (str " " ++ str "-->").
      by rewrite <- !(assoc_L (++)). }
    assert (Hlast : last (split_whitespace commented) = Some (str "-->")).
    { unfold commented. by rewrite comment_words, !(assoc_L (++)), last_snoc. }
    assert (Hst : task_content_is_stopped commented = false).
    { unfold task_content_is_stopped. by rewrite Hlast. }
    assert (Htrim : trim_end commented = commented).
    { rewrite Hend. apply trim_end_app_solid; [by apply (bool_decide_unpack _)|done]. }
    assert (Hbase : unlinked_base s commented = commented).
    { unfold unlinked_base, task_content_without_stop_marker. rewrite Hst.
      unfold task_content_without_codex_session. rewrite Htrim.
      destruct (codex_session_id_from_task_content commented) as [t|] eqn:Ht.
      { apply codex_session_id_spec in Ht as [_ Ht]. rewrite Hlast in Ht. injection Ht as Ht.
        vm_compute in Ht. discriminate Ht. }
      rewrite without_matching_sessions_absent; [done|by eapply recoverable_is_valid|].
      unfold commented. rewrite comment_words, !elem_of_app. intros [?|[Hl|[?|Hl]]]; try done.
      - apply elem_of_cons in Hl as [Hl|Hl]; [by vm_compute in Hl|].
        apply list_elem_of_singleton in Hl. by vm_compute in Hl.
      - apply list_elem_of_singleton in Hl. by vm_compute in Hl. }
    rewrite with_codex_session_eq, Hbase, Hst, app_nil_r.
    assert (Hcase : link_start commented = commented ++ str " ").
    { unfold link_start. destruct commented eqn:Hc; [|done]. symmetry in Hend. by apply app_nil in Hend as [_ ?]. }
    rewrite Hcase. unfold commented.
    destruct (task_content_is_stopped content); rewrite ?app_nil_r, <- ?(assoc_L (++)); done.
  - fold (comment json). destruct (task_content_is_stopped content);
      rewrite ?app_nil_r, <- ?(assoc_L (++)); done.
Qed.

Lemma no_opening_contains (s : text) : Forall (fun c => c <> 60%N) s -> contains PREFIX s = false.
Proof.
  intros Hs. apply contains_false. intros i _. apply not_true_iff_false. intros Hst.
  assert (Hl : drop i s !! 0 = Some 60%N) by by apply (starts_with_lookup PREFIX).
  apply (Forall_drop _ i) in Hs. by eapply Forall_lookup_1 in Hs.
Qed.

Lemma link_no_opening s : session_id_is_valid s = true -> Forall (fun c => c <> 60%N) (link s).
Proof.
  intros Hs. unfold link. apply Forall_app. split; [by apply (bool_decide_unpack _)|].
  unfold session_id_is_valid in Hs. apply andb_true_iff in Hs as [_ Hall].
  rewrite forallb_elem_of in Hall. apply Forall_forall. intros c Hc ->.
  specialize (Hall _ Hc). done.
Qed.

Lemma written_tail_no_prefix content : contains PREFIX (written_tail content) = false.
Proof.
  apply no_opening_contains. unfold written_tail. apply Forall_app. split.
  - destruct (recoverable_codex_session_id_from_task_content content) as [s|] eqn:Hrec; [|constructor].
    apply Forall_app. split; [by repeat constructor|].
    by eapply link_no_opening, recoverable_is_valid.
  - destruct (task_content_is_stopped content); [by apply (bool_decide_unpack _)|constructor].
Qed.

(** A link, and a stop marker after it, at the end of any text. *)
Lemma linked_tail base s (stopped : bool) :
  session_id_is_valid s = true ->
  let tail := (str " " ++ link s) ++ (if stopped then str " " ++ TASK_STOPPED_MARKER else []) in
  task_content_is_stopped (base ++ tail) = stopped /\
  recoverable_codex_session_id_from_task_content (base ++ tail) = Some s.
Proof.
  intros Hs. cbv zeta. pose proof (word_start_space base) as Hstart.
  assert (Heq : forall u, base ++ (str " " ++ link s) ++ u = (base ++ str " ") ++ link s ++ u).
  { intros u. by rewrite <- !(assoc_L (++)). }
  rewrite Heq. destruct stopped.
  - split; [|by apply recoverable_linked_stopped]. rewrite (assoc_L (++) _ (link s)).
    apply is_stopped_snoc.
  - rewrite app_nil_r. split; [|by apply recoverable_linked].
    apply is_stopped_other; [done|by apply link_solid|done|apply link_not_marker].
Qed.

(** C38: metadata written into a task is read back: writing succeeds whenever
    the task does not carry malformed metadata, reading gives the metadata that
    was written, unless its id is not a UUID, for which reading refuses it, and
    the task stays stopped, or not, and linked to its conversation. It takes a
    decoder that reads what the encoder writes with ["\u003e"] for the closing
    bracket, prose that does not open a comment itself, and no word of the prose
    or of the encoding that is the task's own link. *)
Theorem metadata_roundtrip content m :
  from_json (escaped_json to_json m) = Some m -> is_ok (span content) = true ->
  contains PREFIX (written_body content ++ str " ") = false ->
  (forall s, recoverable_codex_session_id_from_task_content content = Some s ->
     link s ∉ split_whitespace (written_body content) /\
     link s ∉ split_whitespace (escaped_json to_json m)) ->
  exists written,
    write_metadata to_json content m = Ok written /\
    read_metadata from_json uuid_parses written
      = (if uuid_parses (id m) then Ok m else Err InvalidStableId) /\
    task_content_is_stopped written = task_content_is_stopped content /\
    (forall s, recoverable_codex_session_id_from_task_content content = Some s ->
       recoverable_codex_session_id_from_task_content written = Some s).
Proof.
  intros Hjson Hspan Hbody Habs. pose proof (written_tail_no_prefix content) as Htail. eexists. split; [by apply write_metadata_eq|].
  assert (Hno : no_closing (escaped_json to_json m)).
  { apply replace_char_no_closing. apply (bool_decide_unpack (no_closing _)). by vm_compute. }
  set (json := escaped_json to_json m) in *. set (body := written_body content) in *. split.
  - unfold read_metadata. rewrite span_written by done. cbn [res_bind].
    by rewrite slice_written, Hjson.
  - assert (Hsuf : body ++ str " " ++ comment json = (body ++ str " " ++ PREFIX ++ json ++ str " ") ++ str "-->").
    { unfold comment. change SUFFIX with (str " " ++ str "-->"). by rewrite <- !(assoc_L (++)). }
    unfold written_tail. change (str " clt:stopped") with (str " " ++ TASK_STOPPED_MARKER).
    destruct (recoverable_codex_session_id_from_task_content content) as [s|] eqn:Hrec.
    + destruct (linked_tail (body ++ str " " ++ comment json) s (task_content_is_stopped content))
        as [Hst Hlink]; [by eapply recoverable_is_valid|].
      rewrite <- !(assoc_L (++)) in Hst, Hlink. rewrite <- !(assoc_L (++)).
      split; [done|]. by intros s' [= <-].
    + split; [|done]. assert (Heq : forall u, body ++ str " " ++ comment json ++ [] ++ u =
        (body ++ str " " ++ comment json) ++ u) by (intros u; by rewrite <- !(assoc_L (++))).
      rewrite Heq. destruct (task_content_is_stopped content); [apply is_stopped_snoc|].
      rewrite app_nil_r, Hsuf. apply is_stopped_other; [|by apply (bool_decide_unpack _)|done|done].
      rewrite !(assoc_L (++)). apply word_start_space.
Qed.
End Metadata.

Definition sample_metadata : Metadata := mkMetadata (str "7") [] default_scope [].

Lemma metadata_roundtrip_witness :
  exists written,
    write_metadata (fun _ => str "{a>b}") (str "Publish codex:abc clt:stopped") sample_metadata = Ok written /\
    read_metadata (fun _ => Some sample_metadata) (fun _ => true) written = Ok sample_metadata /\
    task_content_is_stopped written = true.
Proof.
  destruct (metadata_roundtrip (fun _ => str "{a>b}") (fun _ => Some sample_metadata) (fun _ => true)
    (str "Publish codex:abc clt:stopped") sample_metadata) as (written & Hw & Hr & Hs & _).
  - reflexivity.
  - by vm_compute.
  - by vm_compute.
  - intros s Hs. assert (s = str "abc") as -> by (vm_compute in Hs; by injection Hs as <-).
    split; apply (bool_decide_unpack (_ ∉ _)); by vm_compute.
  - exists written. split; [done|]. split; [done|]. rewrite Hs. by vm_compute.
Defined.

(** ** Words inside the metadata comment

    Every reader of marker words reads the whole text, so a declared intent that
    mentions a marker as a word of its own claims the task. *)
Fact intent_word_claims_task :
  task_content_is_manual
    (replace_char 39 [34%N]
       (str "Fix it <!-- clt-coordination: {'id':'7','intent':'honour clt:manual tasks'} -->")) = true.
Proof. by vm_compute. Qed.

(** ** Thinking levels

    Removing a directive can leave another one behind: its level is still read
    after the cycle has reported that the default is in force. *)
Fact cycle_leaves_directive :
  let content := str "/think /think ultra low" in
  (Thinking.cycle content).2 = None /\
  Thinking.read (Thinking.cycle content).1 = Some (str "low").
Proof. by vm_compute. Qed.
