(* ===== verification/TaskEntry.v ===== *)
(** Task statuses and entries (src/task.rs): what a board's reader makes of one
    task, whatever store it comes from. *)
From S2P Require Import Prelude Text Markers TaskNotes Metadata.

Inductive TaskStatus := Todo | Doing | Done | Backlog.
#[export] Instance TaskStatus_eq_dec : EqDecision TaskStatus.
Proof. solve_decision. Defined.

Module Status.
Definition ALL : list TaskStatus := [Todo; Doing; Done; Backlog].
Definition SESSION_SEARCH_ORDER : list TaskStatus := [Doing; Todo; Backlog; Done].

Definition as_str (s : TaskStatus) : text :=
  match s with
  | Todo => str "todo"
  | Doing => str "doing"
  | Done => str "done"
  | Backlog => str "backlog"
  end.

Definition filename (s : TaskStatus) : text :=
  match s with
  | Todo => str "todo.md"
  | Doing => str "doing.md"
  | Done => str "done.md"
  | Backlog => str "backlog.md"
  end.

(** Each header is a line. *)
Definition header (s : TaskStatus) : text :=
  match s with
  | Todo => str "# To Do Tasks"
  | Doing => str "# Doing Tasks"
  | Done => str "# Done Tasks"
  | Backlog => str "# Backlog Tasks"
  end ++ [10%N].

Definition parse (value : text) : res task_error TaskStatus :=
  if value == str "backlog" then Ok Backlog
  else if value == str "todo" then Ok Todo
  else if value == str "doing" then Ok Doing
  else if value == str "done" then Ok Done
  else Err InvalidStatus.

Definition parse_arg (value : text) : res task_error TaskStatus :=
  if value == str "0" then Ok Backlog
  else if value == str "1" then Ok Todo
  else if value == str "2" then Ok Doing
  else if value == str "3" then Ok Done
  else parse value.

Definition is_active (s : TaskStatus) : bool := (s == Todo) || (s == Doing).
End Status.

(** A path is the list of its components. *)
Definition path := list text.

Inductive TaskSource :=
| MarkdownLine (line_index : N)
| PathSource (source_path : path) (is_dir : bool).
#[export] Instance TaskSource_eq_dec : EqDecision TaskSource.
Proof. solve_decision. Defined.

Record TaskEntry := mkEntry {
  source : TaskSource;
  summary : text;
  content : text;
  metadata : option text;
  has_subtasks : bool;
}.
#[export] Instance TaskEntry_eq_dec : EqDecision TaskEntry.
Proof. solve_decision. Defined.

Definition task_entry_from_text (src : TaskSource) (shown stored : text) (subtasks : bool)
    : TaskEntry :=
  let shown := Thinking.strip (strip_coordination shown) in
  let summary := default (trim shown) (first_sentence shown) in
  let '(description, metadata) := split_description_metadata summary in
  mkEntry src description stored metadata subtasks.

Definition task_entry_is_stopped (entry : TaskEntry) : bool :=
  task_content_is_stopped (content entry).
Definition task_entry_is_blocked (entry : TaskEntry) : bool :=
  task_content_is_blocked (content entry).

Definition task_entry_is_ready (entry : TaskEntry) : bool :=
  negb (task_entry_is_stopped entry) && negb (task_entry_is_blocked entry)
  && negb (task_content_is_manual (content entry)).

Definition follow_up_matches_status (content : text) (status : TaskStatus) : bool :=
  match status with
  | Todo => negb (task_content_is_blocked content)
  | Doing =>
      task_content_is_blocked content
      && existsb (fun line => latest_task_blocking_state_on_line line == Some Blocked)
           (lines content)
  | _ => false
  end.

Definition task_display_text (entry : TaskEntry) : text :=
  let summary := Thinking.strip (strip_coordination (summary entry)) in
  let summary :=
    task_content_without_interactive_done_marker
      (task_content_without_manual_marker (task_content_without_stop_marker summary)) in
  Thinking.label (content entry) (content_with_metadata summary (metadata entry)).

Definition task_full_display_text (entry : TaskEntry) : text :=
  let raw := Thinking.strip (strip_coordination (content entry)) in
  let shown :=
    normalize_task_text
      (task_content_without_interactive_done_marker
         (task_content_without_manual_marker (task_content_without_stop_marker raw))) in
  if shown == [] then task_display_text entry else Thinking.label (content entry) shown.
