(* ===== verification/Files.v ===== *)
(** A tree of directories and files, the operations of [std::fs] the code uses,
    and lemmas on them. *)
From S2P Require Import Prelude Text TaskEntry.

Inductive node :=
| File (contents : text) (readonly : bool)
| Dir (entries : gmap text node).

(** Errors of the board: [Io] is an error of the operating system, [DepthExceeded]
    the end of the fuel of a descent (which the code does not have). *)
Inductive board_error :=
| Io
| StorageChanged
| ContentChanged
| IndexOutOfRange
| ReadOnlyFile
| ReplacesTask
| TaskDisappeared
| NoRoomToPrepend
| FolderIntoMarkdown
| BelongsToOtherSession
| DepthExceeded.

(** ** Operations: the tree an operation leaves is kept when it fails *)

Definition io (A : Type) := node -> res board_error A * node.

Definition ret {A} (a : A) : io A := fun s => (Ok a, s).
Definition fail {A} (e : board_error) : io A := fun s => (Err e, s).
Definition bind {A B} (c : io A) (k : A -> io B) : io B := fun s =>
  match c s with
  | (Ok a, s') => k a s'
  | (Err e, s') => (Err e, s')
  end.
Definition look {A} (f : node -> A) : io A := fun s => (Ok (f s), s).

Notation "'do!' x ':=' c 'in' k" := (bind c (fun x => k))
  (at level 10, x pattern, c at level 200, k at level 200) : clt_scope.

Fixpoint for_each {A} (f : A -> io unit) (l : list A) : io unit :=
  match l with
  | [] => ret tt
  | x :: l' => do! _ := f x in for_each f l'
  end.

Fixpoint map_io {A B} (f : A -> io B) (l : list A) : io (list B) :=
  match l with
  | [] => ret []
  | x :: l' => do! y := f x in do! ys := map_io f l' in ret (y :: ys)
  end.

(** ** Paths in the tree *)

Fixpoint get (p : path) (s : node) : option node :=
  match p with
  | [] => Some s
  | x :: p' => match s with Dir es => es !! x ≫= get p' | File _ _ => None end
  end.

(** The tree with the entry at [p] set or removed; its parent must be a
    directory. *)
Fixpoint put (p : path) (v : option node) (s : node) : node :=
  match p, s with
  | [], _ => default s v
  | [x], Dir es => Dir (partial_alter (fun _ => v) x es)
  | x :: p', Dir es => Dir (alter (put p' v) x es)
  | _, File _ _ => s
  end.

Definition parent (p : path) : path := removelast p.
Definition file_name (p : path) : option text := last p.

Definition is_dir_node (n : option node) : bool :=
  match n with Some (Dir _) => true | _ => false end.
Definition is_file_node (n : option node) : bool :=
  match n with Some (File _ _) => true | _ => false end.

Definition is_dir (p : path) (s : node) : bool := is_dir_node (get p s).
Definition is_file (p : path) (s : node) : bool := is_file_node (get p s).
Definition exists_path (p : path) (s : node) : bool :=
  match get p s with Some _ => true | None => false end.

(** The names in a directory, in the order the system lists them. *)
Definition child_names (p : path) (s : node) : list text :=
  match get p s with Some (Dir es) => (map_to_list es).*1 | _ => [] end.

(** How many names the longest path of the tree has. *)
Fixpoint depth (n : node) : nat :=
  match n with
  | File _ _ => 0
  | Dir es => S (map_fold (fun _ m d => Nat.max (depth m) d) 0 es)
  end.

(** ** [std::fs] *)

Definition read_dir (p : path) : io (list text) := fun s =>
  if is_dir p s then (Ok (child_names p s), s) else (Err Io, s).

Definition read_to_string (p : path) : io text := fun s =>
  match get p s with Some (File c _) => (Ok c, s) | _ => (Err Io, s) end.

(** [fs::create_dir_all]: every missing component is created. *)
Fixpoint create_dirs (p : path) (s : node) : option node :=
  match p, s with
  | _, File _ _ => None
  | [], Dir _ => Some s
  | x :: p', Dir es =>
      n ← create_dirs p' (default (Dir ∅) (es !! x));
      Some (Dir (<[x := n]> es))
  end.
Definition create_dir_all (p : path) : io unit := fun s =>
  match create_dirs p s with Some s' => (Ok tt, s') | None => (Err Io, s) end.

Definition create_dir (p : path) : io unit := fun s =>
  if is_dir (parent p) s && negb (exists_path p s) then (Ok tt, put p (Some (Dir ∅)) s)
  else (Err Io, s).

Definition write_file (p : path) (c : text) : io unit := fun s =>
  match get p s with
  | Some (File _ ro) => if ro then (Err Io, s) else (Ok tt, put p (Some (File c ro)) s)
  | Some (Dir _) => (Err Io, s)
  | None => if is_dir (parent p) s then (Ok tt, put p (Some (File c false)) s) else (Err Io, s)
  end.

(** [OpenOptions::create_new]. *)
Definition create_new_file (p : path) (c : text) : io unit := fun s =>
  if exists_path p s || negb (is_dir (parent p) s) then (Err Io, s)
  else (Ok tt, put p (Some (File c false)) s).

Definition remove_file (p : path) : io unit := fun s =>
  if is_file p s then (Ok tt, put p None s) else (Err Io, s).
Definition remove_dir_all (p : path) : io unit := fun s =>
  if is_dir p s then (Ok tt, put p None s) else (Err Io, s).

(** What the target of a rename may be: nothing, a file under a file, or an
    empty directory under a directory. *)
Definition may_replace (moved : node) (target : option node) : bool :=
  match target, moved with
  | None, _ => true
  | Some (File _ _), File _ _ => true
  | Some (Dir es), Dir _ => bool_decide (es = ∅)
  | _, _ => false
  end.

Definition rename (src dst : path) : io unit := fun s =>
  match get src s with
  | None => (Err Io, s)
  | Some n =>
      if src == dst then (Ok tt, s)
      else if bool_decide (src `prefix_of` dst) then (Err Io, s)
      else if is_dir (parent dst) s && may_replace n (get dst s)
      then (Ok tt, put dst (Some n) (put src None s))
      else (Err Io, s)
  end.

(** ** Laws *)

Lemma get_app p q s : get (p ++ q) s = get p s ≫= get q.
Proof.
  revert s. induction p as [|x p IH]; intros s; [done|]. cbn [app get].
  destruct s as [|es]; [done|]. destruct (es !! x); [apply IH|done].
Qed.

Lemma get_snoc p x s :
  get (p ++ [x]) s = match get p s with Some (Dir es) => es !! x | _ => None end.
Proof. rewrite get_app. destruct (get p s) as [[|es]|]; [done| |done]. cbn. by destruct (es !! x). Qed.

Implicit Types (p q dir : path) (s : node) (es : gmap text node).

Definition set_dir dir es s : node := put dir (Some (Dir es)) s.

Lemma put_cons x p v s :
  p <> [] -> put (x :: p) v s =
  match s with Dir es => Dir (alter (put p v) x es) | File _ _ => s end.
Proof. destruct p; [done|]. by destruct s. Qed.

Lemma get_put_same p n m s : get p s = Some n -> get p (put p (Some m) s) = Some m.
Proof.
  revert s. induction p as [|x p IH]; intros s; [done|]. destruct s as [|es]; [done|]. cbn [get].
  destruct (es !! x) as [s'|] eqn:Hx; [|done]. cbn [mbind option_bind]. intros Hg. destruct p as [|y p].
  - cbn. by rewrite lookup_partial_alter_eq.
  - rewrite put_cons by done. cbn [get]. rewrite lookup_alter_eq, Hx. by apply IH.
Qed.

Lemma put_put p n a b s :
  get p s = Some n -> put p (Some b) (put p (Some a) s) = put p (Some b) s.
Proof.
  revert s. induction p as [|x p IH]; intros s; [done|]. destruct s as [|es]; [done|]. cbn [get].
  destruct (es !! x) as [s'|] eqn:Hx; [|done]. cbn [mbind option_bind]. intros Hg. destruct p as [|y p].
  - cbn. f_equal. apply map_eq. intros k. destruct (decide (k = x)) as [->|Hk].
    + by rewrite !lookup_partial_alter_eq.
    + by rewrite !lookup_partial_alter_ne.
  - rewrite !put_cons by done. f_equal. apply map_eq. intros k. destruct (decide (k = x)) as [->|Hk].
    + rewrite !lookup_alter_eq, Hx. cbn. f_equal. by apply IH.
    + by rewrite !lookup_alter_ne.
Qed.

Lemma put_get p n s : get p s = Some n -> put p (Some n) s = s.
Proof.
  revert s. induction p as [|x p IH]; intros s; [by intros [= ->]|]. destruct s as [|es]; [done|].
  cbn [get]. destruct (es !! x) as [s'|] eqn:Hx; [|done]. cbn [mbind option_bind]. intros Hg. destruct p as [|y p].
  - cbn in *. simplify_eq. f_equal. apply map_eq. intros k. destruct (decide (k = x)) as [->|Hk].
    + by rewrite lookup_partial_alter_eq.
    + by rewrite lookup_partial_alter_ne.
  - rewrite put_cons by done. f_equal. apply map_eq. intros k. destruct (decide (k = x)) as [->|Hk].
    + rewrite lookup_alter_eq, Hx. cbn. f_equal. by apply IH.
    + by rewrite lookup_alter_ne.
Qed.

Lemma put_snoc dir x v es s :
  get dir s = Some (Dir es) ->
  put (dir ++ [x]) v s = set_dir dir (partial_alter (fun _ => v) x es) s.
Proof.
  unfold set_dir. revert s. induction dir as [|y dir IH]; intros s.
  - intros [= ->]. done.
  - destruct s as [|es0]; [done|]. cbn [get]. destruct (es0 !! y) as [s'|] eqn:Hy; [|done].
    cbn [mbind option_bind]. intros Hg. cbn [app]. rewrite put_cons by by destruct dir.
    destruct dir as [|z dir].
    + cbn in *. simplify_eq. f_equal. apply map_eq. intros k. destruct (decide (k = y)) as [->|Hk].
      * by rewrite lookup_alter_eq, Hy, lookup_partial_alter_eq.
      * by rewrite lookup_alter_ne, lookup_partial_alter_ne.
    + rewrite put_cons by done. f_equal. apply map_eq. intros k. destruct (decide (k = y)) as [->|Hk].
      * rewrite !lookup_alter_eq, Hy. cbn. f_equal. by apply IH.
      * by rewrite !lookup_alter_ne.
Qed.

Lemma get_set_dir dir es es' s : get dir s = Some (Dir es) -> get dir (set_dir dir es' s) = Some (Dir es').
Proof. apply get_put_same. Qed.

Lemma set_dir_set_dir dir es es1 es2 s :
  get dir s = Some (Dir es) -> set_dir dir es2 (set_dir dir es1 s) = set_dir dir es2 s.
Proof. apply put_put. Qed.

Lemma set_dir_id dir es s : get dir s = Some (Dir es) -> set_dir dir es s = s.
Proof. apply put_get. Qed.

(** Paths that do not lead into each other. *)
Lemma get_put_other p q v s :
  ~ p `prefix_of` q -> ~ q `prefix_of` p -> get q (put p v s) = get q s.
Proof.
  revert q s. induction p as [|x p IH]; intros q s Hpq Hqp.
  { destruct Hpq. apply prefix_nil. }
  destruct q as [|y q]; [destruct Hqp; apply prefix_nil|].
  destruct s as [|es]; [by destruct p|]. destruct p as [|z p].
  - cbn. destruct (decide (x = y)) as [->|Hxy].
    + destruct Hpq. apply prefix_cons, prefix_nil.
    + by rewrite lookup_partial_alter_ne.
  - rewrite put_cons by done. cbn [get]. destruct (decide (x = y)) as [->|Hxy].
    + rewrite lookup_alter_eq. destruct (es !! y); [|done]. cbn. apply IH.
      * intros H. by apply Hpq, prefix_cons.
      * intros H. by apply Hqp, prefix_cons.
    + by rewrite lookup_alter_ne.
Qed.

(** ** Inside a directory *)

Lemma parent_snoc dir x : parent (dir ++ [x]) = dir.
Proof. apply removelast_last. Qed.

Lemma file_name_snoc dir x : file_name (dir ++ [x]) = Some x.
Proof. apply last_snoc. Qed.

Lemma snoc_prefix dir (a b : text) : dir ++ [a] `prefix_of` dir ++ [b] -> a = b.
Proof.
  intros [r Hr]. rewrite <- (assoc_L (++)) in Hr. apply app_inv_head in Hr. by inversion Hr.
Qed.

Lemma rename_entry dir a b n es s :
  get dir s = Some (Dir es) -> es !! a = Some n -> es !! b = None ->
  rename (dir ++ [a]) (dir ++ [b]) s = (Ok tt, set_dir dir (<[b := n]> (delete a es)) s).
Proof.
  intros Hd Ha Hb. unfold rename. rewrite get_snoc, Hd, Ha.
  assert (Hab : a <> b) by congruence.
  rewrite bool_decide_false by (intros H; apply app_inj_tail in H; naive_solver).
  rewrite bool_decide_false by (intros H; by apply snoc_prefix in H).
  unfold is_dir. rewrite parent_snoc, Hd, get_snoc, Hd, Hb. cbn.
  rewrite (put_snoc dir a None es s) by done. f_equal.
  rewrite (put_snoc dir b _ (partial_alter (fun _ => None) a es)) by by eapply get_set_dir.
  by erewrite set_dir_set_dir.
Qed.

Lemma exists_entry dir x es s :
  get dir s = Some (Dir es) -> exists_path (dir ++ [x]) s = match es !! x with Some _ => true | None => false end.
Proof. intros Hd. unfold exists_path. by rewrite get_snoc, Hd. Qed.

Lemma child_names_dir dir es s : get dir s = Some (Dir es) -> child_names dir s = (map_to_list es).*1.
Proof. intros Hd. unfold child_names. by rewrite Hd. Qed.
