(* ===== verification/Board.v ===== *)
(** The task board (src/task.rs): four status stores, each a Markdown list or a
    directory of task files, and the operations that read, insert, remove,
    rewrite, reorder and move tasks. The board lock makes each operation one
    step with respect to other CLT processes. *)
From S2P Require Import Prelude Text Markers TaskNotes Metadata TaskEntry Files.

Inductive StatusStore :=
| MarkdownFile (store_path : path)
| Directory (store_path : path).

Definition TASK_DETAIL_FILES : list text := str <$> ["task.md"; "README.md"; "index.md"].
Definition ARCHIVE_STATUS_CANDIDATES : list text := str <$> ["archived"; "archive"].
Definition TASK_STATUSES : list TaskStatus := Status.ALL.

(** [Path::file_stem] and [Path::extension] of a file name. *)
Definition file_stem (name : text) : text :=
  match rfind (str ".") name with
  | Some (S i) => upto (S i) name
  | _ => name
  end.
Definition extension (name : text) : option text :=
  match rfind (str ".") name with
  | Some (S i) => Some (from (S (S i)) name)
  | _ => None
  end.

(** ** [str::to_lowercase] *)

(** The tables of Unicode the standard library carries, outside ASCII. *)
Record UnicodeCase := mkUnicodeCase {
  lowercase_other : N -> text;
  cased_other : N -> bool;
  case_ignorable_other : N -> bool;
}.

Section Lowercase.
Context (U : UnicodeCase).

Definition is_cased (c : N) : bool :=
  if (c <? 128)%N then is_ascii_alphabetic c else cased_other U c.
(** The apostrophe, full stop, colon, circumflex and grave accent. *)
Definition is_case_ignorable (c : N) : bool :=
  if (c <? 128)%N then one_of [39; 46; 58; 94; 96]%N c else case_ignorable_other U c.

Definition case_ignorable_then_cased (s : text) : bool :=
  starts_with_char is_cased (trim_start_matches is_case_ignorable s).

(** A capital sigma at the end of a word has a lowercase of its own. *)
Definition map_uppercase_sigma (before_reversed after : text) : N :=
  if case_ignorable_then_cased before_reversed && negb (case_ignorable_then_cased after)
  then 962%N else 963%N.

Fixpoint lowercase_from (before_reversed s : text) : text :=
  match s with
  | [] => []
  | c :: after =>
      (if (c =? 931)%N then [map_uppercase_sigma before_reversed after]
       else if (c <? 128)%N then [ascii_lowercase_char c] else lowercase_other U c)
      ++ lowercase_from (c :: before_reversed) after
  end.

Definition to_lowercase (s : text) : text := lowercase_from [] s.
End Lowercase.

Section Board.
Context (U : UnicodeCase).

(** ** Stores *)

Definition status_store_exists (board_dir : path) (status : TaskStatus) (s : node) : bool :=
  is_dir (board_dir ++ [Status.as_str status]) s
  || is_file (board_dir ++ [Status.filename status]) s.

Definition board_has_any_status_store (board_dir : path) (s : node) : bool :=
  existsb (fun status => status_store_exists board_dir status s) TASK_STATUSES.

Definition ensure_status_store (board_dir : path) (directory_mode : bool) (status : TaskStatus)
    : io unit :=
  let dir_path := board_dir ++ [Status.as_str status] in
  let file_path := board_dir ++ [Status.filename status] in
  do! present := look (fun s => is_dir dir_path s || exists_path file_path s) in
  if present then ret tt
  else if directory_mode then create_dir_all dir_path
  else write_file file_path (Status.header status).

Definition ensure_board_store (board_dir : path) : io unit :=
  do! _ := create_dir_all board_dir in
  do! directory_mode := look (fun s =>
    existsb (fun status => is_dir (board_dir ++ [Status.as_str status]) s) TASK_STATUSES) in
  for_each (ensure_status_store board_dir directory_mode) TASK_STATUSES.

Definition get_status_store (board_dir : path) (status : TaskStatus) : io StatusStore :=
  do! _ := ensure_board_store board_dir in
  let dir_path := board_dir ++ [Status.as_str status] in
  do! directory := look (is_dir dir_path) in
  ret (if directory then Directory dir_path
       else MarkdownFile (board_dir ++ [Status.filename status])).

Definition archive_store (board_dir : path) (s : node) (status : text) : option StatusStore :=
  let dir_path := board_dir ++ [status] in
  let file_path := board_dir ++ [status ++ str ".md"] in
  if is_dir dir_path s then Some (Directory dir_path)
  else if is_file file_path s then Some (MarkdownFile file_path) else None.

Definition get_archive_status_store (board_dir : path) (s : node) : option StatusStore :=
  head (omap (archive_store board_dir s) ARCHIVE_STATUS_CANDIDATES).

Definition get_or_create_archive_status_store (board_dir : path) : io StatusStore :=
  do! found := look (get_archive_status_store board_dir) in
  match found with
  | Some store => ret store
  | None =>
      let archive_dir := board_dir ++ [default [] (head ARCHIVE_STATUS_CANDIDATES)] in
      do! _ := create_dir_all archive_dir in ret (Directory archive_dir)
  end.

(** ** Names in a folder-backed store *)

(** The sort key: managed completions first, then the name without its case. *)
Definition order_key (name : text) : bool * text :=
  let name := to_lowercase U name in (front_order_rank name == None, name).

Definition key_le (a b : bool * text) : bool :=
  match a.1, b.1 with
  | false, true => true
  | true, false => false
  | _, _ => text_le a.2 b.2
  end.

Definition visible (name : text) : bool := negb (starts_with (str ".") name).

Definition task_names (names : list text) : list text :=
  sort_by (fun a b => key_le (order_key a) (order_key b)) (List.filter visible names).

Definition directory_task_paths (dir : path) : io (list path) :=
  do! present := look (exists_path dir) in
  if negb present then ret []
  else
    do! names := read_dir dir in
    ret ((fun name => dir ++ [name]) <$> task_names names).

Definition title_from_path (p : path) : text :=
  let name := strip_order_prefix (default (str "task") (file_name p)) in
  let title := (fun c => if ((c =? 45) || (c =? 95))%N then 32%N else c) <$> file_stem name in
  if trim title == [] then str "task" else title.

(** [unique_child_path]: the unbounded loop from 2 is cut after [fuel] names;
    more are never needed than the directory has entries. *)
Fixpoint unique_name (fuel : nat) (taken : text -> bool) (stem ext : text) (idx : N) : option text :=
  match fuel with
  | O => None
  | S fuel' =>
      let candidate := stem ++ str "-" ++ decimal idx ++ ext in
      if taken candidate then unique_name fuel' taken stem ext (idx + 1) else Some candidate
  end.

Definition unique_child_name (dir : path) (preferred_name : text) (s : node) : text :=
  let taken name := exists_path (dir ++ [name]) s in
  if taken preferred_name then
    let ext := match extension preferred_name with Some e => str "." ++ e | None => [] end in
    default preferred_name
      (unique_name (S (length (child_names dir s))) taken (file_stem preferred_name) ext 2)
  else preferred_name.

Definition unique_child_path (dir : path) (preferred_name : text) (s : node) : path :=
  dir ++ [unique_child_name dir preferred_name s].

Definition order_prefix (n : nat) : text := zero_padded 4 (N.of_nat n) ++ str "-".

(** [front_order_rank] of the names, the smallest of them. *)
Definition min_rank (ranks : list N) : option N :=
  match ranks with [] => None | r :: rs => Some (foldl N.min r rs) end.

Definition task_name_without_reordering (dir : path) (name : text) (prepend : bool) : io text :=
  do! paths := directory_task_paths dir in
  if negb prepend then ret (order_prefix (length paths + 1) ++ name)
  else
    let ranks := omap (fun p => file_name p ≫= front_order_rank) paths in
    match default u64_max (min_rank ranks) with
    | 0%N => fail NoRoomToPrepend
    | rank => ret (str "0000-" ++ zero_padded 20 (rank - 1) ++ str "-" ++ name)
    end.

(** ** Reading tasks *)

Definition markdown_entry (il : nat * text) : option TaskEntry :=
  task_text ← strip_prefix (str "- ") il.2;
  Some (task_entry_from_text (MarkdownLine (N.of_nat il.1)) task_text task_text false).

Definition read_markdown_entries (p : path) : io (list TaskEntry) :=
  do! content := read_to_string p in
  ret (omap markdown_entry (imap pair (lines content))).

Definition read_directory_task_content (p : path) (s : node) : option text :=
  head (omap (fun name => match get (p ++ [name]) s with
                          | Some (File c _) => Some c
                          | _ => None
                          end) TASK_DETAIL_FILES).

Definition read_directory_entry (p : path) : io TaskEntry :=
  do! dir := look (is_dir p) in
  let fallback := title_from_path p in
  do! content :=
    (if dir then
       do! detail := look (read_directory_task_content p) in ret (default fallback detail)
     else read_to_string p) in
  let summary := default fallback (first_sentence (Thinking.strip (strip_coordination content))) in
  let '(description, metadata) := split_description_metadata summary in
  do! subtasks := look (board_has_any_status_store p) in
  ret (mkEntry (PathSource p dir) description content metadata (dir && subtasks)).

Definition read_directory_entries (p : path) : io (list TaskEntry) :=
  do! paths := directory_task_paths p in map_io read_directory_entry paths.

Definition read_task_entries (board_dir : path) (status : TaskStatus) : io (list TaskEntry) :=
  do! store := get_status_store board_dir status in
  match store with
  | MarkdownFile p => read_markdown_entries p
  | Directory p => read_directory_entries p
  end.

Definition read_archived_task_entries (board_dir : path) : io (list TaskEntry) :=
  do! store := look (get_archive_status_store board_dir) in
  match store with
  | Some (MarkdownFile p) => read_markdown_entries p
  | Some (Directory p) => read_directory_entries p
  | None => ret []
  end.

(** [task_index] counts from 1; the caller has rejected 0. *)
Definition task_entry_at (board_dir : path) (status : TaskStatus) (task_index : nat)
    : io TaskEntry :=
  do! entries := read_task_entries board_dir status in
  match entries !! (task_index - 1) with
  | Some entry => ret entry
  | None => fail IndexOutOfRange
  end.

(** ** Writing files *)

(** [replace_file_atomically]: the file is exchanged in one step, or not at
    all. *)
Definition replace_file_atomically (p : path) (content : text) : io unit := fun s =>
  match get p s with
  | None => (Err Io, s)
  | Some (File _ true) => (Err ReadOnlyFile, s)
  | Some (File _ false) => (Ok tt, put p (Some (File content false)) s)
  | Some (Dir _) => (Err Io, s)
  end.

Definition write_lines (p : path) (ls : list text) : io unit :=
  let updated_content := join [10%N] ls in
  replace_file_atomically p
    (match updated_content with [] => [] | _ => updated_content ++ [10%N] end).

Definition write_new_task_file_atomically (p : path) (content : text) : io unit := fun s =>
  if negb (is_dir (parent p) s) then (Err Io, s)
  else if exists_path p s then (Err ReplacesTask, s)
  else (Ok tt, put p (Some (File content false)) s).

Definition cleanup_clt_atomic_task_temporaries_in_directory (dir : path) : io nat :=
  do! present := look (is_dir dir) in
  if negb present then ret 0
  else
    do! names := read_dir dir in
    do! temporaries := look (fun s =>
      List.filter (fun name => is_clt_atomic_task_temporary_name name && is_file (dir ++ [name]) s)
        names) in
    do! _ := for_each (fun name => remove_file (dir ++ [name])) temporaries in
    ret (length temporaries).

Definition cleanup_clt_atomic_task_temporaries (board_dir : path) : io nat :=
  do! removed := cleanup_clt_atomic_task_temporaries_in_directory board_dir in
  do! more := map_io (fun status =>
    cleanup_clt_atomic_task_temporaries_in_directory (board_dir ++ [Status.as_str status]))
    TASK_STATUSES in
  ret (removed + foldr Nat.add 0 more).

(** ** Order of a folder-backed store *)

(** The first loop of [rewrite_directory_order]: every task gets a hidden
    temporary name. *)
Definition hide_task (dir : path) (ip : nat * path) : io (path * text) :=
  let '(idx, task_path) := ip in
  let original_name := default (str "task") (file_name task_path) in
  do! temp_path := look (unique_child_path dir
    (str ".clt-reorder-" ++ decimal (N.of_nat idx) ++ str "-" ++ original_name)) in
  do! _ := rename task_path temp_path in
  ret (temp_path, original_name).

Definition final_name (idx : nat) (original_name : text) : text :=
  order_prefix (idx + 1) ++ strip_order_prefix original_name.

Definition publish_task (dir : path) (it : nat * (path * text)) : io unit :=
  let '(idx, (temp_path, original_name)) := it in
  rename temp_path (dir ++ [final_name idx original_name]).

Definition rewrite_directory_order (dir : path) (ordered_paths : list path) : io unit :=
  do! temp_paths := map_io (hide_task dir) (imap pair ordered_paths) in
  for_each (publish_task dir) (imap pair temp_paths).

Definition normalize_directory_order (dir : path) : io unit :=
  do! paths := directory_task_paths dir in rewrite_directory_order dir paths.

(** [Vec::remove] then [Vec::insert], the target index capped at the length. *)
Definition move_item {A} (from_idx to_idx : nat) (l : list A) : list A :=
  match l !! from_idx with
  | None => l
  | Some x =>
      let rest := delete from_idx l in
      let to_idx := Nat.min to_idx (length rest) in
      take to_idx rest ++ x :: drop to_idx rest
  end.

Definition reorder_path_in_directory (dir task_path : path) (to_idx : nat) : io unit :=
  do! paths := directory_task_paths dir in
  match list_find (fun p => p = task_path) paths with
  | None => fail TaskDisappeared
  | Some (from_idx, _) => rewrite_directory_order dir (move_item from_idx to_idx paths)
  end.

Definition reorder_directory_task (dir : path) (from_idx to_idx : nat) : io unit :=
  do! paths := directory_task_paths dir in
  if length paths <=? from_idx then fail IndexOutOfRange
  else rewrite_directory_order dir (move_item from_idx to_idx paths).

(** ** Inserting *)

Definition is_task_line (line : text) : bool := starts_with (str "- ") line.

(** The line numbers of the tasks. *)
Definition task_line_numbers (ls : list text) : list nat :=
  omap (fun il : nat * text => if is_task_line il.2 then Some il.1 else None) (imap pair ls).

Definition insert_line (i : nat) (line : text) (ls : list text) : list text :=
  take i ls ++ line :: drop i ls.

Definition lines_with_task (index : option nat) (task_line : text) (ls : list text) : list text :=
  match index ≫= (fun idx => task_line_numbers ls !! idx) with
  | Some actual_idx => insert_line actual_idx task_line ls
  | None => ls ++ [task_line]
  end.

Definition insert_content_into_markdown (p : path) (index : option nat) (content : text) : io unit :=
  let task_line := str "- " ++ single_line_content content in
  do! file_content := read_to_string p in
  write_lines p (lines_with_task index task_line (lines file_content)).

Definition slug_file_name (content : text) : text :=
  slugify (default (str "task") (first_sentence content)) ++ str ".md".

Definition insert_content_into_directory (dir : path) (index : option nat) (content : text)
    : io unit :=
  do! _ := create_dir_all dir in
  do! paths := directory_task_paths dir in
  let preferred_name := order_prefix (length paths + 1) ++ slug_file_name content in
  do! task_path := look (unique_child_path dir preferred_name) in
  do! _ := write_new_task_file_atomically task_path (trim_end content ++ [10%N]) in
  match index with
  | Some idx => reorder_path_in_directory dir task_path idx
  | None => normalize_directory_order dir
  end.

Definition insert_content_into_directory_without_reordering_at (dir : path) (content : text)
    (prepend : bool) : io path :=
  do! _ := create_dir_all dir in
  do! preferred_name := task_name_without_reordering dir (slug_file_name content) prepend in
  do! task_path := look (unique_child_path dir preferred_name) in
  do! _ := write_new_task_file_atomically task_path (trim_end content ++ [10%N]) in
  ret task_path.

Definition insert_task_content (board_dir : path) (status : TaskStatus) (index : option nat)
    (content : text) : io unit :=
  do! store := get_status_store board_dir status in
  match store with
  | MarkdownFile p => insert_content_into_markdown p index content
  | Directory p => insert_content_into_directory p index content
  end.

Definition insert_task_in_board (board_dir : path) (status : TaskStatus) (index : option nat)
    (description : text) (metadata : option text) : io unit :=
  insert_task_content board_dir status index (content_with_metadata description metadata).

(** ** Removing *)

Definition remove_markdown_line (board_dir : path) (status : TaskStatus) (line_index : N) : io unit :=
  do! store := get_status_store board_dir status in
  match store with
  | Directory _ => fail StorageChanged
  | MarkdownFile p =>
      do! content := read_to_string p in
      let ls := lines content in
      if (N.of_nat (length ls) <=? line_index)%N then fail StorageChanged
      else write_lines p (delete (N.to_nat line_index) ls)
  end.

Definition remove_source (p : path) (dir : bool) : io unit :=
  if dir then remove_dir_all p else remove_file p.

Definition remove_task_entry (board_dir : path) (status : TaskStatus) (entry : TaskEntry) : io unit :=
  match source entry with
  | MarkdownLine line_index => remove_markdown_line board_dir status line_index
  | PathSource p dir =>
      do! _ := remove_source p dir in normalize_directory_order (parent p)
  end.

Definition remove_task_entry_without_reordering (board_dir : path) (status : TaskStatus)
    (entry : TaskEntry) : io unit :=
  match source entry with
  | MarkdownLine line_index => remove_markdown_line board_dir status line_index
  | PathSource p dir => remove_source p dir
  end.

(** ** Rewriting a task *)

Definition directory_task_detail_path (p : path) (s : node) : path :=
  match List.find (fun name => exists_path (p ++ [name]) s) TASK_DETAIL_FILES with
  | Some name => p ++ [name]
  | None => p ++ [default [] (head TASK_DETAIL_FILES)]
  end.

Definition write_markdown_line (board_dir : path) (status : TaskStatus) (line_index : N)
    (stored content : text) : io unit :=
  do! store := get_status_store board_dir status in
  match store with
  | Directory _ => fail StorageChanged
  | MarkdownFile p =>
      do! stored_content := read_to_string p in
      let ls := lines stored_content in
      match ls !! N.to_nat line_index with
      | None => fail StorageChanged
      | Some line =>
          if strip_prefix (str "- ") line == Some stored
          then write_lines p (<[N.to_nat line_index := str "- " ++ single_line_content content]> ls)
          else fail ContentChanged
      end
  end.

Definition write_task_entry_content (board_dir : path) (status : TaskStatus) (entry : TaskEntry)
    (new_content : text) : io unit :=
  match source entry with
  | MarkdownLine line_index =>
      write_markdown_line board_dir status line_index (content entry) new_content
  | PathSource p dir =>
      do! target_path := look (fun s => if dir then directory_task_detail_path p s else p) in
      let replacement := trim_end new_content ++ [10%N] in
      do! present := look (exists_path target_path) in
      if present then
        do! stored_content := read_to_string target_path in
        if stored_content == content entry then replace_file_atomically target_path replacement
        else fail ContentChanged
      else
        do! directory := look (is_dir p) in
        if dir && directory && (trim_end (content entry) == title_from_path p)
        then create_new_file target_path replacement
        else fail StorageChanged
  end.

(** ** Moving *)

Definition move_path_into_directory (source_path dest_dir : path) (index : option nat) : io path :=
  do! _ := create_dir_all dest_dir in
  let original_name := default (str "task.md") (file_name source_path) in
  do! paths := directory_task_paths dest_dir in
  let preferred_name := order_prefix (length paths + 1) ++ strip_order_prefix original_name in
  do! dest_path := look (unique_child_path dest_dir preferred_name) in
  do! _ := rename source_path dest_path in
  do! _ := normalize_directory_order (parent source_path) in
  do! _ := match index with
           | Some idx => reorder_path_in_directory dest_dir dest_path idx
           | None => normalize_directory_order dest_dir
           end in
  ret dest_path.

Definition move_path_into_directory_without_reordering (source_path dest_dir : path)
    (prepend : bool) : io path :=
  do! _ := create_dir_all dest_dir in
  let original_name := default (str "task.md") (file_name source_path) in
  do! preferred_name :=
    task_name_without_reordering dest_dir (strip_order_prefix original_name) prepend in
  do! dest_path := look (unique_child_path dest_dir preferred_name) in
  do! _ := rename source_path dest_path in
  ret dest_path.

Definition move_task_line (from_idx to_idx : nat) (ls : list text) : option (list text) :=
  actual_from_idx ← task_line_numbers ls !! from_idx;
  task_line ← ls !! actual_from_idx;
  let new_lines := delete actual_from_idx ls in
  let insert_at_idx := default (length new_lines) (task_line_numbers new_lines !! to_idx) in
  Some (insert_line insert_at_idx task_line new_lines).

Definition reorder_markdown_task (p : path) (from_idx to_idx : nat) : io unit :=
  do! content := read_to_string p in
  match move_task_line from_idx to_idx (lines content) with
  | None => fail IndexOutOfRange
  | Some ls => write_lines p ls
  end.

Definition convert_status_to_directory (board_dir : path) (status : TaskStatus) : io path :=
  let dir_path := board_dir ++ [Status.as_str status] in
  do! directory := look (is_dir dir_path) in
  if directory then ret dir_path
  else
    let file_path := board_dir ++ [Status.filename status] in
    do! _ := create_dir_all dir_path in
    do! present := look (exists_path file_path) in
    if negb present then ret dir_path
    else
      do! entries := read_markdown_entries file_path in
      do! _ := for_each (fun entry => insert_content_into_directory dir_path None (content entry))
                 entries in
      do! backup_path := look (unique_child_path board_dir (Status.filename status ++ str ".bak")) in
      do! _ := rename file_path backup_path in
      ret dir_path.

Definition done_index (to : TaskStatus) : option nat := if to == Done then Some 0 else None.

Definition move_task_in_board_after_lock (board_dir : path) (from_status to_status : TaskStatus)
    (task_index : nat) : io unit :=
  do! entry := task_entry_at board_dir from_status task_index in
  if from_status == to_status then ret tt
  else
    let dest_index := done_index to_status in
    do! store := get_status_store board_dir to_status in
    match source entry, store with
    | PathSource p _, Directory dest_dir =>
        do! _ := move_path_into_directory p dest_dir dest_index in ret tt
    | PathSource p _, MarkdownFile _ =>
        do! dest_dir := convert_status_to_directory board_dir to_status in
        do! _ := move_path_into_directory p dest_dir dest_index in ret tt
    | MarkdownLine _, _ =>
        do! _ := insert_task_content board_dir to_status dest_index (content entry) in
        remove_task_entry board_dir from_status entry
    end.

(** [after_destination] runs between writing the destination and removing the
    source. *)
Definition move_task_without_reordering_with_after_destination (board_dir : path)
    (from_status to_status : TaskStatus) (task_index : nat) (after_destination : io unit) : io unit :=
  do! _ := cleanup_clt_atomic_task_temporaries board_dir in
  do! entry := task_entry_at board_dir from_status task_index in
  do! store := get_status_store board_dir to_status in
  match source entry, store with
  | PathSource p _, Directory dest_dir =>
      do! _ := move_path_into_directory_without_reordering p dest_dir (to_status == Done) in
      after_destination
  | PathSource _ _, MarkdownFile _ => fail FolderIntoMarkdown
  | MarkdownLine _, Directory dest_dir =>
      do! _ := insert_content_into_directory_without_reordering_at dest_dir (content entry)
                 (to_status == Done) in
      do! _ := after_destination in
      remove_task_entry_without_reordering board_dir from_status entry
  | MarkdownLine _, MarkdownFile dest_file =>
      do! _ := insert_content_into_markdown dest_file (done_index to_status) (content entry) in
      do! _ := after_destination in
      remove_task_entry_without_reordering board_dir from_status entry
  end.

Definition move_task_without_reordering_after_lock (board_dir : path)
    (from_status to_status : TaskStatus) (task_index : nat) : io unit :=
  move_task_without_reordering_with_after_destination board_dir from_status to_status task_index
    (ret tt).

Definition prioritize_task_after_lock (board_dir : path) (status : TaskStatus) (entry : TaskEntry)
    : io unit :=
  match source entry with
  | PathSource p _ =>
      do! _ := move_path_into_directory_without_reordering p (parent p) true in ret tt
  | MarkdownLine _ =>
      do! entries := read_task_entries board_dir status in
      match list_find (fun t => source t = source entry /\ content t = content entry) entries with
      | None => fail TaskDisappeared
      | Some (index, _) =>
          do! store := get_status_store board_dir status in
          match store with
          | Directory _ => fail StorageChanged
          | MarkdownFile p => reorder_markdown_task p index 0
          end
      end
  end.
End Board.
