(* ===== verification/BoardOrder.v ===== *)
(** The order of a folder-backed store: names sort as their prefixes do, and
    giving every task a new prefix realises any order of the tasks. *)
From S2P Require Import Prelude Text TextLemmas.
From S2P Require Import TextLemmas Markers TaskNotes Metadata TaskEntry.
From S2P Require Import Files Board.

Implicit Types (dir : path) (s : node) (es : gmap text node) (n x : text).

(** ** Sorting *)

Lemma text_le_trans a b c : text_le a b = true -> text_le b c = true -> text_le a c = true.
Proof.
  revert b c. induction a as [|x a IH]; intros b c; [done|].
  destruct b as [|y b], c as [|z c]; cbn [text_le]; try done. intros Hab Hbc.
  apply orb_true_iff in Hab, Hbc. apply orb_true_iff.
  destruct Hab as [Hab|Hab], Hbc as [Hbc|Hbc]; rewrite ?andb_true_iff, ?N.ltb_lt, ?N.eqb_eq in *.
  - left. lia.
  - left. lia.
  - left. lia.
  - right. destruct Hab as [-> Hab], Hbc as [-> Hbc]. split; [done|]. by eapply IH.
Qed.

Lemma key_le_total a b : key_le a b = false -> key_le b a = true.
Proof. destruct a as [[] a], b as [[] b]; cbn; try done; apply text_le_total. Qed.

Lemma key_le_trans a b c : key_le a b = true -> key_le b c = true -> key_le a c = true.
Proof.
  destruct a as [[] a], b as [[] b], c as [[] c]; cbn; try done; apply text_le_trans.
Qed.

Lemma key_le_antisym a b : key_le a b = true -> key_le b a = true -> a = b.
Proof.
  destruct a as [[] a], b as [[] b]; cbn; try done; intros; f_equal; by apply text_le_antisym.
Qed.

(** A list sorted without ties is what sorting any permutation of it gives. *)
Lemma sort_by_unique {A} (le : A -> A -> bool) (l r : list A) :
  (forall a b, le a b = false -> le b a = true) ->
  (forall a b c, le a b = true -> le b c = true -> le a c = true) ->
  (forall a b, a ∈ r -> b ∈ r -> le a b = true -> le b a = true -> a = b) ->
  StronglySorted (fun a b => le a b = true) r -> l ≡ₚ r -> sort_by le l = r.
Proof.
  intros Htot Htr Hanti Hr Hlr.
  assert (Hp : sort_by le l ≡ₚ r) by by rewrite sort_by_perm.
  apply (StronglySorted_unique_strong (fun a b => le a b = true)); try done.
  - intros a b Ha Hb. rewrite Hp in Ha. by apply Hanti.
  - apply Sorted_StronglySorted; [intros a b c; apply Htr|]. by apply sort_by_sorted.
Qed.

(** ** Prefixes *)

Lemma utf8_cons c (p : text) : utf8_len (c :: p) = (len_utf8 c + utf8_len p)%Z.
Proof. done. Qed.

Lemma utf8_len_app (p q : text) : (utf8_len (p ++ q) = utf8_len p + utf8_len q)%Z.
Proof. induction p as [|c p IH]; [done|]. cbn. unfold utf8_len in *. lia. Qed.

Lemma utf8_len_nonneg (p : text) : (Z.of_nat (length p) <= utf8_len p)%Z.
Proof.
  induction p as [|c p IH]; [done|]. rewrite utf8_cons. cbn [length]. unfold len_utf8.
  repeat case_match; lia.
Qed.

Lemma utf8_len_ascii (p : text) :
  Forall (fun c => (c < 128)%N) p -> utf8_len p = Z.of_nat (length p).
Proof.
  intros Hp. induction Hp as [|c p Hc Hp IH]; [done|]. rewrite utf8_cons, IH. cbn [length].
  unfold len_utf8. destruct (N.ltb_spec c 128); lia.
Qed.

Lemma digit_ascii c : is_ascii_digit c = true -> (c < 128)%N.
Proof.
  unfold is_ascii_digit. intros Hc. apply andb_true_iff in Hc as [_ Hc]. apply N.leb_le in Hc. lia.
Qed.

Lemma forallb_digits_ascii (p : text) :
  forallb is_ascii_digit p = true -> Forall (fun c => (c < 128)%N) p.
Proof.
  intros Hp. apply Forall_forall. intros c Hc. apply digit_ascii. revert c Hc.
  by apply forallb_elem_of.
Qed.

Lemma order_prefix_length i : (N.of_nat i < 10000)%N -> length (order_prefix i) = 5.
Proof.
  intros Hi. unfold order_prefix. rewrite length_app, zero_padded_length; [done|lia|].
  done.
Qed.

Lemma order_prefix_split i n : order_prefix i ++ n = zero_padded 4 (N.of_nat i) ++ 45%N :: n.
Proof. unfold order_prefix. by rewrite <- (assoc_L (++)). Qed.

Lemma order_prefix_inj i j n m : order_prefix i ++ n = order_prefix j ++ m -> i = j /\ n = m.
Proof. rewrite !order_prefix_split. intros [Hij ->]%numbered_inj. split; [lia|done]. Qed.

Lemma front_rank_order_prefix i n : 1 <= i -> front_order_rank (order_prefix i ++ n) = None.
Proof.
  intros Hi. unfold front_order_rank.
  assert (starts_with (str "0000-") (order_prefix i ++ n) = false) as ->.
  { apply not_true_iff_false. intros [r Hr]%starts_with_spec.
    change (str "0000-") with (order_prefix 0) in Hr. apply order_prefix_inj in Hr. lia. }
  by rewrite andb_false_r.
Qed.

Lemma strip_order_prefixed i n :
  1 <= i -> (N.of_nat i < 10000)%N -> n <> [] -> strip_order_prefix (order_prefix i ++ n) = n.
Proof.
  intros Hi Hm Hn. unfold strip_order_prefix. rewrite front_rank_order_prefix by lia. cbn [negb].
  rewrite bool_decide_true by done. cbn [negb].
  assert (Hl : length (order_prefix i) = 5) by (apply order_prefix_length; lia).
  assert ((5 <? utf8_len (order_prefix i ++ n))%Z = true) as ->.
  { apply Z.ltb_lt. eapply Z.lt_le_trans; [|apply utf8_len_nonneg]. rewrite length_app, Hl.
    destruct n; [done|]. cbn. lia. }
  assert (Hz : length (zero_padded 4 (N.of_nat i)) = 4).
  { apply zero_padded_length; [lia|done]. }
  assert (upto 4 (order_prefix i ++ n) = zero_padded 4 (N.of_nat i)) as ->.
  { rewrite order_prefix_split. unfold upto. by apply take_app_length'. }
  assert (forallb is_ascii_digit (zero_padded 4 (N.of_nat i)) = true) as ->.
  { apply forallb_elem_of. apply Forall_forall, zero_padded_digits. }
  assert (H4 : (order_prefix i ++ n) !! 4 = Some 45%N).
  { rewrite order_prefix_split, lookup_app_r by lia. by rewrite Hz. }
  rewrite bool_decide_true by exact H4. cbn [andb]. unfold from. by apply drop_app_length'.
Qed.

Lemma from_ne k (n : text) :
  Forall (fun c => (c < 128)%N) (take k n) -> (Z.of_nat k < utf8_len n)%Z -> from k n <> [].
Proof.
  intros Ha Hl Hd. unfold from in Hd. rewrite <- (take_drop k n), Hd, app_nil_r in Hl.
  rewrite utf8_len_ascii in Hl by done. rewrite length_take in Hl. lia.
Qed.

Lemma strip_order_prefix_ne n : n <> [] -> strip_order_prefix n <> [].
Proof.
  intros Hn. unfold strip_order_prefix. destruct (front_order_rank n) as [r|] eqn:Hr.
  - rewrite bool_decide_false by done. cbn [negb]. unfold front_order_rank in Hr.
    destruct (26 <? utf8_len n)%Z eqn:Hl; [|done]. cbn [andb] in Hr.
    destruct (starts_with (str "0000-") n) eqn:Hs; [|done]. cbn [andb] in Hr.
    destruct (forallb is_ascii_digit (slice 5 25 n)) eqn:Hd; [|done]. cbn [andb] in Hr.
    destruct (bool_decide_reflect (n !! 25 = Some 45%N)) as [H25|]; [|done].
    apply Z.ltb_lt in Hl. apply from_ne; [|lia].
    apply starts_with_spec in Hs as [q ->].
    assert (H20 : (q : list N) !! 20 = Some 45%N) by exact H25.
    change (forallb is_ascii_digit (take 20 q) = true) in Hd.
    change (take 26 (str "0000-" ++ q)) with ([48; 48; 48; 48; 45]%N ++ take 21 q).
    apply Forall_app. split; [by repeat constructor|].
    rewrite (take_S_r q 20 45%N H20). apply Forall_app. split; [|by repeat constructor].
    by apply forallb_digits_ascii.
  - rewrite bool_decide_true by done. cbn [negb].
    destruct (5 <? utf8_len n)%Z eqn:Hl; [|done]. cbn [andb].
    destruct (forallb is_ascii_digit (upto 4 n)) eqn:Hd; [|done]. cbn [andb].
    destruct (bool_decide_reflect (n !! 4 = Some 45%N)) as [H4|]; [|done].
    apply Z.ltb_lt in Hl. apply from_ne; [|lia]. rewrite (take_S_r n 4 45%N H4).
    apply Forall_app. split; [|by repeat constructor]. by apply forallb_digits_ascii.
Qed.

(** ** Names in the order of their prefixes *)

Definition plain (c : N) : Prop := (c < 65)%N.

Section Order.
Context (U : UnicodeCase).

Lemma lowercase_from_plain b p n :
  Forall plain p -> exists b', lowercase_from U b (p ++ n) = p ++ lowercase_from U b' n.
Proof.
  intros Hp. revert b. induction Hp as [|c p Hc Hp IH]; intros b; [by exists b|].
  cbn [app lowercase_from]. destruct (IH (c :: b)) as [b' ->]. exists b'. unfold plain in Hc.
  destruct (N.eqb_spec c 931); [lia|]. destruct (N.ltb_spec c 128); [|lia].
  unfold ascii_lowercase_char, is_ascii_uppercase. destruct (N.leb_spec 65 c); [lia|done].
Qed.

Lemma digits_plain p : digits p -> Forall plain p.
Proof.
  intros Hp. eapply Forall_impl; [done|]. intros c Hc. unfold is_ascii_digit in Hc.
  apply andb_true_iff in Hc as [_ Hc]. apply N.leb_le in Hc. unfold plain. lia.
Qed.

Lemma order_prefix_plain i : Forall plain (order_prefix i).
Proof.
  apply Forall_app. split; [apply digits_plain, zero_padded_digits|]. by repeat constructor.
Qed.

Lemma to_lowercase_prefixed i n :
  exists r, to_lowercase U (order_prefix i ++ n) = order_prefix i ++ r.
Proof.
  destruct (lowercase_from_plain [] _ n (order_prefix_plain i)) as [b Hb]. eexists. exact Hb.
Qed.


(** Numbered names sort in the order of their numbers. *)
Lemma order_key_numbered i n :
  1 <= i -> exists r, order_key U (order_prefix i ++ n) = (true, order_prefix i ++ r).
Proof.
  intros Hi. unfold order_key. destruct (to_lowercase_prefixed i n) as [r Hr]. exists r.
  rewrite Hr. by rewrite front_rank_order_prefix, bool_decide_true.
Qed.

Lemma order_key_lt i j n m :
  1 <= i < j -> (N.of_nat j < 10000)%N ->
  key_le (order_key U (order_prefix i ++ n)) (order_key U (order_prefix j ++ m)) = true /\
  key_le (order_key U (order_prefix j ++ m)) (order_key U (order_prefix i ++ n)) = false.
Proof.
  intros Hij Hj. destruct (order_key_numbered i n) as [r ->]; [lia|].
  destruct (order_key_numbered j m) as [r' ->]; [lia|]. unfold key_le. cbn [fst snd].
  rewrite !order_prefix_split. apply zero_padded_order; [lia|done|lia].
Qed.

(** The new names of a list of tasks. *)
Definition numbered_from (k : nat) (ns : list text) : list text :=
  imap (fun i n => final_name (k + i) n) ns.

Lemma numbered_from_cons k n ns : numbered_from k (n :: ns) = final_name k n :: numbered_from (S k) ns.
Proof.
  unfold numbered_from. cbn [imap]. rewrite Nat.add_0_r. f_equal. apply imap_ext.
  intros i x _. unfold compose. by rewrite Nat.add_succ_r.
Qed.

Lemma elem_of_numbered k ns x :
  x ∈ numbered_from k ns -> exists i n, ns !! i = Some n /\ x = final_name (k + i) n.
Proof.
  unfold numbered_from. intros [i Hi]%list_elem_of_lookup. rewrite list_lookup_imap in Hi.
  destruct (ns !! i) as [n|] eqn:Hn; [|done]. cbn in Hi. injection Hi as <-. eauto.
Qed.

Definition name_before (a b : text) : Prop := key_le (order_key U a) (order_key U b) = true.

Lemma numbered_sorted k ns :
  (N.of_nat (k + length ns) < 10000)%N ->
  StronglySorted name_before (numbered_from k ns) /\
  (forall a b, a ∈ numbered_from k ns -> b ∈ numbered_from k ns ->
     name_before a b -> name_before b a -> a = b) /\
  NoDup (numbered_from k ns).
Proof.
  intros Hk. split; [|split].
  - revert k Hk. induction ns as [|n ns IH]; intros k Hk; [constructor|].
    rewrite numbered_from_cons. cbn [length] in Hk. constructor; [apply IH; lia|].
    apply Forall_forall. intros x (i & m & Hm & ->)%elem_of_numbered.
    apply lookup_lt_Some in Hm. apply order_key_lt; lia.
  - intros a b (i & n & Hn & ->)%elem_of_numbered (j & m & Hm & ->)%elem_of_numbered Hab Hba.
    unfold name_before, final_name in *.
    pose proof (lookup_lt_Some _ _ _ Hn). pose proof (lookup_lt_Some _ _ _ Hm).
    destruct (Nat.lt_trichotomy i j) as [Hij|[->|Hij]].
    + edestruct (order_key_lt (k + i + 1) (k + j + 1)) as [_ Hf]; [lia|lia|]. by rewrite Hba in Hf.
    + congruence.
    + edestruct (order_key_lt (k + j + 1) (k + i + 1)) as [_ Hf]; [lia|lia|]. by rewrite Hab in Hf.
  - apply NoDup_alt. intros i j x Hi Hj. unfold numbered_from in *.
    rewrite list_lookup_imap in Hi, Hj. destruct (ns !! i), (ns !! j); try done.
    cbn in Hi, Hj. injection Hi as <-. injection Hj as Hj. apply order_prefix_inj in Hj. lia.
Qed.

(** ** Task names of a directory *)

Definition names es : list text := task_names U (map_to_list es).*1.

Lemma elem_of_names x es : x ∈ names es <-> visible x = true /\ is_Some (es !! x).
Proof.
  unfold names, task_names. rewrite sort_by_perm, list_elem_of_In, filter_In, <- list_elem_of_In.
  rewrite list_elem_of_fmap. split.
  - intros [([y n] & -> & Hy) Hv]. apply elem_of_map_to_list in Hy. split; [done|]. by exists n.
  - intros [Hv [n Hn]]. split; [|done]. exists (x, n). by rewrite elem_of_map_to_list.
Qed.

Lemma names_NoDup es : NoDup (names es).
Proof.
  unfold names, task_names. rewrite sort_by_perm. apply NoDup_ListNoDup, List.NoDup_filter, NoDup_ListNoDup.
  apply NoDup_fst_map_to_list.
Qed.

Lemma names_unique es (ns : list text) :
  NoDup ns -> (forall x, x ∈ ns <-> visible x = true /\ is_Some (es !! x)) ->
  StronglySorted name_before ns ->
  (forall a b, a ∈ ns -> b ∈ ns -> name_before a b -> name_before b a -> a = b) ->
  names es = ns.
Proof.
  intros Hnd Hin Hs Ha. unfold names, task_names. apply sort_by_unique; try done.
  - intros a b. apply key_le_total.
  - intros a b c. apply key_le_trans.
  - pose proof (names_NoDup es) as Hn. unfold names, task_names in Hn. rewrite sort_by_perm in Hn.
    apply NoDup_Permutation; [done..|]. intros x. rewrite Hin, <- elem_of_names.
    unfold names, task_names. by rewrite sort_by_perm.
Qed.
End Order.

(** ** Moving entries within a directory *)

(** The entries after each pair's first name is renamed to its second. *)
Fixpoint moved (ab : list (text * text)) es : gmap text node :=
  match ab with
  | [] => es
  | (a, b) :: ab' =>
      moved ab' (match es !! a with Some n => <[b := n]> (delete a es) | None => es end)
  end.

(** Each pair can be renamed when its turn comes. *)
Fixpoint movable (ab : list (text * text)) es : Prop :=
  match ab with
  | [] => True
  | (a, b) :: ab' =>
      exists v : node, es !! a = Some v /\ es !! b = None /\ movable ab' (<[b := v]> (delete a es))
  end.

Lemma moved_other ab es x : x ∉ ab.*1 -> x ∉ ab.*2 -> moved ab es !! x = es !! x.
Proof.
  revert es. induction ab as [|[a b] ab IH]; intros es; [done|]. cbn [fmap list_fmap fst snd].
  rewrite !not_elem_of_cons. intros [Ha Ha'] [Hb Hb']. cbn [moved]. rewrite IH by done.
  destruct (es !! a); [|done]. by rewrite lookup_insert_ne, lookup_delete_ne by done.
Qed.

Lemma moved_spec ab es :
  movable ab es -> NoDup (ab.*1 ++ ab.*2) ->
  (forall a b, (a, b) ∈ ab -> moved ab es !! b = es !! a /\ moved ab es !! a = None).
Proof.
  revert es. induction ab as [|[a b] ab IH]; intros es Hm Hnd a' b' Hin; [by apply elem_of_nil in Hin|].
  cbn [fmap list_fmap fst snd app movable moved] in *. destruct Hm as (n & Ha & Hb & Hm). rewrite Ha.
  apply NoDup_cons in Hnd as [Hna Hnd].
  rewrite not_elem_of_app, not_elem_of_cons in Hna. destruct Hna as (Hna & Hab & Hna').
  rewrite <- Permutation_middle in Hnd. apply NoDup_cons in Hnd as [Hnb Hnd].
  rewrite not_elem_of_app in Hnb. destruct Hnb as [Hnb Hnb'].
  apply elem_of_cons in Hin as [[= -> ->]|Hin].
  - rewrite !moved_other by done. rewrite lookup_insert_eq, lookup_insert_ne by done.
    by rewrite lookup_delete_eq.
  - destruct (IH _ Hm Hnd _ _ Hin) as [-> ->]. split; [|done].
    assert (Ha' : a' ∈ ab.*1) by (apply list_elem_of_fmap; by exists (a', b')).
    rewrite lookup_insert_ne, lookup_delete_ne; [done|set_solver..].
Qed.

(** ** Fresh names *)

Lemma taken_child dir es s x :
  get dir s = Some (Dir es) -> exists_path (dir ++ [x]) s = true -> x ∈ child_names dir s.
Proof.
  intros Hd. rewrite (exists_entry dir x es s Hd), (child_names_dir dir es s Hd).
  destruct (es !! x) as [n|] eqn:Hx; [|done]. intros _. apply list_elem_of_fmap. exists (x, n).
  by rewrite elem_of_map_to_list.
Qed.

Definition candidate (stem ext : text) (idx : N) : text := stem ++ str "-" ++ decimal idx ++ ext.

Lemma candidate_inj stem ext i j : candidate stem ext i = candidate stem ext j -> i = j.
Proof.
  unfold candidate. intros H. apply app_inv_head, app_inv_head, app_inv_tail in H.
  by apply decimal_inj.
Qed.

Definition candidates (stem ext : text) (fuel : nat) (idx : N) : list text :=
  (fun k => candidate stem ext (idx + N.of_nat k)) <$> seq 0 fuel.

Lemma candidates_S stem ext fuel idx :
  candidates stem ext (S fuel) idx = candidate stem ext idx :: candidates stem ext fuel (idx + 1).
Proof.
  unfold candidates. cbn [seq fmap list_fmap]. rewrite N.add_0_r. f_equal.
  rewrite <- fmap_S_seq, <- list_fmap_compose. apply list_fmap_ext. intros _ k _. unfold compose.
  f_equal. lia.
Qed.

Lemma unique_name_spec fuel taken stem ext idx :
  match unique_name fuel taken stem ext idx with
  | Some c => taken c = false /\ exists k, c = candidate stem ext k
  | None => forall c, c ∈ candidates stem ext fuel idx -> taken c = true
  end.
Proof.
  revert idx. induction fuel as [|fuel IH]; intros idx; cbn [unique_name].
  { intros c Hc. by apply elem_of_nil in Hc. }
  fold (candidate stem ext idx). destruct (taken (candidate stem ext idx)) eqn:Ht.
  - specialize (IH (idx + 1)%N). destruct (unique_name fuel taken stem ext (idx + 1)); [done|].
    rewrite candidates_S. intros c [->|Hc]%elem_of_cons; [done|by apply IH].
  - split; [done|by exists idx].
Qed.

(** The search always finds a name: a directory has not as many entries as the
    candidates it tries. *)
Lemma unique_name_found (taken : text -> bool) (used : list text) stem ext idx :
  (forall c, taken c = true -> c ∈ used) ->
  is_Some (unique_name (S (length used)) taken stem ext idx).
Proof.
  intros Hused. pose proof (unique_name_spec (S (length used)) taken stem ext idx) as Hspec.
  destruct (unique_name _ _ _ _ _); [by eexists|]. exfalso.
  set (cs := candidates stem ext (S (length used)) idx) in *.
  assert (Hnd : NoDup cs).
  { apply NoDup_fmap_2; [|apply NoDup_seq]. intros i j Hij%candidate_inj. lia. }
  assert (Hle : length cs <= length used).
  { apply submseteq_length, NoDup_submseteq; [done|]. intros c Hc. apply Hused. by apply Hspec. }
  unfold cs, candidates in Hle. rewrite length_fmap, length_seq in Hle. lia.
Qed.

Lemma file_stem_head n : n <> [] -> head (file_stem n) = head n /\ file_stem n <> [].
Proof.
  intros Hn. unfold file_stem. destruct (rfind (str ".") n) as [[|i]|]; [done| |done].
  by destruct n.
Qed.

(** [unique_child_path] gives a name that is free and starts like the one
    asked for. *)
Lemma unique_child_name_spec dir es s n :
  get dir s = Some (Dir es) -> n <> [] ->
  es !! unique_child_name dir n s = None /\ head (unique_child_name dir n s) = head n.
Proof.
  intros Hd Hn. unfold unique_child_name. cbv zeta.
  set (taken := fun name => exists_path (dir ++ [name]) s).
  assert (Htaken : forall x, taken x = false -> es !! x = None).
  { intros x. unfold taken. rewrite (exists_entry dir x es s Hd). by destruct (es !! x). }
  change (exists_path (dir ++ [n]) s) with (taken n).
  destruct (taken n) eqn:Ht; [|by split; [apply Htaken|]].
  set (ext := match extension n with Some e => str "." ++ e | None => [] end).
  destruct (unique_name_found taken (child_names dir s) (file_stem n) ext 2) as [c Hc].
  { intros c. by apply (taken_child dir es s c Hd). }
  rewrite Hc. cbn [from_option id].
  pose proof (unique_name_spec (S (length (child_names dir s))) taken (file_stem n) ext 2) as Hs.
  rewrite Hc in Hs. destruct Hs as [Hf [k ->]]. split; [by apply Htaken|].
  destruct (file_stem_head n Hn) as [<- Hne]. unfold candidate. by destruct (file_stem n).
Qed.
