(* ===== verification/BoardRewrite.v ===== *)
(** Rewriting the order of a folder-backed store realises the order asked for:
    no task is lost, none is overwritten, nothing hidden is touched. *)
From S2P Require Import Prelude Text TextLemmas.
From S2P Require Import TextLemmas Markers TaskNotes Metadata TaskEntry.
From S2P Require Import Files Board BoardOrder.

Implicit Types (dir : path) (s : node) (es : gmap text node) (n x : text) (ns : list text).

Definition in_dir dir ns : list path := (fun n => dir ++ [n]) <$> ns.

Lemma visible_digits (p : text) n : digits p -> p <> [] -> visible (p ++ n) = true.
Proof.
  intros Hp Hne. unfold visible. apply negb_true_iff, not_true_iff_false.
  intros [r Hr]%starts_with_spec. destruct Hp as [|c p Hc Hp]; [done|].
  change (str ".") with [46%N] in Hr. cbn in Hr. by injection Hr as -> _.
Qed.

Lemma zero_padded_ne w k : zero_padded w k <> [].
Proof.
  unfold zero_padded. intros [_ H]%app_eq_nil. unfold decimal in H. cbn [decimal_digits] in H.
  destruct (_ <? _)%N; [done|]. by apply app_eq_nil in H as [_ ?].
Qed.

Lemma visible_numbered i n : visible (order_prefix i ++ n) = true.
Proof.
  rewrite order_prefix_split. apply visible_digits; [apply zero_padded_digits|apply zero_padded_ne].
Qed.

Lemma visible_head n m : head n = head m -> visible n = visible m.
Proof.
  intros H. destruct n as [|c n], m as [|d m]; try done. injection H as ->. unfold visible.
  unfold starts_with. change (str ".") with [46%N]. cbn [strip_prefix]. by destruct (46 =? d)%N.
Qed.

(** ** The two loops *)

Lemma movable_disjoint ab es :
  NoDup (ab.*1 ++ ab.*2) -> (forall a, a ∈ ab.*1 -> is_Some (es !! a)) ->
  (forall b, b ∈ ab.*2 -> es !! b = None) -> movable ab es.
Proof.
  revert es. induction ab as [|[a b] ab IH]; intros es Hnd Ha Hb; [done|].
  cbn [fmap list_fmap fst snd app movable] in *.
  apply NoDup_cons in Hnd as [Hna Hnd]. rewrite <- Permutation_middle in Hnd.
  apply NoDup_cons in Hnd as [Hnb Hnd].
  destruct (Ha a) as [v Hv]; [by left|]. exists v. split; [done|]. split; [apply Hb; by left|].
  apply IH; [done| |].
  - intros x Hx. rewrite lookup_insert_ne, lookup_delete_ne; [apply Ha; by right|set_solver..].
  - intros x Hx. rewrite lookup_insert_ne by set_solver.
    destruct (decide (x = a)) as [->|]; [by rewrite lookup_delete_eq|].
    rewrite lookup_delete_ne by done. apply Hb. by right.
Qed.

Lemma hide_tasks dir (ips : list (nat * path)) ns es s :
  get dir s = Some (Dir es) -> ips.*2 = in_dir dir ns -> NoDup ns ->
  (forall n, n ∈ ns -> visible n = true /\ is_Some (es !! n)) ->
  exists ts,
    map_io (hide_task dir) ips s
    = (Ok (zip (in_dir dir ts) ns), set_dir dir (moved (zip ns ts) es) s)
    /\ length ts = length ns /\ NoDup ts
    /\ (forall t, t ∈ ts -> visible t = false /\ es !! t = None).
Proof.
  revert ips es s. induction ns as [|n ns IH]; intros ips es s Hd Hips Hnd Hns.
  { destruct ips; [|done]. exists []. cbn. rewrite set_dir_id by done.
    split_and!; [done..|constructor|]. intros t Ht. by apply elem_of_nil in Ht. }
  destruct ips as [|[i p] ips]; [done|]. injection Hips as -> Hips.
  apply NoDup_cons in Hnd as [Hn Hnd]. destruct (Hns n) as [Hv [v Hnv]]; [by left|].
  set (pref := str ".clt-reorder-" ++ decimal (N.of_nat i) ++ str "-" ++ n).
  destruct (unique_child_name_spec dir es s pref Hd) as [Hfree Hhead]; [done|].
  set (t := unique_child_name dir pref s) in *.
  assert (Htv : visible t = false) by by rewrite (visible_head t pref).
  set (es1 := <[t := v]> (delete n es)).
  destruct (IH ips es1 (set_dir dir es1 s)) as (ts & Hrun & Hlen & Hts & Hfresh).
  { by eapply get_set_dir. } { done. } { done. }
  { intros m Hm. destruct (Hns m) as [Hmv Hme]; [by right|]. split; [done|]. unfold es1.
    rewrite lookup_insert_ne, lookup_delete_ne by congruence. done. }
  exists (t :: ts). split_and!.
  - cbn [map_io]. unfold bind at 1. unfold hide_task at 1. rewrite file_name_snoc. cbn [from_option id].
    unfold bind, look, ret. cbv beta. unfold Datatypes.id. fold pref. unfold unique_child_path. fold t.
    rewrite (rename_entry dir n t v es s) by done. fold es1.
    unfold bind, ret in Hrun. rewrite Hrun. cbn [in_dir fmap list_fmap zip zip_with moved].
    rewrite Hnv. fold es1. unfold in_dir. by erewrite set_dir_set_dir.
  - cbn. by rewrite Hlen.
  - constructor; [|done]. intros Ht. destruct (Hfresh t Ht) as [_ Hf]. unfold es1 in Hf.
    by rewrite lookup_insert_eq in Hf.
  - intros u [->|Hu]%elem_of_cons; [done|]. destruct (Hfresh u Hu) as [Huv Hf]. split; [done|].
    unfold es1 in Hf. destruct (decide (t = u)) as [->|Htu]; [done|].
    rewrite lookup_insert_ne, lookup_delete_ne in Hf by congruence. done.
Qed.

Lemma publish_tasks dir (its : list (nat * (path * text))) ab es s :
  get dir s = Some (Dir es) ->
  (fun it : nat * (path * text) => (it.2.1, final_name it.1 it.2.2)) <$> its
  = (fun ab : text * text => (dir ++ [ab.1], ab.2)) <$> ab ->
  movable ab es ->
  for_each (publish_task dir) its s = (Ok tt, set_dir dir (moved ab es) s).
Proof.
  revert its es s. induction ab as [|[a b] ab IH]; intros its es s Hd Hits Hm.
  { destruct its; [|done]. cbn. by rewrite set_dir_id. }
  destruct its as [|[i [p n]] its]; [done|]. injection Hits as -> Hb Hits. cbn [fst snd] in *.
  destruct Hm as (v & Ha & Hfree & Hm). cbn [for_each publish_task]. unfold bind. rewrite Hb.
  rewrite (rename_entry dir a b v es s) by done.
  rewrite (IH its (<[b := v]> (delete a es))); [|by eapply get_set_dir|done|done].
  cbn [moved]. rewrite Ha. by erewrite set_dir_set_dir.
Qed.

(** ** The order of a directory rewritten *)

Lemma imap_pair_names (ts ns : list text) dir k :
  length ts = length ns ->
  (fun it : nat * (path * text) => (it.2.1, final_name (k + it.1) it.2.2))
    <$> imap pair (zip (in_dir dir ts) ns)
  = (fun ab : text * text => (dir ++ [ab.1], ab.2)) <$> zip ts (numbered_from k ns).
Proof.
  revert k ns. induction ts as [|t ts IH]; intros k [|n ns]; try done.
  intros [= Hlen]. specialize (IH (S k) ns Hlen). rewrite numbered_from_cons.
  cbn [in_dir fmap list_fmap zip zip_with imap fst snd]. rewrite Nat.add_0_r. f_equal.
  rewrite <- IH. unfold compose. rewrite !fmap_imap. apply imap_ext. intros i [p m] _.
  unfold compose. cbn [fst snd]. by rewrite Nat.add_succ_r.
Qed.

Lemma imap_pair_snd {A} (l : list A) : (imap pair l).*2 = l.
Proof.
  apply list_eq. intros i. rewrite list_lookup_fmap, list_lookup_imap. by destruct (l !! i).
Qed.

Lemma numbered_visible k ns x : x ∈ numbered_from k ns -> visible x = true.
Proof. intros (i & n & _ & ->)%elem_of_numbered. apply visible_numbered. Qed.

Lemma numbered_length k ns : length (numbered_from k ns) = length ns.
Proof. apply length_imap. Qed.

(** Through hidden names that are free, to new names: the tasks end under the
    new names, in their order, and nothing else changes. *)
Lemma moved_twice es ns ts fs :
  length ts = length ns -> length fs = length ns -> NoDup ns -> NoDup ts -> NoDup fs ->
  (forall n, n ∈ ns <-> visible n = true /\ is_Some (es !! n)) ->
  (forall t, t ∈ ts -> visible t = false /\ es !! t = None) ->
  (forall f, f ∈ fs -> visible f = true) ->
  let es1 := moved (zip ns ts) es in
  let es2 := moved (zip ts fs) es1 in
  movable (zip ts fs) es1
  /\ (forall i n f, ns !! i = Some n -> fs !! i = Some f -> es2 !! f = es !! n)
  /\ (forall x, visible x = true -> x ∉ fs -> es2 !! x = None)
  /\ (forall x, visible x = false -> es2 !! x = es !! x).
Proof.
  intros Hlt Hlf Hns Hts Hfs Hin Hfresh Hfv es1 es2.
  assert (Hd1 : NoDup ((zip ns ts).*1 ++ (zip ns ts).*2)).
  { rewrite fst_zip, snd_zip by lia. apply NoDup_app. split_and!; [done| |done].
    intros x Hx Ht. apply Hin in Hx as [Hv _]. apply Hfresh in Ht as [Hv' _]. congruence. }
  assert (Hm1 : movable (zip ns ts) es).
  { apply movable_disjoint; [done| |]; rewrite ?fst_zip, ?snd_zip by lia; intros x Hx.
    - by apply Hin.
    - by apply Hfresh. }
  pose proof (moved_spec _ _ Hm1 Hd1) as Hs1. fold es1 in Hs1.
  assert (Ho1 : forall x, x ∉ ns -> x ∉ ts -> es1 !! x = es !! x).
  { intros x Hx Hx'. apply moved_other; rewrite ?fst_zip, ?snd_zip by lia; done. }
  assert (Hd2 : NoDup ((zip ts fs).*1 ++ (zip ts fs).*2)).
  { rewrite fst_zip, snd_zip by lia. apply NoDup_app. split_and!; [done| |done].
    intros x Ht Hf. apply Hfresh in Ht as [Hv' _]. apply Hfv in Hf. congruence. }
  assert (Hpair : forall i n, ns !! i = Some n -> exists t, ts !! i = Some t /\ (n, t) ∈ zip ns ts).
  { intros i n Hi. destruct (lookup_lt_is_Some_2 ts i) as [t Ht].
    { apply lookup_lt_Some in Hi. lia. }
    exists t. split; [done|]. apply (list_elem_of_lookup_2 _ i).
    apply lookup_zip_with_Some. by exists n, t. }
  assert (Hgone : forall x, visible x = true -> es1 !! x = None).
  { intros x Hv. destruct (decide (x ∈ ns)) as [Hx|Hx].
    - apply list_elem_of_lookup in Hx as [i Hi]. destruct (Hpair i x Hi) as (t & _ & Ht).
      by apply (Hs1 x t).
    - rewrite Ho1; [|done|by intros [? _]%Hfresh; congruence].
      destruct (es !! x) eqn:He; [|done]. destruct Hx. by apply Hin. }
  assert (Hm2 : movable (zip ts fs) es1).
  { apply movable_disjoint; [done| |]; rewrite ?fst_zip, ?snd_zip by lia; intros x Hx.
    - apply list_elem_of_lookup in Hx as [i Hi]. destruct (lookup_lt_is_Some_2 ns i) as [n Hn].
      { apply lookup_lt_Some in Hi. lia. }
      destruct (Hpair i n Hn) as (t & Ht & Hz). rewrite Hi in Ht. injection Ht as ->.
      destruct (Hs1 _ _ Hz) as [-> _]. apply Hin. by eapply list_elem_of_lookup_2.
    - by apply Hgone, Hfv. }
  pose proof (moved_spec _ _ Hm2 Hd2) as Hs2. fold es2 in Hs2.
  assert (Ho2 : forall x, x ∉ ts -> x ∉ fs -> es2 !! x = es1 !! x).
  { intros x Hx Hx'. apply moved_other; rewrite ?fst_zip, ?snd_zip by lia; done. }
  split_and!; [done| | |].
  - intros i n f Hn Hf. destruct (Hpair i n Hn) as (t & Ht & Hz).
    destruct (Hs1 _ _ Hz) as [<- _]. apply (Hs2 t f). apply (list_elem_of_lookup_2 _ i).
    apply lookup_zip_with_Some. by exists t, f.
  - intros x Hv Hx. rewrite Ho2; [by apply Hgone| |done]. intros [? _]%Hfresh. congruence.
  - intros x Hv. destruct (decide (x ∈ ts)) as [Hx|Hx].
    + destruct (Hfresh x Hx) as [_ ->]. apply list_elem_of_lookup in Hx as [i Hi].
      destruct (lookup_lt_is_Some_2 fs i) as [f Hf]; [apply lookup_lt_Some in Hi; lia|].
      apply (Hs2 x f). apply (list_elem_of_lookup_2 _ i). apply lookup_zip_with_Some. by exists x, f.
    + rewrite Ho2; [apply Ho1| |]; try done.
      * intros [? _]%Hin. congruence.
      * intros ?%Hfv. congruence.
Qed.

Section Rewrite.
Context (U : UnicodeCase).

Notation names := (names U).

(** A file has a name. *)
Definition named es : Prop := es !! ([] : text) = None.

Lemma names_ne es n : named es -> n ∈ names es -> n <> [].
Proof. unfold named. intros He [_ [v Hv]]%elem_of_names ->. congruence. Qed.

Lemma rewrite_directory_order_spec dir ns es s :
  get dir s = Some (Dir es) -> ns ≡ₚ names es -> (N.of_nat (length ns) < 10000)%N ->
  exists es',
    rewrite_directory_order dir (in_dir dir ns) s = (Ok tt, set_dir dir es' s)
    /\ names es' = numbered_from 0 ns
    /\ (forall i n, ns !! i = Some n -> es' !! final_name i n = es !! n)
    /\ (forall x, visible x = false -> es' !! x = es !! x).
Proof.
  intros Hd Hperm Hsize.
  assert (Hnd : NoDup ns) by (rewrite Hperm; apply names_NoDup).
  assert (Hns : forall n, n ∈ ns <-> visible n = true /\ is_Some (es !! n)).
  { intros n. rewrite Hperm. apply elem_of_names. }
  destruct (hide_tasks dir (imap pair (in_dir dir ns)) ns es s) as (ts & Hrun & Hlen & Hts & Hfresh);
    [done| |done|by intros n Hn; apply Hns|].
  { apply imap_pair_snd. }
  set (fs := numbered_from 0 ns).
  destruct (numbered_sorted U 0 ns) as (Hsort & Hanti & Hfs); [done|]. fold fs in Hsort, Hanti, Hfs.
  destruct (moved_twice es ns ts fs) as (Hm2 & Hfin & Hgone & Hrest); try done.
  { apply numbered_length. } { apply numbered_visible. }
  set (es1 := moved (zip ns ts) es) in *. exists (moved (zip ts fs) es1). split_and!; [| | |done].
  - unfold rewrite_directory_order, bind. rewrite Hrun.
    rewrite (publish_tasks dir _ (zip ts fs) es1); [by erewrite set_dir_set_dir| | |done].
    + by eapply get_set_dir.
    + by apply (imap_pair_names ts ns dir 0).
  - apply names_unique; [done| |done|done]. intros x. split.
    + intros Hx. split; [by eapply numbered_visible|]. apply list_elem_of_lookup in Hx as [i Hi].
      destruct (lookup_lt_is_Some_2 ns i) as [n Hn].
      { apply lookup_lt_Some in Hi. unfold fs in Hi. by rewrite numbered_length in Hi. }
      rewrite (Hfin i n x Hn Hi). apply Hns. by eapply list_elem_of_lookup_2.
    + intros [Hv [v Hx]]. destruct (decide (x ∈ fs)) as [|Hf]; [done|].
      rewrite Hgone in Hx by done. done.
  - intros i n Hn. apply (Hfin i); [done|]. unfold fs, numbered_from.
    by rewrite list_lookup_imap, Hn.
Qed.

(** ** What a folder-backed store lists *)

(** The tasks in their order, each with the name it keeps and its file or
    folder. *)
Definition listing es : list (text * option node) :=
  (fun n => (strip_order_prefix n, es !! n)) <$> names es.

Lemma rewrite_directory_order_listing dir ns es s :
  get dir s = Some (Dir es) -> named es -> ns ≡ₚ names es -> (N.of_nat (length ns) < 10000)%N ->
  exists es',
    rewrite_directory_order dir (in_dir dir ns) s = (Ok tt, set_dir dir es' s)
    /\ listing es' = (fun n => (strip_order_prefix n, es !! n)) <$> ns
    /\ named es'
    /\ (forall x, visible x = false -> es' !! x = es !! x).
Proof.
  intros Hd Hnamed Hperm Hsize.
  destruct (rewrite_directory_order_spec dir ns es s) as (es' & Hrun & Hnames & Hfin & Hrest);
    [done..|].
  exists es'. split_and!; [done| | |done].
  - unfold listing. rewrite Hnames. apply list_eq. intros i. unfold numbered_from.
    rewrite list_lookup_fmap, list_lookup_imap, list_lookup_fmap. destruct (ns !! i) as [n|] eqn:Hn; [|done].
    cbn [fmap option_fmap option_map]. f_equal. pose proof (lookup_lt_Some _ _ _ Hn). rewrite Nat.add_0_l,  (Hfin i n Hn).
    unfold final_name. rewrite strip_order_prefixed; [done|lia|lia|]. apply strip_order_prefix_ne.
    eapply names_ne; [done|]. rewrite <- Hperm. by eapply list_elem_of_lookup_2.
  - unfold named. destruct (es' !! ([] : text)) as [v|] eqn:Hv; [|done].
    assert (Hin : [] ∈ names es') by (apply elem_of_names; by split; [|eexists]).
    rewrite Hnames in Hin. apply elem_of_numbered in Hin as (i & n & _ & H). unfold final_name in H.
    rewrite order_prefix_split in H. by apply app_cons_not_nil in H.
Qed.
End Rewrite.
