(* ===== verification/BoardStore.v ===== *)
(** A folder-backed store implements a list of tasks: inserting, moving and
    removing a task do to its listing what the same operations do to a list. *)
From S2P Require Import Prelude Text TextLemmas.
From S2P Require Import TextLemmas Markers TaskNotes Metadata TaskEntry.
From S2P Require Import Files Board BoardOrder BoardRewrite.

Implicit Types (dir : path) (s : node) (es : gmap text node) (n x : text) (ns : list text).

(** ** Lists *)

Definition insert_at {A} (k : nat) (x : A) (l : list A) : list A := take k l ++ x :: drop k l.

Lemma insert_at_perm {A} k (x : A) l : insert_at k x l ≡ₚ x :: l.
Proof. unfold insert_at. by rewrite <- Permutation_middle, take_drop. Qed.

Lemma fmap_insert_at {A B} (f : A -> B) k (x : A) (l : list A) :
  f <$> insert_at k x l = insert_at k (f x) (f <$> l).
Proof. unfold insert_at. by rewrite fmap_app, fmap_cons, fmap_take, fmap_drop. Qed.

Lemma insert_at_min {A} k (x : A) l : insert_at (Nat.min k (length l)) x l = insert_at k x l.
Proof.
  unfold insert_at. destruct (Nat.min_spec k (length l)) as [[_ ->]|[Hl ->]]; [done|].
  by rewrite !take_ge, !drop_ge by lia.
Qed.

Lemma move_item_insert {A} from to (x : A) l :
  l !! from = Some x -> move_item from to l = insert_at to x (delete from l).
Proof. intros H. unfold move_item. rewrite H. cbv zeta. by rewrite <- insert_at_min. Qed.

Lemma move_item_perm {A} from to (l : list A) : move_item from to l ≡ₚ l.
Proof.
  destruct (l !! from) as [x|] eqn:H; [|by unfold move_item; rewrite H].
  rewrite (move_item_insert from to x) by done. rewrite insert_at_perm.
  by rewrite <- delete_Permutation.
Qed.

Lemma insert_at_delete {A} i (x : A) l : l !! i = Some x -> insert_at i x (delete i l) = l.
Proof.
  intros H. unfold insert_at. rewrite delete_take_drop.
  pose proof (lookup_lt_Some _ _ _ H). rewrite take_app_length', drop_app_length' by (rewrite length_take; lia).
  by apply take_drop_middle.
Qed.

Lemma move_item_self {A} i (l : list A) : move_item i i l = l.
Proof.
  destruct (l !! i) as [x|] eqn:H; [|by unfold move_item; rewrite H].
  rewrite (move_item_insert i i x) by done. by apply insert_at_delete.
Qed.

Lemma fmap_delete {A B} (f : A -> B) (i : nat) (l : list A) : f <$> delete i l = delete i (f <$> l).
Proof. rewrite !delete_take_drop. by rewrite fmap_app, fmap_take, fmap_drop. Qed.

Lemma fmap_move_item {A B} (f : A -> B) from to (l : list A) :
  f <$> move_item from to l = move_item from to (f <$> l).
Proof.
  destruct (l !! from) as [x|] eqn:H.
  - rewrite (move_item_insert from to x l), (move_item_insert from to (f x)).
    + by rewrite fmap_insert_at, fmap_delete.
    + by rewrite list_lookup_fmap, H.
    + done.
  - unfold move_item. by rewrite list_lookup_fmap, H.
Qed.

Lemma sorted_delete {A} (R : A -> A -> Prop) (l : list A) i :
  StronglySorted R l -> StronglySorted R (delete i l).
Proof.
  intros Hl. revert i. induction Hl as [|x l Hl IH Hx]; intros i; [destruct i; constructor|].
  destruct i as [|i]; cbn; [done|]. constructor; [apply IH|].
  by apply (Forall_delete _ _ i) in Hx.
Qed.

(** ** The operations of a store *)

Inductive store_op :=
| InsertTask (index : option nat) (content : text)
| MoveTask (from_idx to_idx : nat)
| RemoveTask (index : nat).

(** What an operation means for a list of tasks; [None] is an index out of
    range. [new] is the task a content becomes. *)
Definition spec_store_op {A} (new : text -> A) (op : store_op) (l : list A) : option (list A) :=
  match op with
  | InsertTask index content => Some (insert_at (default (length l) index) (new content) l)
  | MoveTask from_idx to_idx => if length l <=? from_idx then None else Some (move_item from_idx to_idx l)
  | RemoveTask index => if length l <=? index then None else Some (delete index l)
  end.

(** The results of a list of operations, a failing one leaving the list as it
    was. *)
Fixpoint spec_store_ops {A} (new : text -> A) (ops : list store_op) (l : list A)
    : list (res board_error unit) * list A :=
  match ops with
  | [] => ([], l)
  | op :: ops' =>
      let '(r, l) := match spec_store_op new op l with
                     | Some l' => (Ok tt, l')
                     | None => (Err IndexOutOfRange, l)
                     end in
      let '(rs, l) := spec_store_ops new ops' l in (r :: rs, l)
  end.

Fixpoint run_ops (run : store_op -> io unit) (ops : list store_op) (s : node)
    : list (res board_error unit) * node :=
  match ops with
  | [] => ([], s)
  | op :: ops' => let '(r, s) := run op s in let '(rs, s) := run_ops run ops' s in (r :: rs, s)
  end.

Section Store.
Context (U : UnicodeCase).

Notation names := (names U).
Notation listing := (listing U).

(** ** Reading the names *)

Lemma directory_task_paths_dir dir es s :
  get dir s = Some (Dir es) -> directory_task_paths U dir s = (Ok (in_dir dir (names es)), s).
Proof.
  intros Hd. unfold directory_task_paths, bind, look, exists_path. rewrite Hd. cbn [negb].
  unfold read_dir, is_dir. rewrite Hd. cbn [is_dir_node]. by rewrite (child_names_dir dir es s Hd).
Qed.

(** The names are the numbered ones [rewrite_directory_order] gives. *)
Definition ordered es : Prop :=
  named es /\ exists ns, names es = numbered_from 0 ns /\ forall n, n ∈ ns -> n <> [].

Lemma rewrite_ordered dir ns es s :
  get dir s = Some (Dir es) -> named es -> ns ≡ₚ names es -> (N.of_nat (length ns) < 10000)%N ->
  exists es',
    rewrite_directory_order dir (in_dir dir ns) s = (Ok tt, set_dir dir es' s)
    /\ listing es' = (fun n => (strip_order_prefix n, es !! n)) <$> ns
    /\ ordered es'
    /\ (forall x, visible x = false -> es' !! x = es !! x).
Proof.
  intros Hd Hnamed Hperm Hsize.
  destruct (rewrite_directory_order_spec U dir ns es s) as (e1 & Hr1 & Hn1 & _ & Hh1); [done..|].
  destruct (rewrite_directory_order_listing U dir ns es s) as (e2 & Hr2 & Hl2 & Hn2 & _); [done..|].
  assert (He : get dir (set_dir dir e1 s) = get dir (set_dir dir e2 s)) by congruence.
  rewrite (get_set_dir dir es e1 s Hd), (get_set_dir dir es e2 s Hd) in He. injection He as ->.
  exists e2. split_and!; try done. split; [done|]. exists ns. split; [done|]. intros n Hn.
  apply (names_ne U es n); [done|]. by rewrite <- Hperm.
Qed.

Lemma listing_lookup es i n :
  names es !! i = Some n -> listing es !! i = Some (strip_order_prefix n, es !! n).
Proof. intros H. unfold BoardRewrite.listing. by rewrite list_lookup_fmap, H. Qed.

Lemma listing_length es : length (listing es) = length (names es).
Proof. apply length_fmap. Qed.

(** ** Normalising and moving *)

Lemma normalize_spec dir es s :
  get dir s = Some (Dir es) -> named es -> (N.of_nat (length (names es)) < 10000)%N ->
  exists es',
    normalize_directory_order U dir s = (Ok tt, set_dir dir es' s)
    /\ listing es' = listing es /\ ordered es'
    /\ (forall x, visible x = false -> es' !! x = es !! x).
Proof.
  intros Hd Hn Hs. destruct (rewrite_ordered dir (names es) es s) as (es' & Hr & H); [done..|].
  exists es'. split; [|done]. unfold normalize_directory_order, bind.
  by rewrite (directory_task_paths_dir dir es s Hd).
Qed.

Lemma reorder_spec dir es s from to :
  get dir s = Some (Dir es) -> named es -> (N.of_nat (length (names es)) < 10000)%N ->
  from < length (names es) ->
  exists es',
    reorder_directory_task U dir from to s = (Ok tt, set_dir dir es' s)
    /\ listing es' = move_item from to (listing es) /\ ordered es'
    /\ (forall x, visible x = false -> es' !! x = es !! x).
Proof.
  intros Hd Hn Hs Hf.
  destruct (rewrite_ordered dir (move_item from to (names es)) es s) as (es' & Hr & Hl & H); try done.
  { apply move_item_perm. } { by rewrite move_item_perm. }
  exists es'. split_and!; [| |apply H..].
  - unfold reorder_directory_task, bind. rewrite (directory_task_paths_dir dir es s Hd).
    unfold in_dir at 1. rewrite length_fmap. destruct (Nat.leb_spec (length (names es)) from); [lia|].
    unfold in_dir. rewrite <- fmap_move_item. exact Hr.
  - rewrite Hl. unfold BoardRewrite.listing. apply fmap_move_item.
Qed.

(** ** Inserting *)

Lemma create_dirs_dir dir es s : get dir s = Some (Dir es) -> create_dirs dir s = Some s.
Proof.
  revert s. induction dir as [|x dir IH]; intros s; [by intros [= ->]|].
  destruct s as [|es0]; [done|]. cbn [get create_dirs].
  destruct (es0 !! x) as [s'|] eqn:Hx; [|done]. cbn [mbind option_bind from_option id].
  intros Hd. unfold Datatypes.id. rewrite (IH s' Hd). cbn. by rewrite insert_id.
Qed.

Lemma create_dir_all_dir dir es s : get dir s = Some (Dir es) -> create_dir_all dir s = (Ok tt, s).
Proof. intros Hd. unfold create_dir_all. by erewrite create_dirs_dir. Qed.

Lemma write_new_entry dir es s n c :
  get dir s = Some (Dir es) -> es !! n = None ->
  write_new_task_file_atomically (dir ++ [n]) c s = (Ok tt, set_dir dir (<[n := File c false]> es) s).
Proof.
  intros Hd Hn. unfold write_new_task_file_atomically, is_dir. rewrite parent_snoc, Hd. cbn [is_dir_node negb].
  rewrite (exists_entry dir n es s Hd), Hn. by rewrite (put_snoc dir n _ es s Hd).
Qed.

Lemma ordered_sorted es :
  ordered es -> (N.of_nat (length (names es)) < 10000)%N ->
  StronglySorted (name_before U) (names es) /\
  (forall a b, a ∈ names es -> b ∈ names es -> name_before U a b -> name_before U b a -> a = b).
Proof.
  intros (_ & ns & Hns & _) Hs. rewrite Hns in *. rewrite numbered_length in Hs.
  by destruct (numbered_sorted U 0 ns) as (? & ? & _).
Qed.

(** A new name takes one place among the old ones. *)
Lemma names_insert es n v :
  ordered es -> (N.of_nat (length (names es)) < 10000)%N -> es !! n = None -> visible n = true ->
  exists pos, names (<[n := v]> es) !! pos = Some n /\ delete pos (names (<[n := v]> es)) = names es.
Proof.
  intros Ho Hs Hn Hv. set (es1 := <[n := v]> es).
  assert (Hin : n ∈ names es1).
  { apply elem_of_names. split; [done|]. unfold es1. rewrite lookup_insert_eq. by eexists. }
  apply list_elem_of_lookup in Hin as [pos Hpos]. exists pos. split; [done|]. symmetry.
  pose proof (names_NoDup U es1) as Hnd. rewrite (delete_Permutation _ _ _ Hpos) in Hnd.
  apply NoDup_cons in Hnd as [Hnot Hnd].
  assert (Helem : forall x, x ∈ delete pos (names es1) <-> visible x = true /\ is_Some (es !! x)).
  { intros x. split.
    - intros Hx. assert (Hx1 : x ∈ names es1) by (rewrite (delete_Permutation _ _ _ Hpos); by right).
      apply elem_of_names in Hx1 as [Hxv Hx1]. split; [done|]. unfold es1 in Hx1.
      by rewrite lookup_insert_ne in Hx1 by congruence.
    - intros [Hxv Hx]. assert (Hxn : x <> n) by (intros ->; rewrite Hn in Hx; by destruct Hx).
      assert (Hx1 : x ∈ names es1).
      { apply elem_of_names. split; [done|]. unfold es1. by rewrite lookup_insert_ne by congruence. }
      rewrite (delete_Permutation _ _ _ Hpos) in Hx1. by apply elem_of_cons in Hx1 as [?|?]. }
  apply names_unique; [done|done| |].
  - apply sorted_delete. apply Sorted_StronglySorted; [intros a b c; apply key_le_trans|].
    apply sort_by_sorted. intros a b. apply key_le_total.
  - intros a b Ha Hb. apply (ordered_sorted es Ho Hs); apply elem_of_names; by apply Helem.
Qed.

(** The name a new task gets. *)
Definition new_name dir es content s : text :=
  unique_child_name dir (order_prefix (length (names es) + 1) ++ slug_file_name content) s.

Lemma new_name_spec dir es content s :
  get dir s = Some (Dir es) ->
  es !! new_name dir es content s = None /\ visible (new_name dir es content s) = true
  /\ new_name dir es content s <> [].
Proof.
  intros Hd. set (pref := order_prefix (length (names es) + 1) ++ slug_file_name content).
  assert (Hv : visible pref = true) by apply visible_numbered.
  assert (Hne : pref <> []).
  { intros Hnil. unfold pref in Hnil. rewrite order_prefix_split in Hnil.
    symmetry in Hnil. by apply app_cons_not_nil in Hnil. }
  destruct (unique_child_name_spec dir es s pref Hd Hne) as [Hf Hh].
  unfold new_name. fold pref. split_and!; [done|by rewrite (visible_head _ pref)|].
  intros Hnil. rewrite Hnil in Hh. by destruct pref.
Qed.

Definition stored_task (content : text) : node := File (trim_end content ++ [10%N]) false.

Lemma list_find_in_dir dir ns i n :
  NoDup ns -> ns !! i = Some n ->
  list_find (fun p => p = dir ++ [n]) (in_dir dir ns) = Some (i, dir ++ [n]).
Proof.
  intros Hnd Hi. apply list_find_Some. split_and!; [|done|].
  - unfold in_dir. by rewrite list_lookup_fmap, Hi.
  - intros j p Hj Hji ->. unfold in_dir in Hj. rewrite list_lookup_fmap in Hj.
    destruct (ns !! j) as [m|] eqn:Hm; [|done]. injection Hj as Hj. apply app_inj_tail in Hj as [_ ->].
    rewrite (NoDup_lookup _ _ _ _ Hnd Hi Hm) in Hji. lia.
Qed.

Lemma listing_insert_other es n v ns :
  n ∉ ns -> (fun m => (strip_order_prefix m, <[n := v]> es !! m)) <$> ns
            = (fun m => (strip_order_prefix m, es !! m)) <$> ns.
Proof.
  intros Hn. apply list_fmap_ext. intros i m Hm. f_equal. apply lookup_insert_ne. intros ->.
  by apply Hn, (list_elem_of_lookup_2 _ i).
Qed.

(** Where the new task goes: the place asked for, or the place its name sorts
    to. *)
Lemma insert_spec dir es s content index :
  get dir s = Some (Dir es) -> ordered es -> (N.of_nat (length (names es)) < 9999)%N ->
  let n := new_name dir es content s in
  exists es' pos,
    names (<[n := stored_task content]> es) !! pos = Some n /\
    insert_content_into_directory U dir index content s = (Ok tt, set_dir dir es' s)
    /\ listing es'
       = insert_at (default pos index) (strip_order_prefix n, Some (stored_task content)) (listing es)
    /\ ordered es'
    /\ (forall x, visible x = false -> es' !! x = es !! x).
Proof.
  intros Hd Ho Hs n. destruct (new_name_spec dir es content s Hd) as (Hfree & Hv & Hne).
  fold n in Hfree, Hv, Hne.
  set (es1 := <[n := stored_task content]> es). set (s1 := set_dir dir es1 s).
  destruct (names_insert es n (stored_task content) Ho) as (pos & Hpos & Hdel); [lia|done|done|].
  fold es1 in Hpos, Hdel.
  assert (Hd1 : get dir s1 = Some (Dir es1)) by by eapply get_set_dir.
  assert (Hn1 : named es1).
  { unfold named, es1. destruct Ho as [Hn0 _]. by rewrite lookup_insert_ne. }
  assert (Hnot : n ∉ names es) by (rewrite elem_of_names, Hfree; by intros [_ [? ?]]).
  assert (Hlen : length (names es1) = S (length (names es))).
  { rewrite <- Hdel. rewrite (Permutation_length (delete_Permutation _ _ _ Hpos)). done. }
  set (k := default pos index).
  destruct (rewrite_ordered dir (move_item pos k (names es1)) es1 s1) as (es' & Hr & Hl & Ho' & Hh);
    [done|done|apply move_item_perm|rewrite move_item_perm; lia|].
  exists es', pos. fold es1. fold k. split_and!; [done| | |done|].
  - unfold insert_content_into_directory, bind. rewrite (create_dir_all_dir dir es s Hd).
    rewrite (directory_task_paths_dir dir es s Hd). unfold look, unique_child_path, in_dir.
    rewrite length_fmap. fold (new_name dir es content s). fold n.
    rewrite (write_new_entry dir es s n _ Hd Hfree). fold (stored_task content). fold es1. fold s1.
    unfold s1 in Hr at 2. erewrite set_dir_set_dir in Hr by done.
    destruct index as [idx|]; cbn [default from_option id] in k.
    + unfold reorder_path_in_directory, bind. rewrite (directory_task_paths_dir dir es1 s1 Hd1).
      rewrite (list_find_in_dir dir _ pos n) by (done || apply names_NoDup).
      unfold in_dir. rewrite <- fmap_move_item. exact Hr.
    + unfold normalize_directory_order, bind. rewrite (directory_task_paths_dir dir es1 s1 Hd1).
      unfold k in Hr. rewrite move_item_self in Hr. exact Hr.
  - rewrite Hl, (move_item_insert pos k n) by done. rewrite Hdel, fmap_insert_at. f_equal.
    + unfold es1. by rewrite lookup_insert_eq.
    + by apply listing_insert_other.
  - intros x Hx. rewrite Hh by done. unfold es1. rewrite lookup_insert_ne; [done|congruence].
Qed.

(** In an ordered store the name asked for is free and sorts last. *)
Lemma new_name_ordered dir es content s :
  get dir s = Some (Dir es) -> ordered es ->
  new_name dir es content s = order_prefix (length (names es) + 1) ++ slug_file_name content.
Proof.
  intros Hd (_ & ns & Hns & _). unfold new_name, unique_child_name.
  rewrite (exists_entry dir _ es s Hd). destruct (es !! _) as [v|] eqn:Hv; [|done].
  assert (Hin : order_prefix (length (names es) + 1) ++ slug_file_name content ∈ names es).
  { apply elem_of_names. split; [apply visible_numbered|by eexists]. }
  exfalso. revert Hin. generalize (slug_file_name content). intros m Hin. rewrite Hns in Hin.
  apply elem_of_numbered in Hin as (i & x & Hx & Heq).
  apply order_prefix_inj in Heq as [Heq _]. apply lookup_lt_Some in Hx.
  rewrite numbered_length in Heq. lia.
Qed.

Lemma new_name_last dir es content s pos :
  get dir s = Some (Dir es) -> ordered es -> (N.of_nat (length (names es)) < 9999)%N ->
  let n := new_name dir es content s in
  names (<[n := stored_task content]> es) !! pos = Some n -> pos = length (names es).
Proof.
  intros Hd Ho Hs n Hpos. set (es1 := <[n := stored_task content]> es) in *.
  destruct (new_name_spec dir es content s Hd) as (Hfree & Hv & Hne). fold n in Hfree, Hv.
  destruct (names_insert es n (stored_task content) Ho) as (pos' & Hpos' & Hdel); [lia|done|done|].
  fold es1 in Hpos', Hdel.
  rewrite (NoDup_lookup _ _ _ _ (names_NoDup U es1) Hpos Hpos'). clear Hpos pos.
  assert (Hlen : length (names es1) = S (length (names es))).
  { rewrite <- Hdel. by rewrite (Permutation_length (delete_Permutation _ _ _ Hpos')). }
  destruct (decide (pos' = length (names es))) as [->|Hneq]; [done|]. exfalso.
  assert (Hlt : pos' < length (names es)) by (apply lookup_lt_Some in Hpos'; lia).
  destruct (lookup_lt_is_Some_2 (names es) pos' Hlt) as [m Hm].
  assert (Hm1 : names es1 !! S pos' = Some m).
  { rewrite <- Hdel in Hm. by rewrite list_lookup_delete_ge in Hm by lia. }
  assert (Hsort : StronglySorted (name_before U) (names es1)).
  { apply Sorted_StronglySorted; [intros a b c; apply key_le_trans|].
    apply sort_by_sorted. intros a b. apply key_le_total. }
  rewrite <- (take_drop_middle _ _ _ Hpos') in Hsort.
  apply StronglySorted_app_1_r, StronglySorted_inv in Hsort as [_ Hall].
  rewrite Forall_forall in Hall. specialize (Hall m).
  assert (Hbefore : name_before U n m).
  { apply Hall. apply (list_elem_of_lookup_2 _ 0). rewrite lookup_drop. by rewrite Nat.add_0_r. }
  pose proof (new_name_ordered dir es content s Hd Ho) as Hn. fold n in Hn.
  destruct Ho as (_ & ns & Hns & _).
  assert (Hl : length (names es) = length ns) by (by rewrite Hns, numbered_length).
  rewrite Hns in Hm. unfold numbered_from in Hm. rewrite list_lookup_imap in Hm.
  destruct (ns !! pos') as [x|] eqn:Hx; [|done]. cbn [fmap option_fmap option_map] in Hm.
  injection Hm as <-. unfold final_name, name_before in Hbefore. rewrite Hn in Hbefore.
  apply lookup_lt_Some in Hx.
  destruct (order_key_lt U (0 + pos' + 1) (length (names es) + 1) (strip_order_prefix x)
              (slug_file_name content)) as [_ Hf]; [lia|lia|].
  by pose proof (eq_trans (eq_sym Hf) Hbefore).
Qed.

(** ** Removing *)

Lemma read_directory_entry_source dir es s n v :
  get dir s = Some (Dir es) -> es !! n = Some v ->
  exists e, read_directory_entry (dir ++ [n]) s = (Ok e, s)
            /\ source e = PathSource (dir ++ [n]) (is_dir_node (Some v)).
Proof.
  intros Hd Hn. unfold read_directory_entry, bind, look, is_dir, read_to_string.
  assert (Hg : get (dir ++ [n]) s = Some v) by by rewrite get_snoc, Hd.
  rewrite Hg. destruct v as [c ro|es1]; cbn [is_dir_node ret]; unfold ret; rewrite ?Hg;
    match goal with |- context [split_description_metadata ?t] =>
      destruct (split_description_metadata t) as [description metadata] end;
    eexists; split; reflexivity.
Qed.

Lemma read_entries dir es s (ns : list text) :
  get dir s = Some (Dir es) -> (forall n, n ∈ ns -> is_Some (es !! n)) ->
  exists entries, map_io read_directory_entry (in_dir dir ns) s = (Ok entries, s)
    /\ source <$> entries
       = (fun n => PathSource (dir ++ [n]) (is_dir_node (es !! n))) <$> ns.
Proof.
  intros Hd. induction ns as [|n ns IH]; intros Hns; [by exists []|].
  destruct (Hns n) as [v Hv]; [by left|].
  destruct (read_directory_entry_source dir es s n v Hd Hv) as (e & He & Hsrc).
  destruct IH as (entries & Hrun & Hsrcs); [intros m Hm; apply Hns; by right|].
  exists (e :: entries). cbn [in_dir fmap list_fmap map_io]. unfold bind at 1. rewrite He.
  unfold bind. fold (in_dir dir ns). rewrite Hrun. split; [done|]. by rewrite Hsrc, Hsrcs, Hv.
Qed.

Lemma read_directory_entries_dir dir es s :
  get dir s = Some (Dir es) ->
  exists entries, read_directory_entries U dir s = (Ok entries, s)
    /\ source <$> entries
       = (fun n => PathSource (dir ++ [n]) (is_dir_node (es !! n))) <$> names es.
Proof.
  intros Hd. unfold read_directory_entries, bind. rewrite (directory_task_paths_dir dir es s Hd).
  apply read_entries; [done|]. by intros n [_ ?]%elem_of_names.
Qed.

Lemma names_delete es i n :
  ordered es -> (N.of_nat (length (names es)) < 10000)%N -> names es !! i = Some n ->
  names (delete n es) = delete i (names es).
Proof.
  intros Ho Hs Hi. destruct (ordered_sorted es Ho Hs) as [Hsort Hanti].
  pose proof (names_NoDup U es) as Hnd. rewrite (delete_Permutation _ _ _ Hi) in Hnd.
  apply NoDup_cons in Hnd as [Hnot Hnd].
  assert (Hsub : forall x, x ∈ delete i (names es) -> x ∈ names es).
  { intros x Hx. rewrite (delete_Permutation _ _ _ Hi). by right. }
  apply names_unique; [done| |by apply sorted_delete|by intros a b Ha Hb; apply Hanti; apply Hsub].
  intros x. split.
  - intros Hx. specialize (Hsub x Hx). apply elem_of_names in Hsub as [Hv He]. split; [done|].
    rewrite lookup_delete_ne; [done|]. by intros ->.
  - intros [Hv He]. destruct (decide (x = n)) as [->|Hne].
    { rewrite lookup_delete_eq in He. by destruct He. }
    rewrite lookup_delete_ne in He by done.
    assert (Hx : x ∈ names es) by by apply elem_of_names.
    rewrite (delete_Permutation _ _ _ Hi) in Hx. by apply elem_of_cons in Hx as [?|?].
Qed.

Lemma remove_source_dir dir es s n v :
  get dir s = Some (Dir es) -> es !! n = Some v ->
  remove_source (dir ++ [n]) (is_dir_node (Some v)) s = (Ok tt, set_dir dir (delete n es) s).
Proof.
  intros Hd Hn. assert (Hg : get (dir ++ [n]) s = Some v) by by rewrite get_snoc, Hd.
  unfold remove_source. destruct v as [c ro|es1]; cbn [is_dir_node].
  - unfold remove_file, is_file. rewrite Hg. cbn [is_file_node]. by rewrite (put_snoc dir n None es s Hd).
  - unfold remove_dir_all, is_dir. rewrite Hg. cbn [is_dir_node]. by rewrite (put_snoc dir n None es s Hd).
Qed.

Lemma remove_spec dir es s board_dir status entry i n v :
  get dir s = Some (Dir es) -> ordered es -> (N.of_nat (length (names es)) < 10000)%N ->
  names es !! i = Some n -> es !! n = Some v ->
  source entry = PathSource (dir ++ [n]) (is_dir_node (Some v)) ->
  exists es',
    remove_task_entry U board_dir status entry s = (Ok tt, set_dir dir es' s)
    /\ listing es' = delete i (listing es) /\ ordered es'
    /\ (forall x, visible x = false -> es' !! x = es !! x).
Proof.
  intros Hd Ho Hs Hi Hn Hsrc. set (es1 := delete n es).
  assert (Hv : visible n = true).
  { assert (Hin : n ∈ names es) by by eapply list_elem_of_lookup_2.
    by apply elem_of_names in Hin as [? _]. }
  assert (Hnames : names es1 = delete i (names es)) by by apply names_delete.
  assert (Hd1 : get dir (set_dir dir es1 s) = Some (Dir es1)) by by eapply get_set_dir.
  assert (Hn1 : named es1).
  { destruct Ho as [Hn0 _]. unfold named, es1. destruct (decide (n = [])) as [->|Hne].
    - by rewrite lookup_delete_eq.
    - by rewrite lookup_delete_ne. }
  destruct (normalize_spec dir es1 _ Hd1 Hn1) as (es' & Hr & Hl & Ho' & Hh).
  { rewrite Hnames. rewrite (Permutation_length (delete_Permutation _ _ _ Hi)) in Hs. cbn in Hs. lia. }
  exists es'. split_and!; [| |done|].
  - unfold remove_task_entry. rewrite Hsrc. unfold bind. rewrite (remove_source_dir dir es s n v Hd Hn).
    fold es1. rewrite parent_snoc, Hr. by erewrite set_dir_set_dir.
  - rewrite Hl. unfold BoardRewrite.listing. rewrite Hnames, <- fmap_delete.
    apply list_fmap_ext. intros j m Hm. f_equal. unfold es1. apply lookup_delete_ne. intros ->.
    pose proof (names_NoDup U es) as Hnd. rewrite (delete_Permutation _ _ _ Hi) in Hnd.
    apply NoDup_cons in Hnd as [Hnot _]. by apply Hnot, (list_elem_of_lookup_2 _ j).
  - intros x Hx. rewrite Hh by done. unfold es1. rewrite lookup_delete_ne; [done|congruence].
Qed.

(** What the code does: a removal reads the entry first, as every caller of
    [remove_task_entry] does. *)
Definition run_store_op dir (op : store_op) : io unit :=
  match op with
  | InsertTask index content => insert_content_into_directory U dir index content
  | MoveTask from_idx to_idx => reorder_directory_task U dir from_idx to_idx
  | RemoveTask index =>
      do! entries := read_directory_entries U dir in
      match entries !! index with
      | Some entry => remove_task_entry U (parent dir) Todo entry
      | None => fail IndexOutOfRange
      end
  end.

Definition directory_task (content : text) : text * option node :=
  (slug_file_name content, Some (stored_task content)).

Lemma slug_file_name_ne content : slug_file_name content <> [].
Proof. unfold slug_file_name. intros H. by apply app_eq_nil in H as [_ ?]. Qed.

Lemma store_op_refines dir es s op :
  get dir s = Some (Dir es) -> ordered es -> (N.of_nat (length (listing es)) < 9999)%N ->
  match spec_store_op directory_task op (listing es) with
  | Some l' => exists es',
      run_store_op dir op s = (Ok tt, set_dir dir es' s)
      /\ listing es' = l' /\ ordered es' /\ (forall x, visible x = false -> es' !! x = es !! x)
  | None => run_store_op dir op s = (Err IndexOutOfRange, s)
  end.
Proof.
  intros Hd Ho Hs. rewrite listing_length in Hs. pose proof Ho as [Hn _].
  destruct op as [index content|from_idx to_idx|index]; cbn [spec_store_op run_store_op];
    rewrite ?listing_length.
  - destruct (insert_spec dir es s content index Hd Ho Hs) as (es' & pos & Hpos & Hr & Hl & H).
    exists es'. split; [done|]. split; [|done]. rewrite Hl.
    rewrite (new_name_last dir es content s pos) by done.
    rewrite (new_name_ordered dir es content s Hd Ho).
    rewrite strip_order_prefixed; [done|lia|lia|apply slug_file_name_ne].
  - destruct (Nat.leb_spec (length (names es)) from_idx) as [Hle|Hlt].
    + unfold reorder_directory_task, bind. rewrite (directory_task_paths_dir dir es s Hd).
      unfold in_dir. rewrite length_fmap. destruct (Nat.leb_spec (length (names es)) from_idx); [done|lia].
    + apply reorder_spec; try done. lia.
  - destruct (read_directory_entries_dir dir es s Hd) as (entries & Hread & Hsrc).
    unfold bind. rewrite Hread.
    assert (Hlen : length entries = length (names es)).
    { by rewrite <- (length_fmap source), Hsrc, length_fmap. }
    destruct (Nat.leb_spec (length (names es)) index) as [Hle|Hlt].
    + by rewrite lookup_ge_None_2 by lia.
    + destruct (lookup_lt_is_Some_2 entries index) as [entry Hentry]; [lia|]. rewrite Hentry.
      destruct (lookup_lt_is_Some_2 (names es) index Hlt) as [n Hi].
      assert (Hin : n ∈ names es) by by eapply list_elem_of_lookup_2.
      apply elem_of_names in Hin as [_ [v Hv]].
      apply (f_equal (.!! index)) in Hsrc. rewrite !list_lookup_fmap, Hentry, Hi in Hsrc.
      injection Hsrc as Hsrc. rewrite Hv in Hsrc.
      apply (remove_spec dir es s (parent dir) Todo entry index n v); try done. lia.
Qed.

Lemma store_op_length {A} (new : text -> A) op l :
  length (default l (spec_store_op new op l)) <= S (length l).
Proof.
  destruct op as [index content|from_idx to_idx|index]; cbn [spec_store_op].
  - cbn. unfold Datatypes.id. by rewrite (Permutation_length (insert_at_perm _ _ _)).
  - destruct (_ <=? _); cbn; [lia|]. unfold Datatypes.id.
    rewrite (Permutation_length (move_item_perm from_idx to_idx l)). lia.
  - destruct (Nat.leb_spec (length l) index); cbn; [lia|]. unfold Datatypes.id.
    rewrite delete_take_drop, length_app, length_take, length_drop. lia.
Qed.

Lemma store_ops_refine dir ops es s :
  get dir s = Some (Dir es) -> ordered es ->
  (N.of_nat (length (listing es) + length ops) < 10000)%N ->
  let spec := spec_store_ops directory_task ops (listing es) in
  exists es',
    run_ops (run_store_op dir) ops s = (spec.1, set_dir dir es' s)
    /\ listing es' = spec.2 /\ ordered es' /\ (forall x, visible x = false -> es' !! x = es !! x).
Proof.
  revert es s. induction ops as [|op ops IH]; intros es s Hd Ho Hs.
  { exists es. cbn. by rewrite set_dir_id. }
  cbn [length] in Hs. cbn [run_ops spec_store_ops].
  pose proof (store_op_refines dir es s op Hd Ho ltac:(lia)) as Hop.
  pose proof (store_op_length directory_task op (listing es)) as Hlen.
  destruct (spec_store_op directory_task op (listing es)) as [l'|].
  - destruct Hop as (es1 & Hr & Hl & Ho1 & Hh). rewrite Hr. cbn in Hlen. unfold Datatypes.id in Hlen.
    destruct (IH es1 (set_dir dir es1 s)) as (es2 & Hr2 & Hl2 & Ho2 & Hh2).
    { by eapply get_set_dir. } { done. } { rewrite Hl. lia. }
    exists es2. rewrite Hr2, Hl in *. destruct (spec_store_ops directory_task ops l') as [rs l2].
    split_and!; [|done|done|].
    + cbn [fst]. by erewrite set_dir_set_dir.
    + intros x Hx. by rewrite Hh2, Hh.
  - rewrite Hop. destruct (IH es s Hd Ho) as (es2 & Hr2 & Hl2 & Ho2 & Hh2); [lia|].
    exists es2. rewrite Hr2. by destruct (spec_store_ops directory_task ops (listing es)) as [rs l2].
Qed.
End Store.
