(* ===== verification/BoardTree.v ===== *)
(** Boards inside boards and whole boards (src/task.rs): the searches that
    descend into subtask boards, the scope of the board lock, and the operations
    that create, convert and link boards. *)
From S2P Require Import Prelude Text TextLemmas.
From S2P Require Import Markers TaskNotes Metadata TaskEntry.
From S2P Require Import Files Board.

(** ** The lock of a board *)

Definition get_tasks_dir (root : path) : path := root ++ [str "tasks"].

(** The path up to the last directory named [tasks] on it, or the whole path. *)
Fixpoint tasks_ancestor (p : path) : option path :=
  match p with
  | [] => None
  | x :: p' =>
      match tasks_ancestor p' with
      | Some q => Some (x :: q)
      | None => if x == str "tasks" then Some [x] else None
      end
  end.
Definition lock_scope (board_dir : path) : path := default board_dir (tasks_ancestor board_dir).

(** FNV-1a on 64 bits. *)
Definition fnv1a (bytes : list N) : N :=
  foldl (fun hash byte => (N.lxor hash byte * 1099511628211) mod 18446744073709551616)%N
    14695981039346656037%N bytes.

(** ** Early exit *)

Fixpoint find_in {A B} (f : A -> io (option B)) (l : list A) : io (option B) :=
  match l with
  | [] => ret None
  | a :: l' =>
      do! found := f a in
      match found with
      | Some b => ret (Some b)
      | None => find_in f l'
      end
  end.

(** The board of a folder task that has one. *)
Definition subtask_board (task : TaskEntry) : option path :=
  if has_subtasks task then
    match source task with PathSource p true => Some p | _ => None end
  else None.

Section Tree.
Context (U : UnicodeCase).

(** The recursion descends one directory at a time; [fuel] bounds the depth and
    [DepthExceeded] is proved not to happen when it covers the tree. *)
Fixpoint task_for_codex_session_in_board_matching (fuel : nat) (board_dir : path)
    (session_id : text) (recover_displaced_marker : bool) : io (option (TaskStatus * TaskEntry)) :=
  match fuel with
  | O => fail DepthExceeded
  | S fuel' =>
      find_in (fun status =>
        do! entries := read_task_entries U board_dir status in
        find_in (fun task =>
          let task_session_id :=
            if recover_displaced_marker
            then recoverable_codex_session_id_from_task_content (content task)
            else codex_session_id_from_task_content (content task) in
          if task_session_id == Some session_id then ret (Some (status, task))
          else
            match subtask_board task with
            | Some p =>
                task_for_codex_session_in_board_matching fuel' p session_id recover_displaced_marker
            | None => ret None
            end) entries) Status.SESSION_SEARCH_ORDER
  end.

(** The whole tree is enough fuel. *)
Definition search_fuel (s : node) : nat := S (depth s).

Definition task_for_codex_session_in_board (board_dir : path) (session_id : text)
    : io (option (TaskStatus * TaskEntry)) := fun s =>
  task_for_codex_session_in_board_matching (search_fuel s) board_dir session_id true s.

Definition task_status_for_codex_session_in_board (board_dir : path) (session_id : text)
    : io (option TaskStatus) :=
  do! found := task_for_codex_session_in_board board_dir session_id in ret (fst <$> found).

Definition terminal_task_for_codex_session_in_board (board_dir : path) (session_id : text)
    : io (option (TaskStatus * TaskEntry)) := fun s =>
  task_for_codex_session_in_board_matching (search_fuel s) board_dir session_id false s.

(** Work a manual session claims, on the board or below it. *)
Fixpoint board_has_manual_task_matching (fuel : nat) (board_dir : path) (session : option text)
    : io (option unit) :=
  match fuel with
  | O => fail DepthExceeded
  | S fuel' =>
      find_in (fun status =>
        do! entries := read_task_entries U board_dir status in
        find_in (fun task =>
          if task_content_is_manual (content task)
             && match session with
                | Some session =>
                    recoverable_codex_session_id_from_task_content (content task) == Some session
                | None => true
                end
          then ret (Some tt)
          else
            match subtask_board task with
            | Some p => board_has_manual_task_matching fuel' p session
            | None => ret None
            end) entries) [Backlog; Todo; Doing]
  end.

Definition board_has_manual_task (board_dir : path) : io bool := fun s =>
  (do! found := board_has_manual_task_matching (search_fuel s) board_dir None in
   ret (negb (found == None))) s.
Definition board_has_manual_session (board_dir : path) (session : text) : io bool := fun s =>
  (do! found := board_has_manual_task_matching (search_fuel s) board_dir (Some session) in
   ret (negb (found == None))) s.

(** [contains_marker]: every file of the tree is searched. *)
Fixpoint contains_marker (marker : text) (n : node) : bool :=
  match n with
  | File contents _ => contains marker contents
  | Dir es => map_fold (fun _ m found => contains_marker marker m || found) false es
  end.

Definition task_tree_contains_session_marker (board_dir : path) (session_id : text) : io bool := fun s =>
  match get board_dir s with
  | Some n => (Ok (contains_marker (CODEX_TASK_SESSION_PREFIX ++ session_id) n), s)
  | None => (Err Io, s)
  end.

Definition read_tasks_in_board (board_dir : path) (status : TaskStatus) : io (list text) :=
  do! entries := read_task_entries U board_dir status in
  ret ((fun entry => str "- " ++ task_display_text entry) <$> entries).

(** ** Creating and converting boards *)

Definition ensure_existing_board (root : path) : io bool :=
  let tasks_dir := get_tasks_dir root in
  do! present := look (exists_path tasks_dir) in
  if negb present then ret false
  else
    do! directory := look (is_dir tasks_dir) in
    if negb directory then fail Io
    else
      do! has_status_store := look (board_has_any_status_store tasks_dir) in
      if negb has_status_store then ret false
      else do! _ := ensure_board_store tasks_dir in ret true.

Definition init_status (tasks_dir : path) (directory_mode : bool) (status : TaskStatus) : io unit :=
  let dir_path := tasks_dir ++ [Status.as_str status] in
  let file_path := tasks_dir ++ [Status.filename status] in
  do! directory := look (is_dir dir_path) in
  do! file := look (exists_path file_path) in
  if directory || file then ret tt
  else if directory_mode then create_dir_all dir_path
  else write_file file_path (Status.header status).

Definition init_tasks (root : path) (folders : bool) : io unit :=
  let tasks_dir := get_tasks_dir root in
  do! tasks_dir_existed := look (exists_path tasks_dir) in
  do! _ := (if tasks_dir_existed then ret tt else create_dir_all tasks_dir) in
  do! directory_mode := look (fun s =>
    folders || existsb (fun status => is_dir (tasks_dir ++ [Status.as_str status]) s) TASK_STATUSES) in
  for_each (init_status tasks_dir directory_mode) TASK_STATUSES.

(** The tasks of a Markdown file become files of [dir_path], and the file is kept
    under another name. *)
Definition import_markdown (dir_path board_dir file_path : path) (entries : list TaskEntry)
    (backup_name : text) : io path :=
  do! _ := for_each (fun entry => insert_content_into_directory U dir_path None (content entry))
             entries in
  do! backup_path := look (unique_child_path board_dir backup_name) in
  do! _ := rename file_path backup_path in
  ret backup_path.

Definition convert_archive_to_directory (archive_file : path) : io path :=
  let board_dir := parent archive_file in
  let archive_name := default [] (file_name archive_file) in
  let archive_dir := board_dir ++ [file_stem archive_name] in
  do! _ := create_dir_all archive_dir in
  do! entries := read_markdown_entries archive_file in
  do! _ := import_markdown archive_dir board_dir archive_file entries (archive_name ++ str ".bak") in
  ret archive_dir.

Inductive ExpansionSummary :=
| AlreadyDirectory (status : TaskStatus) (dir : path)
| Expanded (status : TaskStatus) (dir backup : path) (task_count : nat).

Definition expand_status_for_command (board_dir : path) (status : TaskStatus) : io ExpansionSummary :=
  do! _ := ensure_board_store board_dir in
  let dir_path := board_dir ++ [Status.as_str status] in
  do! directory := look (is_dir dir_path) in
  if directory then ret (AlreadyDirectory status dir_path)
  else
    let file_path := board_dir ++ [Status.filename status] in
    do! entries := read_markdown_entries file_path in
    do! _ := create_dir_all dir_path in
    do! backup_path := import_markdown dir_path board_dir file_path entries
                         (Status.filename status ++ str ".bak") in
    ret (Expanded status dir_path backup_path (length entries)).

(** [fs::remove_dir] of an empty directory, its error ignored. *)
Definition remove_empty_dir (p : path) (s : node) : node :=
  match get p s with
  | Some (Dir es) => if es == ∅ then put p None s else s
  | _ => s
  end.

Definition file_into_board (status_dir source_path : path) (index : nat) : io unit :=
  let preferred_name := file_stem (default (str "task") (file_name source_path)) in
  do! task_dir := look (unique_child_path status_dir preferred_name) in
  do! _ := create_dir task_dir in
  let detail_path := task_dir ++ [default [] (head TASK_DETAIL_FILES)] in
  do! _ := (fun s => match rename source_path detail_path s with
                     | (Ok tt, s') => (Ok tt, s')
                     | (Err e, s') => (Err e, remove_empty_dir task_dir s')
                     end) in
  do! _ := ensure_board_store task_dir in
  reorder_path_in_directory U status_dir task_dir index.

Definition ensure_subtask_board_after_lock (board_dir : path) (status : TaskStatus)
    (parent_task_index : nat) : io path :=
  do! status_dir := convert_status_to_directory U board_dir status in
  do! entry := task_entry_at U board_dir status parent_task_index in
  do! task_dir :=
    match source entry with
    | PathSource p true => ret p
    | PathSource p false =>
        do! _ := file_into_board status_dir p (parent_task_index - 1) in
        do! entry := task_entry_at U board_dir status parent_task_index in
        match source entry with
        | PathSource p true => ret p
        | _ => fail StorageChanged
        end
    | MarkdownLine _ => fail StorageChanged
    end in
  do! _ := ensure_board_store task_dir in
  ret task_dir.

(** ** Linking a task to a conversation *)

Definition attach_codex_session_to_task_after_lock (project_root : path) (status : TaskStatus)
    (entry : TaskEntry) (session_id : text) : io text :=
  let board_dir := get_tasks_dir project_root in
  do! found := task_for_codex_session_in_board board_dir session_id in
  match found with
  | Some (_, existing) =>
      if (source existing =! source entry)
         || (codex_session_id_from_task_content (content existing) == Some session_id)
      then ret (content existing)
      else
        let linked := task_content_with_codex_session (content existing) session_id in
        do! _ := write_task_entry_content board_dir status existing linked in
        ret linked
  | None =>
      do! entries := read_task_entries U board_dir status in
      match List.find (fun current => source current == source entry) entries with
      | None => fail StorageChanged
      | Some current =>
          if content current =! content entry then fail ContentChanged
          else
            let unowned :=
              match recoverable_codex_session_id_from_task_content (content current) with
              | Some owner => owner == session_id
              | None => true
              end in
            if negb unowned then fail BelongsToOtherSession
            else
              let linked := task_content_with_codex_session (content current) session_id in
              do! _ := write_task_entry_content board_dir status current linked in
              ret linked
      end
  end.
End Tree.
