(* ===== verification/TreeLemmas.v ===== *)
(** Trees that only gain missing stores: what reading a board does to the file
    system, and why descending through nested boards ends. *)
From S2P Require Import Prelude Text TextLemmas.
From S2P Require Import Markers TaskNotes Metadata TaskEntry.
From S2P Require Import Files Board BoardOrder BoardRewrite BoardStore BoardTree.

Implicit Types (p q r : path) (s n v : node) (es : gmap text node) (x : text).

(** ** Depth *)

(** No path of the tree has more than [D] names. *)
Definition bounded (D : nat) s : Prop := forall q, is_Some (get q s) -> length q <= D.

Lemma depth_child es x n : es !! x = Some n -> depth n < depth (Dir es).
Proof.
  cbn [depth]. revert x n.
  apply (map_fold_weak_ind (fun d es => forall x n, es !! x = Some n -> depth n < S d)).
  - intros x n. by rewrite lookup_empty.
  - intros i m es' d Hi IH x n. destruct (decide (x = i)) as [->|Hx].
    + rewrite lookup_insert_eq. intros [= <-]. lia.
    + rewrite lookup_insert_ne by done. intros H. specialize (IH x n H). lia.
Qed.

Lemma bounded_depth s : bounded (depth s) s.
Proof.
  intros q. revert s. induction q as [|x q IH]; intros s; cbn [length]; [lia|].
  destruct s as [|es]; cbn [get]; [by intros []|].
  destruct (es !! x) as [n|] eqn:Hx; [|by intros []]. cbn [mbind option_bind]. intros H.
  pose proof (depth_child es x n Hx). specialize (IH n H). lia.
Qed.

(** ** Trees that grow *)

Definition same_kind (n n' : node) : Prop := is_dir_node (Some n) = is_dir_node (Some n').

Record grows (s s' : node) : Prop := {
  grows_kind : forall q n, get q s = Some n -> exists n', get q s' = Some n' /\ same_kind n n';
  grows_bounded : forall D, bounded D s -> bounded D s';
}.

#[export] Instance grows_refl : Reflexive grows.
Proof. intros s. split; [|done]. intros q n H. by exists n. Qed.

#[export] Instance grows_trans : Transitive grows.
Proof.
  intros s1 s2 s3 [H1 B1] [H2 B2]. split; [|auto]. intros q n H.
  destruct (H1 q n H) as (n2 & Hn2 & K1). destruct (H2 q n2 Hn2) as (n3 & Hn3 & K2).
  exists n3. split; [done|]. unfold same_kind in *. congruence.
Qed.

Lemma grows_is_dir s s' p : grows s s' -> is_dir p s = true -> is_dir p s' = true.
Proof.
  intros [H _]. unfold is_dir. destruct (get p s) as [n|] eqn:Hp; [|done]. intros Hd.
  destruct (H p n Hp) as (n' & -> & K). unfold same_kind in K. congruence.
Qed.

Lemma grows_is_file s s' p : grows s s' -> is_file p s = true -> is_file p s' = true.
Proof.
  intros [H _]. unfold is_file. destruct (get p s) as [n|] eqn:Hp; [|done]. intros Hd.
  destruct (H p n Hp) as (n' & -> & K). unfold same_kind in K. destruct n, n'; done.
Qed.

(** Replacing the node at a path by one of the same kind that grew. *)
Lemma grows_put p n m s : get p s = Some n -> grows n m -> same_kind n m -> grows s (put p (Some m) s).
Proof.
  revert s. induction p as [|x p IH]; intros s; [intros [= ->]; done|].
  destruct s as [|es]; [done|]. cbn [get]. destruct (es !! x) as [s'|] eqn:Hx; [|done].
  cbn [mbind option_bind]. intros Hg Hnm Hk.
  assert (Hs : exists s1, put (x :: p) (Some m) (Dir es) = Dir (<[x := s1]> es)
               /\ grows s' s1 /\ same_kind s' s1).
  { destruct p as [|y p].
    - cbn in Hg. injection Hg as ->. exists m. split; [done|]. done.
    - rewrite put_cons by done. exists (put (y :: p) (Some m) s'). split.
      + f_equal. apply map_eq. intros k. destruct (decide (k = x)) as [->|Hkx].
        * by rewrite lookup_alter_eq, lookup_insert_eq, Hx.
        * by rewrite lookup_alter_ne, lookup_insert_ne.
      + split; [by apply IH|]. destruct s' as [|es']; [done|].
        destruct p as [|z p]; [done|]. by rewrite put_cons. }
  destruct Hs as (s1 & -> & [Hkind Hb] & K). split.
  - intros [|y q] nq; [intros [= <-]; by eexists|]. cbn [get]. destruct (decide (y = x)) as [->|Hyx].
    + rewrite Hx, lookup_insert_eq. cbn. apply Hkind.
    + rewrite lookup_insert_ne by done. intros H. by exists nq.
  - intros D HD [|y q]; [cbn; lia|]. cbn [get]. destruct (decide (y = x)) as [->|Hyx].
    + rewrite lookup_insert_eq. cbn [mbind option_bind length]. intros H.
      assert (HDx : bounded (D - 1) s').
      { intros r Hr. specialize (HD (x :: r)). cbn [get length] in HD. rewrite Hx in HD.
        specialize (HD Hr). lia. }
      assert (H1 : 1 <= D).
      { specialize (HD [x]). cbn [get length] in HD. rewrite Hx in HD. cbn in HD.
        apply HD. by eexists. }
      specialize (Hb (D - 1) HDx q H). lia.
    + rewrite lookup_insert_ne by done. intros H. by apply (HD (y :: q)).
Qed.

Definition leaf v : Prop := forall q, is_Some (get q v) -> q = [].

Lemma leaf_file c ro : leaf (File c ro).
Proof. intros [|x q]; [done|]. cbn. by intros []. Qed.
Lemma leaf_dir : leaf (Dir ∅).
Proof. intros [|x q]; [done|]. cbn. rewrite lookup_empty. by intros []. Qed.

(** A directory that is not empty and gains an empty entry. *)
Lemma grows_entry es x v y :
  es !! x = None -> is_Some (es !! y) -> leaf v -> grows (Dir es) (Dir (<[x := v]> es)).
Proof.
  intros Hx [w Hy] Hv. split.
  - intros [|z q] n; [intros [= <-]; by eexists|]. cbn [get]. destruct (decide (z = x)) as [->|Hz].
    + by rewrite Hx.
    + rewrite lookup_insert_ne by done. intros H. by exists n.
  - intros D HD [|z q]; [cbn; lia|]. cbn [get]. destruct (decide (z = x)) as [->|Hz].
    + rewrite lookup_insert_eq. cbn [mbind option_bind length]. intros H. rewrite (Hv q H).
      specialize (HD [y]). cbn [get length] in HD. rewrite Hy in HD. apply HD. by eexists.
    + rewrite lookup_insert_ne by done. intros H. by apply (HD (z :: q)).
Qed.

Lemma grows_put_new dir es x v y s :
  get dir s = Some (Dir es) -> es !! x = None -> is_Some (es !! y) -> leaf v ->
  grows s (put (dir ++ [x]) (Some v) s).
Proof.
  intros Hd Hx Hy Hv. rewrite (put_snoc dir x _ es s Hd). unfold set_dir.
  apply (grows_put dir (Dir es)); [done| |done]. by eapply grows_entry.
Qed.

(** ** Operations that only grow the tree *)

Definition only_grows {A} (c : io A) s : Prop := grows s (c s).2.

(** The board a task's folder holds. *)
Lemma status_store_grows board st s s' :
  grows s s' -> status_store_exists board st s = true -> status_store_exists board st s' = true.
Proof.
  intros Hg. unfold status_store_exists. rewrite !orb_true_iff.
  intros [H|H]; [left; by eapply grows_is_dir|right; by eapply grows_is_file].
Qed.

Lemma any_store_grows board s s' :
  grows s s' -> board_has_any_status_store board s = true ->
  board_has_any_status_store board s' = true.
Proof.
  intros Hg. unfold board_has_any_status_store. rewrite !existsb_elem_of.
  intros (st & Hst & H). exists st. split; [done|]. by eapply status_store_grows.
Qed.

Lemma dir_entries p s : is_dir p s = true -> exists es, get p s = Some (Dir es).
Proof. unfold is_dir. destruct (get p s) as [[|es]|]; [done| |done]. by exists es. Qed.

Lemma any_store_entry board es s :
  get board s = Some (Dir es) -> board_has_any_status_store board s = true ->
  exists y, is_Some (es !! y).
Proof.
  intros Hb H. apply existsb_elem_of in H as (st & _ & H). unfold status_store_exists in H.
  apply orb_true_iff in H as [H|H]; [unfold is_dir in H|unfold is_file in H];
    rewrite get_snoc, Hb in H;
    match type of H with context [es !! ?y] => exists y; destruct (es !! y); [by eexists|done] end.
Qed.

Lemma any_store_is_dir board s : board_has_any_status_store board s = true -> is_dir board s = true.
Proof.
  intros H. apply existsb_elem_of in H as (st & _ & H). unfold status_store_exists in H.
  unfold is_dir, is_file in *. rewrite !get_snoc in H. by destruct (get board s) as [[|]|].
Qed.

Lemma create_dir_leaf dir es x s :
  get dir s = Some (Dir es) -> es !! x = None ->
  create_dir_all (dir ++ [x]) s = (Ok tt, put (dir ++ [x]) (Some (Dir ∅)) s).
Proof.
  intros Hd Hx. unfold create_dir_all.
  assert (H : create_dirs (dir ++ [x]) s = Some (put (dir ++ [x]) (Some (Dir ∅)) s)); [|by rewrite H].
  revert s Hd. induction dir as [|y dir IH]; intros s.
  - intros [= ->]. cbn. rewrite Hx. done.
  - destruct s as [|es0]; [done|]. cbn [get app create_dirs]. destruct (es0 !! y) as [s'|] eqn:Hy; [|done].
    cbn [mbind option_bind from_option]. unfold Datatypes.id. intros Hd. rewrite (IH s' Hd). cbn [mbind option_bind].
    rewrite put_cons by by destruct dir. do 2 f_equal. apply map_eq. intros k.
    destruct (decide (k = y)) as [->|Hk].
    + by rewrite lookup_insert_eq, lookup_alter_eq, Hy.
    + by rewrite lookup_insert_ne, lookup_alter_ne.
Qed.

Lemma ensure_status_store_grows board mode st s :
  board_has_any_status_store board s = true -> only_grows (ensure_status_store board mode st) s.
Proof.
  intros Hb. destruct (dir_entries board s (any_store_is_dir board s Hb)) as [es Hd].
  destruct (any_store_entry board es s Hd Hb) as [y Hy].
  unfold only_grows, ensure_status_store, bind, look. destruct (_ || _) eqn:Hp; [done|].
  apply orb_false_iff in Hp as [Hp1 Hp2]. destruct mode.
  - destruct (es !! Status.as_str st) as [v|] eqn:Hx.
    + assert (Hc : create_dirs (board ++ [Status.as_str st]) s = None).
      { destruct v as [c ro|es']; [|unfold is_dir in Hp1; by rewrite get_snoc, Hd, Hx in Hp1].
        clear - Hd Hx. revert s Hd. induction board as [|z board IH]; intros s.
        - intros [= ->]. cbn. by rewrite Hx.
        - destruct s as [|es0]; [done|]. cbn [get app create_dirs].
          destruct (es0 !! z) as [s'|] eqn:Hz; [|done]. cbn [mbind option_bind from_option].
          unfold Datatypes.id. intros Hd. by rewrite (IH s' Hd). }
      unfold create_dir_all. by rewrite Hc.
    + rewrite (create_dir_leaf board es _ s Hd Hx). by eapply grows_put_new; [| | |apply leaf_dir].
  - unfold exists_path in Hp2. unfold write_file. destruct (get (board ++ [Status.filename st]) s) eqn:Hg; [done|].
    rewrite get_snoc, Hd in Hg. unfold is_dir. rewrite parent_snoc, Hd. cbn [is_dir_node].
    by eapply grows_put_new; [| | |apply leaf_file].
Qed.

Lemma bind_grows {A B} (c : io A) (k : A -> io B) s :
  only_grows c s -> (forall a, only_grows (k a) (c s).2) -> only_grows (bind c k) s.
Proof.
  unfold only_grows, bind. destruct (c s) as [[a|e] s'] eqn:Hc; cbn [snd]; [|done].
  intros H1 H2. etrans; [exact H1|]. apply H2.
Qed.

(** The readers of a board leave a tree in which the board is still there. *)
Definition keeps {A} (board : path) (c : io A) : Prop :=
  forall s, board_has_any_status_store board s = true -> only_grows c s.

Lemma keeps_bind {A B} board (c : io A) (k : A -> io B) :
  keeps board c -> (forall a, keeps board (k a)) -> keeps board (bind c k).
Proof.
  intros Hc Hk s Hs. apply bind_grows; [by apply Hc|]. intros a. apply Hk.
  eapply any_store_grows; [|done]. by apply Hc.
Qed.

Lemma keeps_look {A} board (f : node -> A) : keeps board (look f).
Proof. intros s _. unfold only_grows, look. done. Qed.
Lemma keeps_ret {A} board (a : A) : keeps board (ret a).
Proof. intros s _. unfold only_grows, ret. done. Qed.

Lemma keeps_for_each {A} board (f : A -> io unit) (l : list A) :
  (forall a, keeps board (f a)) -> keeps board (for_each f l).
Proof.
  intros Hf. induction l as [|a l IH]; [apply keeps_ret|]. cbn. apply keeps_bind; [done|]. by intros _.
Qed.

Lemma create_dir_all_grows dir s : is_dir dir s = true -> create_dir_all dir s = (Ok tt, s).
Proof. intros H. destruct (dir_entries dir s H) as [es Hd]. by eapply create_dir_all_dir. Qed.

Lemma ensure_board_store_keeps board : keeps board (ensure_board_store board).
Proof.
  intros s Hs. apply bind_grows.
  - unfold only_grows. by rewrite (create_dir_all_grows board s (any_store_is_dir board s Hs)).
  - intros _. rewrite (create_dir_all_grows board s (any_store_is_dir board s Hs)). cbn [snd].
    apply (keeps_bind board); [apply keeps_look| |done]. intros mode. apply keeps_for_each.
    intros st s' Hs'. by apply ensure_status_store_grows.
Qed.

Lemma get_status_store_keeps board st : keeps board (get_status_store board st).
Proof.
  apply keeps_bind; [apply ensure_board_store_keeps|]. intros _. apply keeps_bind; [apply keeps_look|].
  intros d. apply keeps_ret.
Qed.

(** ** Reading entries *)

(** A reader changes nothing. *)
Definition reads {A} (c : io A) : Prop := forall s, (c s).2 = s.

Lemma reads_look {A} (f : node -> A) : reads (look f).
Proof. done. Qed.
Lemma reads_ret {A} (a : A) : reads (ret a).
Proof. done. Qed.
Lemma reads_bind {A B} (c : io A) (k : A -> io B) : reads c -> (forall a, reads (k a)) -> reads (bind c k).
Proof.
  intros Hc Hk s. unfold bind. specialize (Hc s). destruct (c s) as [[a|e] s']; cbn in *; subst; [|done].
  apply Hk.
Qed.
Lemma reads_map_io {A B} (f : A -> io B) (l : list A) : (forall a, reads (f a)) -> reads (map_io f l).
Proof.
  intros Hf. induction l as [|a l IH]; [done|]. cbn. apply reads_bind; [done|]. intros b.
  apply reads_bind; [done|]. done.
Qed.
Lemma reads_keeps {A} board (c : io A) : reads c -> keeps board c.
Proof. intros Hc s _. unfold only_grows. by rewrite Hc. Qed.

Lemma reads_read_to_string p : reads (read_to_string p).
Proof. intros s. unfold read_to_string. by destruct (get p s) as [[|]|]. Qed.
Lemma reads_read_dir p : reads (read_dir p).
Proof. intros s. unfold read_dir. by destruct (is_dir p s). Qed.

Lemma reads_markdown p : reads (read_markdown_entries p).
Proof. apply reads_bind; [apply reads_read_to_string|]. intros c. apply reads_ret. Qed.

Lemma reads_directory_entry p : reads (read_directory_entry p).
Proof.
  apply reads_bind; [apply reads_look|]. intros d. apply reads_bind.
  { destruct d; [|apply reads_read_to_string]. apply reads_bind; [apply reads_look|]. intros o. apply reads_ret. }
  intros c. cbv beta zeta. match goal with |- context [split_description_metadata ?t] =>
    destruct (split_description_metadata t) as [description metadata] end.
  apply reads_bind; [apply reads_look|]. intros b. apply reads_ret.
Qed.

Lemma reads_directory_task_paths U p : reads (directory_task_paths U p).
Proof.
  apply reads_bind; [apply reads_look|]. intros present. destruct (negb present); [apply reads_ret|].
  apply reads_bind; [apply reads_read_dir|]. intros names. apply reads_ret.
Qed.

Lemma reads_directory U p : reads (read_directory_entries U p).
Proof.
  apply reads_bind; [apply reads_directory_task_paths|]. intros ps.
  apply reads_map_io. apply reads_directory_entry.
Qed.

Lemma read_task_entries_keeps U board st : keeps board (read_task_entries U board st).
Proof.
  apply keeps_bind; [apply get_status_store_keeps|]. intros [p|p]; apply reads_keeps.
  - apply reads_markdown.
  - apply reads_directory.
Qed.

(** A subtask board that was read is a board below. *)
Definition board_below (board : path) s (task : TaskEntry) : Prop :=
  forall q, subtask_board task = Some q ->
    board_has_any_status_store q s = true /\ length board < length q.

Lemma bind_ok {A B} (c : io A) (k : A -> io B) s b s' :
  bind c k s = (Ok b, s') -> exists a s1, c s = (Ok a, s1) /\ k a s1 = (Ok b, s').
Proof. unfold bind. destruct (c s) as [[a|e] s1]; [|done]. intros H. by exists a, s1. Qed.

Lemma map_io_ok {A B} (f : A -> io B) (l : list A) s bs s' :
  (forall a, reads (f a)) -> map_io f l s = (Ok bs, s') ->
  s' = s /\ forall b, b ∈ bs -> exists a, a ∈ l /\ f a s = (Ok b, s).
Proof.
  intros Hf. revert bs. induction l as [|a l IH]; intros bs.
  { intros [= <- <-]. split; [done|]. intros b Hb. by apply elem_of_nil in Hb. }
  cbn [map_io]. intros (b & s1 & Hb & H)%bind_ok. apply bind_ok in H as (bs' & s2 & Hbs & H).
  injection H as <- <-. pose proof (Hf a s) as Hs. rewrite Hb in Hs. cbn in Hs. subst s1.
  destruct (IH bs' Hbs) as [-> Hin]. split; [done|]. intros b' [->|Hb']%elem_of_cons.
  - exists a. split; [by left|done].
  - destruct (Hin b' Hb') as (a' & Ha' & ?). exists a'. split; [by right|done].
Qed.

Lemma directory_entry_below (p : path) x s task s' board :
  length board <= length p -> read_directory_entry (p ++ [x]) s = (Ok task, s') -> board_below board s task.
Proof.
  intros Hl (d & s1 & Hd & H)%bind_ok. injection Hd as <- <-.
  apply bind_ok in H as (c & s2 & Hc & H).
  assert (s2 = s) as ->.
  { destruct (is_dir (p ++ [x]) s).
    - apply bind_ok in Hc as (o & s3 & Ho & Hc). injection Ho as _ <-. by injection Hc as _ <-.
    - pose proof (reads_read_to_string (p ++ [x]) s) as Hr. by rewrite Hc in Hr. }
  revert H. cbv beta zeta. match goal with |- context [split_description_metadata ?t] =>
    destruct (split_description_metadata t) as [description metadata] end.
  intros (b & s3 & Hb & H)%bind_ok. injection Hb as <- <-. injection H as <- <-. intros q.
  unfold subtask_board. cbn [has_subtasks source].
  destruct (is_dir (p ++ [x]) s); [|done]. cbn [andb].
  destruct (board_has_any_status_store (p ++ [x]) s) eqn:Hs; [|done]. intros [= <-]. split; [done|].
  rewrite length_app. cbn. lia.
Qed.

Lemma read_task_entries_below U board st s entries s' :
  read_task_entries U board st s = (Ok entries, s') -> forall task, task ∈ entries -> board_below board s' task.
Proof.
  intros (store & s1 & Hstore & H)%bind_ok task Hin. destruct store as [p|p].
  - apply bind_ok in H as (c & s2 & _ & H). injection H as <- <-.
    apply list_elem_of_omap in Hin as ([i l] & _ & Hl). unfold markdown_entry in Hl.
    destruct (strip_prefix _ _) as [t|]; [|done]. cbn [mbind option_bind] in Hl. injection Hl as <-.
    unfold task_entry_from_text. intros q.
    match goal with |- context [split_description_metadata ?x] =>
      destruct (split_description_metadata x) as [description metadata] end.
    unfold subtask_board. done.
  - assert (Hp : length board <= length p).
    { apply bind_ok in Hstore as (? & ? & _ & Hstore). apply bind_ok in Hstore as (d & ? & _ & Hstore).
      destruct d; [|done]. injection Hstore as <- _. rewrite length_app. lia. }
    apply bind_ok in H as (ps & s2 & Hps & H).
    assert (s2 = s1) as ->.
    { pose proof (reads_directory_task_paths U p s1) as Hr. by rewrite Hps in Hr. }
    apply map_io_ok in H as [-> H]; [|apply reads_directory_entry].
    destruct (H task Hin) as (q & Hq & Hread).
    assert (Hqx : exists x, q = p ++ [x]).
    { apply bind_ok in Hps as (present & ? & _ & Hps). destruct (negb present).
      - injection Hps as <- _. by apply elem_of_nil in Hq.
      - apply bind_ok in Hps as (ns & ? & _ & Hps). injection Hps as <- _.
        apply list_elem_of_fmap in Hq as (y & -> & _). by exists y. }
    destruct Hqx as [x ->]. by eapply directory_entry_below.
Qed.

(** ** Descending ends *)

Definition ends {A} (c : io A) s : Prop := (c s).1 <> Err DepthExceeded /\ grows s (c s).2.

Definition no_depth {A} (c : io A) : Prop := forall s, (c s).1 <> Err DepthExceeded.

Lemma no_depth_bind {A B} (c : io A) (k : A -> io B) :
  no_depth c -> (forall a, no_depth (k a)) -> no_depth (bind c k).
Proof.
  intros Hc Hk s. unfold bind. specialize (Hc s). destruct (c s) as [[a|e] s']; [apply Hk|].
  cbn in *. congruence.
Qed.

Ltac no_depth_op :=
  intros s; repeat (match goal with |- context [match ?x with _ => _ end] => destruct x end); done.

Lemma no_depth_look {A} (f : node -> A) : no_depth (look f).
Proof. done. Qed.
Lemma no_depth_ret {A} (a : A) : no_depth (ret a).
Proof. done. Qed.
Lemma no_depth_create_dir_all p : no_depth (create_dir_all p).
Proof. unfold create_dir_all. no_depth_op. Qed.
Lemma no_depth_write_file p c : no_depth (write_file p c).
Proof. unfold write_file. no_depth_op. Qed.
Lemma no_depth_read_to_string p : no_depth (read_to_string p).
Proof. unfold read_to_string. no_depth_op. Qed.
Lemma no_depth_read_dir p : no_depth (read_dir p).
Proof. unfold read_dir. no_depth_op. Qed.

Lemma no_depth_for_each {A} (f : A -> io unit) (l : list A) :
  (forall a, no_depth (f a)) -> no_depth (for_each f l).
Proof. intros Hf. induction l as [|a l IH]; [done|]. cbn. apply no_depth_bind; [done|]. by intros _. Qed.
Lemma no_depth_map_io {A B} (f : A -> io B) (l : list A) :
  (forall a, no_depth (f a)) -> no_depth (map_io f l).
Proof.
  intros Hf. induction l as [|a l IH]; [done|]. cbn. apply no_depth_bind; [done|]. intros b.
  apply no_depth_bind; [done|]. done.
Qed.

Create HintDb io_db.
#[export] Hint Resolve no_depth_bind no_depth_look no_depth_ret no_depth_create_dir_all
  no_depth_write_file no_depth_read_to_string no_depth_read_dir no_depth_for_each no_depth_map_io : io_db.

Lemma no_depth_directory_task_paths U p : no_depth (directory_task_paths U p).
Proof.
  apply no_depth_bind; [done|]. intros present. destruct (negb present); [done|]. eauto with io_db.
Qed.

Lemma no_depth_directory_entry p : no_depth (read_directory_entry p).
Proof.
  apply no_depth_bind; [done|]. intros d. apply no_depth_bind.
  { destruct d; eauto with io_db. }
  intros c. cbv beta zeta. match goal with |- context [split_description_metadata ?t] =>
    destruct (split_description_metadata t) as [description metadata] end. eauto with io_db.
Qed.

Lemma no_depth_get_status_store board st : no_depth (get_status_store board st).
Proof.
  apply no_depth_bind; [|eauto with io_db]. apply no_depth_bind; [eauto with io_db|]. intros _.
  apply no_depth_bind; [done|]. intros mode. apply no_depth_for_each. intros st'.
  apply no_depth_bind; [done|]. intros present. destruct present, mode; eauto with io_db.
Qed.

Lemma no_depth_read_task_entries U board st : no_depth (read_task_entries U board st).
Proof.
  apply no_depth_bind; [apply no_depth_get_status_store|]. intros [p|p].
  - unfold read_markdown_entries. eauto with io_db.
  - apply no_depth_bind; [apply no_depth_directory_task_paths|]. intros ps.
    apply no_depth_map_io, no_depth_directory_entry.
Qed.

Lemma ends_ret {A} (a : A) s : ends (ret a) s.
Proof. by split. Qed.

Lemma ends_bind {A B} (c : io A) (k : A -> io B) s :
  ends c s -> (forall a s', c s = (Ok a, s') -> ends (k a) s') -> ends (bind c k) s.
Proof.
  intros [Hc Hg] Hk. unfold ends, bind. destruct (c s) as [[a|e] s'] eqn:Hcs; cbn [fst snd] in *.
  - destruct (Hk a s' eq_refl) as [H1 H2]. split; [done|]. by etrans.
  - split; [congruence|done].
Qed.

Lemma ends_find_in {A B} (f : A -> io (option B)) (l : list A) s :
  (forall a s', a ∈ l -> grows s s' -> ends (f a) s') -> ends (find_in f l) s.
Proof.
  revert s. induction l as [|a l IH]; intros s Hf; [apply ends_ret|]. cbn [find_in].
  destruct (Hf a s) as [H1 H2]; [by left|done|]. apply ends_bind; [done|].
  intros [b|] s' Hs'; [apply ends_ret|]. rewrite Hs' in H2. apply IH. intros a' s'' Ha' Hg.
  apply Hf; [by right|]. by etrans.
Qed.

(** The step of every descent: the entries of a board are read, and each is
    looked at or its board is descended into. *)
Lemma ends_board {B} U board st D s (f : TaskEntry -> io (option B)) :
  bounded D s -> board_has_any_status_store board s = true ->
  (forall task s', bounded D s' ->
     (forall q, subtask_board task = Some q ->
        board_has_any_status_store q s' = true /\ length board < length q) -> ends (f task) s') ->
  ends (do! entries := read_task_entries U board st in find_in f entries) s.
Proof.
  intros HD Hb Hf. apply ends_bind.
  { split; [apply no_depth_read_task_entries|]. by apply read_task_entries_keeps. }
  intros entries s1 Hread. pose proof (read_task_entries_keeps U board st s Hb) as Hg.
  unfold only_grows in Hg. rewrite Hread in Hg. cbn [snd] in Hg.
  apply ends_find_in. intros task s2 Hin Hg2.
  assert (Hg' : grows s s2) by by etrans. apply Hf; [by apply (grows_bounded _ _ Hg')|].
  intros q Hq. destruct (read_task_entries_below U board st s entries s1 Hread task Hin q Hq) as [H1 H2].
  split; [|done]. exact (any_store_grows q s1 s2 Hg2 H1).
Qed.

Lemma board_in_bounds board D s :
  bounded D s -> board_has_any_status_store board s = true -> length board <= D.
Proof.
  intros HD Hb. apply HD. destruct (dir_entries board s (any_store_is_dir board s Hb)) as [es ->].
  by eexists.
Qed.

Lemma session_search_ends U fuel board session recover D s :
  bounded D s -> board_has_any_status_store board s = true -> D < fuel + length board ->
  ends (task_for_codex_session_in_board_matching U fuel board session recover) s.
Proof.
  revert board s. induction fuel as [|fuel IH]; intros board s HD Hb Hfuel.
  { pose proof (board_in_bounds board D s HD Hb). lia. }
  cbn [task_for_codex_session_in_board_matching]. apply ends_find_in. intros st s1 _ Hg.
  apply (ends_board U board st D); [by apply (grows_bounded _ _ Hg)|exact (any_store_grows board s s1 Hg Hb)|].
  intros task s2 HD2 Hq. destruct (_ == _); [apply ends_ret|].
  destruct (subtask_board task) as [q|]; [|apply ends_ret].
  destruct (Hq q eq_refl) as [H1 H2]. apply IH; [done|done|lia].
Qed.

Lemma manual_search_ends U fuel board session D s :
  bounded D s -> board_has_any_status_store board s = true -> D < fuel + length board ->
  ends (board_has_manual_task_matching U fuel board session) s.
Proof.
  revert board s. induction fuel as [|fuel IH]; intros board s HD Hb Hfuel.
  { pose proof (board_in_bounds board D s HD Hb). lia. }
  cbn [board_has_manual_task_matching]. apply ends_find_in. intros st s1 _ Hg.
  apply (ends_board U board st D); [by apply (grows_bounded _ _ Hg)|exact (any_store_grows board s s1 Hg Hb)|].
  intros task s2 HD2 Hq. destruct (_ && _); [apply ends_ret|].
  destruct (subtask_board task) as [q|]; [|apply ends_ret].
  destruct (Hq q eq_refl) as [H1 H2]. apply IH; [done|done|lia].
Qed.
