(* ===== verification/BoardMarkdown.v ===== *)
(** The lines of a Markdown store, written and read back; a Markdown store implements a
    list of tasks: the lines that start with a dash are the tasks, every other line stays
    where it is between them. *)
From S2P Require Import Prelude Text TextLemmas Markers MarkerLemmas TaskNotes Metadata.
From S2P Require Import TaskEntry Files Board BoardOrder BoardRewrite BoardStore.

Section Lines.
Implicit Types (s t l : text) (ls : list text) (c : N).

(** ** Reading lines back *)

(** A line that is read back as it was written. *)
Definition line_ok l : Prop := 10%N ∉ l /\ last l <> Some 13%N.

Definition unlines ls : text := concat ((fun l => l ++ [10%N]) <$> ls).

Lemma split_inclusive_cons l t :
  10%N ∉ l -> split_inclusive_newline (l ++ 10%N :: t) = (l ++ [10%N]) :: split_inclusive_newline t.
Proof.
  induction l as [|c l IH]; [done|]. rewrite not_elem_of_cons. intros [Hc Hl].
  cbn [app split_inclusive_newline]. destruct (N.eqb_spec c 10); [congruence|]. by rewrite IH.
Qed.

Lemma without_newline_line l : last l <> Some 13%N -> without_newline (l ++ [10%N]) = l.
Proof.
  intros Hl. unfold without_newline.
  rewrite (proj2 (strip_suffix_spec [10%N] (l ++ [10%N]) l) eq_refl).
  destruct (strip_suffix [13%N] l) as [r|] eqn:Hr; [|done].
  apply strip_suffix_spec in Hr as ->. by rewrite last_snoc in Hl.
Qed.

Lemma lines_unlines ls : Forall line_ok ls -> lines (unlines ls) = ls.
Proof.
  intros Hls. induction Hls as [|l ls [H10 H13] Hls IH]; [done|]. unfold lines, unlines in *.
  cbn [fmap list_fmap concat]. rewrite <- (assoc_L (++)). cbn [app].
  rewrite split_inclusive_cons by done. cbn [fmap list_fmap]. by rewrite without_newline_line, IH.
Qed.

Lemma join_unlines l ls : join [10%N] (l :: ls) ++ [10%N] = unlines (l :: ls).
Proof.
  revert l. induction ls as [|m ls IH]; intros l.
  - unfold unlines. cbn. by rewrite app_nil_r.
  - change (join [10%N] (l :: m :: ls)) with (l ++ [10%N] ++ join [10%N] (m :: ls)).
    rewrite <- !(assoc_L (++)), IH. unfold unlines. cbn [fmap list_fmap concat].
    by rewrite <- !(assoc_L (++)).
Qed.

(** What [write_lines] writes. *)
Definition lines_content ls : text :=
  match join [10%N] ls with [] => [] | _ => join [10%N] ls ++ [10%N] end.

Lemma join_nil ls : join [10%N] ls = [] -> ls = [] \/ ls = [[]].
Proof.
  destruct ls as [|l [|m ls]]; [by left|intros H; by right; cbn in H; rewrite H|].
  intros H. by apply app_eq_nil in H as [_ H].
Qed.

Lemma lines_content_unlines ls : ls <> [[]] -> lines_content ls = unlines ls.
Proof.
  intros Hls. unfold lines_content. destruct (join [10%N] ls) as [|c t] eqn:Hj.
  - by apply join_nil in Hj as [->| ->].
  - rewrite <- Hj. destruct ls as [|l ls]; [done|]. apply join_unlines.
Qed.

Lemma lines_no_newline t l : l ∈ lines t -> 10%N ∉ l.
Proof.
  unfold lines. intros (i & Heq & Hi)%list_elem_of_fmap. subst l. revert i Hi.
  assert (H : forall i, i ∈ split_inclusive_newline t ->
            10%N ∉ i \/ exists r, i = r ++ [10%N] /\ 10%N ∉ r).
  { induction t as [|c t IH]; intros i Hi; cbn [split_inclusive_newline] in Hi.
    { by apply elem_of_nil in Hi. }
    destruct (N.eqb_spec c 10) as [->|Hc].
    - apply elem_of_cons in Hi as [Heq|Hi]; [|by apply IH]. subst i.
      right. exists []. by split; [|apply not_elem_of_nil].
    - destruct (split_inclusive_newline t) as [|i' rest].
      + apply list_elem_of_singleton in Hi as ->. left. rewrite list_elem_of_singleton. congruence.
      + apply elem_of_cons in Hi as [Heq|Hi]; [|apply IH; by right]. subst i.
        destruct (IH i') as [H|(r & -> & Hr)]; [by left| |].
        * left. rewrite not_elem_of_cons. by split; [congruence|].
        * right. exists (c :: r). split; [done|]. rewrite not_elem_of_cons. by split; [congruence|]. }
  intros i Hi. unfold without_newline. destruct (strip_suffix [10%N] i) as [r|] eqn:Hr.
  - apply strip_suffix_spec in Hr as ->.
    assert (Hno : 10%N ∉ r).
    { destruct (H _ Hi) as [Hn|(r' & Heq & Hr')].
      - intros Hin. apply Hn. set_solver.
      - by apply app_inj_tail in Heq as [-> _]. }
    destruct (strip_suffix [13%N] r) as [q|] eqn:Hq; [|done].
    apply strip_suffix_spec in Hq as ->. cbn. intros Hin. apply Hno. set_solver.
  - destruct (H _ Hi) as [Hn|(r' & -> & Hr')]; [done|].
    rewrite (proj2 (strip_suffix_spec [10%N] (r' ++ [10%N]) r') eq_refl) in Hr. done.
Qed.

(** ** What removals keep *)

Lemma take_sub {A} i (l : list A) : take i l ⊆ l.
Proof. intros x Hx. rewrite <- (take_drop i l). set_solver. Qed.
Lemma drop_sub {A} i (l : list A) : drop i l ⊆ l.
Proof. intros x Hx. rewrite <- (take_drop i l). set_solver. Qed.

Lemma trim_start_sub p s : trim_start_matches p s ⊆ s.
Proof. induction s as [|c s IH]; [done|]. cbn. destruct (p c); [|done]. set_solver. Qed.
Lemma trim_end_matches_sub p s : trim_end_matches p s ⊆ s.
Proof.
  unfold trim_end_matches. intros x Hx. apply elem_of_reverse, trim_start_sub in Hx.
  by apply elem_of_reverse.
Qed.
Lemma trim_end_sub s : trim_end s ⊆ s.
Proof. apply trim_end_matches_sub. Qed.
Lemma trim_sub s : trim s ⊆ s.
Proof. unfold trim. etrans; [apply trim_end_sub|]. apply trim_start_sub. Qed.

Lemma without_codex_session_sub s : task_content_without_codex_session s ⊆ s.
Proof.
  unfold task_content_without_codex_session. destruct (codex_session_id_from_task_content _).
  - etrans; [apply trim_end_sub|]. etrans; [apply take_sub|]. apply trim_end_sub.
  - apply trim_end_sub.
Qed.

Lemma without_stop_marker_sub s : task_content_without_stop_marker s ⊆ s.
Proof.
  unfold task_content_without_stop_marker. destruct (task_content_is_stopped s); [|done].
  etrans; [apply trim_end_sub|]. etrans; [|apply trim_end_sub].
  destruct (strip_suffix _ _) as [r|] eqn:Hr; cbn; [|set_solver].
  apply strip_suffix_spec in Hr as ->. set_solver.
Qed.

Lemma without_matching_sub s id : task_content_without_matching_codex_sessions s id ⊆ s.
Proof.
  unfold task_content_without_matching_codex_sessions.
  assert (H : forall ms acc, acc.1 ⊆ s -> (foldl (copy_before_marker s id) acc ms).1 ⊆ s).
  { induction ms as [|[[start stop] m] ms IH]; intros [r cur] Hr; [done|]. cbn [foldl]. apply IH.
    cbn. destruct (negb _); [done|]. cbn [fst].
    intros x [Hx|Hx]%elem_of_app; [by apply Hr|].
    unfold slice in Hx. apply drop_sub, take_sub in Hx. done. }
  specialize (H (codex_session_markers_in_task_content s) ([], 0)).
  destruct (foldl _ _ _) as [r cur]. etrans; [apply trim_end_sub|].
  intros x [Hx|Hx]%elem_of_app; [by apply H; [apply list_subseteq_nil|]|]. by apply drop_sub in Hx.
Qed.

(** ** A task on one line *)

Lemma last_app_ne s t : t <> [] -> last (s ++ t) = last t.
Proof. intros Ht. destruct t as [|c t] using rev_ind; [done|]. by rewrite (assoc_L (++)), !last_snoc. Qed.

Lemma trim_end_last s c : last (trim_end s) = Some c -> is_whitespace c = false.
Proof.
  destruct (trim_end_matches_spec is_whitespace s) as (t & _ & _ & H). unfold trim_end. apply H.
Qed.

Lemma join_space_no_newline (ps : list text) :
  Forall (fun p => 10%N ∉ p) ps -> 10%N ∉ join (str " ") ps.
Proof.
  intros Hps. induction Hps as [|p ps Hp Hps IH]; [apply not_elem_of_nil|].
  destruct ps as [|q ps]; [done|]. change (10%N ∉ p ++ [32%N] ++ join (str " ") (q :: ps)).
  rewrite !not_elem_of_app. split_and!; [done| |done]. by rewrite list_elem_of_singleton.
Qed.

Lemma join_space_last (ps : list text) :
  Forall (fun p => last p <> Some 13%N) ps -> last (join (str " ") ps) <> Some 13%N.
Proof.
  intros Hps. induction Hps as [|p ps Hp Hps IH]; [done|].
  destruct ps as [|q ps]; [done|].
  change (last (p ++ [32%N] ++ join (str " ") (q :: ps)) <> Some 13%N).
  destruct (join (str " ") (q :: ps)) as [|c t] eqn:Hj.
  - rewrite app_nil_r, last_snoc. done.
  - rewrite (assoc_L (++)), last_app_ne by done. done.
Qed.

Lemma normalize_line_ok l : 10%N ∉ l -> line_ok (normalize_line l).
Proof.
  intros Hl. unfold normalize_line. set (u := trim_start _). split.
  - assert (Hu : u ⊆ l).
    { unfold u. etrans; [apply trim_start_sub|]. apply trim_start_sub. }
    intros Hin%trim_sub. apply Hl. destruct (strip_prefix (str "- ") u) as [r|] eqn:Hr.
    + apply strip_prefix_spec in Hr. apply Hu. rewrite Hr. set_solver.
    + destruct (strip_prefix (str "* ") u) as [r|] eqn:Hr'; [|done].
      apply strip_prefix_spec in Hr'. apply Hu. rewrite Hr'. cbn in Hin. set_solver.
  - intros H%trim_end_last. done.
Qed.

Lemma normalize_task_text_ok s : line_ok (normalize_task_text s).
Proof.
  unfold normalize_task_text. set (ls := lines _).
  assert (H : Forall line_ok (normalize_line <$> List.filter (fun line => negb (line == [])) (trim <$> ls))).
  { apply Forall_forall. intros l (m & -> & Hm)%list_elem_of_fmap. apply normalize_line_ok.
    apply list_elem_of_In, filter_In in Hm as [Hm _]. apply list_elem_of_In in Hm.
    apply list_elem_of_fmap in Hm as (k & -> & Hk). apply lines_no_newline in Hk.
    intros Hin%trim_sub. done. }
  split.
  - apply join_space_no_newline. eapply Forall_impl; [exact H|]. by intros ? [? _].
  - apply join_space_last. eapply Forall_impl; [exact H|]. by intros ? [_ ?].
Qed.

Lemma codex_session_id_valid s id :
  codex_session_id_from_task_content s = Some id -> session_id_is_valid id = true.
Proof. intros H. by apply codex_session_id_spec in H as [? _]. Qed.

Lemma recoverable_valid s id :
  recoverable_codex_session_id_from_task_content s = Some id -> session_id_is_valid id = true.
Proof.
  unfold recoverable_codex_session_id_from_task_content.
  set (t := task_content_without_stop_marker s).
  destruct (codex_session_id_from_task_content t) as [id'|] eqn:Hid.
  { intros [= ->]. by eapply codex_session_id_valid. }
  destruct (List.filter _ _) as [|[[start stop] id'] ms] eqn:Hms; [done|].
  destruct (forallb _ ms); [|done]. intros [= ->].
  assert (Hin : (start, stop, id) ∈ codex_session_markers_in_task_content t).
  { apply list_elem_of_In. eapply (List.incl_filter). rewrite Hms. by left. }
  unfold codex_session_markers_in_task_content in Hin.
  apply list_elem_of_omap in Hin as (i & _ & Hi). unfold codex_marker_at in Hi.
  destruct (_ && _); [done|]. destruct (strip_prefix _ _) as [id'|]; [|done].
  cbn in Hi. destruct (session_id_is_valid id') eqn:Hv; [|done]. by injection Hi as <- <- ->.
Qed.

Lemma solid_line w : solid w -> line_ok w.
Proof.
  intros Hw. unfold solid in Hw. rewrite Forall_forall in Hw. split.
  - intros H%Hw. done.
  - intros H. apply last_Some_elem_of, Hw in H. done.
Qed.

Lemma with_codex_session_ok s id :
  session_id_is_valid id = true -> 10%N ∉ s -> line_ok (task_content_with_codex_session s id).
Proof.
  intros Hv Hs. rewrite with_codex_session_eq.
  assert (Hbase : 10%N ∉ link_start (unlinked_base id s)).
  { assert (Hu : 10%N ∉ unlinked_base id s).
    { unfold unlinked_base. intros Hin. apply Hs.
      by apply without_matching_sub, without_codex_session_sub, without_stop_marker_sub in Hin. }
    unfold link_start. destruct (unlinked_base id s) as [|c t]; [done|].
    rewrite not_elem_of_app. split; [done|]. by apply (bool_decide_unpack _). }
  destruct (solid_line (link id)) as [Hl Hl']; [by apply link_solid|].
  destruct (task_content_is_stopped s).
  - split.
    + rewrite !not_elem_of_app. split_and!; [done|done|..]; by apply (bool_decide_unpack _).
    + by rewrite (assoc_L (++)), (assoc_L (++)), last_app_ne.
  - rewrite app_nil_r. split; [rewrite not_elem_of_app; done|]. by rewrite last_app_ne.
Qed.

Lemma single_line_content_ok s : line_ok (single_line_content s).
Proof.
  unfold single_line_content. destruct (recoverable_codex_session_id_from_task_content s) as [id|] eqn:Hid.
  - apply with_codex_session_ok; [by eapply recoverable_valid|]. apply normalize_task_text_ok.
  - apply normalize_task_text_ok.
Qed.

Definition task_line (t : text) : text := str "- " ++ t.

Lemma task_line_ok s : line_ok (task_line (single_line_content s)).
Proof.
  destruct (single_line_content_ok s) as [H10 H13]. unfold task_line. split.
  - rewrite not_elem_of_app. split; [by apply (bool_decide_unpack _)|done].
  - destruct (single_line_content s) as [|c t]; [done|]. by rewrite last_app_ne.
Qed.
End Lines.

Implicit Types (p q dir : path) (s : node) (es : gmap text node) (l t : text) (ls : list text).

(** ** Tasks among lines *)

Definition tasks_of ls : list text := omap (strip_prefix (str "- ")) ls.
Definition other_lines ls : list text := List.filter (fun l => negb (is_task_line l)) ls.

Lemma is_task_line_spec l : is_task_line l = true <-> exists t, l = task_line t.
Proof. apply starts_with_spec. Qed.

Lemma tasks_of_app ls ls' : tasks_of (ls ++ ls') = tasks_of ls ++ tasks_of ls'.
Proof. apply omap_app. Qed.

Lemma tasks_of_task t ls : tasks_of (task_line t :: ls) = t :: tasks_of ls.
Proof. unfold tasks_of. cbn. by rewrite strip_prefix_app. Qed.

Lemma other_lines_app ls ls' : other_lines (ls ++ ls') = other_lines ls ++ other_lines ls'.
Proof. apply List.filter_app. Qed.

Lemma other_lines_task t ls : other_lines (task_line t :: ls) = other_lines ls.
Proof.
  unfold other_lines. cbn [List.filter].
  assert (is_task_line (task_line t) = true) as -> by (apply is_task_line_spec; by exists t). done.
Qed.

(** The k-th task line splits the lines before the k-th task. *)
Lemma task_lines_from (off : nat) ls :
  omap (fun il : nat * text => if is_task_line il.2 then Some il.1 else None)
    (imap (fun i => pair (off + i)) ls) =
  match ls with
  | [] => []
  | l :: ls' =>
      (if is_task_line l then [off] else [])
      ++ omap (fun il : nat * text => if is_task_line il.2 then Some il.1 else None)
           (imap (fun i => pair (S off + i)) ls')
  end.
Proof.
  destruct ls as [|l ls]; [done|]. cbn [imap omap list_omap snd fst]. rewrite Nat.add_0_r.
  assert (Hext : imap ((fun i => pair (off + i)) ∘ S) ls = imap (fun i => pair (S off + i)) ls).
  { apply imap_ext. intros i x _. unfold compose. by rewrite Nat.add_succ_r. }
  rewrite Hext. by destruct (is_task_line l).
Qed.

Lemma task_lines_split (off : nat) ls k i :
  omap (fun il : nat * text => if is_task_line il.2 then Some il.1 else None)
    (imap (fun i => pair (off + i)) ls) !! k = Some i ->
  exists (before : list text) t (after : list text), ls = before ++ task_line t :: after /\ i = off + length before /\ length (tasks_of before) = k.
Proof.
  revert off k. induction ls as [|l ls IH]; intros off k; rewrite task_lines_from; [done|].
  destruct (is_task_line l) eqn:Hl.
  - apply is_task_line_spec in Hl as [t ->]. destruct k as [|k].
    + intros [= <-]. exists [], t, ls. cbn. split_and!; [done|lia|done].
    + cbn [app lookup list_lookup]. intros (l1 & t' & l2 & -> & -> & <-)%IH.
      exists (task_line t :: l1), t', l2. rewrite tasks_of_task. cbn. split_and!; [done|lia|done].
  - cbn [app]. intros (l1 & t' & l2 & -> & -> & <-)%IH. exists (l :: l1), t', l2.
    split_and!; [done|cbn; lia|]. unfold tasks_of. cbn. unfold is_task_line, starts_with in Hl.
    apply negb_false_iff, bool_decide_eq_true in Hl. by rewrite Hl.
Qed.

Lemma task_lines_length (off : nat) ls :
  length (omap (fun il : nat * text => if is_task_line il.2 then Some il.1 else None)
    (imap (fun i => pair (off + i)) ls)) = length (tasks_of ls).
Proof.
  revert off. induction ls as [|l ls IH]; intros off; rewrite task_lines_from; [done|].
  rewrite length_app, IH. unfold tasks_of. cbn. unfold is_task_line, starts_with.
  by destruct (strip_prefix (str "- ") l).
Qed.

Lemma task_line_numbers_eq ls :
  task_line_numbers ls =
  omap (fun il : nat * text => if is_task_line il.2 then Some il.1 else None)
    (imap (fun i => pair (0 + i)) ls).
Proof. done. Qed.

Lemma task_line_number_split ls k i :
  task_line_numbers ls !! k = Some i ->
  exists (before : list text) t (after : list text), ls = before ++ task_line t :: after /\ i = length before /\ length (tasks_of before) = k.
Proof. rewrite task_line_numbers_eq. apply (task_lines_split 0). Qed.

Lemma task_line_number_none ls k :
  task_line_numbers ls !! k = None -> length (tasks_of ls) <= k.
Proof. rewrite task_line_numbers_eq, <- (task_lines_length 0). apply lookup_ge_None_1. Qed.

(** ** The three operations on lines *)

Lemma insert_at_end {A} k (x : A) (l : list A) : length l <= k -> insert_at k x l = l ++ [x].
Proof. intros Hk. unfold insert_at. by rewrite take_ge, drop_ge by done. Qed.

Lemma insert_at_app {A} (x : A) (l r : list A) : insert_at (length l) x (l ++ r) = l ++ x :: r.
Proof. unfold insert_at. by rewrite take_app_length, drop_app_length. Qed.

Lemma insert_line_spec ls index t :
  tasks_of (lines_with_task index (task_line t) ls)
  = insert_at (default (length (tasks_of ls)) index) t (tasks_of ls)
  /\ other_lines (lines_with_task index (task_line t) ls) = other_lines ls.
Proof.
  unfold lines_with_task.
  destruct (index ≫= (fun idx => task_line_numbers ls !! idx)) as [i|] eqn:Hi.
  - destruct index as [idx|]; [|done]. cbn [mbind option_bind] in Hi. cbn [default from_option].
    apply task_line_number_split in Hi as (l1 & t' & l2 & -> & -> & <-). unfold Datatypes.id.
    change (insert_line (length l1) (task_line t) (l1 ++ task_line t' :: l2))
      with (insert_at (length l1) (task_line t) (l1 ++ task_line t' :: l2)).
    rewrite insert_at_app, !tasks_of_app, !other_lines_app, !tasks_of_task, !other_lines_task.
    by rewrite insert_at_app.
  - rewrite tasks_of_app, other_lines_app, tasks_of_task, other_lines_task, app_nil_r.
    split; [|done]. rewrite insert_at_end; [done|]. destruct index as [idx|]; [|done].
    by apply task_line_number_none.
Qed.

Lemma delete_app_length {A} (l : list A) x r : delete (length l) (l ++ x :: r) = l ++ r.
Proof. rewrite delete_take_drop, take_app_length. by rewrite <- Nat.add_1_r, drop_app_add. Qed.

Lemma delete_line_spec ls k i :
  task_line_numbers ls !! k = Some i ->
  i < length ls
  /\ tasks_of (delete i ls) = delete k (tasks_of ls) /\ other_lines (delete i ls) = other_lines ls.
Proof.
  intros (l1 & t & l2 & -> & -> & <-)%task_line_number_split. rewrite length_app. cbn [length].
  split; [lia|]. rewrite delete_app_length, !tasks_of_app, !other_lines_app, tasks_of_task, other_lines_task.
  by rewrite delete_app_length.
Qed.

Lemma move_line_spec ls from_idx to_idx :
  match move_task_line from_idx to_idx ls with
  | Some ls' => from_idx < length (tasks_of ls)
                /\ tasks_of ls' = move_item from_idx to_idx (tasks_of ls)
                /\ other_lines ls' = other_lines ls
  | None => length (tasks_of ls) <= from_idx
  end.
Proof.
  unfold move_task_line. destruct (task_line_numbers ls !! from_idx) as [i|] eqn:Hi; [|by apply task_line_number_none].
  cbn [mbind option_bind]. pose proof (task_line_number_split _ _ _ Hi) as (l1 & t & l2 & Hls & Hil & Hk).
  assert (Hget : ls !! i = Some (task_line t)) by (subst; by apply list_lookup_middle).
  rewrite Hget. destruct (delete_line_spec _ _ _ Hi) as (_ & Ht & Ho).
  assert (Hlt : tasks_of ls !! from_idx = Some t).
  { rewrite Hls, tasks_of_app, tasks_of_task, <- Hk. by apply list_lookup_middle. }
  split; [by apply lookup_lt_Some in Hlt|]. rewrite (move_item_insert _ _ _ _ Hlt), <- Ht, <- Ho.
  pose proof (insert_line_spec (delete i ls) (Some to_idx) t) as Hins. unfold lines_with_task in Hins.
  cbn [mbind option_bind default from_option] in Hins. unfold Datatypes.id in Hins.
  destruct (task_line_numbers (delete i ls) !! to_idx) as [j|]; cbn [default from_option]; [done|].
  replace (insert_line (length (delete i ls)) (task_line t) (delete i ls))
    with (delete i ls ++ [task_line t]); [done|].
  symmetry. apply (insert_at_end (length (delete i ls))). done.
Qed.

(** ** The file of a store *)

(** Rewriting a file leaves every path a file, a directory or free, as it was. *)
Lemma put_file_shape p c c' ro ro' s q :
  get p s = Some (File c ro) ->
  is_dir q (put p (Some (File c' ro')) s) = is_dir q s
  /\ exists_path q (put p (Some (File c' ro')) s) = exists_path q s.
Proof.
  unfold is_dir, exists_path. revert s q. induction p as [|x p IH]; intros s q.
  { intros [= ->]. destruct q; [done|by cbn]. }
  destruct s as [|es]; [done|]. cbn [get]. destruct (es !! x) as [s'|] eqn:Hx; [|done].
  cbn [mbind option_bind]. intros Hp.
  assert (Hq : forall y q', q = y :: q' -> get q (put (x :: p) (Some (File c' ro')) (Dir es))
             = if decide (y = x) then get q' (put p (Some (File c' ro')) s') else get q (Dir es)).
  { intros y q' ->. destruct p as [|z p].
    - cbn in Hp. injection Hp as ->. cbn. destruct (decide (y = x)) as [->|Hne].
      + by rewrite lookup_partial_alter_eq.
      + by rewrite lookup_partial_alter_ne.
    - rewrite put_cons by done. cbn [get]. destruct (decide (y = x)) as [->|Hne].
      + by rewrite lookup_alter_eq, Hx.
      + by rewrite lookup_alter_ne. }
  destruct q as [|y q].
  - destruct p as [|z p]; [done|]. by rewrite put_cons.
  - rewrite (Hq y q eq_refl). destruct (decide (y = x)) as [->|Hne]; [|done].
    cbn [get]. rewrite Hx. by apply IH.
Qed.

(** The board directory has its four stores, and the status is a Markdown one. *)
Definition markdown_board (board_dir : path) (status : TaskStatus) s : Prop :=
  is_dir board_dir s = true
  /\ (forall st, is_dir (board_dir ++ [Status.as_str st]) s
                 || exists_path (board_dir ++ [Status.filename st]) s = true)
  /\ is_dir (board_dir ++ [Status.as_str status]) s = false.

Definition store_file (board_dir : path) (status : TaskStatus) : path :=
  board_dir ++ [Status.filename status].

Lemma for_each_noop {A} (f : A -> io unit) (l : list A) s :
  (forall x, f x s = (Ok tt, s)) -> for_each f l s = (Ok tt, s).
Proof. intros H. induction l as [|x l IH]; [done|]. cbn. unfold bind. by rewrite H. Qed.

Lemma get_markdown_store board_dir status s :
  markdown_board board_dir status s ->
  get_status_store board_dir status s = (Ok (MarkdownFile (store_file board_dir status)), s).
Proof.
  intros (Hb & Hst & Hd). unfold get_status_store, ensure_board_store, bind.
  assert (Hc : create_dir_all board_dir s = (Ok tt, s)).
  { unfold is_dir in Hb. destruct (get board_dir s) as [[|es]|] eqn:Hg; [done| |done].
    by apply (create_dir_all_dir board_dir es). }
  rewrite Hc. unfold look at 1. rewrite for_each_noop.
  - unfold look, ret. by rewrite Hd.
  - intros st. unfold ensure_status_store, bind, look. by rewrite Hst.
Qed.

Lemma markdown_board_put board_dir status s p c c' ro ro' :
  get p s = Some (File c ro) -> markdown_board board_dir status s ->
  markdown_board board_dir status (put p (Some (File c' ro')) s).
Proof.
  intros Hp (Hb & Hst & Hd). unfold markdown_board.
  setoid_rewrite (fun q => proj1 (put_file_shape p c c' ro ro' s q Hp)).
  setoid_rewrite (fun q => proj2 (put_file_shape p c c' ro ro' s q Hp)). done.
Qed.

(** The file reads back as it is written: no line ends in a carriage return, and
    it is not one blank line. *)
Definition file_ok c : Prop := Forall line_ok (lines c) /\ other_lines (lines c) <> [[]].

Lemma not_one_blank ls : other_lines ls <> [[]] -> ls <> [[]].
Proof. by intros H ->. Qed.

Lemma write_lines_spec p c ls s :
  get p s = Some (File c false) -> Forall line_ok ls -> other_lines ls <> [[]] ->
  exists c', write_lines p ls s = (Ok tt, put p (Some (File c' false)) s) /\ lines c' = ls.
Proof.
  intros Hp Hls Ho. exists (lines_content ls). split.
  - unfold write_lines, replace_file_atomically. by rewrite Hp.
  - rewrite lines_content_unlines by by apply not_one_blank. by apply lines_unlines.
Qed.

Lemma entries_sources c :
  source <$> omap markdown_entry (imap pair (lines c))
  = (fun i => MarkdownLine (N.of_nat i)) <$> task_line_numbers (lines c).
Proof.
  unfold task_line_numbers. induction (imap pair (lines c)) as [|[i l] ils IH]; [done|].
  cbn [omap list_omap]. unfold markdown_entry at 1, is_task_line at 1, starts_with. cbn [snd].
  destruct (strip_prefix (str "- ") l) as [t|]; [|done]. cbn [mbind option_bind].
  rewrite bool_decide_false by done. cbn [negb fst]. rewrite !fmap_cons, IH. f_equal.
  unfold task_entry_from_text.
  by match goal with |- context [split_description_metadata ?x] => destruct (split_description_metadata x) end.
Qed.

(** Rewriting a task's line keeps the others. *)
Lemma insert_replaces ls i t t' :
  ls !! i = Some (task_line t) -> other_lines (<[i := task_line t']> ls) = other_lines ls.
Proof.
  intros Hi. pose proof (lookup_lt_Some _ _ _ Hi). rewrite insert_take_drop by done.
  rewrite <- (take_drop_middle _ _ _ Hi) at 3.
  by rewrite !other_lines_app, !other_lines_task.
Qed.

Section Ops.
Context (U : UnicodeCase).

(** What the code does to a Markdown store. *)
Definition run_markdown_op (board_dir : path) (status : TaskStatus) (op : store_op) : io unit :=
  let p := store_file board_dir status in
  match op with
  | InsertTask index content => insert_content_into_markdown p index content
  | MoveTask from_idx to_idx => reorder_markdown_task p from_idx to_idx
  | RemoveTask index =>
      do! entries := read_markdown_entries p in
      match entries !! index with
      | Some entry => remove_task_entry U board_dir status entry
      | None => fail IndexOutOfRange
      end
  end.

Lemma Forall_sub {A} (P : A -> Prop) (l k : list A) : k ⊆ l -> Forall P l -> Forall P k.
Proof. intros Hk Hl. rewrite Forall_forall in *. auto. Qed.

Lemma lines_with_task_ok index t ls :
  line_ok (task_line t) -> Forall line_ok ls -> Forall line_ok (lines_with_task index (task_line t) ls).
Proof.
  intros Ht Hls. unfold lines_with_task. destruct (_ ≫= _) as [i|].
  - apply Forall_app. split; [by apply Forall_take|]. constructor; [done|by apply Forall_drop].
  - apply Forall_app. split; [done|by constructor].
Qed.

Lemma move_task_line_ok from_idx to_idx ls ls' :
  move_task_line from_idx to_idx ls = Some ls' -> Forall line_ok ls -> Forall line_ok ls'.
Proof.
  unfold move_task_line. destruct (task_line_numbers ls !! from_idx) as [i|]; [|done]. cbn [mbind option_bind].
  destruct (ls !! i) as [l|] eqn:Hl; [|done]. cbn [mbind option_bind]. intros [= <-] Hls.
  pose proof (Forall_delete line_ok ls i Hls) as Hd. unfold insert_line. apply Forall_app.
  split; [by apply Forall_take|]. constructor; [exact (Forall_lookup_1 _ _ _ _ Hls Hl)|by apply Forall_drop].
Qed.

Lemma markdown_op_refines board_dir status op c s :
  markdown_board board_dir status s ->
  get (store_file board_dir status) s = Some (File c false) -> file_ok c ->
  match spec_store_op single_line_content op (tasks_of (lines c)) with
  | Some ts => exists c',
      run_markdown_op board_dir status op s
        = (Ok tt, put (store_file board_dir status) (Some (File c' false)) s)
      /\ tasks_of (lines c') = ts /\ other_lines (lines c') = other_lines (lines c) /\ file_ok c'
  | None => run_markdown_op board_dir status op s = (Err IndexOutOfRange, s)
  end.
Proof.
  intros Hb Hp [Hok Hother]. set (p := store_file board_dir status) in *.
  assert (Hread : read_to_string p s = (Ok c, s)) by (unfold read_to_string; by rewrite Hp).
  assert (Hw : forall ls, Forall line_ok ls -> other_lines ls = other_lines (lines c) ->
    exists c', write_lines p ls s = (Ok tt, put p (Some (File c' false)) s) /\ lines c' = ls /\ file_ok c').
  { intros ls Hls Ho. destruct (write_lines_spec p c ls s) as (c' & Hr & Hl); [done|done|by rewrite Ho|].
    exists c'. split_and!; [done|done|]. split; rewrite Hl; [done|]. by rewrite Ho. }
  destruct op as [index content|from_idx to_idx|index]; cbn [spec_store_op run_markdown_op]; fold p.
  - destruct (insert_line_spec (lines c) index (single_line_content content)) as [Ht Ho].
    destruct (Hw (lines_with_task index (task_line (single_line_content content)) (lines c)))
      as (c' & Hr & Hl & Hok').
    { apply lines_with_task_ok; [apply task_line_ok|done]. } { done. }
    exists c'. rewrite Hl. split_and!; [|done|done|done].
    unfold insert_content_into_markdown, bind. by rewrite Hread.
  - pose proof (move_line_spec (lines c) from_idx to_idx) as Hm.
    unfold reorder_markdown_task, bind. rewrite Hread.
    destruct (move_task_line from_idx to_idx (lines c)) as [ls|] eqn:Hmove.
    + destruct Hm as (Hlt & Ht & Ho). destruct (Nat.leb_spec (length (tasks_of (lines c))) from_idx); [lia|].
      destruct (Hw ls) as (c' & Hr & Hl & Hok'); [by eapply move_task_line_ok|done|].
      exists c'. rewrite Hl. done.
    + destruct (Nat.leb_spec (length (tasks_of (lines c))) from_idx); [done|lia].
  - unfold bind, read_markdown_entries, bind, ret. rewrite Hread.
    pose proof (entries_sources c) as Hsrc. apply (f_equal (.!! index)) in Hsrc.
    rewrite !list_lookup_fmap in Hsrc.
    destruct (omap markdown_entry (imap pair (lines c)) !! index) as [entry|] eqn:He.
    + destruct (task_line_numbers (lines c) !! index) as [i|] eqn:Hi; [|done].
      cbn in Hsrc. injection Hsrc as Hsrc. destruct (delete_line_spec _ _ _ Hi) as (Hlt & Ht & Ho).
      pose proof (task_line_number_split _ _ _ Hi) as (before & t & after & Hls & _ & Hk).
      destruct (Nat.leb_spec (length (tasks_of (lines c))) index) as [Hle|_].
      { rewrite Hls, tasks_of_app, tasks_of_task, length_app in Hle. cbn in Hle. lia. }
      destruct (Hw (delete i (lines c))) as (c' & Hr & Hl & Hok'); [by apply Forall_delete|done|].
      exists c'. rewrite Hl. split_and!; [|done|done|done].
      unfold remove_task_entry. rewrite Hsrc. unfold remove_markdown_line, bind.
      rewrite (get_markdown_store board_dir status s Hb). fold p. rewrite Hread.
      destruct (N.leb_spec (N.of_nat (length (lines c))) (N.of_nat i)); [lia|]. by rewrite Nat2N.id.
    + destruct (task_line_numbers (lines c) !! index) as [i|] eqn:Hi; [done|].
      apply task_line_number_none in Hi.
      by destruct (Nat.leb_spec (length (tasks_of (lines c))) index); [|lia].
Qed.

Lemma markdown_ops_refine board_dir status ops c s :
  markdown_board board_dir status s ->
  get (store_file board_dir status) s = Some (File c false) -> file_ok c ->
  let spec := spec_store_ops single_line_content ops (tasks_of (lines c)) in
  exists c',
    run_ops (run_markdown_op board_dir status) ops s
      = (spec.1, put (store_file board_dir status) (Some (File c' false)) s)
    /\ tasks_of (lines c') = spec.2 /\ other_lines (lines c') = other_lines (lines c).
Proof.
  revert c s. induction ops as [|op ops IH]; intros c s Hb Hp Hok.
  { exists c. cbn. by rewrite put_get. }
  cbn [run_ops spec_store_ops].
  pose proof (markdown_op_refines board_dir status op c s Hb Hp Hok) as Hop.
  destruct (spec_store_op single_line_content op (tasks_of (lines c))) as [ts|].
  - destruct Hop as (c1 & Hr & Ht & Ho & Hok1). rewrite Hr.
    destruct (IH c1 (put (store_file board_dir status) (Some (File c1 false)) s)) as (c2 & Hr2 & Ht2 & Ho2).
    { by eapply markdown_board_put. } { by eapply get_put_same. } { done. }
    exists c2. rewrite Hr2, Ht in *. destruct (spec_store_ops single_line_content ops ts) as [rs l].
    split_and!; [|done|by rewrite Ho2]. cbn [fst]. by erewrite put_put.
  - rewrite Hop. destruct (IH c s Hb Hp Hok) as (c2 & Hr2 & Ht2 & Ho2). exists c2. rewrite Hr2.
    by destruct (spec_store_ops single_line_content ops (tasks_of (lines c))) as [rs l].
Qed.
End Ops.
