(* ===== verification/BoardManaged.v ===== *)
(** Completions that reorder nothing: the descending front rank sorts a task
    before every other of its store. *)
From S2P Require Import Prelude Text TextLemmas.
From S2P Require Import TextLemmas Markers TaskNotes Metadata TaskEntry.
From S2P Require Import Files Board BoardOrder BoardRewrite BoardStore.

Implicit Types (dir : path) (s : node) (es : gmap text node) (n x : text) (ns : list text).

(** ** Ranks *)

(** The prefix of a rank. *)
Definition front_prefix (r : N) : text := str "0000-" ++ zero_padded 20 r ++ str "-".

Lemma u64_digits r : (r <= u64_max)%N -> (r < 10 ^ N.of_nat 20)%N.
Proof. unfold u64_max. change (10 ^ N.of_nat 20)%N with 100000000000000000000%N. lia. Qed.

Lemma parse_unsigned_parsed (bound r : N) (ds : text) :
  digits ds -> ds <> [] -> parse_digits 0 ds = Some r -> (r <= bound)%N ->
  parse_unsigned bound ds = Some r.
Proof.
  intros Hd Hne Hp Hr. unfold parse_unsigned. destruct ds as [|c t]; [done|].
  assert (Hc : c <> 43%N) by (apply Forall_inv in Hd; by intros ->).
  assert (unsigned_digits (c :: t) = c :: t) as ->.
  { unfold unsigned_digits. destruct t; [done|]. by destruct (N.eqb_spec c 43). }
  rewrite Hp. by destruct (N.leb_spec r bound); [|lia].
Qed.

Lemma front_rank_ranked r (ds n : text) :
  digits ds -> length ds = 20 -> parse_digits 0 ds = Some r -> (r <= u64_max)%N -> n <> [] ->
  front_order_rank (str "0000-" ++ ds ++ 45%N :: n) = Some r.
Proof.
  intros Hd Hz Hp Hr Hn. unfold front_order_rank.
  assert ((26 <? utf8_len (str "0000-" ++ ds ++ 45%N :: n))%Z = true) as ->.
  { apply Z.ltb_lt. eapply Z.lt_le_trans; [|apply utf8_len_nonneg]. rewrite !length_app, Hz.
    change (length (str "0000-")) with 5. destruct n; [done|]. cbn [length]. lia. }
  assert (starts_with (str "0000-") (str "0000-" ++ ds ++ 45%N :: n) = true) as ->.
  { apply starts_with_spec. by eexists. }
  assert (Hs : slice 5 25 (str "0000-" ++ ds ++ 45%N :: n) = ds).
  { change (take 20 (ds ++ 45%N :: n) = ds). by apply take_app_length'. }
  rewrite Hs. assert (forallb is_ascii_digit ds = true) as ->.
  { by apply forallb_elem_of, Forall_forall. }
  assert (H25 : (ds ++ 45%N :: n) !! 20 = Some 45%N).
  { rewrite lookup_app_r by lia. by rewrite Hz. }
  rewrite bool_decide_true by exact H25. cbn [andb].
  apply parse_unsigned_parsed; try done. by destruct ds.
Qed.

Lemma front_prefix_eq r n :
  front_prefix r ++ n = str "0000-" ++ zero_padded 20 r ++ 45%N :: n.
Proof. unfold front_prefix. by rewrite <- !(assoc_L (++)). Qed.

Lemma front_rank_prefixed r n :
  (r <= u64_max)%N -> n <> [] -> front_order_rank (front_prefix r ++ n) = Some r.
Proof.
  intros Hr Hn. rewrite front_prefix_eq. apply front_rank_ranked; try done.
  - apply zero_padded_digits.
  - apply zero_padded_length; [lia|by apply u64_digits].
  - apply parse_zero_padded.
Qed.

(** A ranked name is its prefix and a rest that is not empty. *)
Lemma front_rank_some n r :
  front_order_rank n = Some r ->
  (r <= u64_max)%N /\ exists (ds rest : text), digits ds /\ length ds = 20 /\ rest <> [] /\
    n = str "0000-" ++ ds ++ 45%N :: rest /\ parse_digits 0 ds = Some r.
Proof.
  unfold front_order_rank. destruct (26 <? utf8_len n)%Z eqn:Hl; [|done]. cbn [andb].
  destruct (starts_with (str "0000-") n) eqn:Hs; [|done]. cbn [andb].
  destruct (forallb is_ascii_digit (slice 5 25 n)) eqn:Hd; [|done]. cbn [andb].
  destruct (bool_decide_reflect (n !! 25 = Some 45%N)) as [H25|]; [|done]. intros Hr.
  apply starts_with_spec in Hs as [q ->].
  assert (H20 : (q : list N) !! 20 = Some 45%N) by exact H25.
  change (forallb is_ascii_digit (take 20 q) = true) in Hd.
  change (parse_unsigned u64_max (take 20 q) = Some r) in Hr.
  assert (Hdig : digits (take 20 q)) by (apply Forall_forall; by apply forallb_elem_of).
  assert (Hlen : length (take 20 q) = 20).
  { rewrite length_take. apply lookup_lt_Some in H20. lia. }
  assert (Hp : parse_digits 0 (take 20 q) = Some r /\ (r <= u64_max)%N).
  { unfold parse_unsigned, unsigned_digits in Hr. destruct (take 20 q) as [|c [|d t]]; [done|done|].
    assert (c <> 43%N) by (apply Forall_inv in Hdig; by intros ->).
    destruct (N.eqb_spec c 43); [done|]. destruct (parse_digits 0 (c :: d :: t)) as [m|]; [|done].
    destruct (N.leb_spec m u64_max); [|done]. by injection Hr as ->. }
  destruct Hp as [Hp Hu]. split; [done|]. exists (take 20 q), (drop 21 q). split_and!; [done|done| | |done].
  - apply Z.ltb_lt in Hl. intros Hnil. rewrite <- (take_drop 21 q), Hnil, app_nil_r in Hl.
    rewrite (take_S_r q 20 45%N H20) in Hl. rewrite utf8_len_ascii in Hl.
    + rewrite !length_app, Hlen in Hl. change (length (str "0000-")) with 5 in Hl. cbn [length] in Hl. lia.
    + apply Forall_app. split; [by repeat constructor|]. apply Forall_app. split; [|by repeat constructor].
      by apply forallb_digits_ascii.
  - f_equal. rewrite <- (take_drop 21 q) at 1. rewrite (take_S_r q 20 45%N H20).
    by rewrite <- (assoc_L (++)).
Qed.

(** ** Lowercase names *)

(** What the tables of Unicode say of the characters ranks are made of. *)
Record tables_ok (U : UnicodeCase) : Prop := {
  lowercase_nonempty : forall c, (128 <= c)%N -> lowercase_other U c <> [];
  lowercase_not_rank : forall c d, (128 <= c)%N -> head (lowercase_other U c) = Some d ->
    is_ascii_digit d = false /\ d <> 45%N;
}.

Definition rank_char (c : N) : Prop := is_ascii_digit c = true \/ c = 45%N.

Section Managed.
Context (U : UnicodeCase) (HU : tables_ok U).

Notation names := (names U).

Lemma lowercase_from_ne b n : n <> [] -> lowercase_from U b n <> [].
Proof.
  destruct n as [|c n]; [done|]. intros _ H. cbn [lowercase_from] in H. apply app_eq_nil in H as [H _].
  destruct (c =? 931)%N; [done|]. destruct (N.ltb_spec c 128); [done|].
  by apply (lowercase_nonempty U HU c).
Qed.

Lemma lowercase_rank_char b n d rest :
  rank_char d -> lowercase_from U b n = d :: rest ->
  exists n', n = d :: n' /\ rest = lowercase_from U (d :: b) n'.
Proof.
  intros Hd H. destruct n as [|c n]; [done|]. cbn [lowercase_from] in H.
  assert (Hsmall : (d < 58)%N).
  { destruct Hd as [Hd| ->]; [|done]. unfold is_ascii_digit in Hd. apply andb_true_iff in Hd as [_ Hd].
    apply N.leb_le in Hd. lia. }
  destruct (N.eqb_spec c 931) as [->|Hc].
  { injection H as Hs _. unfold map_uppercase_sigma in Hs. destruct (_ && _); subst d; lia. }
  destruct (N.ltb_spec c 128) as [Hc'|Hc'].
  - injection H as Hcd Hr. unfold ascii_lowercase_char in Hcd. destruct (is_ascii_uppercase c) eqn:Hu.
    + unfold is_ascii_uppercase in Hu. apply andb_true_iff in Hu as [Hu _]. apply N.leb_le in Hu. lia.
    + subst c. by exists n.
  - destruct (lowercase_other U c) as [|e t] eqn:He; [by destruct (lowercase_nonempty U HU c)|].
    injection H as -> _. destruct (lowercase_not_rank U HU c d) as [H1 H2]; [done|by rewrite He|].
    destruct Hd as [Hd|Hd]; congruence.
Qed.

Lemma lowercase_rank_prefix (p : text) b n rest :
  Forall rank_char p -> lowercase_from U b n = p ++ rest ->
  exists b' n', n = p ++ n' /\ rest = lowercase_from U b' n'.
Proof.
  intros Hp. revert b n. induction Hp as [|d p Hd Hp IH]; intros b n H; [by exists b, n|].
  apply lowercase_rank_char in H as (n' & -> & H); [|done]. symmetry in H.
  destruct (IH _ _ H) as (b' & n'' & -> & ->). by exists b', n''.
Qed.

Lemma digits_rank (ds : text) : digits ds -> Forall rank_char ds.
Proof. intros H. eapply Forall_impl; [exact H|]. intros c Hc. by left. Qed.

Lemma rank_prefix_chars (ds : text) : digits ds -> Forall rank_char (str "0000-" ++ ds ++ [45%N]).
Proof.
  intros H. apply Forall_app. split.
  - repeat constructor; by (left + right).
  - apply Forall_app. split; [by apply digits_rank|]. constructor; [by right|constructor].
Qed.

(** The rank a name sorts by is its own. *)
Lemma lowercase_rank n r :
  front_order_rank (to_lowercase U n) = Some r -> front_order_rank n = Some r.
Proof.
  intros H. apply front_rank_some in H as (Hr & ds & rest & Hd & Hl & Hne & Heq & Hp).
  assert (Heq' : lowercase_from U [] n = (str "0000-" ++ ds ++ [45%N]) ++ rest).
  { rewrite <- !(assoc_L (++)). exact Heq. }
  apply lowercase_rank_prefix in Heq' as (b & n' & -> & ->); [|by apply rank_prefix_chars].
  rewrite <- !(assoc_L (++)). apply front_rank_ranked; try done. by intros ->.
Qed.

Lemma lowercase_front_prefix r n :
  n <> [] -> exists m, m <> [] /\ to_lowercase U (front_prefix r ++ n) = front_prefix r ++ m.
Proof.
  intros Hn. destruct (lowercase_from_plain U [] (front_prefix r) n) as [b Hb].
  { unfold front_prefix. apply Forall_app. split; [by repeat constructor|].
    apply Forall_app. split; [apply digits_plain, zero_padded_digits|by repeat constructor]. }
  exists (lowercase_from U b n). split; [by apply lowercase_from_ne|exact Hb].
Qed.

Lemma text_le_prefix (p a b : text) : text_le (p ++ a) (p ++ b) = text_le a b.
Proof.
  induction p as [|c p IH]; [done|]. cbn. rewrite IH. destruct (N.ltb_spec c c); [lia|].
  by rewrite N.eqb_refl.
Qed.

(** A rank smaller than a name's rank sorts before it. *)
Lemma front_before r n x :
  (r <= u64_max)%N -> n <> [] -> (forall rx, front_order_rank x = Some rx -> (r < rx)%N) ->
  name_before U (front_prefix r ++ n) x /\ ~ name_before U x (front_prefix r ++ n).
Proof.
  intros Hr Hn Hx. unfold name_before, order_key.
  destruct (lowercase_front_prefix r n Hn) as (m & Hm & ->). rewrite front_rank_prefixed by done.
  rewrite bool_decide_false by done. destruct (front_order_rank (to_lowercase U x)) as [rx|] eqn:Hrx.
  - specialize (Hx rx (lowercase_rank x rx Hrx)). rewrite bool_decide_false by done.
    apply front_rank_some in Hrx as (Hb & ds & rest & Hd & Hl & Hne & -> & Hp). unfold key_le. cbn [fst snd].
    rewrite front_prefix_eq, !text_le_prefix.
    destruct (text_le_digits (zero_padded 20 r) ds r rx 0 (45%N :: m) (45%N :: rest)) as [-> ->].
    + apply zero_padded_digits.
    + done.
    + rewrite Hl. apply zero_padded_length; [lia|by apply u64_digits].
    + apply parse_zero_padded.
    + done.
    + done.
    + done.
  - rewrite bool_decide_true by done. done.
Qed.

(** ** The operation *)

Definition store_rank es : N := default u64_max (min_rank (omap front_order_rank (names es))).

Lemma foldl_min_le (rs : list N) m : (foldl N.min m rs <= m)%N /\ forall r, r ∈ rs -> (foldl N.min m rs <= r)%N.
Proof.
  revert m. induction rs as [|r rs IH]; intros m; cbn [foldl].
  { split; [lia|]. intros r Hr. by apply elem_of_nil in Hr. }
  destruct (IH (N.min m r)) as [H1 H2]. split; [lia|].
  intros r' [->|Hr']%elem_of_cons; [lia|by apply H2].
Qed.

Lemma store_rank_le es x r : x ∈ names es -> front_order_rank x = Some r -> (store_rank es <= r)%N.
Proof.
  intros Hx Hr. assert (Hin : r ∈ omap front_order_rank (names es)).
  { apply list_elem_of_omap. by exists x. }
  unfold store_rank. destruct (omap front_order_rank (names es)) as [|r0 rs]; [by apply elem_of_nil in Hin|].
  cbn. unfold Datatypes.id. destruct (foldl_min_le rs r0) as [H1 H2].
  apply elem_of_cons in Hin as [->|Hin]; [done|by apply H2].
Qed.

Lemma store_rank_max es : (store_rank es <= u64_max)%N.
Proof.
  unfold store_rank. destruct (omap front_order_rank (names es)) as [|r0 rs] eqn:Hr; [done|].
  assert (Hin : r0 ∈ omap front_order_rank (names es)) by (rewrite Hr; by left).
  apply list_elem_of_omap in Hin as (x & _ & Hx). apply front_rank_some in Hx as [Hx _].
  cbn. unfold Datatypes.id. destruct (foldl_min_le rs r0) as [H1 _]. lia.
Qed.

(** The name a managed completion gets. *)
Definition front_name es n : text := front_prefix (store_rank es - 1) ++ n.

Lemma in_dir_ranks dir ns :
  omap (fun p => file_name p ≫= front_order_rank) (in_dir dir ns) = omap front_order_rank ns.
Proof.
  unfold in_dir. induction ns as [|n ns IH]; [done|]. cbn [fmap list_fmap omap list_omap].
  rewrite file_name_snoc. cbn [mbind option_bind]. by rewrite IH.
Qed.

Lemma task_name_prepended dir es s n :
  get dir s = Some (Dir es) ->
  task_name_without_reordering U dir n true s =
  (if (store_rank es =? 0)%N then Err NoRoomToPrepend else Ok (front_name es n), s).
Proof.
  intros Hd. unfold task_name_without_reordering, bind.
  rewrite (directory_task_paths_dir U dir es s Hd). cbn [negb]. rewrite in_dir_ranks.
  fold (store_rank es). destruct (N.eqb_spec (store_rank es) 0) as [->|Hne]; [done|].
  destruct (store_rank es) as [|r] eqn:Hr; [done|]. unfold front_name. rewrite Hr. unfold ret, front_prefix.
  by rewrite <- !(assoc_L (++)).
Qed.

Lemma front_name_before es n x :
  store_rank es <> 0%N -> n <> [] -> x ∈ names es ->
  name_before U (front_name es n) x /\ ~ name_before U x (front_name es n).
Proof.
  intros Hr Hn Hx. pose proof (store_rank_max es) as Hm. apply front_before; [lia|done|].
  intros rx Hrx. pose proof (store_rank_le es x rx Hx Hrx). lia.
Qed.

Lemma front_name_visible es n : visible (front_name es n) = true.
Proof.
  unfold front_name. rewrite front_prefix_eq. change (str "0000-" ++ zero_padded 20 (store_rank es - 1) ++ 45%N :: n)
    with (str "0000" ++ [45%N] ++ zero_padded 20 (store_rank es - 1) ++ 45%N :: n).
  by apply visible_digits; [repeat constructor|].
Qed.

Lemma front_name_free es n :
  store_rank es <> 0%N -> n <> [] -> es !! front_name es n = None.
Proof.
  intros Hr Hn. destruct (es !! front_name es n) as [v|] eqn:Hv; [|done]. exfalso.
  assert (Hin : front_name es n ∈ names es).
  { apply elem_of_names. split; [apply front_name_visible|by eexists]. }
  destruct (front_name_before es n (front_name es n) Hr Hn Hin) as [H1 H2]. done.
Qed.

(** No two names differ only in their case. *)
Definition distinct_names es : Prop :=
  forall a b, a ∈ names es -> b ∈ names es -> name_before U a b -> name_before U b a -> a = b.

Lemma names_sorted es : StronglySorted (name_before U) (names es).
Proof.
  apply Sorted_StronglySorted; [intros a b c; apply key_le_trans|].
  apply sort_by_sorted. intros a b. apply key_le_total.
Qed.

Lemma names_front es n v :
  store_rank es <> 0%N -> n <> [] -> distinct_names es ->
  names (<[front_name es n := v]> es) = front_name es n :: names es.
Proof.
  intros Hr Hn Hdist. pose proof (front_name_free es n Hr Hn) as Hfree.
  apply names_unique.
  - constructor; [|apply names_NoDup]. rewrite elem_of_names, Hfree. by intros [_ [? ?]].
  - intros x. rewrite elem_of_cons, elem_of_names. destruct (decide (x = front_name es n)) as [->|Hne].
    + rewrite lookup_insert_eq. split; [|by left]. intros _. split; [apply front_name_visible|by eexists].
    + rewrite lookup_insert_ne by done. naive_solver.
  - constructor; [apply names_sorted|]. apply Forall_forall. intros x Hx.
    by apply (front_name_before es n x Hr Hn).
  - intros a b [->|Ha]%elem_of_cons [->|Hb]%elem_of_cons Hab Hba; [done| | |by apply Hdist].
    + by destruct (front_name_before es n b Hr Hn Hb) as [_ []].
    + by destruct (front_name_before es n a Hr Hn Ha) as [_ []].
Qed.
End Managed.
