(* ===== verification/BoardProps.v ===== *)
(** What the task board promises: both kinds of store implement a list of tasks,
    a write based on a stale reading changes nothing, and a managed completion
    puts the task first without touching its neighbours. *)
From S2P Require Import Prelude Text TextLemmas.
From S2P Require Import TextLemmas Markers TaskNotes Metadata TaskEntry.
From S2P Require Import Files Board BoardOrder BoardRewrite BoardStore.
From S2P Require Import BoardMarkdown BoardManaged.

Implicit Types (s : node) (es : gmap text node).

(** ** Stores implement lists *)

(** C39: a folder-backed store implements a list of tasks. Normalising any
    directory succeeds and keeps its tasks in their order; from then on every
    sequence of insertions, moves and removals gives, operation by operation,
    the results the same operations give on a list (an index out of range is
    the only error), ends with the directory listing that list's tasks in that
    order with their own names and files, and leaves hidden entries and the rest
    of the tree as they were, as long as the prefixes of four digits suffice. *)
Theorem directory_store_implements_list (U : UnicodeCase) (dir : path) es s ops :
  get dir s = Some (Dir es) -> named es ->
  (N.of_nat (length (listing U es) + length ops) < 10000)%N ->
  let spec := spec_store_ops directory_task ops (listing U es) in
  exists es0 es',
    normalize_directory_order U dir s = (Ok tt, set_dir dir es0 s)
    /\ listing U es0 = listing U es
    /\ run_ops (run_store_op U dir) ops (set_dir dir es0 s) = (spec.1, set_dir dir es' s)
    /\ listing U es' = spec.2
    /\ (forall x, visible x = false -> es' !! x = es !! x).
Proof.
  intros Hd Hn Hs. destruct (normalize_spec U dir es s Hd Hn) as (es0 & Hr & Hl & Ho & Hh).
  { rewrite <- (listing_length U). lia. }
  destruct (store_ops_refine U dir ops es0 (set_dir dir es0 s)) as (es' & Hr' & Hl' & _ & Hh').
  { by eapply get_set_dir. } { done. } { by rewrite Hl. }
  rewrite Hl in *. exists es0, es'. split_and!; [done|done| |done|].
  - rewrite Hr'. by erewrite set_dir_set_dir.
  - intros x Hx. by rewrite Hh', Hh.
Qed.

Definition ascii_tables : UnicodeCase := mkUnicodeCase (fun c => [c]) (fun _ => false) (fun _ => false).

Definition sample_dir : gmap text node :=
  <[str "write docs.md" := File (str "Write docs") false]>
  (<[str "0007-fix.md" := File (str "Fix") false]>
  (<[str ".hidden" := File [] false]> ∅)).

Lemma directory_store_implements_list_witness :
  exists es0 es',
    normalize_directory_order ascii_tables [str "todo"] (Dir {[str "todo" := Dir sample_dir]})
    = (Ok tt, set_dir [str "todo"] es0 (Dir {[str "todo" := Dir sample_dir]}))
    /\ (listing ascii_tables es').*1 = [str "write docs.md"; str "ship.md"]
    /\ es' !! str ".hidden" = Some (File [] false).
Proof.
  destruct (directory_store_implements_list ascii_tables [str "todo"] sample_dir
              (Dir {[str "todo" := Dir sample_dir]})
              [InsertTask (Some 0) (str "Ship!"); MoveTask 0 5; RemoveTask 0; MoveTask 9 0])
    as (es0 & es' & Hr & _ & _ & Hl & Hh).
  - vm_compute. reflexivity.
  - vm_compute. reflexivity.
  - vm_compute. reflexivity.
  - exists es0, es'. split; [exact Hr|]. split.
    + rewrite Hl. vm_compute. reflexivity.
    + rewrite Hh by (vm_compute; reflexivity). vm_compute. reflexivity.
Defined.

(** C40: a Markdown store implements a list of tasks, the lines that start with a
    dash: every sequence of insertions, moves and removals gives the results the
    same operations give on a list, leaves the file with exactly that list's
    tasks in that order, each the single line its content becomes, and every
    other line of the file in its order. Only that file changes. It takes a board
    with its four stores and a file that can be written and reads back as it is
    written: no line ends in a carriage return, and the lines besides the tasks
    are not just one blank line, which a file without tasks would lose. *)
Theorem markdown_store_implements_list (U : UnicodeCase) (board_dir : path) status ops c s :
  markdown_board board_dir status s ->
  get (store_file board_dir status) s = Some (File c false) -> file_ok c ->
  let spec := spec_store_ops single_line_content ops (tasks_of (lines c)) in
  exists c',
    run_ops (run_markdown_op U board_dir status) ops s
      = (spec.1, put (store_file board_dir status) (Some (File c' false)) s)
    /\ tasks_of (lines c') = spec.2 /\ other_lines (lines c') = other_lines (lines c).
Proof. apply markdown_ops_refine. Qed.

Definition sample_todo : text :=
  unlines [str "# To Do Tasks"; str "- Fix the build"; []; str "- Write docs"].

Definition sample_board : node :=
  Dir (list_to_map ((fun st => (Status.filename st,
    File (if decide (st = Todo) then sample_todo else Status.header st) false)) <$> Status.ALL)).

Lemma markdown_store_implements_list_witness :
  exists c',
    get [str "todo.md"] (run_ops (run_markdown_op ascii_tables [] Todo)
      [InsertTask (Some 1) (str "* Ship it"); MoveTask 0 2; RemoveTask 7] sample_board).2
      = Some (File c' false)
    /\ tasks_of (lines c') = [str "Ship it"; str "Write docs"; str "Fix the build"]
    /\ other_lines (lines c') = [str "# To Do Tasks"; []].
Proof.
  destruct (markdown_store_implements_list ascii_tables [] Todo
              [InsertTask (Some 1) (str "* Ship it"); MoveTask 0 2; RemoveTask 7]
              sample_todo sample_board) as (c' & Hr & Ht & Ho).
  - split; [reflexivity|]. split; [intros []; vm_compute; reflexivity|vm_compute; reflexivity].
  - vm_compute. reflexivity.
  - split; [|vm_compute; discriminate]. repeat constructor; by apply (bool_decide_unpack _).
  - exists c'. rewrite Hr, Ht, Ho. split; [|split; vm_compute; reflexivity].
    vm_compute. reflexivity.
Defined.

(** ** Stale readings *)

(** The file a task read from [p] is rewritten in. *)
Definition rewrite_target (p : path) (dir : bool) s : path :=
  if dir then directory_task_detail_path p s else p.

(** rewriting a task that was read earlier is refused, and the tree is left
    as it was, unless the task is still stored as it was read: then the only
    change is the new text in the task's own line or file. A folder task whose
    text was its title gets its first detail file. *)
Theorem stale_task_write_refused (board_dir : path) status entry new_content c s :
  markdown_board board_dir status s ->
  get (store_file board_dir status) s = Some (File c false) -> file_ok c ->
  match write_task_entry_content board_dir status entry new_content s with
  | (Err _, s') => s' = s
  | (Ok tt, s') =>
      match source entry with
      | MarkdownLine i =>
          lines c !! N.to_nat i = Some (task_line (content entry))
          /\ exists c', s' = put (store_file board_dir status) (Some (File c' false)) s
             /\ lines c' = <[N.to_nat i := task_line (single_line_content new_content)]> (lines c)
      | PathSource p dir =>
          let target := rewrite_target p dir s in
          (get target s = Some (File (content entry) false)
           \/ get target s = None /\ dir = true /\ is_dir p s = true
              /\ trim_end (content entry) = title_from_path p)
          /\ s' = put target (Some (File (trim_end new_content ++ [10%N]) false)) s
      end
  end.
Proof.
  intros Hb Hp Hok. unfold write_task_entry_content. destruct (source entry) as [i|p dir].
  - unfold write_markdown_line, bind. rewrite (get_markdown_store board_dir status s Hb).
    fold (store_file board_dir status). unfold read_to_string. rewrite Hp.
    destruct (lines c !! N.to_nat i) as [l|] eqn:Hl; [|done].
    destruct (bool_decide_reflect (strip_prefix (str "- ") l = Some (content entry))) as [Hs|]; [|done].
    apply strip_prefix_spec in Hs as ->.
    destruct (write_lines_spec (store_file board_dir status) c
                (<[N.to_nat i := str "- " ++ single_line_content new_content]> (lines c)) s)
      as (c' & -> & Hc').
    + done.
    + apply Forall_insert; [apply Hok|apply task_line_ok].
    + intros H. pose proof (insert_replaces (lines c) _ _ (single_line_content new_content) Hl) as Ho.
      destruct Hok as [_ Hne]. apply Hne. rewrite <- Ho. exact H.
    + split; [done|]. by exists c'.
  - unfold bind, look. fold (rewrite_target p dir s). set (target := rewrite_target p dir s).
    unfold exists_path, read_to_string. destruct (get target s) as [[c0 ro|es]|] eqn:Ht.
    + rewrite Ht. destruct (bool_decide_reflect (c0 = content entry)) as [->|]; [|done].
      unfold replace_file_atomically. rewrite Ht. destruct ro; [done|]. split; [by left|done].
    + by rewrite Ht.
    + destruct (dir && is_dir p s && (trim_end (content entry) == title_from_path p)) eqn:Hg; [|done].
      bool_cases. unfold create_new_file, exists_path. rewrite Ht. cbn [orb].
      destruct (negb (is_dir (parent target) s)); [done|]. split; [by right|done].
Qed.

Lemma stale_task_write_refused_witness :
  (write_task_entry_content [] Todo
     (mkEntry (MarkdownLine 1) (str "Fix") (str "Fix") None false) (str "Fix it now") sample_board).2
  = sample_board.
Proof.
  pose proof (stale_task_write_refused [] Todo
                (mkEntry (MarkdownLine 1) (str "Fix") (str "Fix") None false)
                (str "Fix it now") sample_todo sample_board) as H.
  destruct (write_task_entry_content _ _ _ _ _) as [[[]|e] s'].
  - destruct H as [H _].
    + split; [reflexivity|]. split; [intros []; vm_compute; reflexivity|vm_compute; reflexivity].
    + vm_compute. reflexivity.
    + split; [|vm_compute; discriminate]. repeat constructor; by apply (bool_decide_unpack _).
    + vm_compute in H. discriminate H.
  - apply H.
    + split; [reflexivity|]. split; [intros []; vm_compute; reflexivity|vm_compute; reflexivity].
    + vm_compute. reflexivity.
    + split; [|vm_compute; discriminate]. repeat constructor; by apply (bool_decide_unpack _).
Defined.

(** ** Completions of managed Git tasks *)

Definition unrelated (p q : path) : Prop := ~ p `prefix_of` q /\ ~ q `prefix_of` p.

Lemma get_put_none p v s : p <> [] -> get p s = Some v -> get p (put p None s) = None.
Proof.
  revert s. induction p as [|x p IH]; intros s Hp; [done|]. destruct s as [|es]; [done|]. cbn [get].
  destruct (es !! x) as [s'|] eqn:Hx; [|done]. cbn [mbind option_bind]. intros Hg.
  destruct p as [|y p].
  - cbn. by rewrite lookup_partial_alter_eq.
  - rewrite put_cons by done. cbn [get]. rewrite lookup_alter_eq, Hx. by apply IH.
Qed.

(** completing a task without reordering moves its file or folder into the
    done store under a new name that sorts before every task there, whose order
    and names stay as they are; no other path of the tree changes, as a sealed
    manifest needs. The only failure is that no smaller rank is left, and then
    nothing is moved. *)
Theorem managed_completion_prepends (U : UnicodeCase) (p dest_dir : path) original es v s :
  tables_ok U -> get dest_dir s = Some (Dir es) -> distinct_names U es ->
  get p s = Some v -> file_name p = Some original -> original <> [] -> unrelated p dest_dir ->
  match move_path_into_directory_without_reordering U p dest_dir true s with
  | (Ok dest, s') =>
      exists x es',
        dest = dest_dir ++ [x] /\ es !! x = None /\ strip_order_prefix x = strip_order_prefix original
        /\ get p s' = None /\ get dest_dir s' = Some (Dir es')
        /\ names U es' = x :: names U es /\ es' = <[x := v]> es
        /\ forall q, unrelated p q -> unrelated dest_dir q -> get q s' = get q s
  | (Err e, s') => e = NoRoomToPrepend /\ store_rank U es = 0%N /\ s' = s
  end.
Proof.
  intros HU Hd Hdist Hp Hname Horig [Hpd Hdp].
  assert (Hn : strip_order_prefix original <> []) by by apply strip_order_prefix_ne.
  unfold move_path_into_directory_without_reordering, bind.
  rewrite (create_dir_all_dir dest_dir es s Hd), Hname. cbn [default from_option]. unfold Datatypes.id.
  rewrite (task_name_prepended U dest_dir es s _ Hd).
  destruct (N.eqb_spec (store_rank U es) 0) as [Hr|Hr]; [done|].
  set (n := strip_order_prefix original) in *.
  pose proof (front_name_free U HU es n Hr Hn) as Hfree. unfold look, unique_child_path, unique_child_name.
  rewrite (exists_entry dest_dir _ es s Hd), Hfree. set (x := front_name U es n) in *.
  assert (Hpx : ~ p `prefix_of` dest_dir ++ [x]).
  { intros [r Hr']. destruct r as [|c r] using rev_ind.
    - rewrite app_nil_r in Hr'. apply Hdp. exists [x]. done.
    - rewrite (assoc_L (++)) in Hr'. apply app_inj_tail in Hr' as [Hr' _]. apply Hpd. by exists r. }
  unfold rename. rewrite Hp.
  rewrite bool_decide_false by (intros Heq; apply Hpx; by rewrite Heq).
  rewrite bool_decide_false by done.
  assert (Hdest : get (dest_dir ++ [x]) s = None) by (rewrite get_snoc, Hd; done).
  unfold is_dir. rewrite parent_snoc, Hd, Hdest. cbn [is_dir_node may_replace andb].
  assert (Hd1 : get dest_dir (put p None s) = Some (Dir es)) by (rewrite get_put_other; done).
  rewrite (put_snoc dest_dir x _ es (put p None s) Hd1). unfold ret. exists x, (<[x := v]> es).
  split_and!; [done|done| | | |by apply names_front|done|].
  - unfold x, front_name, strip_order_prefix at 1. rewrite front_rank_prefixed.
    + rewrite bool_decide_false by done. cbn [negb]. unfold from. apply drop_app_length'.
      unfold front_prefix. rewrite !length_app, zero_padded_length; [done|lia|].
      pose proof (store_rank_max U es). apply u64_digits. lia.
    + pose proof (store_rank_max U es). lia.
    + done.
  - unfold set_dir. rewrite get_put_other by done. apply (get_put_none p v); [|done]. by intros ->.
  - by eapply get_set_dir.
  - intros q [Hpq Hqp] [Hdq Hqd]. unfold set_dir. by rewrite !get_put_other.
Qed.

Definition sample_done : gmap text node :=
  {[str "0000-00000000000000000007-new.md" := File (str "New") false]}.
Definition sample_git : node :=
  Dir {[str "doing" := Dir {[str "0002-ship.md" := File (str "Ship") false]};
        str "done" := Dir sample_done]}.

Lemma ascii_tables_ok : tables_ok ascii_tables.
Proof.
  split; [done|]. intros c d Hc [= <-]. unfold is_ascii_digit. destruct (N.leb_spec c 57); [lia|].
  split; [by rewrite andb_false_r|lia].
Qed.

Lemma sample_done_names : names ascii_tables sample_done = [str "0000-00000000000000000007-new.md"].
Proof. vm_compute. reflexivity. Qed.

Lemma managed_completion_prepends_witness :
  exists s' x es',
    move_path_into_directory_without_reordering ascii_tables [str "doing"; str "0002-ship.md"]
      [str "done"] true sample_git = (Ok [str "done"; x], s')
    /\ strip_order_prefix x = str "ship.md"
    /\ get [str "done"] s' = Some (Dir es')
    /\ names ascii_tables es' = [x; str "0000-00000000000000000007-new.md"].
Proof.
  pose proof (managed_completion_prepends ascii_tables [str "doing"; str "0002-ship.md"] [str "done"]
                (str "0002-ship.md") sample_done (File (str "Ship") false) sample_git) as H.
  specialize (H ascii_tables_ok).
  assert (Hg : get [str "done"] sample_git = Some (Dir sample_done)) by (vm_compute; reflexivity).
  assert (Hdist : distinct_names ascii_tables sample_done).
  { intros a b Ha Hb _ _. rewrite sample_done_names in Ha, Hb.
    apply list_elem_of_singleton in Ha, Hb. congruence. }
  assert (Hp : get [str "doing"; str "0002-ship.md"] sample_git = Some (File (str "Ship") false))
    by (vm_compute; reflexivity).
  assert (Hu : unrelated [str "doing"; str "0002-ship.md"] [str "done"]).
  { split; intros [r Hr]; discriminate Hr. }
  specialize (H Hg Hdist Hp eq_refl ltac:(discriminate) Hu).
  destruct (move_path_into_directory_without_reordering _ _ _ _ _) as [[dest|e] s'].
  - destruct H as (x & es' & -> & _ & Hx & _ & Hd & Hn & _). exists s', x, es'.
    split; [reflexivity|]. split; [rewrite Hx; vm_compute; reflexivity|]. split; [exact Hd|].
    rewrite Hn, sample_done_names. reflexivity.
  - destruct H as (_ & Hr & _). vm_compute in Hr. discriminate Hr.
Defined.
