(* ===== verification/Coordination.v ===== *)
(** Task admission (src/coordination.rs): the dependency graph a board's tasks
    form through their stable ids, the overlaps between their declared scopes
    and their prose, and what a task must wait for before it may start. *)
From S2P Require Import Prelude Text Markers TaskNotes Metadata TaskEntry.

Record Task := mkTask {
  t_board : path;
  t_status : TaskStatus;
  t_index : N;
  t_entry : TaskEntry;
  t_meta : Metadata;
  t_error : option metadata_error;
  t_completion_wait : option text;
  t_owner : text;
}.
#[export] Instance eta_Task : Eta Task :=
  fun t => mkTask (t_board t) (t_status t) (t_index t) (t_entry t) (t_meta t) (t_error t)
             (t_completion_wait t) (t_owner t).

Record Snapshot := mkSnapshot { tasks : list Task; changed_files : gset text }.

Definition task_id (t : Task) : text := id (t_meta t).

Definition task_label (t : Task) : text :=
  if task_id t == []
  then Status.as_str (t_status t) ++ str " #" ++ decimal (t_index t) ++ str " ("
         ++ task_display_text (t_entry t) ++ str ")"
  else task_id t ++ str " (" ++ task_display_text (t_entry t) ++ str ")".

Definition complete (t : Task) : bool := (t_status t == Done) && (t_completion_wait t == None).
Definition active (t : Task) : bool :=
  (t_status t == Doing) || ((t_status t == Done) && negb (complete t)).

Definition same_task (a b : Task) : bool :=
  (t_board a == t_board b) && (t_status a == t_status b) && (t_index a == t_index b).

Inductive coordination_error :=
| MissingPrerequisite (missing : text)
| DuplicateTaskId (duplicate : text)
| DependencyCycle (visited : list text) (repeated : text)
| IndexesStartAtOne
| TaskChanged
| ProvisionalTask
| CompletedTask
| DependsOnItself
| AssessmentWithoutReason
| AssessesItself
| BadMetadata (e : metadata_error).

(** ** The dependency graph *)

Definition selected (sn : Snapshot) (board : path) (status : TaskStatus) (index : N)
    : res coordination_error Task :=
  if (index =? 0)%N then Err IndexesStartAtOne
  else
    match List.find (fun t => (t_board t == board) && (t_status t == status) && (t_index t =? index)%N)
            (tasks sn) with
    | Some t => Ok t
    | None => Err TaskChanged
    end.

Definition has_id (i : text) (t : Task) : bool := (task_id t == i) && negb (i == []).

Definition referenced (sn : Snapshot) (i : text) : res coordination_error Task :=
  match List.filter (has_id i) (tasks sn) with
  | [] => Err (MissingPrerequisite i)
  | [t] => Ok t
  | _ => Err (DuplicateTaskId i)
  end.

(** The recursion of [visit] and [depends_on] is bounded by [fuel]; [None] is
    running out of it. [visited] is the code's [path], which every call returns
    as it found it; [done] is threaded. *)
Section Loop.
Context (visit_task : Task -> gset text -> option (res coordination_error (gset text))).
Context (sn : Snapshot).

Fixpoint visit_dependencies (ids : list text) (finished : gset text)
    : option (res coordination_error (gset text)) :=
  match ids with
  | [] => Some (Ok finished)
  | i :: ids' =>
      match referenced sn i with
      | Err e => Some (Err e)
      | Ok t =>
          match visit_task t finished with
          | Some (Ok finished') => visit_dependencies ids' finished'
          | r => r
          end
      end
  end.
End Loop.

Fixpoint visit (fuel : nat) (sn : Snapshot) (t : Task) (visited : list text)
    (finished : gset text) : option (res coordination_error (gset text)) :=
  match fuel with
  | O => None
  | S fuel' =>
      if task_id t == [] then
        visit_dependencies (fun u => visit fuel' sn u visited) sn (depends_on (t_meta t)) finished
      else
        match referenced sn (task_id t) with
        | Err e => Some (Err e)
        | Ok _ =>
            if bool_decide (task_id t ∈ visited)
            then Some (Err (DependencyCycle visited (task_id t)))
            else if bool_decide (task_id t ∈ finished) then Some (Ok finished)
            else
              match visit_dependencies (fun u => visit fuel' sn u (visited ++ [task_id t])) sn
                      (depends_on (t_meta t)) finished with
              | Some (Ok finished') => Some (Ok ({[task_id t]} ∪ finished'))
              | r => r
              end
        end
  end.

(** Every named task on the way has another id, and one more call reports a
    cycle. *)
Definition graph_fuel (sn : Snapshot) : nat := S (S (length (tasks sn))).

Definition visit_graph (sn : Snapshot) (t : Task) : option (res coordination_error (gset text)) :=
  visit (graph_fuel sn) sn t [] ∅.

Section Any.
Context (recurse : Task -> gset text -> option (bool * gset text)).
Context (sn : Snapshot) (i : text).

Fixpoint any_dependency (ids : list text) (seen : gset text) : option (bool * gset text) :=
  match ids with
  | [] => Some (false, seen)
  | dependency :: ids' =>
      if dependency == i then Some (true, seen)
      else if bool_decide (dependency ∈ seen) then any_dependency ids' seen
      else
        let seen := {[dependency]} ∪ seen in
        match referenced sn dependency with
        | Err _ => any_dependency ids' seen
        | Ok other =>
            match recurse other seen with
            | Some (true, seen') => Some (true, seen')
            | Some (false, seen') => any_dependency ids' seen'
            | None => None
            end
        end
  end.
End Any.

Fixpoint task_depends_on (fuel : nat) (sn : Snapshot) (i : text) (t : Task) (seen : gset text)
    : option (bool * gset text) :=
  match fuel with
  | O => None
  | S fuel' =>
      any_dependency (task_depends_on fuel' sn i) sn i (depends_on (t_meta t)) seen
  end.

Definition depends_on_id (sn : Snapshot) (t : Task) (i : text) : option bool :=
  fst <$> task_depends_on (graph_fuel sn) sn i t ∅.

(** ** Overlap *)

(** [trim_start_matches("./")]. *)
Fixpoint trim_start_dots (s : text) : text :=
  match s with
  | 46%N :: 47%N :: rest => trim_start_dots rest
  | _ => s
  end.

Definition normalized_path (a : text) : text := trim_start_dots (trim_end_matches (N.eqb 47) a).

Definition inside (a b : text) : bool :=
  match strip_prefix b a with
  | Some rest => starts_with_char (N.eqb 47) rest
  | None => false
  end.

Definition path_overlap (a b : text) : bool :=
  let a := normalized_path a in
  let b := normalized_path b in
  (a == b) || inside a b || inside b a.

Definition is_code_symbol (symbol : text) : bool :=
  (3 <? utf8_len symbol)%Z && negb (existsb is_whitespace symbol)
  && (contains (str "/") symbol || contains (str "::") symbol || contains (str "_") symbol
      || ends_with (str ".rs") symbol).

(** The pieces between back quotes. *)
Definition quoted_pieces (s : text) : list text :=
  omap (fun ip : nat * text => if Nat.odd ip.1 then Some ip.2 else None)
    (imap pair (split_char 96 s)).

Definition inferred_symbols (t : Task) : gset text :=
  list_to_set
    (List.filter is_code_symbol
       (trim <$> quoted_pieces (strip_coordination (content (t_entry t))))).

(** What a task waits for. The texts the code builds show these values. *)
Inductive wait :=
| WaitMetadata (e : metadata_error)
| WaitDependency (e : coordination_error)
| WaitUnfinished (other reason : text)
| BehaviorConflict (other key ours theirs : text)
| ReviewConflict (other reason : text)
| PotentialOverlap (other : text) (concerns : list text).

Definition behavior_conflict (t other : Task) : option wait :=
  let theirs := behavior (scope (t_meta other)) in
  head
    (omap
       (fun kv : text * text =>
          match theirs !! kv.1 with
          | Some v => if kv.2 =! v then Some (BehaviorConflict (task_label other) kv.1 kv.2 v)
                      else None
          | None => None
          end)
       (map_to_sorted (behavior (scope (t_meta t))))).

Section Evidence.
(** serde_json's rendering of the evidence and the name-based UUID of it. *)
Context (evidence_json : text -> option text -> Scope -> list text -> text).
Context (uuid_v5 : text -> text).

Definition evidence_of (t : Task) : text :=
  evidence_json (task_id t)
    (durable_task_identity (task_content_for_edit (content (t_entry t))))
    (scope (t_meta t)) (depends_on (t_meta t)).

Definition evidence (a b : Task) : text :=
  uuid_v5 (join [10%N] (sort_by text_le [evidence_of a; evidence_of b])).

Definition review_of (owner peer : Task) (stamp : text) : option Review :=
  if task_id peer == [] then None
  else List.find (fun r => (rv_other r == task_id peer) && (rv_evidence r == stamp))
         (reviews (t_meta owner)).

(** The first incompatible review of the two, or whether one is compatible. *)
Definition review_verdict (t other : Task) : (option wait) * bool :=
  let stamp := evidence t other in
  match review_of t other stamp, review_of other t stamp with
  | Some r, r' =>
      if negb (rv_compatible r) then (Some (ReviewConflict (task_label other) (rv_reason r)), false)
      else
        match r' with
        | Some r' =>
            if negb (rv_compatible r')
            then (Some (ReviewConflict (task_label other) (rv_reason r')), true)
            else (None, true)
        | None => (None, true)
        end
  | None, Some r' =>
      if negb (rv_compatible r')
      then (Some (ReviewConflict (task_label other) (rv_reason r')), false)
      else (None, true)
  | None, None => (None, false)
  end.

Definition shared_names (kind : text) (ours theirs : list text) : list text :=
  (fun shared => kind ++ str " " ++ shared)
    <$> List.filter (fun item => bool_decide (item ∈ theirs)) ours.

Definition shared_files (ours theirs : list text) (changed : gset text) : list text :=
  (fun file =>
     str "file " ++ file
       ++ (if existsb (path_overlap file) (elements changed) then str " (has current edits)"
           else []))
    <$> List.filter (fun file => existsb (path_overlap file) theirs) ours.

(** A declared scope that covers a symbol another task's prose names. *)
Definition scope_meets (s : Scope) (symbol : text) : bool :=
  existsb (fun file => path_overlap file symbol) (files s)
  || existsb (fun name => (name == symbol) || starts_with (name ++ str "::") symbol)
       (modules s ++ interfaces s ++ resources s).

Definition met_symbols (s : Scope) (named : gset text) : list text :=
  (fun symbol => str "declared scope meets requirement " ++ symbol)
    <$> List.filter (scope_meets s) (elements named).

Definition concerns (t other : Task) (changed : gset text) : gset text :=
  let s := scope (t_meta t) in
  let s' := scope (t_meta other) in
  let ours := inferred_symbols t in
  let theirs := inferred_symbols other in
  list_to_set
    (shared_names (str "module") (modules s) (modules s')
     ++ shared_names (str "interface") (interfaces s) (interfaces s')
     ++ shared_names (str "resource") (resources s) (resources s')
     ++ shared_files (files s) (files s') changed
     ++ ((fun symbol => str "requirements name " ++ symbol) <$> elements (ours ∩ theirs))
     ++ met_symbols s theirs ++ met_symbols s' ours).

Definition overlap (t other : Task) (changed : gset text) : option wait :=
  match behavior_conflict t other with
  | Some conflict => Some conflict
  | None =>
      let '(conflict, compatible) := review_verdict t other in
      match conflict with
      | Some conflict => Some conflict
      | None =>
          if compatible then None
          else
            let found := concerns t other changed in
            if bool_decide (found = ∅) then None
            else Some (PotentialOverlap (task_label other) (set_to_list found))
      end
  end.

(** ** Admission *)

Definition unfinished_wait (other : Task) : wait :=
  WaitUnfinished (task_label other)
    (default (str "prerequisite is unfinished") (t_completion_wait other)).

Definition dependency_waits (sn : Snapshot) (t : Task) : list wait :=
  omap
    (fun i =>
       match referenced sn i with
       | Ok other => if complete other then None else Some (unfinished_wait other)
       | Err _ => None
       end)
    (depends_on (t_meta t)).

(** An active task that waits for this one does not hold it back. *)
Definition yields_to (sn : Snapshot) (t other : Task) : bool :=
  negb (task_id t == []) && default false (depends_on_id sn other (task_id t)).

Definition overlap_waits (sn : Snapshot) (t : Task) : list wait :=
  omap
    (fun other =>
       if yields_to sn t other then None else overlap t other (changed_files sn))
    (List.filter (fun other => active other && negb (same_task t other)) (tasks sn)).

Definition waits (sn : Snapshot) (t : Task) : list wait :=
  if complete t then []
  else
    match t_error t with
    | Some e => [WaitMetadata e]
    | None =>
        match visit_graph sn t with
        | Some (Err e) => [WaitDependency e]
        | _ => dependency_waits sn t ++ overlap_waits sn t
        end
    end.

Definition ready (sn : Snapshot) (entry : TaskEntry) : bool :=
  task_entry_is_ready entry
  && match List.find
             (fun t => (source (t_entry t) == source entry) && (content (t_entry t) == content entry))
             (tasks sn) with
     | Some t => match waits sn t with [] => true | _ => false end
     | None => false
     end.

Definition session_waiting (sn : Snapshot) (session : text) : bool :=
  existsb (fun t => match waits sn t with [] => false | _ => true end)
    (List.filter
       (fun t => (t_status t =! Done)
                 && (recoverable_codex_session_id_from_task_content (content (t_entry t))
                     == Some session))
       (tasks sn)).

Definition ensure_admitted (sn : Snapshot) (board : path) (status : TaskStatus) (index : N)
    : res (coordination_error + list wait) unit :=
  match selected sn board status index with
  | Err e => Err (inl e)
  | Ok t => match waits sn t with [] => Ok tt | ws => Err (inr ws) end
  end.

(** [usize::MAX], the index of a task that is not on the board yet. *)
Definition usize_MAX : N := usize_max.

Definition new_manual_task (board : path) (stored : text) (meta : Metadata) : Task :=
  mkTask board Doing usize_MAX
    (task_entry_from_text (MarkdownLine usize_MAX) stored stored false)
    meta None None (str "CLI claimed").

Definition ensure_new_manual_admitted (sn : Snapshot) (board : path) (stored : text)
    (meta : Metadata) : res (list wait) unit :=
  let t := new_manual_task board stored meta in
  match waits (mkSnapshot (tasks sn ++ [t]) (changed_files sn)) t with
  | [] => Ok tt
  | ws => Err ws
  end.

(** ** Updating a task's metadata *)

Record Update := mkUpdate {
  up_depends_on : list text;
  up_remove_dependency : list text;
  up_scope : option Scope;
  up_review : option (text * bool * text);
}.

Fixpoint add_dependencies (sn : Snapshot) (ids : list text) (meta : Metadata)
    : res coordination_error Metadata :=
  match ids with
  | [] => Ok meta
  | i :: ids' =>
      if i == id meta then Err DependsOnItself
      else
        let? _ := referenced sn i in
        add_dependencies sn ids'
          (if bool_decide (i ∈ depends_on meta) then meta
           else mkMetadata (id meta) (depends_on meta ++ [i]) (scope meta) (reviews meta))
  end.

(** The task list with the selected task's metadata replaced. *)
Fixpoint replace_meta (selected : Task) (meta : Metadata) (ts : list Task) : list Task :=
  match ts with
  | [] => []
  | t :: ts' =>
      if same_task t selected
      then mkTask (t_board t) (t_status t) (t_index t) (t_entry t) meta (t_error t)
             (t_completion_wait t) (t_owner t) :: ts'
      else t :: replace_meta selected meta ts'
  end.

Definition assess (sn : Snapshot) (updated : Task) (meta : Metadata)
    (review : option (text * bool * text)) : res coordination_error Metadata :=
  match review with
  | None => Ok meta
  | Some (other, compatible, reason) =>
      if trim reason == [] then Err AssessmentWithoutReason
      else
        let? peer := referenced sn other in
        if same_task updated peer then Err AssessesItself
        else
          Ok (mkMetadata (id meta) (depends_on meta) (scope meta)
                (List.filter (fun r => rv_other r =! other) (reviews meta)
                 ++ [mkReview other (evidence updated peer) compatible reason]))
  end.

(** [update] between reading the snapshot and writing the task: [stored] is the
    metadata the selected task's content carries and [fresh] a new UUID. *)
Definition updated_metadata (sn : Snapshot) (chosen : Task) (status : TaskStatus)
    (stored : res metadata_error Metadata) (fresh : text) (u : Update)
    : res coordination_error Metadata :=
  if negb (t_completion_wait chosen == None) then Err ProvisionalTask
  else if (status == Done)
          && negb ((up_depends_on u == []) && (up_remove_dependency u == [])
                   && (match up_scope u with None => true | _ => false end)
                   && (up_review u == None)) then Err CompletedTask
  else
    match stored with
    | Err e => Err (BadMetadata e)
    | Ok meta =>
        let meta :=
          if id meta == [] then mkMetadata fresh (depends_on meta) (scope meta) (reviews meta)
          else meta in
        let? meta := add_dependencies sn (up_depends_on u) meta in
        let meta :=
          mkMetadata (id meta)
            (List.filter (fun i => negb (bool_decide (i ∈ up_remove_dependency u)))
               (depends_on meta))
            (default (scope meta) (up_scope u)) (reviews meta) in
        let sn := mkSnapshot (replace_meta chosen meta (tasks sn)) (changed_files sn) in
        let updated :=
          mkTask (t_board chosen) (t_status chosen) (t_index chosen) (t_entry chosen) meta
            (t_error chosen) (t_completion_wait chosen) (t_owner chosen) in
        match visit_graph sn updated with
        | Some (Err e) => Err e
        | _ => assess sn updated meta (up_review u)
        end
    end.
End Evidence.
