(* ===== verification/CoordGraph.v ===== *)
(** The dependency graph: the depth first search of src/coordination.rs against
    reachability; and the overlap of resources and paths. *)
From S2P Require Import Prelude Text TextLemmas Markers TaskNotes Metadata TaskEntry.
From S2P Require Import Coordination.

Section Graph.
Context (sn : Snapshot).

Definition resolves (i : text) (t : Task) : Prop := referenced sn i = Ok t.

(** The ids a task depends on, directly or through the tasks they name. *)
Inductive needs (t : Task) : text -> Prop :=
| needs_direct i : i ∈ depends_on (t_meta t) -> needs t i
| needs_through i u j : needs t i -> resolves i u -> j ∈ depends_on (t_meta u) -> needs t j.

(** An id from which every chain of dependencies is resolved and ends. *)
Inductive settled (i : text) : Prop :=
| settled_intro t :
    resolves i t -> (forall j, j ∈ depends_on (t_meta t) -> settled j) -> settled i.

Lemma resolves_id i t : resolves i t -> task_id t = i /\ i <> [] /\ t ∈ tasks sn.
Proof.
  unfold resolves, referenced. intros H.
  destruct (List.filter (has_id i) (tasks sn)) as [|u [|? ?]] eqn:Hf; simplify_eq.
  assert (Hin : In t (List.filter (has_id i) (tasks sn))) by (rewrite Hf; by left).
  apply filter_In in Hin as [Hin Hid]. unfold has_id in Hid. bool_cases.
  rewrite list_elem_of_In. done.
Qed.

Lemma resolves_unique i t u : resolves i t -> resolves i u -> t = u.
Proof. unfold resolves. congruence. Qed.

Lemma needs_from_dependency t i u j :
  i ∈ depends_on (t_meta t) -> resolves i u -> needs u j -> needs t j.
Proof.
  intros Hi Hu Hj. induction Hj as [j Hj|j v k _ IH Hv Hk].
  - eapply needs_through; [by apply needs_direct|done|done].
  - by eapply needs_through.
Qed.

(** A needed id is a dependency, or needed by a dependency. *)
Lemma needs_inv t j :
  needs t j ->
  j ∈ depends_on (t_meta t) \/
  exists i u, i ∈ depends_on (t_meta t) /\ resolves i u /\ needs u j.
Proof.
  intros Hj. induction Hj as [j Hj|j v k _ IH Hv Hk]; [by left|right].
  destruct IH as [Hj|(i & u & Hi & Hu & Hneed)].
  - exists j, v. repeat split; [done..|by apply needs_direct].
  - exists i, u. repeat split; [done..|by eapply needs_through].
Qed.

Lemma settled_inv i t : settled i -> resolves i t -> forall j, j ∈ depends_on (t_meta t) -> settled j.
Proof. intros [u Hu Hall] Ht. by rewrite (resolves_unique i t u). Qed.

Lemma settled_needs t :
  (forall j, j ∈ depends_on (t_meta t) -> settled j) -> forall j, needs t j -> settled j.
Proof.
  intros Hdeps j Hj. induction Hj as [j Hj|j v k _ IH Hv Hk]; [auto|by eapply settled_inv].
Qed.

Lemma settled_acyclic i : settled i -> forall t, resolves i t -> ~ needs t i.
Proof.
  induction 1 as [i u Hu Hdeps IH]. intros t Ht Hcycle.
  rewrite (resolves_unique i t u) in Hcycle by done. clear t Ht.
  destruct (needs_inv u i Hcycle) as [Hi|(j & v & Hj & Hv & Hneed)].
  - exact (IH i Hi u Hu Hcycle).
  - apply (IH j Hj v Hv). by eapply needs_through.
Qed.

(** The task a search starts from is unnamed, or is the one its id names. *)
Definition well_posed (t : Task) : Prop := task_id t = [] \/ resolves (task_id t) t.

Lemma resolves_well_posed i t : resolves i t -> well_posed t.
Proof. intros H. right. destruct (resolves_id i t H) as [-> _]. done. Qed.

Lemma well_posed_named t : well_posed t -> task_id t <> [] -> resolves (task_id t) t.
Proof. by intros [?|?]. Qed.

(** ** [visit] *)

Lemma visit_dependencies_ok (f : Task -> gset text -> option (res coordination_error (gset text)))
    ids fin fin' :
  (forall i u fin fin', resolves i u -> f u fin = Some (Ok fin') ->
     (forall k, k ∈ fin -> settled k) ->
     (forall k, k ∈ fin' -> settled k) /\ (forall k, k ∈ depends_on (t_meta u) -> settled k)) ->
  visit_dependencies f sn ids fin = Some (Ok fin') -> (forall k, k ∈ fin -> settled k) ->
  (forall k, k ∈ fin' -> settled k) /\ (forall k, k ∈ ids -> settled k).
Proof.
  intros Hf. revert fin. induction ids as [|i ids IH]; intros fin; simpl.
  - intros [= <-] Hfin. split; [done|]. set_solver.
  - destruct (referenced sn i) as [u|] eqn:Hi; [|done].
    destruct (f u fin) as [[fin1|]|] eqn:Hu; try done. intros Hrest Hfin.
    destruct (Hf i u fin fin1 Hi Hu Hfin) as [Hfin1 Hdeps].
    destruct (IH fin1 Hrest Hfin1) as [Hfin' Hids]. split; [done|].
    intros k [->|Hk]%elem_of_cons; [|auto]. by econstructor.
Qed.

Lemma visit_ok fuel t visited fin fin' :
  well_posed t -> visit fuel sn t visited fin = Some (Ok fin') ->
  (forall k, k ∈ fin -> settled k) ->
  (forall k, k ∈ fin' -> settled k) /\ (forall k, k ∈ depends_on (t_meta t) -> settled k).
Proof.
  revert t visited fin fin'. induction fuel as [|fuel IH]; [done|].
  intros t visited fin fin' Hwp. simpl.
  assert (Hrec : forall visited i u fin fin', resolves i u ->
    visit fuel sn u visited fin = Some (Ok fin') -> (forall k, k ∈ fin -> settled k) ->
    (forall k, k ∈ fin' -> settled k) /\ (forall k, k ∈ depends_on (t_meta u) -> settled k)).
  { intros vs i u f f' Hi. apply IH. by eapply resolves_well_posed. }
  case_bool_decide as Hid.
  - intros Hv Hfin. by eapply visit_dependencies_ok; [apply (Hrec visited)|..].
  - pose proof (well_posed_named t Hwp Hid) as Hres. unfold resolves in Hres. rewrite Hres.
    case_bool_decide; [done|]. case_bool_decide as Hfinished.
    + intros [= <-] Hfin. split; [done|]. eapply settled_inv; eauto.
    + destruct (visit_dependencies _ _ _ _) as [[fin1|]|] eqn:Hv; intros [= <-] Hfin.
      destruct (visit_dependencies_ok _ _ _ _ (Hrec _) Hv Hfin) as [Hfin1 Hdeps].
      split; [|done]. intros k [Hk|Hk]%elem_of_union; [|auto].
      apply elem_of_singleton in Hk as ->. by econstructor.
Qed.

Definition fault (t : Task) (e : coordination_error) : Prop :=
  match e with
  | MissingPrerequisite i => needs t i /\ List.filter (has_id i) (tasks sn) = []
  | DuplicateTaskId i => needs t i /\ 2 <= length (List.filter (has_id i) (tasks sn))
  | DependencyCycle _ i => (i = task_id t \/ needs t i) /\ exists u, resolves i u /\ needs u i
  | _ => False
  end.

Lemma referenced_fault t i e :
  i ∈ depends_on (t_meta t) -> referenced sn i = Err e -> fault t e.
Proof.
  intros Hi. unfold referenced.
  destruct (List.filter _ _) as [|u [|v l]] eqn:Hf; intros [= <-]; simpl; rewrite Hf;
    (split; [by apply needs_direct|simpl; first [done|lia]]).
Qed.

Lemma fault_lift t i u e : i ∈ depends_on (t_meta t) -> resolves i u -> fault u e -> fault t e.
Proof.
  intros Hi Hu. destruct (resolves_id i u Hu) as [Hid _].
  destruct e; simpl; try done; intros [Hn ?]; (split; [|done]);
    try (by eapply needs_from_dependency).
  right. destruct Hn as [->|Hn]; [rewrite Hid; by apply needs_direct|by eapply needs_from_dependency].
Qed.

(** Every visited id leads to the task being visited. *)
Definition leads (visited : list text) (t : Task) : Prop :=
  forall p, p ∈ visited -> exists v, resolves p v /\ needs v (task_id t).

Lemma leads_step visited t i u :
  task_id t <> [] -> resolves (task_id t) t -> leads visited t ->
  i ∈ depends_on (t_meta t) -> resolves i u -> leads (visited ++ [task_id t]) u.
Proof.
  intros Hid Ht Hl Hi Hu p [Hp|Hp]%elem_of_app;
    destruct (resolves_id i u Hu) as [-> _].
  - destruct (Hl p Hp) as (v & Hv & Hn). exists v. split; [done|]. by eapply needs_through.
  - apply list_elem_of_singleton in Hp as ->. exists t. split; [done|]. by apply needs_direct.
Qed.

Lemma visit_dependencies_err (f : Task -> gset text -> option (res coordination_error (gset text)))
    t ids fin e :
  (forall i, i ∈ ids -> i ∈ depends_on (t_meta t)) ->
  (forall i u fin e, i ∈ depends_on (t_meta t) -> resolves i u -> f u fin = Some (Err e) ->
     fault u e) ->
  visit_dependencies f sn ids fin = Some (Err e) -> fault t e.
Proof.
  intros Hsub Hf. revert fin. induction ids as [|i ids IH]; intros fin; simpl; [done|].
  assert (Hi : i ∈ depends_on (t_meta t)) by (apply Hsub; by left).
  destruct (referenced sn i) as [u|e'] eqn:Hu.
  - destruct (f u fin) as [[fin1|e']|] eqn:Hfu; [|intros [= <-]|done].
    + apply IH. intros k Hk. apply Hsub. by right.
    + eapply fault_lift; eauto.
  - intros [= <-]. by eapply referenced_fault.
Qed.

Lemma visit_err fuel t visited fin e :
  well_posed t -> (task_id t = [] -> visited = []) -> leads visited t ->
  visit fuel sn t visited fin = Some (Err e) -> fault t e.
Proof.
  revert t visited fin e. induction fuel as [|fuel IH]; [done|].
  intros t visited fin e Hwp Hun Hl. simpl. case_bool_decide as Hid.
  - rewrite (Hun Hid). apply visit_dependencies_err; [done|].
    intros i u f e' Hi Hu. apply IH; [by eapply resolves_well_posed|done|].
    intros p Hp. set_solver.
  - pose proof (well_posed_named t Hwp Hid) as Hres. pose proof Hres as Hr.
    unfold resolves in Hr. rewrite Hr. case_bool_decide as Hvis.
    { intros [= <-]. simpl. destruct (Hl _ Hvis) as (v & Hv & Hn). eauto 6. }
    case_bool_decide; [done|].
    destruct (visit_dependencies _ _ _ _) as [[fin1|e1]|] eqn:Hv; try done.
    intros [= <-]. eapply visit_dependencies_err; [|intros i u f e' Hi Hu|exact Hv]; [done|].
    apply IH; [by eapply resolves_well_posed| |by eapply leads_step].
    destruct (resolves_id i u Hu) as (-> & Hne & _). done.
Qed.

(** A settled search meets no fault. *)
Lemma visit_no_err fuel t fin e :
  well_posed t -> (forall j, j ∈ depends_on (t_meta t) -> settled j) ->
  visit fuel sn t [] fin <> Some (Err e).
Proof.
  intros Hwp Hdeps Herr. assert (Hf : fault t e).
  { eapply visit_err; [done|done| |exact Herr]. intros p Hp. set_solver. }
  pose proof (settled_needs t Hdeps) as Hall. destruct e; simpl in Hf; try done.
  - destruct Hf as [Hn Hnil]. destruct (Hall _ Hn) as [u Hu _].
    unfold resolves, referenced in Hu. by rewrite Hnil in Hu.
  - destruct Hf as [Hn Hlen]. destruct (Hall _ Hn) as [u Hu _].
    unfold resolves, referenced in Hu. by destruct (List.filter _ _) as [|? [|? ?]]; simpl in *; try lia.
  - destruct Hf as [Hi (u & Hu & Hn)]. apply (settled_acyclic _) with (2 := Hu) in Hn; [done|].
    destruct Hi as [->|Hi]; [|auto].
    destruct (resolves_id _ u Hu) as (_ & Hne & _).
    pose proof (well_posed_named t Hwp Hne). by econstructor.
Qed.

(** The ids that resolve, as a set. *)
Definition named_ids : gset text := list_to_set (task_id <$> tasks sn).

Lemma resolves_named i t : resolves i t -> i ∈ named_ids.
Proof.
  intros H. destruct (resolves_id i t H) as (<- & _ & Hin). unfold named_ids.
  rewrite elem_of_list_to_set. by apply list_elem_of_fmap_2.
Qed.

Lemma named_ids_size : size named_ids <= length (tasks sn).
Proof.
  unfold named_ids. rewrite <- (length_fmap task_id). generalize (task_id <$> tasks sn) as l.
  intros l. induction l as [|i l IH].
  { rewrite list_to_set_nil, size_empty. simpl. lia. }
  rewrite list_to_set_cons, size_union_alt, size_singleton. cbn [length].
  assert (Hsub : list_to_set (C := gset text) l ∖ {[i]} ⊆ list_to_set l) by set_solver.
  apply subseteq_size in Hsub. lia.
Qed.

Lemma visit_dependencies_fuel (f : Task -> gset text -> option (res coordination_error (gset text)))
    ids fin :
  (forall i u fin, resolves i u -> f u fin <> None) -> visit_dependencies f sn ids fin <> None.
Proof.
  intros Hf. revert fin. induction ids as [|i ids IH]; intros fin; simpl; [done|].
  destruct (referenced sn i) as [u|] eqn:Hu; [|done].
  destruct (f u fin) as [[?|]|] eqn:Hfu; [apply IH|done|by destruct (Hf i u fin)].
Qed.

Lemma visit_fuel fuel t visited fin :
  well_posed t -> NoDup visited -> (forall p, p ∈ visited -> p ∈ named_ids) ->
  (if decide (task_id t = []) then 1 else 0) + length (tasks sn) < fuel + length visited ->
  visit fuel sn t visited fin <> None.
Proof.
  revert t visited fin. induction fuel as [|fuel IH]; intros t visited fin Hwp Hnd Hin Hlen.
  { exfalso. assert (length visited <= size named_ids); [|pose proof named_ids_size; lia].
    rewrite <- (size_list_to_set (C := gset text) visited) by done.
    apply subseteq_size. intros p Hp%elem_of_list_to_set. auto. }
  simpl. case_bool_decide as Hid.
  - rewrite decide_True in Hlen by done. apply visit_dependencies_fuel.
    intros i u f Hu. apply IH; [by eapply resolves_well_posed|done|done|].
    destruct (resolves_id i u Hu) as (-> & Hne & _). rewrite decide_False by done. lia.
  - pose proof (well_posed_named t Hwp Hid) as Hres. pose proof Hres as Hr.
    unfold resolves in Hr. rewrite Hr. case_bool_decide as Hvis; [done|]. case_bool_decide; [done|].
    destruct (visit_dependencies _ _ _ _) as [[?|]|] eqn:Hv; [done|done|].
    exfalso. revert Hv. apply visit_dependencies_fuel. intros i u f Hu. apply IH.
    + by eapply resolves_well_posed.
    + apply NoDup_app. split; [done|]. split; [set_solver|apply NoDup_singleton].
    + intros p [Hp|Hp]%elem_of_app; [auto|]. apply list_elem_of_singleton in Hp as ->.
      by eapply resolves_named.
    + destruct (resolves_id i u Hu) as (-> & Hne & _). rewrite decide_False by done.
      rewrite length_app. simpl. lia.
Qed.

Lemma visit_graph_total t : well_posed t -> visit_graph sn t <> None.
Proof.
  intros Hwp. apply visit_fuel; [done|constructor|set_solver|].
  unfold graph_fuel. simpl. destruct (decide _); lia.
Qed.

Lemma visit_graph_ok t :
  well_posed t ->
  (exists fin, visit_graph sn t = Some (Ok fin)) <->
  (forall j, j ∈ depends_on (t_meta t) -> settled j).
Proof.
  intros Hwp. split.
  - intros [fin Hv]. by apply (visit_ok _ _ _ _ _ Hwp Hv).
  - intros Hdeps. pose proof (visit_graph_total t Hwp) as Htot.
    pose proof (visit_no_err (graph_fuel sn) t ∅) as Herr. unfold visit_graph in *.
    destruct (visit _ _ _ _ _) as [[fin|e]|]; [by exists fin| |done].
    by destruct (Herr e Hwp Hdeps).
Qed.

(** ** [depends_on] *)

Section DependsOn.
Context (i : text).

(** What a search that did not meet [i] leaves in [seen']. *)
Definition explored (ids : list text) (seen seen' : gset text) : Prop :=
  seen ⊆ seen' /\ (forall d, d ∈ ids -> d <> i /\ d ∈ seen') /\
  (forall x, x ∈ seen' -> x ∉ seen ->
     forall u, resolves x u -> forall d, d ∈ depends_on (t_meta u) -> d <> i /\ d ∈ seen').

Lemma any_dependency_spec (f : Task -> gset text -> option (bool * gset text)) ids seen b seen' :
  (forall x u seen b seen', resolves x u -> f u seen = Some (b, seen') ->
     if b then needs u i else explored (depends_on (t_meta u)) seen seen') ->
  any_dependency f sn i ids seen = Some (b, seen') ->
  if b then exists d, d ∈ ids /\ (d = i \/ exists u, resolves d u /\ needs u i)
  else explored ids seen seen'.
Proof.
  intros Hf. revert seen. induction ids as [|d ids IH]; intros seen; simpl.
  { intros [= <- <-]. split; [done|]. set_solver. }
  case_bool_decide as Hdi.
  { intros [= <- <-]. exists d. split; [by left|by left]. }
  assert (Hnext : forall seen0, any_dependency f sn i ids seen0 = Some (b, seen') ->
    d ∈ seen0 -> seen ⊆ seen0 ->
    (forall x, x ∈ seen0 -> x ∉ seen ->
       forall u, resolves x u -> forall k, k ∈ depends_on (t_meta u) -> k <> i /\ k ∈ seen0) ->
    if b then exists d0, d0 ∈ d :: ids /\ (d0 = i \/ exists u, resolves d0 u /\ needs u i)
    else explored (d :: ids) seen seen').
  { intros seen0 Hany Hd Hsub Hclosed. specialize (IH seen0 Hany). destruct b.
    - destruct IH as (d0 & Hd0 & Hrest). exists d0. split; [by right|done].
    - destruct IH as (Hsub' & Hids & Hnew). split; [by etrans|]. split.
      + intros k [->|Hk]%elem_of_cons; [split; [done|by apply Hsub']|by apply Hids].
      + intros x Hx Hnx u Hu k Hk. destruct (decide (x ∈ seen0)) as [Hx0|Hx0].
        * destruct (Hclosed x Hx0 Hnx u Hu k Hk) as [Hki Hk0]. split; [done|by apply Hsub'].
        * by eapply Hnew. }
  case_bool_decide as Hseen.
  { intros Hany. apply (Hnext seen); [done|done|done|]. intros x Hx Hnx. done. }
  destruct (referenced sn d) as [u|e] eqn:Hu.
  - destruct (f u ({[d]} ∪ seen)) as [[[] seen1]|] eqn:Hfu; [intros [= <- <-]| |done].
    + exists d. split; [by left|right]. exists u. split; [done|]. by apply (Hf d u _ _ _ Hu Hfu).
    + intros Hany. destruct (Hf d u _ _ _ Hu Hfu) as (Hsub & Hids & Hnew).
      apply (Hnext seen1); [done|set_solver|set_solver|].
      intros x Hx Hnx v Hv k Hk. destruct (decide (x = d)) as [->|Hxd].
      * rewrite (resolves_unique d v u) in Hk by done. by apply Hids.
      * eapply Hnew; eauto. set_solver.
  - intros Hany. apply (Hnext ({[d]} ∪ seen)); [done|set_solver|set_solver|].
    intros x Hx Hnx v Hv. assert (x = d) as -> by set_solver. unfold resolves in Hv. congruence.
Qed.

Lemma task_depends_on_spec fuel t seen b seen' :
  task_depends_on fuel sn i t seen = Some (b, seen') ->
  if b then needs t i else explored (depends_on (t_meta t)) seen seen'.
Proof.
  revert t seen b seen'. induction fuel as [|fuel IH]; [done|]. intros t seen b seen' Hany.
  simpl in Hany. apply any_dependency_spec in Hany; [|intros x u s b' s' _; apply IH].
  destruct b; [|done]. destruct Hany as (d & Hd & [->|(u & Hu & Hn)]).
  - by apply needs_direct.
  - by eapply needs_from_dependency.
Qed.

Lemma any_dependency_fuel (f : Task -> gset text -> option (bool * gset text)) ids seen n :
  (forall x u seen seen', resolves x u -> f u seen = Some (false, seen') -> seen ⊆ seen') ->
  (forall x u seen, resolves x u -> size (named_ids ∖ seen) < n -> f u seen <> None) ->
  size (named_ids ∖ seen) <= n -> any_dependency f sn i ids seen <> None.
Proof.
  intros Hmono Hf. revert seen. induction ids as [|d ids IH]; intros seen Hn; simpl; [done|].
  case_bool_decide; [done|]. case_bool_decide as Hseen; [by apply IH|].
  assert (Hle : size (named_ids ∖ ({[d]} ∪ seen)) <= size (named_ids ∖ seen)).
  { apply subseteq_size. set_solver. }
  destruct (referenced sn d) as [u|] eqn:Hu; [|apply IH; lia].
  assert (Hlt : size (named_ids ∖ ({[d]} ∪ seen)) < size (named_ids ∖ seen)).
  { apply subset_size. apply resolves_named in Hu. set_solver. }
  destruct (f u ({[d]} ∪ seen)) as [[[] seen1]|] eqn:Hfu; [done| |].
  - apply IH. pose proof (Hmono d u _ _ Hu Hfu) as Hsub.
    assert (size (named_ids ∖ seen1) <= size (named_ids ∖ ({[d]} ∪ seen))); [|lia].
    apply subseteq_size. set_solver.
  - exfalso. revert Hfu. eapply Hf; [done|lia].
Qed.

Lemma task_depends_on_fuel fuel t seen :
  size (named_ids ∖ seen) < fuel -> task_depends_on fuel sn i t seen <> None.
Proof.
  revert t seen. induction fuel as [|fuel IH]; intros t seen Hlt; [lia|]. simpl.
  apply any_dependency_fuel with (n := fuel); [|intros x u s _; apply IH|lia].
  intros x u s s' _ Hu. by apply task_depends_on_spec in Hu as (Hsub & _).
Qed.

(** The search decides whether the task needs [i]. *)
Lemma depends_on_id_spec t :
  exists b, depends_on_id sn t i = Some b /\ (b = true <-> needs t i).
Proof.
  pose proof (task_depends_on_fuel (graph_fuel sn) t ∅) as Hfuel.
  pose proof (task_depends_on_spec (graph_fuel sn) t ∅) as Hspec.
  assert (Hlt : size (named_ids ∖ ∅) < graph_fuel sn).
  { rewrite difference_empty_L. unfold graph_fuel. pose proof named_ids_size. lia. }
  specialize (Hfuel Hlt). unfold depends_on_id.
  destruct (task_depends_on _ sn i t ∅) as [[b seen']|]; [|done]. exists b. split; [done|].
  specialize (Hspec b seen' eq_refl). destruct b; [done|]. split; [done|]. intros Hn. exfalso.
  destruct Hspec as (_ & Hdeps & Hclosed).
  assert (Hall : forall j, needs t j -> j <> i /\ j ∈ seen').
  { induction 1 as [j Hj|j u k _ [_ Hj] Hu Hk]; [by apply Hdeps|].
    eapply Hclosed; [exact Hj|set_solver|done..]. }
  by destruct (Hall i Hn).
Qed.
End DependsOn.
End Graph.

(** ** Paths *)

(** The names between the slashes. *)
Definition components (a : text) : list text := split_char 47 (normalized_path a).

Lemma inside_spec a b : inside a b = true <-> exists r, a = b ++ 47%N :: r.
Proof.
  unfold inside. destruct (strip_prefix b a) as [rest|] eqn:Hp.
  - apply strip_prefix_spec in Hp as ->. destruct rest as [|c rest]; cbn [starts_with_char].
    + split; [done|]. intros [r Hr]. apply (f_equal length) in Hr. rewrite !length_app in Hr.
      cbn in Hr. lia.
    + rewrite N.eqb_eq. split; [intros <-; by exists rest|]. intros [r Hr].
      by apply app_inv_head in Hr as [= -> _].
  - split; [done|]. intros [r ->]. by rewrite strip_prefix_app in Hp.
Qed.

Lemma split_prefix a b :
  split_char 47 b `prefix_of` split_char 47 a <-> a = b \/ exists r, a = b ++ 47%N :: r.
Proof.
  split.
  - intros [l Hl]. pose proof (join_split_char 47 a) as Ha. rewrite Hl in Ha. destruct l as [|p l].
    + rewrite app_nil_r, join_split_char in Ha. by left.
    + rewrite join_app, join_split_char in Ha by (done || apply split_char_ne).
      right. by exists (join [47%N] (p :: l)).
  - intros [->|[r ->]]; [done|]. rewrite split_char_app. by apply prefix_app_r.
Qed.

Lemma path_overlap_components a b :
  path_overlap a b = true <->
  components a `prefix_of` components b \/ components b `prefix_of` components a.
Proof.
  unfold path_overlap, components. rewrite !orb_true_iff, bool_decide_eq_true, !inside_spec,
    !split_prefix. intuition congruence.
Qed.

Lemma path_overlap_sym a b : path_overlap a b = path_overlap b a.
Proof. apply eq_true_iff_eq. rewrite !path_overlap_components. tauto. Qed.

(** ** Symmetry of overlaps *)

Lemma elem_of_map_to_sorted {A} (m : gmap text A) k v :
  (k, v) ∈ map_to_sorted m <-> m !! k = Some v.
Proof. unfold map_to_sorted. by rewrite sort_by_perm, elem_of_map_to_list. Qed.

Lemma behavior_conflict_None t other :
  behavior_conflict t other = None <->
  forall k v v', behavior (scope (t_meta t)) !! k = Some v ->
    behavior (scope (t_meta other)) !! k = Some v' -> v = v'.
Proof.
  unfold behavior_conflict. rewrite head_omap_None. split.
  - intros H k v v' Hv Hv'. specialize (H (k, v)). simpl in H. rewrite Hv' in H.
    rewrite elem_of_map_to_sorted in H. specialize (H Hv). by case_bool_decide.
  - intros H [k v] Hkv%elem_of_map_to_sorted. simpl.
    destruct (behavior (scope (t_meta other)) !! k) as [v'|] eqn:Hv'; [|done].
    case_bool_decide as Hne; [done|]. destruct Hne. by apply (H k).
Qed.

Lemma behavior_conflict_sym t other :
  behavior_conflict t other = None <-> behavior_conflict other t = None.
Proof. rewrite !behavior_conflict_None. split; intros H k v v' Hv Hv'; symmetry; eauto. Qed.

Lemma shared_names_nil kind ours theirs :
  shared_names kind ours theirs = [] <-> forall x, x ∈ ours -> x ∉ theirs.
Proof.
  unfold shared_names. rewrite fmap_nil_iff, filter_nil_iff. by setoid_rewrite bool_decide_eq_false.
Qed.

Lemma shared_files_nil ours theirs changed :
  shared_files ours theirs changed = [] <->
  forall x y, x ∈ ours -> y ∈ theirs -> path_overlap x y = false.
Proof.
  unfold shared_files. rewrite fmap_nil_iff, filter_nil_iff. setoid_rewrite existsb_false.
  naive_solver.
Qed.

Lemma concerns_empty t other changed :
  concerns t other changed = ∅ <->
  let s := scope (t_meta t) in
  let s' := scope (t_meta other) in
  (forall x, x ∈ modules s -> x ∉ modules s') /\
  (forall x, x ∈ interfaces s -> x ∉ interfaces s') /\
  (forall x, x ∈ resources s -> x ∉ resources s') /\
  (forall x y, x ∈ files s -> y ∈ files s' -> path_overlap x y = false) /\
  (inferred_symbols t ∩ inferred_symbols other = ∅) /\
  met_symbols s (inferred_symbols other) = [] /\ met_symbols s' (inferred_symbols t) = [].
Proof.
  unfold concerns. cbv zeta. rewrite list_to_set_nil_iff, !app_nil, !shared_names_nil,
    shared_files_nil, fmap_nil_iff, elements_nil. done.
Qed.

Lemma concerns_empty_flip t other changed changed' :
  concerns t other changed = ∅ -> concerns other t changed' = ∅.
Proof.
  rewrite !concerns_empty. cbv zeta. rewrite (comm_L (∩) (inferred_symbols other)).
  intros (Hm & Hi & Hr & Hf & Hs & Hmet & Hmet'). split_and!; try done.
  - intros x Hx Hx'. by apply (Hm x).
  - intros x Hx Hx'. by apply (Hi x).
  - intros x Hx Hx'. by apply (Hr x).
  - intros x y Hx Hy. rewrite path_overlap_sym. auto.
Qed.

Section Evidence.
Context (evidence_json : text -> option text -> Scope -> list text -> text).
Context (uuid_v5 : text -> text).

Lemma evidence_sym a b : evidence evidence_json uuid_v5 a b = evidence evidence_json uuid_v5 b a.
Proof. unfold evidence. by rewrite sort_pair. Qed.

(** The verdict as a condition on the two reviews. *)
Definition no_conflict (r : option Review) : Prop :=
  match r with Some r => rv_compatible r = true | None => True end.

Lemma review_verdict_spec t other :
  let stamp := evidence evidence_json uuid_v5 t other in
  let v := review_verdict evidence_json uuid_v5 t other in
  (v.1 = None <-> no_conflict (review_of t other stamp) /\ no_conflict (review_of other t stamp)) /\
  (v.1 = None -> v.2 = true <->
     is_Some (review_of t other stamp) \/ is_Some (review_of other t stamp)).
Proof.
  unfold review_verdict, no_conflict. cbv zeta.
  destruct (review_of t other _) as [r|], (review_of other t _) as [r'|]; simpl;
    repeat match goal with |- context [rv_compatible ?r] => destruct (rv_compatible r) end;
    simpl; (split; [naive_solver|]); intros; (split; intros; eauto; try done).
  by destruct H0 as [[? ?]|[? ?]].
Qed.

Lemma review_verdict_sym t other :
  let v := review_verdict evidence_json uuid_v5 t other in
  let v' := review_verdict evidence_json uuid_v5 other t in
  (v.1 = None <-> v'.1 = None) /\ (v.1 = None -> v.2 = v'.2).
Proof.
  cbv zeta. destruct (review_verdict_spec t other) as [Hv Hc].
  destruct (review_verdict_spec other t) as [Hv' Hc']. rewrite (evidence_sym other t) in *.
  cbv zeta in *.
  assert (Hiff : (review_verdict evidence_json uuid_v5 t other).1 = None <->
                 (review_verdict evidence_json uuid_v5 other t).1 = None) by tauto.
  split; [done|]. intros Hn. apply eq_true_iff_eq. rewrite (Hc Hn), (Hc' (proj1 Hiff Hn)). tauto.
Qed.

Lemma overlap_None t other changed :
  overlap evidence_json uuid_v5 t other changed = None <->
  behavior_conflict t other = None /\
  (review_verdict evidence_json uuid_v5 t other).1 = None /\
  ((review_verdict evidence_json uuid_v5 t other).2 = true \/ concerns t other changed = ∅).
Proof.
  unfold overlap. destruct (behavior_conflict t other); [naive_solver|].
  destruct (review_verdict _ _ t other) as [[w|] []]; simpl; try naive_solver.
  case_bool_decide; naive_solver.
Qed.

Lemma overlap_flip t other changed changed' :
  overlap evidence_json uuid_v5 t other changed = None ->
  overlap evidence_json uuid_v5 other t changed' = None.
Proof.
  rewrite !overlap_None. destruct (review_verdict_sym t other) as [Hiff Heq]. cbv zeta in *.
  intros (Hb & Hv & Hc). rewrite <- Hiff, <- Heq by done. split; [by apply behavior_conflict_sym|].
  split; [done|]. destruct Hc as [Hc|Hc]; [by left|right]. by eapply concerns_empty_flip.
Qed.
End Evidence.
