(* ===== verification/CoordinationProps.v ===== *)
(** What admission promises (src/coordination.rs): the dependency searches
    decide reachability and soundness of the graph, overlaps are symmetric, a
    task is admitted exactly when nothing holds it back, and no set of
    dependencies keeps every task waiting. *)
From S2P Require Import Prelude Text TextLemmas Markers TaskNotes Metadata TaskEntry.
From S2P Require Import Coordination CoordGraph.

(** ** The dependency graph *)

(** Every id the task needs names exactly one task, which does not need itself. *)
Definition sound_dependencies (sn : Snapshot) (t : Task) : Prop :=
  forall j, needs sn t j -> exists u, resolves sn j u /\ ~ needs sn u j.

Lemma sound_iff_settled sn t :
  well_posed sn t ->
  sound_dependencies sn t <-> (forall j, j ∈ depends_on (t_meta t) -> settled sn j).
Proof.
  intros Hwp. split.
  - intros Hs. apply (visit_graph_ok sn t Hwp).
    destruct (visit_graph sn t) as [[fin|e]|] eqn:Hv; [by exists fin| |].
    + assert (Hf : fault sn t e).
      { eapply visit_err; [done|done| |exact Hv]. intros p Hp. set_solver. }
      exfalso. destruct e as [i|i|l i| | | | | | | |]; simpl in Hf; try done.
      * destruct Hf as [Hn Hnil]. destruct (Hs i Hn) as (u & Hu & _).
        unfold resolves, referenced in Hu. by rewrite Hnil in Hu.
      * destruct Hf as [Hn Hlen]. destruct (Hs i Hn) as (u & Hu & _).
        unfold resolves, referenced in Hu.
        destruct (List.filter _ _) as [|? [|? ?]]; simpl in *; (done || lia).
      * destruct Hf as [Hi (u & Hu & Hn)].
        assert (Hneed : needs sn t i).
        { destruct Hi as [->|Hi]; [|done]. destruct (resolves_id sn _ u Hu) as (_ & Hne & _).
          pose proof (well_posed_named sn t Hwp Hne) as Ht.
          pose proof (resolves_unique sn _ t u Ht Hu) as ->. done. }
        destruct (Hs i Hneed) as (v & Hv' & Hnot).
        by rewrite (resolves_unique sn i v u) in Hnot.
    + by destruct (visit_graph_total sn t Hwp).
  - intros Hdeps j Hj. pose proof (settled_needs sn t Hdeps j Hj) as Hset. pose proof Hset as Hset'.
    destruct Hset' as [u Hu _]. exists u. split; [done|]. by eapply settled_acyclic.
Qed.

(** A task of the board whose own id several tasks share is refused for that. *)
Lemma visit_graph_well_posed sn t :
  t ∈ tasks sn ->
  well_posed sn t
  \/ visit_graph sn t = Some (Err (DuplicateTaskId (task_id t)))
     /\ ~ well_posed sn t /\ 2 <= length (List.filter (has_id (task_id t)) (tasks sn)).
Proof.
  intros Hin. destruct (decide (task_id t = [])) as [Hid|Hid]; [by left; left|].
  assert (Ht : In t (List.filter (has_id (task_id t)) (tasks sn))).
  { apply filter_In. split; [by apply list_elem_of_In|]. unfold has_id.
    by rewrite bool_decide_true, bool_decide_false. }
  destruct (List.filter _ _) as [|v [|w l]] eqn:Hf; [done| |].
  - left; right. unfold resolves, referenced. rewrite Hf. by destruct Ht as [->|[]].
  - right. assert (Hr : referenced sn (task_id t) = Err (DuplicateTaskId (task_id t))).
    { unfold referenced. by rewrite Hf. }
    split_and!; [|intros [?|Hres]; [done|unfold resolves in Hres; congruence]|cbn; lia].
    unfold visit_graph, graph_fuel. cbn [visit]. rewrite bool_decide_false by done. by rewrite Hr.
Qed.

Lemma visit_decides_posed sn t :
  well_posed sn t ->
  visit_graph sn t <> None /\
  ((exists finished, visit_graph sn t = Some (Ok finished)) <-> sound_dependencies sn t) /\
  (forall e, visit_graph sn t = Some (Err e) -> fault sn t e).
Proof.
  intros Hwp. split; [by apply visit_graph_total|]. split.
  - by rewrite visit_graph_ok, sound_iff_settled.
  - intros e He. eapply visit_err; [done|done| |exact He]. intros p Hp. set_solver.
Qed.

(** C33: the check of a task of the board terminates on every graph, cyclic ones
    included; it accepts exactly when no other task shares the task's own id, if
    it has one, and every id the task needs, directly or through others, names
    one task that does not need itself; and an error it reports is a fault of
    the graph the task depends on: a needed id no task has, a needed id or the
    own one several tasks have, or an id on a cycle. *)
Theorem visit_decides_soundness sn t :
  t ∈ tasks sn ->
  visit_graph sn t <> None /\
  ((exists finished, visit_graph sn t = Some (Ok finished)) <->
   well_posed sn t /\ sound_dependencies sn t) /\
  (forall e, visit_graph sn t = Some (Err e) ->
     match e with
     | MissingPrerequisite i => needs sn t i /\ forall u, u ∈ tasks sn -> has_id i u = false
     | DuplicateTaskId i =>
         (i = task_id t \/ needs sn t i) /\ 2 <= length (List.filter (has_id i) (tasks sn))
     | DependencyCycle _ i =>
         (i = task_id t \/ needs sn t i) /\ exists u, resolves sn i u /\ needs sn u i
     | _ => False
     end).
Proof.
  intros Hin. destruct (visit_graph_well_posed sn t Hin) as [Hwp|(Hv & Hill & Hlen)].
  - destruct (visit_decides_posed sn t Hwp) as (Htot & Hok & Herr). split; [done|].
    split; [rewrite Hok; naive_solver|]. intros e He. specialize (Herr e He).
    destruct e; simpl in Herr; try done.
    + destruct Herr as [Hn Hnil]. split; [done|]. by apply filter_nil_iff.
    + destruct Herr. auto.
  - rewrite Hv. split; [done|]. split.
    + split; [by intros [? [=]]|by intros [? _]].
    + intros e [= <-]. auto.
Qed.

(** C34: the search for a dependency terminates, and finds the id exactly when
    the task needs it through some chain of dependencies, whatever cycles and
    unresolved ids the graph has. *)
Theorem depends_on_decides_reachability sn t i :
  (depends_on_id sn t i = Some true <-> needs sn t i) /\
  (depends_on_id sn t i = Some false <-> ~ needs sn t i).
Proof.
  destruct (depends_on_id_spec sn i t) as (b & -> & Hb).
  split; (split; [intros [= ->]|intros Hn]).
  - by apply Hb.
  - f_equal. by apply Hb.
  - rewrite <- Hb. done.
  - f_equal. destruct b; [|done]. destruct Hn. by apply Hb.
Qed.

(** ** Overlaps *)

(** Two paths overlap exactly when the names of one, between its slashes,
    begin the names of the other, so that [src/a] and [src/ab] do not; and
    whether two tasks overlap does not depend on which one asks or on the files
    changed meanwhile. *)
Theorem overlap_symmetric evidence_json uuid_v5 :
  (forall a b, path_overlap a b = true <->
     components a `prefix_of` components b \/ components b `prefix_of` components a) /\
  (forall t other changed changed',
     overlap evidence_json uuid_v5 t other changed = None <->
     overlap evidence_json uuid_v5 other t changed' = None).
Proof.
  split; [apply path_overlap_components|]. intros t other changed changed'.
  split; apply overlap_flip.
Qed.

(** ** Admission *)

Section Admission.
Context (evidence_json : text -> option text -> Scope -> list text -> text).
Context (uuid_v5 : text -> text).

Definition prerequisites_complete (sn : Snapshot) (t : Task) : Prop :=
  forall i, i ∈ depends_on (t_meta t) -> exists u, referenced sn i = Ok u /\ complete u = true.

(** No other active task overlaps it, apart from those that wait for it. *)
Definition undisturbed (sn : Snapshot) (t : Task) : Prop :=
  forall other, other ∈ tasks sn -> active other = true -> same_task t other = false ->
    (task_id t <> [] /\ needs sn other (task_id t)) \/
    overlap evidence_json uuid_v5 t other (changed_files sn) = None.

Lemma yields_to_spec sn t other :
  yields_to sn t other = true <-> task_id t <> [] /\ needs sn other (task_id t).
Proof.
  unfold yields_to. destruct (depends_on_id_spec sn (task_id t) other) as (b & -> & Hb). simpl.
  rewrite andb_true_iff, negb_true_iff, bool_decide_eq_false, Hb. done.
Qed.

Lemma overlap_waits_nil sn t :
  overlap_waits evidence_json uuid_v5 sn t = [] <-> undisturbed sn t.
Proof.
  unfold overlap_waits, undisturbed. rewrite omap_nil_iff.
  setoid_rewrite list_elem_of_In. setoid_rewrite filter_In. setoid_rewrite <- list_elem_of_In.
  setoid_rewrite <- yields_to_spec. split.
  - intros H other Hin Ha Hs. specialize (H other). rewrite Ha, Hs in H.
    destruct (yields_to sn t other); [by left|right; auto].
  - intros H other [Hin Hb]. bool_cases. destruct (yields_to sn t other) eqn:Hy; [done|].
    destruct (H other) as [?|?]; try done; congruence.
Qed.

Lemma dependency_waits_nil sn t :
  (forall i, i ∈ depends_on (t_meta t) -> settled sn i) ->
  dependency_waits sn t = [] <-> prerequisites_complete sn t.
Proof.
  intros Hset. unfold dependency_waits, prerequisites_complete. rewrite omap_nil_iff.
  apply forall_proper. intros i. split; intros H Hi; specialize (H Hi);
    destruct (Hset i Hi) as [u Hu _]; unfold resolves in Hu; rewrite Hu in *.
  - destruct (complete u) eqn:Hc; [eauto|done].
  - destruct H as (v & [= <-] & ->). done.
Qed.

Lemma waits_nil_posed sn t :
  well_posed sn t ->
  waits evidence_json uuid_v5 sn t = [] <->
  complete t = true \/
  (t_error t = None /\ sound_dependencies sn t /\ prerequisites_complete sn t /\
   undisturbed sn t).
Proof.
  intros Hwp. unfold waits. rewrite sound_iff_settled by done.
  destruct (complete t); [naive_solver|]. destruct (t_error t); [naive_solver|].
  pose proof (visit_graph_ok sn t Hwp) as Hok. pose proof (visit_graph_total sn t Hwp) as Htot.
  destruct (visit_graph sn t) as [[fin|e]|]; [| |done].
  - assert (Hset : forall j, j ∈ depends_on (t_meta t) -> settled sn j) by (apply Hok; by exists fin).
    rewrite app_nil, overlap_waits_nil, dependency_waits_nil by done. naive_solver.
  - split; [done|]. intros [?|(_ & Hset & _)]; [done|]. apply Hok in Hset as [? ?]. done.
Qed.

Lemma waits_nil sn t :
  t ∈ tasks sn ->
  waits evidence_json uuid_v5 sn t = [] <->
  complete t = true \/
  (t_error t = None /\ well_posed sn t /\ sound_dependencies sn t /\ prerequisites_complete sn t /\
   undisturbed sn t).
Proof.
  intros Hin. destruct (visit_graph_well_posed sn t Hin) as [Hwp|(Hv & Hill & _)].
  - rewrite waits_nil_posed by done. naive_solver.
  - unfold waits. rewrite Hv. destruct (complete t); [naive_solver|]. destruct (t_error t); naive_solver.
Qed.

Lemma selected_in sn board status index t : selected sn board status index = Ok t -> t ∈ tasks sn.
Proof.
  unfold selected. destruct (index =? 0)%N; [done|]. destruct (List.find _ _) eqn:Hf; [|done].
  intros [= ->]. apply find_some in Hf as [Hf _]. by apply list_elem_of_In.
Qed.

(** C35: a task is admitted exactly when it is complete, or its metadata reads, no
    other task shares its own id, if it has one, its dependencies are sound and
    all of them complete, and every other active task either waits for it or does
    not overlap it. *)
Theorem admitted_iff sn board status index t :
  selected sn board status index = Ok t ->
  ensure_admitted evidence_json uuid_v5 sn board status index = Ok tt <->
  complete t = true \/
  (t_error t = None /\ well_posed sn t /\ sound_dependencies sn t /\ prerequisites_complete sn t /\
   undisturbed sn t).
Proof.
  intros Hsel. rewrite <- waits_nil by (by eapply selected_in). unfold ensure_admitted. rewrite Hsel.
  by destruct (waits _ _ sn t).
Qed.

Lemma unfinished_prerequisite sn t :
  (forall i, i ∈ depends_on (t_meta t) -> settled sn i) ->
  prerequisites_complete sn t \/
  exists i u, i ∈ depends_on (t_meta t) /\ resolves sn i u /\ complete u = false.
Proof.
  intros Hset. unfold prerequisites_complete. induction (depends_on (t_meta t)) as [|i l IH].
  { left. set_solver. }
  destruct (Hset i) as [u Hu _]; [by left|]. destruct (complete u) eqn:Hc.
  - destruct IH as [IH|(j & v & Hj & Hv)]; [intros j Hj; apply Hset; by right| |].
    + left. intros j [->|Hj]%elem_of_cons; [by exists u|auto].
    + right. exists j, v. split; [by right|done].
  - right. exists i, u. split; [by left|done].
Qed.

(** C36: dependencies alone never stop a board: when no two tasks share an id, every
    task's metadata reads and its dependencies are sound, and active tasks overlap only tasks they
    wait for, then as long as some task is unfinished one of the unfinished
    tasks is admitted. *)
Theorem some_unfinished_task_admitted sn :
  (forall t, t ∈ tasks sn -> well_posed sn t /\ t_error t = None /\ sound_dependencies sn t) ->
  (forall t, t ∈ tasks sn -> undisturbed sn t) ->
  (exists t, t ∈ tasks sn /\ complete t = false) ->
  exists t, t ∈ tasks sn /\ complete t = false /\ waits evidence_json uuid_v5 sn t = [].
Proof.
  intros Hok Hund (t & Hin & Hc).
  assert (Hstep : forall t, t ∈ tasks sn -> complete t = false ->
    waits evidence_json uuid_v5 sn t = [] \/
    exists i u, i ∈ depends_on (t_meta t) /\ resolves sn i u /\ complete u = false).
  { intros u Hu Hcu. destruct (Hok u Hu) as (Hwp & Herr & Hs).
    pose proof Hs as Hset. rewrite sound_iff_settled in Hset by done.
    destruct (unfinished_prerequisite sn u Hset) as [Hp|?]; [left|by right].
    apply waits_nil_posed; [done|right]. split_and!; auto. }
  assert (Hind : forall i, settled sn i -> forall u, resolves sn i u -> complete u = false ->
    exists t, t ∈ tasks sn /\ complete t = false /\ waits evidence_json uuid_v5 sn t = []).
  { induction 1 as [i u Hu _ IH]. intros u' Hu' Hcu. rewrite (resolves_unique sn i u' u) in Hcu by done.
    destruct (resolves_id sn i u Hu) as (_ & _ & Huin).
    destruct (Hstep u Huin Hcu) as [Hw|(j & v & Hj & Hv & Hcv)]; [by exists u|by eapply IH]. }
  destruct (Hstep t Hin Hc) as [Hw|(j & v & Hj & Hv & Hcv)]; [by exists t|].
  destruct (Hok t Hin) as (Hwp & _ & Hs). rewrite sound_iff_settled in Hs by done. eauto.
Qed.
End Admission.

(** ** Updating metadata *)

Lemma selected_same_task sn board status index chosen t :
  selected sn board status index = Ok chosen ->
  same_task t chosen =
  (t_board t == board) && (t_status t == status) && (t_index t =? index)%N.
Proof.
  unfold selected. destruct (index =? 0)%N; [done|]. destruct (List.find _ _) eqn:Hf; [|done].
  intros [= <-]. apply find_some in Hf as [_ Hf]. bool_cases. apply N.eqb_eq in H0. subst.
  unfold same_task. f_equal. apply eq_true_iff_eq. by rewrite bool_decide_eq_true, N.eqb_eq.
Qed.

Definition with_meta (t : Task) (meta : Metadata) : Task :=
  mkTask (t_board t) (t_status t) (t_index t) (t_entry t) meta (t_error t)
    (t_completion_wait t) (t_owner t).

Lemma replace_meta_selected sn board status index chosen meta :
  selected sn board status index = Ok chosen ->
  with_meta chosen meta ∈ replace_meta chosen meta (tasks sn).
Proof.
  intros Hsel. pose proof (fun t => selected_same_task _ _ _ _ _ t Hsel) as Hsame.
  unfold selected in Hsel. destruct (index =? 0)%N; [done|].
  induction (tasks sn) as [|t l IH]; [done|]. simpl in *. rewrite Hsame.
  destruct (_ && _ && _); [|right; auto]. injection Hsel as ->. by left.
Qed.

Lemma add_dependencies_ok sn ids meta meta' :
  add_dependencies sn ids meta = Ok meta' ->
  id meta' = id meta /\ scope meta' = scope meta /\ reviews meta' = reviews meta /\
  (forall i, i ∈ depends_on meta' <-> i ∈ depends_on meta \/ i ∈ ids).
Proof.
  revert meta. induction ids as [|i ids IH]; intros meta; simpl.
  { intros [= <-]. set_solver. }
  case_bool_decide; [done|]. destruct (referenced sn i); [|done]. simpl. intros Hadd.
  destruct (IH _ Hadd) as (Hid & Hsc & Hrv & Hdeps). clear IH Hadd.
  case_bool_decide; simpl in *; (split_and!; [done..|]); intros k; rewrite Hdeps; set_solver.
Qed.

Lemma assess_ok ej uv sn t meta review meta' :
  assess ej uv sn t meta review = Ok meta' ->
  id meta' = id meta /\ depends_on meta' = depends_on meta /\ scope meta' = scope meta.
Proof.
  unfold assess. destruct review as [[[other compatible] reason]|]; [|by intros [= <-]].
  case_bool_decide; [done|]. destruct (referenced sn other) as [peer|]; [|done]. simpl.
  destruct (same_task t peer); [done|]. by intros [= <-].
Qed.

(** C37: an accepted update keeps the task's stable id, or gives it the fresh
    one, adds and removes exactly the dependencies it names, and leaves the
    task's dependencies sound in the graph that contains the change: it can
    neither close a cycle nor refer to a missing or duplicated id. *)
Theorem update_keeps_dependencies_sound ej uv sn board status index chosen stored fresh u meta' :
  selected sn board status index = Ok chosen ->
  updated_metadata ej uv sn chosen status (Ok stored) fresh u = Ok meta' ->
  exists meta,
    id meta' = id meta /\ depends_on meta' = depends_on meta /\ scope meta' = scope meta /\
    id meta = (if id stored == [] then fresh else id stored) /\
    (forall i, i ∈ depends_on meta <->
       (i ∈ depends_on stored \/ i ∈ up_depends_on u) /\ i ∉ up_remove_dependency u) /\
    sound_dependencies
      (mkSnapshot (replace_meta chosen meta (tasks sn)) (changed_files sn))
      (with_meta chosen meta).
Proof.
  intros Hsel. unfold updated_metadata. case_match; [done|]. case_match; [done|].
  set (stored' := if id stored == [] then _ else stored).
  destruct (add_dependencies sn (up_depends_on u) stored') as [m|] eqn:Hadd; [|done].
  destruct (add_dependencies_ok _ _ _ _ Hadd) as (Hid & _ & _ & Hdeps). cbn [res_bind].
  match goal with
  | |- match visit_graph ?s ?t with _ => _ end = _ -> _ => set (sn' := s); set (t' := t)
  end.
  set (meta := t_meta t'). intros Hvisit.
  assert (Hwp := visit_graph_well_posed sn' t' (replace_meta_selected _ _ _ _ _ meta Hsel)).
  assert (Hs : well_posed sn' t' /\ exists fin, visit_graph sn' t' = Some (Ok fin)).
  { destruct Hwp as [Hwp|[He _]]; [|by rewrite He in Hvisit]. split; [done|].
    pose proof (visit_graph_total sn' t' Hwp).
    destruct (visit_graph sn' t') as [[fin|e]|]; [by exists fin|done|done]. }
  destruct Hs as [Hw [fin Hfin]]. rewrite Hfin in Hvisit.
  destruct (assess_ok _ _ _ _ _ _ _ Hvisit) as (? & ? & ?). exists meta. split_and!; try done.
  - simpl. rewrite Hid. unfold stored'. by destruct (id stored == []).
  - intros i. simpl. rewrite list_elem_of_In, filter_In, <- list_elem_of_In, Hdeps.
    rewrite negb_true_iff, bool_decide_eq_false. unfold stored'. by destruct (id stored == []).
  - apply sound_iff_settled; [done|]. apply visit_graph_ok; [done|]. by exists fin.
Qed.

(** ** Witnesses: a task and another that depends on it *)

Definition sample_task (index : N) (name : text) (deps : list text) : Task :=
  mkTask [str "tasks"] Todo index
    (task_entry_from_text (MarkdownLine index) (str "Publish the API") (str "Publish the API") false)
    (mkMetadata name deps default_scope []) None None (str "unclaimed").
Definition sample : Snapshot :=
  mkSnapshot [sample_task 1 (str "a") []; sample_task 2 (str "b") [str "a"]] ∅.

Lemma sample_well_posed t : t ∈ tasks sample -> well_posed sample t.
Proof.
  intros H. repeat (apply elem_of_cons in H as [->|H]; [right; by vm_compute|]). set_solver.
Qed.

Lemma sample_sound t : t ∈ tasks sample -> sound_dependencies sample t.
Proof.
  intros H. pose proof (sample_well_posed t H) as Hwp. apply sound_iff_settled; [done|].
  apply visit_graph_ok; [done|].
  repeat (apply elem_of_cons in H as [->|H]; [eexists; vm_compute; reflexivity|]). set_solver.
Qed.

(** Two tasks with one id: neither is accepted. *)
Definition clashing : Snapshot :=
  mkSnapshot [sample_task 1 (str "a") []; sample_task 2 (str "a") []] ∅.

Lemma visit_decides_soundness_witness :
  (exists fin, visit_graph sample (sample_task 2 (str "b") [str "a"]) = Some (Ok fin))
  /\ ~ (well_posed clashing (sample_task 1 (str "a") [])
        /\ sound_dependencies clashing (sample_task 1 (str "a") [])).
Proof.
  split.
  - assert (Hin : sample_task 2 (str "b") [str "a"] ∈ tasks sample) by (right; left).
    apply (visit_decides_soundness sample _ Hin). split; [by apply sample_well_posed|by apply sample_sound].
  - assert (Hin : sample_task 1 (str "a") [] ∈ tasks clashing) by left.
    intros H. destruct (proj2 (proj1 (proj2 (visit_decides_soundness clashing _ Hin))) H) as [fin Hfin].
    vm_compute in Hfin. discriminate Hfin.
Defined.

Lemma admitted_iff_witness :
  ensure_admitted (fun _ _ _ _ => []) (fun s => s) sample [str "tasks"] Todo 1 = Ok tt.
Proof.
  apply (admitted_iff (fun _ _ _ _ => []) (fun s => s) sample [str "tasks"] Todo 1
           (sample_task 1 (str "a") [])).
  - by vm_compute.
  - right. split; [done|]. split; [apply sample_well_posed; left|]. split; [apply sample_sound; left|].
    split; [intros i Hi; by apply elem_of_nil in Hi|].
    intros other H Ha. exfalso. revert Ha.
    repeat (apply elem_of_cons in H as [->|H]; [by vm_compute|]). by apply elem_of_nil in H.
Defined.

Lemma some_unfinished_task_admitted_witness :
  exists t, t ∈ tasks sample /\ complete t = false /\
    waits (fun _ _ _ _ => []) (fun s => s) sample t = [].
Proof.
  apply some_unfinished_task_admitted.
  - intros t H. split; [by apply sample_well_posed|]. split; [|by apply sample_sound].
    repeat (apply elem_of_cons in H as [->|H]; [done|]). by apply elem_of_nil in H.
  - intros t _ other H Ha. exfalso. revert Ha.
    repeat (apply elem_of_cons in H as [->|H]; [by vm_compute|]). by apply elem_of_nil in H.
  - exists (sample_task 1 (str "a") []). split; [left|by vm_compute].
Defined.

Lemma update_keeps_dependencies_sound_witness :
  exists meta, id meta = str "b" /\ str "a" ∈ depends_on meta.
Proof.
  destruct (update_keeps_dependencies_sound (fun _ _ _ _ => []) (fun s => s) sample
    [str "tasks"] Todo 2 (sample_task 2 (str "b") [str "a"]) (mkMetadata (str "b") [] default_scope [])
    (str "new") (mkUpdate [str "a"] [] None None) (mkMetadata (str "b") [str "a"] default_scope []))
    as (meta & _ & _ & _ & Hid & Hdeps & _).
  - by vm_compute.
  - by vm_compute.
  - exists meta. split; [by rewrite Hid|]. apply Hdeps. split; [by right; left|]. apply not_elem_of_nil.
Defined.
