(* ===== verification/World.v ===== *)
(** The board and the registry together, operations on both, how such an
    operation runs, and what its steps leave alone. *)
From S2P Require Import Prelude Sql AgentTypes Store Sessions Handoff Journals Retire Projects.
From S2P Require Import Text Markers TaskNotes Metadata TaskEntry Files Board.

(** ** The world *)

(** [git_runs] counts the Git commands run so far: Git's answer to a command
    may depend on when it is asked, since others change the repository. *)
Record world := mkWorld { tree : node; registry : db; git_runs : nat }.
#[export] Instance world_eta : Eta world := fun w => mkWorld (tree w) (registry w) (git_runs w).

(** Why an operation on both refuses; the first three carry the error of the
    part that failed. *)
Inductive refusal :=
| BoardError (e : board_error)
| RegistryError (e : store_error)
| ServiceError
| GitError
| NotAdmitted
| BadTaskIndex
| TaskIsStopped
| ProjectNotRegistered
| WrongProject
| NoRunningSession
| SeveralRunningSessions
| OwnedByAnotherSession
| NoConversation
| NoCompletedNote
| NoDurableIdentity
| NoJournal
| NotTheJournalsOwner
| JournalModeChanged
| IdentityChanged
| NoStartingCommit
| BranchChanged
| HistoryDiverged
| LostFence
| BadToken
| ManagedEvidence (state : GitFinalizationState)
| SealedJournal (state : GitFinalizationState)
| JournalChanged
| UnfinishedWork
| BadFollowUp
| FollowUpExists
| DuplicateLinks
| TaskChangedMeanwhile
| WrongStatus
| BadCoordination
| Diagnosed (message : text)
| Bail (message : string)
| TooManyRounds.

Definition wio (A : Type) := world -> res refusal A * world.

Definition wret {A} (a : A) : wio A := fun w => (Ok a, w).
Definition refuse {A} (e : refusal) : wio A := fun w => (Err e, w).
Definition wbind {A B} (c : wio A) (k : A -> wio B) : wio B := fun w =>
  match c w with
  | (Ok a, w') => k a w'
  | (Err e, w') => (Err e, w')
  end.

Notation "'run!' x ':=' c 'in' k" := (wbind c (fun x => k))
  (at level 10, x pattern, c at level 200, k at level 200) : clt_scope.

Definition ensure (b : bool) (e : refusal) : wio unit := if b then wret tt else refuse e.
Definition need {A} (o : option A) (e : refusal) : wio A :=
  match o with Some a => wret a | None => refuse e end.

(** An operation of the board, of the registry, and a question to the registry. *)
Definition on_board {A} (c : io A) : wio A := fun w =>
  match c (tree w) with
  | (Ok a, s) => (Ok a, w <| tree := s |>)
  | (Err e, s) => (Err (BoardError e), w <| tree := s |>)
  end.
Definition on_registry {A} (c : store_op A) : wio A := fun w =>
  match c (registry w) with
  | (Ok a, d) => (Ok a, w <| registry := d |>)
  | (Err e, d) => (Err (RegistryError e), w <| registry := d |>)
  end.
Definition query {A} (f : db -> A) : wio A := fun w => (Ok (f (registry w)), w).
Definition query_res {A} (f : db -> res store_error A) : wio A := fun w =>
  match f (registry w) with
  | Ok a => (Ok a, w)
  | Err e => (Err (RegistryError e), w)
  end.

Fixpoint wfor_each {A} (f : A -> wio unit) (l : list A) : wio unit :=
  match l with
  | [] => wret tt
  | a :: l' => run! _ := f a in wfor_each f l'
  end.

(** ** Projects *)

(** The components of a registered path. *)
Definition components (p : string) : path :=
  List.filter (fun x => negb (x == [])) (split_char 47 (of_utf8 p)).

(** [ORDER BY name COLLATE NOCASE, path COLLATE NOCASE]. *)
Definition project_before (a b : Z * project_row) : bool :=
  let na := string_lower (p_name a.2) in
  let nb := string_lower (p_name b.2) in
  text_ltb na nb
  || ((na == nb) && text_leb (string_lower (p_path a.2)) (string_lower (p_path b.2))).

Definition list_projects (d : db) : list (Z * project_row) :=
  sort_by project_before (map_to_list (projects d)).

(** [Iterator::max_by_key]: the last of the largest. *)
Definition max_by_key {A} (key : A -> nat) (l : list A) : option A :=
  foldl (fun best a => match best with
                       | None => Some a
                       | Some b => if key b <=? key a then Some a else best
                       end) None l.

Definition agent_project_for_board (board_dir : path) (d : db) : option (Z * project_row) :=
  max_by_key (fun p => String.length (p_path p.2))
    (List.filter
       (fun p => bool_decide (components (p_path p.2) ++ [str "tasks"] `prefix_of` board_dir))
       (list_projects d)).

Definition project_with_id (pid : Z) (d : db) : option (Z * project_row) :=
  List.find (fun p => (p.1 =? pid)%Z) (list_projects d).

(** ** The Git mode of a conversation *)

(** [session_git_modes_are_available] fails: the table exists from schema
    version 20 on. *)
Definition modes_missing (pending_migration_version : option Z) : bool :=
  match pending_migration_version with Some v => (v <=? 19)%Z | None => false end.

Section Mode.
Context (pending_migration_version : option Z).
(** [legacy_agent_log_proves_git_off]: what an old log file says. *)
Context (log_proves_git_off : string -> bool).

Definition effective_agent_git_mode (project : Z * project_row) (resume_session_id : option string)
    : wio AgentGitMode :=
  match resume_session_id with
  | None => wret (p_git_mode project.2)
  | Some sid =>
      run! finalization := query (git_finalization project.1 sid) in
      match finalization with
      | Some g =>
          wret (if Finalization.is_terminal (g_state g) then p_git_mode project.2
                else g_git_mode g)
      | None =>
          if modes_missing pending_migration_version then wret (p_git_mode project.2)
          else
            run! mode := query (session_git_mode pending_migration_version project.1 sid) in
            match mode with
            | Some mode => wret mode
            | None =>
                run! control := query_res (session_control project.1 sid) in
                match control ≫= sc_stderr_path with
                | Some path =>
                    if log_proves_git_off path then
                      run! _ := on_registry (recover_unmanaged_session_git_mode project.1 sid path) in
                      run! mode := query (session_git_mode pending_migration_version project.1 sid) in
                      wret (default (p_git_mode project.2) mode)
                    else wret (p_git_mode project.2)
                | None => wret (p_git_mode project.2)
                end
            end
      end
  end.
End Mode.

Lemma wbind_inv {A B} (c : wio A) (k : A -> wio B) w r w' :
  wbind c k w = (r, w') ->
  (exists e, c w = (Err e, w') /\ r = Err e) \/ (exists a w1, c w = (Ok a, w1) /\ k a w1 = (r, w')).
Proof.
  unfold wbind. destruct (c w) as [[a|e] w1]; [by right; exists a, w1|].
  intros [= <- <-]. left. by exists e.
Qed.

Lemma wbind_ext {A B} (c : wio A) (k1 k2 : A -> wio B) w :
  (forall a w', c w = (Ok a, w') -> k1 a w' = k2 a w') -> wbind c k1 w = wbind c k2 w.
Proof. intros Hk. unfold wbind. destruct (c w) as [[a|e] w1]; [by apply Hk|done]. Qed.

(** One step of a computation that ended in [(r, w')]. *)
Ltac wstep H e a w1 Hc :=
  apply wbind_inv in H as [(e & Hc & ->)|(a & w1 & Hc & H)].

(** The same of a computation that succeeded. *)
Ltac wok H a w1 Hc :=
  apply wbind_inv in H as [(? & _ & [=])|(a & w1 & Hc & H)].

Lemma ensure_inv b e w r w' :
  ensure b e w = (r, w') -> w' = w /\ (b = true /\ r = Ok tt \/ b = false /\ r = Err e).
Proof. unfold ensure, wret, refuse. destruct b; intros [= <- <-]; auto. Qed.

Lemma need_inv {A} (o : option A) e w r w' :
  need o e w = (r, w') ->
  w' = w /\ ((exists a, o = Some a /\ r = Ok a) \/ (o = None /\ r = Err e)).
Proof. unfold need, wret, refuse. destruct o; intros [= <- <-]; eauto. Qed.

Lemma query_inv {A} (f : db -> A) w r w' : query f w = (r, w') -> w' = w /\ r = Ok (f (registry w)).
Proof. by intros [= <- <-]. Qed.

Lemma query_res_inv {A} (f : db -> res store_error A) w r w' :
  query_res f w = (r, w') ->
  w' = w /\ ((exists a, f (registry w) = Ok a /\ r = Ok a)
             \/ (exists e, f (registry w) = Err e /\ r = Err (RegistryError e))).
Proof. unfold query_res. destruct (f (registry w)); intros [= <- <-]; eauto. Qed.

Lemma on_board_inv {A} (c : io A) w r w' :
  on_board c w = (r, w') ->
  registry w' = registry w /\ tree w' = (c (tree w)).2
  /\ ((exists a, (c (tree w)).1 = Ok a /\ r = Ok a) \/ (exists e, r = Err (BoardError e))).
Proof. unfold on_board. destruct (c (tree w)) as [[a|e] s]; intros [= <- <-]; eauto 6. Qed.

Lemma on_registry_inv {A} (c : store_op A) w r w' :
  on_registry c w = (r, w') ->
  tree w' = tree w /\ registry w' = (c (registry w)).2
  /\ ((exists a, (c (registry w)).1 = Ok a /\ r = Ok a)
      \/ (exists e, (c (registry w)).1 = Err e /\ r = Err (RegistryError e))).
Proof. unfold on_registry. destruct (c (registry w)) as [[a|e] d]; intros [= <- <-]; eauto 6. Qed.

(** ** Operations that leave the board alone *)

Definition keeps_tree {A} (c : wio A) : Prop := forall w, tree (c w).2 = tree w.

Lemma keeps_tree_bind {A B} (c : wio A) (k : A -> wio B) :
  keeps_tree c -> (forall a, keeps_tree (k a)) -> keeps_tree (wbind c k).
Proof.
  intros Hc Hk w. unfold wbind. specialize (Hc w). destruct (c w) as [[a|e] w1]; [|done].
  rewrite Hk. done.
Qed.
Lemma keeps_tree_ret {A} (a : A) : keeps_tree (wret a).
Proof. done. Qed.
Lemma keeps_tree_refuse {A} e : keeps_tree (@refuse A e).
Proof. done. Qed.
Lemma keeps_tree_ensure b e : keeps_tree (ensure b e).
Proof. by destruct b. Qed.
Lemma keeps_tree_need {A} (o : option A) e : keeps_tree (need o e).
Proof. by destruct o. Qed.
Lemma keeps_tree_query {A} (f : db -> A) : keeps_tree (query f).
Proof. done. Qed.
Lemma keeps_tree_query_res {A} (f : db -> res store_error A) : keeps_tree (query_res f).
Proof. intros w. unfold query_res. by destruct (f (registry w)). Qed.
Lemma keeps_tree_registry {A} (c : store_op A) : keeps_tree (on_registry c).
Proof. intros w. unfold on_registry. by destruct (c (registry w)) as [[]]. Qed.
Lemma keeps_tree_for_each {A} (f : A -> wio unit) (l : list A) :
  (forall a, keeps_tree (f a)) -> keeps_tree (wfor_each f l).
Proof.
  intros Hf. induction l as [|a l IH]; [apply keeps_tree_ret|]. by apply keeps_tree_bind.
Qed.

(** ** Operations that leave the board and the registry alone *)

(** Only Git ran: the files and the registry are as they were. *)
Definition still {A} (c : wio A) : Prop := forall w, exists n, (c w).2 = w <| git_runs := n |>.

Lemma still_inv {A} (c : wio A) w r w' :
  still c -> c w = (r, w') -> exists n, w' = w <| git_runs := n |>.
Proof. intros Hc H. specialize (Hc w). by rewrite H in Hc. Qed.
Lemma still_here w : exists n, w = w <| git_runs := n |>.
Proof. exists (git_runs w). by destruct w. Qed.
Lemma still_keeps_tree {A} (c : wio A) : still c -> keeps_tree c.
Proof. intros Hc w. by destruct (Hc w) as [n ->]. Qed.
Lemma still_bind {A B} (c : wio A) (k : A -> wio B) :
  still c -> (forall a, still (k a)) -> still (wbind c k).
Proof.
  intros Hc Hk w. unfold wbind. specialize (Hc w). destruct (c w) as [[a|e] w1]; [|done].
  destruct Hc as [n Hn]. cbn [snd] in Hn. subst w1. destruct (Hk a (w <| git_runs := n |>)) as [m Hm].
  exists m. rewrite Hm. done.
Qed.
Lemma still_ret {A} (a : A) : still (wret a).
Proof. intros w. apply still_here. Qed.
Lemma still_refuse {A} e : still (@refuse A e).
Proof. intros w. apply still_here. Qed.
Lemma still_ensure b e : still (ensure b e).
Proof. destruct b; [apply still_ret|apply still_refuse]. Qed.
Lemma still_need {A} (o : option A) e : still (need o e).
Proof. destruct o; [apply still_ret|apply still_refuse]. Qed.
Lemma still_query {A} (f : db -> A) : still (query f).
Proof. intros w. apply still_here. Qed.
Lemma still_query_res {A} (f : db -> res store_error A) : still (query_res f).
Proof. intros w. unfold query_res. destruct (f (registry w)); apply still_here. Qed.
Lemma still_for_each {A} (f : A -> wio unit) (l : list A) :
  (forall a, still (f a)) -> still (wfor_each f l).
Proof. intros Hf. induction l as [|a l IH]; [apply still_ret|]. by apply still_bind. Qed.

Create HintDb still_db.
#[export] Hint Resolve still_ret still_refuse still_ensure still_need still_query still_query_res
  : still_db.

(** Proves [still] along the code. *)
Ltac stay :=
  repeat first
    [ progress intros
    | solve [auto with still_db nocore]
    | match goal with
      | |- still (wbind _ _) => apply still_bind
      | |- still (wfor_each _ _) => apply still_for_each
      | |- still (match ?x with _ => _ end) => destruct x
      | |- still (let '(_, _) := ?x in _) => destruct x
      end ].

(** Steps over a computation that only ran Git. *)
Ltac wstill Hc := apply still_inv in Hc as [? ->]; [|solve [stay]].

(** ** Operations that leave the registry alone *)

Definition keeps_registry {A} (c : wio A) : Prop := forall w, registry (c w).2 = registry w.

Lemma keeps_registry_inv {A} (c : wio A) w r w' :
  keeps_registry c -> c w = (r, w') -> registry w' = registry w.
Proof. intros Hc H. specialize (Hc w). by rewrite H in Hc. Qed.
Lemma still_keeps_registry {A} (c : wio A) : still c -> keeps_registry c.
Proof. intros Hc w. by destruct (Hc w) as [n ->]. Qed.
Lemma keeps_registry_bind {A B} (c : wio A) (k : A -> wio B) :
  keeps_registry c -> (forall a, keeps_registry (k a)) -> keeps_registry (wbind c k).
Proof.
  intros Hc Hk w. unfold wbind. specialize (Hc w). destruct (c w) as [[a|e] w1]; [|done].
  rewrite Hk. done.
Qed.
Lemma keeps_registry_board {A} (c : io A) : keeps_registry (on_board c).
Proof. intros w. unfold on_board. by destruct (c (tree w)) as [[]]. Qed.
Lemma keeps_registry_for_each {A} (f : A -> wio unit) (l : list A) :
  (forall a, keeps_registry (f a)) -> keeps_registry (wfor_each f l).
Proof.
  intros Hf. induction l as [|a l IH]; [by intros w|]. by apply keeps_registry_bind.
Qed.

Create HintDb registry_db.
#[export] Hint Resolve still_keeps_registry : registry_db.

(** Proves [keeps_registry] along the code. *)
Ltac keep_registry :=
  repeat first
    [ progress intros
    | apply keeps_registry_board
    | solve [auto with registry_db still_db nocore]
    | match goal with
      | |- keeps_registry (wbind _ _) => apply keeps_registry_bind
      | |- keeps_registry (wfor_each _ _) => apply keeps_registry_for_each
      | |- keeps_registry (match ?x with _ => _ end) => destruct x
      | |- keeps_registry (let '(_, _) := ?x in _) => destruct x
      end ].

(** Steps over a computation that left the registry alone. *)
Ltac wquiet Hc Hr :=
  apply keeps_registry_inv in Hc as Hr; [|solve [keep_registry]].

(** Proves [keeps_tree] along the code. *)
Ltac keep_tree :=
  repeat first
    [ progress intros
    | apply keeps_tree_ret | apply keeps_tree_refuse | apply keeps_tree_ensure
    | apply keeps_tree_need | apply keeps_tree_query | apply keeps_tree_query_res
    | apply keeps_tree_registry
    | solve [apply still_keeps_tree; auto with still_db nocore]
    | match goal with
      | |- keeps_tree (wbind _ _) => apply keeps_tree_bind
      | |- keeps_tree (wfor_each _ _) => apply keeps_tree_for_each
      | |- keeps_tree (match ?x with _ => _ end) => destruct x
      | |- keeps_tree (let '(_, _) := ?x in _) => destruct x
      end ].

(** ** Operations that keep an invariant of the registry *)

(** [c] keeps [I], and what it returns satisfies [Q]. *)
Definition maintains {A} (I : db -> Prop) (Q : A -> Prop) (c : wio A) : Prop :=
  forall w, I (registry w) -> I (registry (c w).2) /\ (forall a, (c w).1 = Ok a -> Q a).

Section Maintains.
Context (I : db -> Prop).

Lemma maintains_bind {A B} (P : A -> Prop) (Q : B -> Prop) (c : wio A) (k : A -> wio B) :
  maintains I P c -> (forall a, P a -> maintains I Q (k a)) -> maintains I Q (wbind c k).
Proof.
  intros Hc Hk w Hw. unfold wbind. specialize (Hc w Hw). destruct (c w) as [[a|e] w1]; cbn in *.
  - destruct Hc as [Hw1 Ha]. by apply Hk; [apply Ha|].
  - by destruct Hc.
Qed.
Lemma maintains_weaken {A} (P Q : A -> Prop) (c : wio A) :
  maintains I P c -> (forall a, P a -> Q a) -> maintains I Q c.
Proof. intros Hc HPQ w Hw. destruct (Hc w Hw) as [Hw' Ha]. split; [done|]. intros a H. by apply HPQ, Ha. Qed.
Lemma maintains_quiet {A} (c : wio A) : keeps_registry c -> maintains I (fun _ => True) c.
Proof. intros Hc w Hw. by rewrite Hc. Qed.
Lemma maintains_ret {A} (Q : A -> Prop) a : Q a -> maintains I Q (wret a).
Proof. intros Ha w Hw. split; [done|]. by intros ? [= <-]. Qed.
Lemma maintains_refuse {A} (Q : A -> Prop) e : maintains I Q (refuse e).
Proof. intros w Hw. by split. Qed.
Lemma maintains_ensure b e : maintains I (fun _ => b = true) (ensure b e).
Proof. destruct b; [by apply maintains_ret|apply maintains_refuse]. Qed.
Lemma maintains_need {A} (o : option A) e : maintains I (fun a => o = Some a) (need o e).
Proof. destruct o; [by apply maintains_ret|apply maintains_refuse]. Qed.
Lemma maintains_query {A} (f : db -> A) : maintains I (fun a => exists d, I d /\ a = f d) (query f).
Proof. intros w Hw. split; [done|]. intros a [= <-]. by eexists. Qed.
Lemma maintains_registry {A} (c : store_op A) :
  (forall d, I d -> I (c d).2) -> maintains I (fun _ => True) (on_registry c).
Proof.
  intros Hc w Hw. specialize (Hc _ Hw). unfold on_registry. by destruct (c (registry w)) as [[a|e] d].
Qed.
End Maintains.

Create HintDb maintains_db.

(** Proves [maintains] along the code, up to what the values must satisfy. *)
Ltac maintain_first :=
  first [ solve [eauto with maintains_db nocore]
        | apply maintains_ensure | apply maintains_need | apply maintains_query
        | apply maintains_quiet; solve [keep_registry] ].
Ltac maintain :=
  repeat first
    [ progress intros
    | apply maintains_refuse
    | solve [apply maintains_ret; first [done|assumption]]
    | solve [eauto with maintains_db nocore]
    | match goal with
      | |- maintains _ _ (wbind _ _) =>
          first [ eapply maintains_bind; [maintain_first|cbv beta]
                | apply (maintains_bind _ (fun _ => True)) ]
      | |- maintains _ (fun _ => True) _ => apply maintains_quiet; solve [keep_registry]
      | |- maintains _ _ (match ?x with _ => _ end) => destruct x eqn:?
      | |- maintains _ _ (let '(_, _) := ?x in _) => destruct x eqn:?
      end ].
