(* ===== verification/Surroundings.v ===== *)
(** What the program's operations ask of their surroundings: other crates'
    functions, and the answers of Git, of services and of the operating system. *)
From S2P Require Import Prelude Sql AgentTypes Store Text Metadata TaskEntry Files Board World.

(** ** JSON values, as serde_json presents them *)

Inductive json :=
| JNull
| JBool (b : bool)
| JNat (n : N)
| JNumber (other : text)
| JString (s : text)
| JArray (items : list json)
| JObject (fields : list (text * json)).

Fixpoint field (key : text) (fields : list (text * json)) : option json :=
  match fields with
  | [] => None
  | (k, v) :: rest => if k == key then Some v else field key rest
  end.

(** [Value::get]. *)
Definition json_get (key : text) (j : json) : option json :=
  match j with JObject fields => field key fields | _ => None end.
Definition as_object (j : json) : option (list (text * json)) :=
  match j with JObject fields => Some fields | _ => None end.
Definition as_text (j : json) : option text := match j with JString s => Some s | _ => None end.
Definition as_bool (j : json) : option bool := match j with JBool b => Some b | _ => None end.
Definition as_u64 (j : json) : option N := match j with JNat n => Some n | _ => None end.
Definition json_is_null (j : json) : bool := match j with JNull => true | _ => false end.

Definition of_option (o : option text) : json :=
  match o with Some s => JString s | None => JNull end.

(** ** Running Git

    A command runs in the project's directory, with arguments, possibly on a
    private index (named by the command that made it) and a private worktree,
    with variables and an input. [checkout] is what it wrote into the private
    worktree. *)

Record git_command := mkGit {
  g_root : path; g_args : list text; g_index : option nat; g_worktree : option node;
  g_env : list (text * text); g_input : option text
}.

(** [stdout] is absent when it is not UTF-8. *)
Record git_output := mkOutput { exit_code : option Z; stdout : option text; checkout : node }.

(** The answer to the [n]-th command, or none when Git cannot be started. *)
Definition git_oracle := nat -> git_command -> option git_output.

(** ** The surroundings *)

Record Surroundings := mkSurroundings {
  unicode : UnicodeCase;
  to_json : Metadata -> text;
  from_json : text -> option Metadata;
  json_print : json -> text;
  json_parse : text -> option json;
  uuid_parses : text -> bool;
  evidence_json : text -> option text -> Scope -> list text -> text;
  uuid_v5 : text -> text;
  git_status : path -> node -> option string;
  git : git_oracle;
  (** The registry file exists, and the schema change it waits for. *)
  registry_exists : bool;
  pending_migration_version : option Z;
  log_proves_git_off : string -> bool;
  (** [agent_timestamp_seconds] after so many Git commands. *)
  clock : nat -> Z;
  own_pid : Z;
  local_process_is_running : Z -> option bool;
  (** [drain_agent_worker_service]: the service manager's answer. *)
  drain_worker : string -> option bool;
  (** Whether the lock of a repository's finalization is granted to an owner. *)
  finalization_lock : nat -> path -> text -> bool
}.

Section Clock.
Context (E : Surroundings).

Definition agent_timestamp_seconds : wio Z := fun w => (Ok (clock E (git_runs w)), w).
Definition agent_timestamp : wio string := fun w => (Ok (dec (clock E (git_runs w))), w).
Definition agent_timestamp_after (seconds : Z) : wio string := fun w =>
  let at_ := (clock E (git_runs w) + seconds)%Z in
  (Ok (dec (if (at_ <=? i64_max)%Z then at_ else clock E (git_runs w))), w).

Definition acquire_finalization (root : path) (owner : text) : wio unit := fun w =>
  ensure (finalization_lock E (git_runs w) root owner) GitError w.
End Clock.
