(* ===== verification/Git.v ===== *)
(** Git as the program uses it (src/managed_git.rs): running commands, reading
    the task board of a commit, and the facts of a commit that prove a task. *)
From S2P Require Import Prelude Sql AgentTypes Store Text Markers TaskNotes Metadata.
From S2P Require Import TaskEntry Files Board BoardTree World Surroundings.

Definition AGENT_GIT_IDENTITY_NAME : text := str "CLT Agent".
Definition AGENT_GIT_IDENTITY_EMAIL : text := str "clt-agent@localhost".

(** ** The completed note *)

Definition task_content_has_completed_note (content : text) : bool :=
  negb (task_content_is_blocked content)
  && existsb (fun line =>
       let uppercase := to_ascii_uppercase line in
       existsb (note_marker_at uppercase (str "COMPLETED ")) (match_indices (str "COMPLETED ") uppercase))
       (lines content).

Section Git.
Context (git : git_oracle).

(** ** Running commands *)

Definition run_git (command : git_command) : wio git_output := fun w =>
  (match git (git_runs w) command with Some o => Ok o | None => Err GitError end,
   w <| git_runs := S (git_runs w) |>).

Definition plain (root : path) (args : list text) : git_command := mkGit root args None None [] None.

Definition succeeded (o : git_output) : bool := exit_code o == Some 0%Z.

Definition output_text (o : git_output) : wio text :=
  run! _ := ensure (succeeded o) GitError in
  run! out := need (stdout o) GitError in
  wret (trim out).

Definition git_stdout (root : path) (args : list text) : wio text :=
  run! o := run_git (plain root args) in output_text o.

Definition git_optional_stdout (root : path) (args : list text) (absent_exit_codes : list Z)
    : wio (option text) :=
  run! o := run_git (plain root args) in
  if succeeded o then run! out := need (stdout o) GitError in wret (Some (trim out))
  else if match exit_code o with Some c => bool_decide (c ∈ absent_exit_codes) | None => false end
       then wret None
  else refuse GitError.

(** The records of a NUL-separated list, without the empty ones. *)
Definition nul_records (out : text) : list text :=
  List.filter (fun r => r =! []) (split_char 0 out).

Definition git_nul_separated_paths (root : path) (args : list text) : wio (list text) :=
  run! o := run_git (plain root args) in
  run! _ := ensure (succeeded o) GitError in
  run! out := need (stdout o) GitError in
  wret (nul_records out).

Definition git_hash_stdin (root : path) (bytes : text) : wio text :=
  run! o := run_git (mkGit root [str "hash-object"; str "--stdin"] None None [] (Some bytes)) in
  output_text o.

(** ** Commits and branches *)

Definition resolve_git_commit (root : path) (reference : text) : wio text :=
  git_stdout root [str "rev-parse"; str "--verify"; reference ++ str "^{commit}"].

Definition git_commit_tree (root : path) (reference : text) : wio text :=
  git_stdout root [str "rev-parse"; str "--verify"; reference ++ str "^{tree}"].

Definition current_agent_git_branch (root : path) : wio (option text) :=
  git_optional_stdout root [str "symbolic-ref"; str "-q"; str "HEAD"] [1%Z].

Definition current_agent_git_head (root : path) : wio text := resolve_git_commit root (str "HEAD").

Definition git_commit_is_ancestor (root : path) (ancestor descendant : text) : wio bool :=
  run! o := run_git (plain root [str "merge-base"; str "--is-ancestor"; ancestor; descendant]) in
  if exit_code o == Some 0%Z then wret true
  else if exit_code o == Some 1%Z then wret false
  else refuse GitError.

Definition git_commit_is_first_parent_ancestor (root : path) (ancestor descendant : text) : wio bool :=
  if ancestor == descendant then wret true
  else
    run! out := git_stdout root [str "rev-list"; str "--first-parent"; descendant] in
    wret (bool_decide (ancestor ∈ lines out)).

Definition commits_between (root : path) (start tip : text) : wio (list text) :=
  run! out := git_stdout root [str "rev-list"; str "--first-parent"; str "--reverse";
                               start ++ str ".." ++ tip] in
  wret (List.filter (fun l => l =! []) (lines out)).

Definition commit_parents (root : path) (commit : text) : wio (list text) :=
  run! out := git_stdout root [str "show"; str "-s"; str "--format=%P"; commit] in
  wret (split_whitespace out).

Definition git_commit_task_trailers (root : path) (commit : text) : wio (list text) :=
  run! out := git_stdout root [str "show"; str "-s";
                               str "--format=%(trailers:key=CLT-Task,valueonly)"; commit] in
  wret (List.filter (fun v => v =! []) (trim <$> lines out)).

Definition git_commit_uses_agent_identity (root : path) (commit : text) : wio bool :=
  run! out := git_stdout root [str "show"; str "-s"; str "--format=%an%x00%ae%x00%cn%x00%ce"; commit] in
  wret (split_char 0 out == [AGENT_GIT_IDENTITY_NAME; AGENT_GIT_IDENTITY_EMAIL;
                             AGENT_GIT_IDENTITY_NAME; AGENT_GIT_IDENTITY_EMAIL]).

(** [None]: a repository without upstream for the branch. *)
Definition resolve_agent_git_upstream (root : path) (branch_ref : option text) : wio (option text) :=
  let branch := default (str "HEAD") (branch_ref ≫= strip_prefix (str "refs/heads/")) in
  git_optional_stdout root [str "rev-parse"; str "--symbolic-full-name"; str "--verify";
                            branch ++ str "@{upstream}"] [1%Z; 128%Z].

(** ** The task board of a tree *)

Record GitTaskProofEntry := mkProofEntry { pe_status : TaskStatus; pe_content : text }.

Definition git_tree_has_directory (paths : list text) (directory : text) : bool :=
  existsb (starts_with (directory ++ str "/")) paths.

Definition git_tree_board_has_any_status_store (paths : list text) (board_dir : text) : bool :=
  existsb (fun status =>
    existsb (fun p => p == board_dir ++ str "/" ++ Status.as_str status ++ str ".md") paths
    || git_tree_has_directory paths (board_dir ++ str "/" ++ Status.as_str status)) Status.ALL.

(** A blob is read without the white space around it. *)
Definition git_ref_blob_content (root : path) (reference p : text) : wio text :=
  git_stdout root [str "cat-file"; str "blob"; reference ++ str ":" ++ p].

(** The children of a directory in the order of their names, and whether they
    are directories themselves. *)
Definition add_child (prefix : text) (children : gmap text bool) (p : text) : gmap text bool :=
  match strip_prefix prefix p with
  | None => children
  | Some remainder =>
      let child := default [] (head (split_char 47 remainder)) in
      if (child == []) || starts_with (str ".") child then children
      else
        let is_directory := length child <? length remainder in
        <[child := default false (children !! child) || is_directory]> children
  end.

Definition directory_children (paths : list text) (directory : text) : list (text * bool) :=
  map_to_sorted (foldl (add_child (directory ++ str "/")) ∅ paths).

Fixpoint wconcat {A B} (f : A -> wio (list B)) (l : list A) : wio (list B) :=
  match l with
  | [] => wret []
  | a :: l' => run! bs := f a in run! rest := wconcat f l' in wret (bs ++ rest)
  end.

Definition committed_task_content (root : path) (reference : text) (paths : list text)
    (task_path child : text) (is_directory : bool) : wio text :=
  if is_directory then
    match List.find (fun detail => bool_decide (detail ∈ paths))
            ((fun detail => task_path ++ str "/" ++ detail) <$> TASK_DETAIL_FILES) with
    | Some detail_path => git_ref_blob_content root reference detail_path
    | None => wret (title_from_path [child])
    end
  else git_ref_blob_content root reference task_path.

Fixpoint collect_git_ref_board_task_entries (fuel : nat) (root : path) (reference : text)
    (paths : list text) (board_dir : text) : wio (list GitTaskProofEntry) :=
  match fuel with
  | O => refuse (BoardError DepthExceeded)
  | S fuel' =>
      wconcat (fun status =>
        let status_dir := board_dir ++ str "/" ++ Status.as_str status in
        if git_tree_has_directory paths status_dir then
          wconcat (fun child : text * bool =>
            let '(child, is_directory) := child in
            let task_path := status_dir ++ str "/" ++ child in
            run! content := committed_task_content root reference paths task_path child is_directory in
            run! below := (if is_directory && git_tree_board_has_any_status_store paths task_path
                           then collect_git_ref_board_task_entries fuel' root reference paths task_path
                           else wret []) in
            wret (mkProofEntry status content :: below))
            (directory_children paths status_dir)
        else
          let markdown_path := board_dir ++ str "/" ++ Status.as_str status ++ str ".md" in
          if bool_decide (markdown_path ∈ paths) then
            run! content := git_ref_blob_content root reference markdown_path in
            wret (mkProofEntry status <$> omap (strip_prefix (str "- ")) (lines content))
          else wret []) Status.ALL
  end.

(** A nested board lies deeper than its parent in some path of the tree. *)
Definition tree_fuel (paths : list text) : nat := S (list_max (length <$> paths)).

(** The paths of the files [ls-tree] lists. *)
Definition tree_file (record : text) : res refusal (option text) :=
  match split_once [9%N] record with
  | None => Err GitError
  | Some (metadata, p) =>
      match split_whitespace metadata with
      | mode :: object_type :: _ =>
          Ok (if starts_with (str "100") mode && (object_type == str "blob") then Some p else None)
      | _ => Ok None
      end
  end.

Fixpoint tree_files (records : list text) : res refusal (list text) :=
  match records with
  | [] => Ok []
  | r :: rest =>
      let? p := tree_file r in
      let? ps := tree_files rest in
      Ok (match p with Some p => p :: ps | None => ps end)
  end.

Definition git_ref_task_entries (root : path) (reference : text) : wio (list GitTaskProofEntry) :=
  run! records := git_nul_separated_paths root
                    [str "ls-tree"; str "-r"; str "-z"; reference; str "--"; str "tasks"] in
  match tree_files records with
  | Err e => refuse e
  | Ok paths =>
      collect_git_ref_board_task_entries (tree_fuel paths) root reference paths (str "tasks")
  end.

(** ** What a board proves of a task *)

Definition session_markers (session_id content : text) : nat :=
  length (List.filter (fun m => m.2 == session_id) (codex_session_markers_in_task_content content)).

Definition linked_once (session_id : text) (entries : list GitTaskProofEntry) : bool :=
  list_sum ((fun e => session_markers session_id (pe_content e)) <$> entries) =? 1.

Definition completed_entry (session_id : text) (e : GitTaskProofEntry) : bool :=
  (session_markers session_id (pe_content e) =? 1)
  && (codex_session_id_from_task_content (pe_content e) == Some session_id)
  && (pe_status e == Done) && task_content_has_completed_note (pe_content e).

(** The conversation is linked once on the board, to one completed task. *)
Definition completed_identity (session_id : text) (entries : list GitTaskProofEntry) : option text :=
  match List.filter (completed_entry session_id) entries with
  | [e] => if linked_once session_id entries then durable_task_identity (pe_content e) else None
  | _ => None
  end.

Definition git_ref_completed_task_identity (root : path) (reference session_id : text)
    : wio (option text) :=
  run! entries := git_ref_task_entries root reference in
  wret (completed_identity session_id entries).

Definition git_ref_contains_completed_task (root : path) (reference session_id : text) : wio bool :=
  run! identity := git_ref_completed_task_identity root reference session_id in
  wret (negb (identity == None)).

Definition active_with_identity (task_identity : text) (e : GitTaskProofEntry) : bool :=
  Status.is_active (pe_status e) && (durable_task_identity (pe_content e) == Some task_identity).

Definition git_ref_active_task_identity_count (root : path) (reference task_identity : text) : wio nat :=
  run! entries := git_ref_task_entries root reference in
  wret (length (List.filter (active_with_identity task_identity) entries)).

Definition git_ref_contains_active_task_identity (root : path) (reference task_identity : text)
    : wio bool :=
  run! entries := git_ref_task_entries root reference in
  wret (existsb (active_with_identity task_identity) entries).

Definition require_agent_git_start_task_identity (root : path) (starting_head task_identity : text)
    : wio unit :=
  run! count := git_ref_active_task_identity_count root starting_head task_identity in
  ensure (count =? 1) GitError.

Definition git_ref_has_one_active_session_task (root : path) (reference session_id task_identity : text)
    : wio bool :=
  run! entries := git_ref_task_entries root reference in
  wret (linked_once session_id entries
        && (length (List.filter (fun e =>
              active_with_identity task_identity e
              && (codex_session_id_from_task_content (pe_content e) == Some session_id)) entries) =? 1)).

Definition git_ref_has_one_completed_session_task (root : path)
    (reference session_id task_identity : text) : wio bool :=
  run! entries := git_ref_task_entries root reference in
  wret (linked_once session_id entries
        && (length (List.filter (fun e =>
              (pe_status e == Done)
              && (codex_session_id_from_task_content (pe_content e) == Some session_id)
              && (durable_task_identity (pe_content e) == Some task_identity)
              && task_content_has_completed_note (pe_content e)) entries) =? 1)).
End Git.
