(* ===== verification/Manifest.v ===== *)
(** The manifest of a managed task (src/managed_git.rs): the work tree baseline a
    journal records, the commits that may precede its sealed tree, and the commit
    that proves it. *)
From S2P Require Import Prelude Sql AgentTypes Store Journals Retire.
From S2P Require Import Text Markers TaskNotes Metadata TaskEntry Files Board BoardTree.
From S2P Require Import World Surroundings Git.

Definition AGENT_GIT_BOARD_CHECKPOINT_MESSAGE : text := str "Record CLT task board".

(** ** The baseline and its JSON *)

Record AgentGitWorktreeBaseline := mkBaseline {
  b_version : N; tracked_patch_ids : gmap text text; untracked_blob_ids : gmap text text;
  require_clean : bool; initial_index_tree : option text;
  staged_non_task_patch_ids : option (gmap text text); staged_index_tree : option text;
  manifest_parent_head : option text; upstream_remote : option text;
  upstream_merge_ref : option text; upstream_push_url : option text
}.
#[export] Instance baseline_eta : Eta AgentGitWorktreeBaseline := fun b =>
  mkBaseline (b_version b) (tracked_patch_ids b) (untracked_blob_ids b) (require_clean b)
    (initial_index_tree b) (staged_non_task_patch_ids b) (staged_index_tree b)
    (manifest_parent_head b) (upstream_remote b) (upstream_merge_ref b) (upstream_push_url b).

Definition default_baseline : AgentGitWorktreeBaseline :=
  mkBaseline 2 ∅ ∅ false None None None None None None None.

Definition map_to_json (m : gmap text text) : json :=
  JObject ((fun kv => (kv.1, JString kv.2)) <$> map_to_sorted m).

Definition baseline_json (b : AgentGitWorktreeBaseline) : json :=
  JObject [
    (str "version", JNat (b_version b));
    (str "tracked_patch_ids", map_to_json (tracked_patch_ids b));
    (str "untracked_blob_ids", map_to_json (untracked_blob_ids b));
    (str "require_clean", JBool (require_clean b));
    (str "initial_index_tree", of_option (initial_index_tree b));
    (str "staged_non_task_patch_ids",
       match staged_non_task_patch_ids b with Some m => map_to_json m | None => JNull end);
    (str "staged_index_tree", of_option (staged_index_tree b));
    (str "manifest_parent_head", of_option (manifest_parent_head b));
    (str "upstream_remote", of_option (upstream_remote b));
    (str "upstream_merge_ref", of_option (upstream_merge_ref b));
    (str "upstream_push_url", of_option (upstream_push_url b))].

(** An object whose values are texts. *)
Fixpoint text_map (fields : list (text * json)) : option (gmap text text) :=
  match fields with
  | [] => Some ∅
  | (k, v) :: rest => s ← as_text v; m ← text_map rest; Some (<[k := s]> m)
  end.

Definition parse_map (key : text) (value : json) : option (gmap text text) :=
  (json_get key value ≫= as_object) ≫= text_map.

Definition parse_text (key : text) (value : json) : option text := json_get key value ≫= as_text.

(** [None] when the field is malformed. *)
Definition parse_index_tree (value : json) : option (option text) :=
  match json_get (str "initial_index_tree") value with
  | None => Some None
  | Some v => if json_is_null v then Some None else Some <$> as_text v
  end.

Definition parse_staged (value : json) : option (option (gmap text text)) :=
  match json_get (str "staged_non_task_patch_ids") value ≫= as_object with
  | None => Some None
  | Some fields => Some <$> text_map fields
  end.

Definition baseline_of_json (value : json) : option AgentGitWorktreeBaseline :=
  version ← json_get (str "version") value ≫= as_u64;
  if negb ((version =? 1) || (version =? 2))%N then None
  else
    tracked ← parse_map (str "tracked_patch_ids") value;
    untracked ← parse_map (str "untracked_blob_ids") value;
    index_tree ← parse_index_tree value;
    staged ← parse_staged value;
    Some (mkBaseline version tracked untracked
            (default false (json_get (str "require_clean") value ≫= as_bool)) index_tree staged
            (parse_text (str "staged_index_tree") value)
            (parse_text (str "manifest_parent_head") value)
            (parse_text (str "upstream_remote") value)
            (parse_text (str "upstream_merge_ref") value)
            (parse_text (str "upstream_push_url") value)).

(** A seal, however partial or malformed. *)
Definition names_sealed_field (value : json) : bool :=
  existsb (fun key => match json_get key value with Some v => negb (json_is_null v) | None => false end)
    (str <$> ["staged_non_task_patch_ids"; "staged_index_tree"; "manifest_parent_head"]).

Section Manifest.
Context (E : Surroundings).
Local Notation git := (Surroundings.git E).

Definition baseline_to_json (b : AgentGitWorktreeBaseline) : string :=
  utf8 (json_print E (baseline_json b)).

Definition baseline_from_json (raw : string) : option AgentGitWorktreeBaseline :=
  json_parse E (of_utf8 raw) ≫= baseline_of_json.

Definition read_baseline (raw : string) : wio AgentGitWorktreeBaseline :=
  need (baseline_from_json raw) GitError.

(** ** The commit that proves a task *)

(** The tree the task's journal sealed, on the parent it froze. *)
Definition git_commit_matches_agent_staged_manifest (root : path)
    (commit_oid session_id task_identity : text) (raw_baseline : string)
    (require_manifest_parent : bool) : wio bool :=
  run! baseline := read_baseline raw_baseline in
  match staged_non_task_patch_ids baseline, staged_index_tree baseline with
  | Some _, Some sealed_commit_tree =>
      run! parents := commit_parents git root commit_oid in
      match parents with
      | [parent] =>
          if require_manifest_parent && negb (manifest_parent_head baseline == Some parent)
          then wret false
          else
            run! committed_tree := git_commit_tree git root commit_oid in
            if committed_tree == sealed_commit_tree then
              run! identity := git_ref_completed_task_identity git root commit_oid session_id in
              wret (identity == Some task_identity)
            else wret false
      | _ => wret false
      end
  | _, _ => wret (b_version baseline =? 1)%N
  end.

(** One commit of the range: whether it carries the conversation's trailer, and
    whether it alone introduced the completed task on the frozen parent. *)
Definition commit_claims (root : path) (starting_head session_id task_identity : text)
    (legacy_identity_checks : bool) (starting_identity_count : nat) (commit : text)
    : wio (bool * bool) :=
  let expected_trailer := CODEX_TASK_SESSION_PREFIX ++ session_id in
  run! trailers := git_commit_task_trailers git root commit in
  let claimed := bool_decide (expected_trailer ∈ trailers) in
  if trailers =! [expected_trailer] then wret (claimed, false)
  else
    run! by_agent := git_commit_uses_agent_identity git root commit in
    if negb by_agent then wret (claimed, false)
    else
      run! identity := git_ref_completed_task_identity git root commit session_id in
      if identity =! Some task_identity then wret (claimed, false)
      else
        run! still_active :=
          (if legacy_identity_checks
           then git_ref_contains_active_task_identity git root commit task_identity else wret false) in
        if still_active then wret (claimed, false)
        else
          run! parents := commit_parents git root commit in
          match parents with
          | [parent] =>
              if parent =! starting_head then wret (claimed, false)
              else
                run! before := git_ref_contains_completed_task git root parent session_id in
                if before then wret (claimed, false)
                else if legacy_identity_checks then
                  run! count := git_ref_active_task_identity_count git root parent task_identity in
                  wret (claimed, count =? starting_identity_count)
                else wret (claimed, true)
          | _ => wret (claimed, false)
          end.

Fixpoint collect_claims (classify : text -> wio (bool * bool)) (commits : list text)
    : wio (nat * list text) :=
  match commits with
  | [] => wret (0, [])
  | commit :: rest =>
      run! found := classify commit in
      run! later := collect_claims classify rest in
      wret ((if found.1 then 1 else 0) + later.1, if found.2 then commit :: later.2 else later.2)
  end.

Definition find_agent_git_task_commit_with_policy (root : path) (starting_head : text)
    (branch_ref : option text) (session_id task_identity : text) (legacy_identity_checks : bool)
    : wio (option text) :=
  let branch_ref := default (str "HEAD") branch_ref in
  run! branch_tip := resolve_git_commit git root branch_ref in
  run! starting_identity_count := git_ref_active_task_identity_count git root starting_head task_identity in
  if legacy_identity_checks && (1 <? starting_identity_count) then wret None
  else
  run! descends := git_commit_is_first_parent_ancestor git root starting_head branch_tip in
  if negb descends then wret None
  else
  run! identity := git_ref_completed_task_identity git root branch_tip session_id in
  if identity =! Some task_identity then wret None
  else
  run! still_active :=
    (if legacy_identity_checks
     then git_ref_contains_active_task_identity git root branch_tip task_identity else wret false) in
  if still_active then wret None
  else
  run! before := git_ref_contains_completed_task git root starting_head session_id in
  if before then wret None
  else
  run! revisions := commits_between git root starting_head branch_tip in
  run! claims := collect_claims (commit_claims root starting_head session_id task_identity
                                   legacy_identity_checks starting_identity_count) revisions in
  match claims with
  | (1, [candidate]) =>
      run! rechecked := resolve_git_commit git root branch_ref in
      wret (if rechecked == branch_tip then Some candidate else None)
  | _ => wret None
  end.

(** ** What may precede the sealed tree *)

Definition concurrent_fields (out : text) : option (text * list text * text) :=
  match split_char 0 out with
  | parents :: an :: ae :: cn :: ce :: rest =>
      if rest == [] then None else Some (parents, [an; ae; cn; ce], join [0%N] rest)
  | _ => None
  end.

Definition has_agent_identity (ids : list text) : bool :=
  match ids with
  | [an; ae; cn; ce] =>
      bool_decide (AGENT_GIT_IDENTITY_NAME ∈ [an; cn]) || bool_decide (AGENT_GIT_IDENTITY_EMAIL ∈ [ae; ce])
  | _ => false
  end.

Definition git_commit_is_compatible_concurrent_work (root : path) (commit_oid current_session_id : text)
    : wio bool :=
  run! trailers := git_commit_task_trailers git root commit_oid in
  if trailers =! [] then wret false
  else
  run! completes := git_ref_contains_completed_task git root commit_oid current_session_id in
  if completes then wret false
  else
  run! metadata := git_stdout git root
                     [str "show"; str "-s"; str "--format=%P%x00%an%x00%ae%x00%cn%x00%ce%x00%B"; commit_oid] in
  match concurrent_fields metadata with
  | None => wret false
  | Some (parents, ids, message) =>
      if negb (length (split_whitespace parents) =? 1) then wret false
      else if negb (has_agent_identity ids) then wret true
      else if trim_end message =! AGENT_GIT_BOARD_CHECKPOINT_MESSAGE then wret false
      else
        run! by_agent := git_commit_uses_agent_identity git root commit_oid in
        if negb by_agent then wret false
        else
          run! paths := git_nul_separated_paths git root
                          ((str <$> ["diff-tree"; "--no-commit-id"; "--name-only"; "--no-renames"; "-r"; "-z"])
                           ++ [commit_oid; str "--"]) in
          wret (negb (paths == []) && forallb (starts_with (str "tasks/")) paths)
  end.

Definition git_commit_is_proven_completed_other_session (pid : Z) (root : path)
    (commit_oid current_session_id : text) : wio bool :=
  run! trailers := git_commit_task_trailers git root commit_oid in
  match trailers with
  | [trailer] =>
      match strip_prefix CODEX_TASK_SESSION_PREFIX trailer with
      | None => wret false
      | Some session_id =>
          if (session_id == []) || (session_id == current_session_id) then wret false
          else
          run! by_agent := git_commit_uses_agent_identity git root commit_oid in
          if negb by_agent then wret false
          else
          run! finalization := query (git_finalization pid (utf8 session_id)) in
          match finalization with
          | None => wret false
          | Some g =>
              match g_task_identity g with
              | None => wret false
              | Some task_identity =>
                  run! baseline := read_baseline (g_worktree_baseline g) in
                  if (g_state g =! Completed) || (b_version baseline <? 2)%N
                     || negb (g_commit_oid g == Some (utf8 commit_oid))
                  then wret false
                  else git_commit_matches_agent_staged_manifest root commit_oid session_id
                         (of_utf8 task_identity) (g_worktree_baseline g) true
              end
          end
      end
  | _ => wret false
  end.

Fixpoint wforall {A} (f : A -> wio bool) (l : list A) : wio bool :=
  match l with
  | [] => wret true
  | a :: l' => run! ok := f a in if ok then wforall f l' else wret false
  end.

Definition agent_git_range_is_safe_before_manifest (pid : Z) (root : path)
    (starting_head manifest_parent current_session_id : text) : wio bool :=
  if starting_head == manifest_parent then wret true
  else
  run! descends := git_commit_is_first_parent_ancestor git root starting_head manifest_parent in
  if negb descends then wret false
  else
  run! revisions := commits_between git root starting_head manifest_parent in
  wforall (fun commit =>
    run! concurrent := git_commit_is_compatible_concurrent_work root commit current_session_id in
    if concurrent then wret true
    else git_commit_is_proven_completed_other_session pid root commit current_session_id) revisions.
End Manifest.
