(* ===== verification/Scheduling.v ===== *)
(** Scheduling decisions (src/scheduler.rs): which task a project runs next,
    what a board scan counts, and the cooldowns between runs. *)
From S2P Require Import Prelude Sql AgentTypes Store.

Inductive AgentTaskSelection :=
| NextTodo | ResumeDoing | RecoverBlocked | ResumeSession | SupervisorReview | SupervisorRetry.
#[export] Instance AgentTaskSelection_eq_dec : EqDecision AgentTaskSelection.
Proof. solve_decision. Defined.

Module TaskSelection.
Definition label (s : AgentTaskSelection) : string :=
  match s with
  | NextTodo => "next_todo"
  | ResumeDoing => "resume_doing"
  | RecoverBlocked => "recover_blocked"
  | ResumeSession => "resume_session"
  | SupervisorReview => "supervisor_review"
  | SupervisorRetry => "supervisor_retry"
  end.

Definition from_label (value : string) : option AgentTaskSelection :=
  if value == "next_todo" then Some NextTodo
  else if value == "resume_doing" then Some ResumeDoing
  else if value == "recover_blocked" then Some RecoverBlocked
  else if value == "resume_session" then Some ResumeSession
  else if value == "supervisor_review" then Some SupervisorReview
  else if value == "supervisor_retry" then Some SupervisorRetry
  else None.
End TaskSelection.

(** ** The scheduling stage *)

Record AgentSchedulingDecisionRequest := mkDecisionRequest {
  has_resume_session : bool; resume_interrupted_task : bool; dr_has_blocked_task : bool;
  blocked_recovery_backoff_active : bool; dr_has_pending_task : bool
}.

Definition decide_agent_scheduling_stage (r : AgentSchedulingDecisionRequest)
  : option AgentTaskSelection :=
  if has_resume_session r then Some ResumeSession
  else if resume_interrupted_task r then Some ResumeDoing
  else if dr_has_blocked_task r && negb (blocked_recovery_backoff_active r)
  then Some RecoverBlocked
  else if dr_has_pending_task r then Some NextTodo
  else if dr_has_blocked_task r then Some RecoverBlocked
  else None.

(** ** Board scans; counts are [usize] with saturating arithmetic *)

Inductive AgentProjectScanStatus :=
| ScanPending | ScanBlocked | ScanEmpty | ScanMissing | ScanUninitialized
| ScanUnavailable (error : string).
#[export] Instance AgentProjectScanStatus_eq_dec : EqDecision AgentProjectScanStatus.
Proof. solve_decision. Defined.

Record AgentProjectScan := mkScan {
  scan_status : AgentProjectScanStatus; todo_count : Z; manual_todo_count : Z;
  coordination_wait_count : Z; blocked_todo_count : Z; stopped_todo_count : Z;
  doing_count : Z; blocked_doing_count : Z
}.
#[export] Instance scan_eta : Eta AgentProjectScan := fun r =>
  mkScan (scan_status r) (todo_count r) (manual_todo_count r) (coordination_wait_count r)
    (blocked_todo_count r) (stopped_todo_count r) (doing_count r) (blocked_doing_count r).

Definition saturating_sub (a b : Z) : Z := Z.max 0 (a - b).
Definition saturating_add (bound a b : Z) : Z := Z.min bound (a + b).

Module Scan.
Definition from_counts (todo blocked_todo stopped_todo doing blocked_doing : Z)
  : AgentProjectScan :=
  let available := saturating_sub (saturating_sub todo blocked_todo) stopped_todo in
  let task_count := saturating_add u64_max todo doing in
  let blocked_task_count := saturating_add u64_max blocked_todo blocked_doing in
  let status :=
    if (0 <? available)%Z then ScanPending
    else if (0 <? task_count)%Z && (blocked_task_count =? task_count)%Z then ScanBlocked
    else ScanEmpty in
  mkScan status todo 0 0 blocked_todo stopped_todo doing blocked_doing.

Definition of_status (s : AgentProjectScanStatus) : AgentProjectScan :=
  mkScan s 0 0 0 0 0 0 0.

Definition has_pending_task (s : AgentProjectScan) : bool := scan_status s == ScanPending.

Definition blocked_task_count (s : AgentProjectScan) : Z :=
  saturating_add u64_max (blocked_todo_count s) (blocked_doing_count s).

Definition has_blocked_task (s : AgentProjectScan) : bool := (0 <? blocked_task_count s)%Z.

Definition available_todo_count (s : AgentProjectScan) : Z :=
  saturating_sub (saturating_sub (saturating_sub (saturating_sub (todo_count s)
    (manual_todo_count s)) (blocked_todo_count s)) (stopped_todo_count s))
    (coordination_wait_count s).

Definition has_schedulable_work (s : AgentProjectScan) : bool :=
  has_pending_task s || has_blocked_task s.

Definition pending_signal (s : AgentProjectScan) : string :=
  if has_schedulable_work s then "yes" else "no".

Definition status_label (s : AgentProjectScan) : string :=
  match scan_status s with
  | ScanPending => "pending"
  | ScanBlocked => "blocked"
  | ScanEmpty => "empty"
  | ScanMissing => "missing"
  | ScanUninitialized => "uninitialized"
  | ScanUnavailable _ => "unavailable"
  end.
End Scan.

(** What [scan_agent_project] needs to know of a task. *)
Record ScannedTask := mkScanned {
  st_manual : bool; st_blocked : bool; st_stopped : bool; st_coordinated : bool
}.

(** [task_entry_is_ready] (src/task.rs). *)
Definition st_ready (t : ScannedTask) : bool :=
  negb (st_stopped t) && negb (st_blocked t) && negb (st_manual t).

Definition count_of {A} (p : A -> bool) (l : list A) : Z := Z.of_nat (length (List.filter p l)).

(** The counting part of [scan_agent_project], after the board was read. *)
Definition scan_entries (todo doing : list ScannedTask) : AgentProjectScan :=
  let waiting := count_of (fun t => st_ready t && negb (st_coordinated t)) todo in
  let total_todo := Z.of_nat (length todo) in
  let total_doing := Z.of_nat (length doing) in
  let todo := List.filter (fun t => negb (st_manual t)) todo in
  let doing := List.filter (fun t => negb (st_manual t)) doing in
  let blocked := fun t => st_blocked t && negb (st_stopped t) in
  let scan :=
    Scan.from_counts (Z.of_nat (length todo)) (count_of blocked todo)
      (count_of st_stopped todo) (Z.of_nat (length doing)) (count_of blocked doing) in
  let scan := scan <| coordination_wait_count := waiting |> in
  let scan :=
    if (Scan.available_todo_count scan =? 0)%Z && (scan_status scan == ScanPending)
    then scan <| scan_status := ScanEmpty |> else scan in
  scan <| manual_todo_count := (total_todo - Z.of_nat (length todo))%Z |>
       <| todo_count := total_todo |> <| doing_count := total_doing |>.

(** ** Settings read from the environment *)

Definition parse_agent_timeout_duration (raw : string) : option Z :=
  match parse_u64 raw with
  | Some n => if n == 0%Z then None else Some n
  | None => None
  end.

Definition parse_agent_positive_usize : string -> option Z := parse_agent_timeout_duration.

Definition AGENT_DEFAULT_RUN_TIMEOUT_SECONDS : Z := 0.

Definition parse_agent_run_timeout (raw : option string) : option Z :=
  match raw with
  | Some raw => parse_u64 raw
  | None => Some AGENT_DEFAULT_RUN_TIMEOUT_SECONDS
  end.

Definition AGENT_LEASE_RENEW_MAX_INTERVAL_MILLIS : Z := 15000.

(** In milliseconds; the timeout is a [Duration]. *)
Definition agent_lease_renew_interval (lease_timeout_millis : Z) : Z :=
  Z.min (Z.max (lease_timeout_millis / 3) 250) AGENT_LEASE_RENEW_MAX_INTERVAL_MILLIS.

(** ** Cooldowns *)

Definition remaining_agent_delay (last_at : option string) (now delay : Z) : option Z :=
  match last_at ≫= parse_u64 with
  | None => None
  | Some last_at =>
      let ready_at := saturating_add u64_max last_at delay in
      if (now <? ready_at)%Z then Some (ready_at - now)%Z else None
  end.

Definition reason_for (what : string) (remaining : Z) : string :=
  what +:+ " active for " +:+ dec remaining +:+ "s".

Definition failure_backoff_reason (p : project_row) (now failure_backoff : Z)
  : option string :=
  if (0 <? p_failure_count p)%Z
  then reason_for "failure backoff" <$>
         remaining_agent_delay (p_last_failure_at p) now failure_backoff
  else None.

Definition agent_project_cooldown_reason (p : project_row) (now success_cooldown failure_backoff : Z)
  : option string :=
  match failure_backoff_reason p now failure_backoff with
  | Some r => Some r
  | None =>
      reason_for "success cooldown" <$>
        remaining_agent_delay (p_last_success_at p) now success_cooldown
  end.

Definition blocked_recovery_backoff_reason (p : project_row) (now failure_backoff : Z)
  : option string :=
  reason_for "blocked-task recovery backoff" <$>
    remaining_agent_delay (p_last_blocked_recovery_at p) now failure_backoff.

Definition agent_task_cooldown_reason (p : project_row) (selection : AgentTaskSelection)
    (now success_cooldown failure_backoff : Z) : option string :=
  match selection with
  | ResumeDoing | ResumeSession => failure_backoff_reason p now failure_backoff
  | _ =>
      match agent_project_cooldown_reason p now success_cooldown failure_backoff with
      | Some r => Some r
      | None =>
          if selection == RecoverBlocked
          then blocked_recovery_backoff_reason p now failure_backoff else None
      end
  end.
