(* ===== verification/Projection.v ===== *)
(** Sealing a task (src/managed_git.rs): a tree is checked out into a private
    worktree with a private index, the task board there is changed with the
    board's own operations, and the tree it leaves is compared or sealed. *)
From S2P Require Import Prelude Sql AgentTypes Store.
From S2P Require Import Text Markers TaskNotes Metadata TaskEntry Files Board BoardTree.
From S2P Require Import World Surroundings Git Manifest.

(** A private index, named by the command that filled it, and the files of its
    private worktree. File names that are not UTF-8 are outside the model. *)
Record projection := mkProjection { pr_index : nat; pr_files : node }.

Section Projection.
Context (E : Surroundings).
Local Notation git := (Surroundings.git E).
Let U := unicode E.

Definition on_index (root : path) (index : nat) (args : list text) : git_command :=
  mkGit root args (Some index) None [] None.

Definition run_agent_git_projection_command (root : path) (index : nat) (files : option node)
    (args : list text) : wio text :=
  run! o := run_git git (mkGit root args (Some index) files [] None) in output_text o.

Definition materialize_agent_git_task_tree (root : path) (index : nat) (staged_tree : text) : wio node :=
  run! listed := run_git git (plain root [str "ls-tree"; str "-r"; str "-z"; str "--name-only";
                                          staged_tree; str "--"; str "tasks"]) in
  run! _ := ensure (succeeded listed) GitError in
  run! task_paths := need (stdout listed) GitError in
  run! o := run_git git (mkGit root (str <$> ["checkout-index"; "--force"; "--stdin"; "-z"; "--prefix"])
                           (Some index) None [] (Some task_paths)) in
  run! _ := ensure (succeeded o) GitError in
  wret (checkout o).

Definition create_agent_git_tree_projection (root : path) (source_tree : text) : wio projection :=
  fun w =>
  let index := git_runs w in
  (run! _ := run_agent_git_projection_command root index None [str "read-tree"; source_tree] in
   run! files := materialize_agent_git_task_tree root index source_tree in
   wret (mkProjection index files)) w.

(** A board operation on the private worktree, whose root is the empty path. *)
Definition on_projection {A} (c : io A) (p : projection) : wio (A * projection) :=
  match c (pr_files p) with
  | (Ok a, files) => wret (a, mkProjection (pr_index p) files)
  | (Err e, _) => refuse (BoardError e)
  end.

Definition projected_board : path := get_tasks_dir [].

Definition git_task_subtree (root : path) (root_tree : text) : wio text :=
  git_stdout git root [str "ls-tree"; root_tree; str "--"; str "tasks"].

Definition stage_projected_task_tree (root : path) (p : projection) : wio text :=
  run! _ := run_agent_git_projection_command root (pr_index p) (Some (pr_files p))
              (str <$> ["add"; "-A"; "--"; "tasks"]) in
  run_agent_git_projection_command root (pr_index p) (Some (pr_files p)) [str "write-tree"].

Fixpoint indexed_entries (board_dir : path) (statuses : list TaskStatus)
    : io (list (TaskStatus * nat * TaskEntry)) :=
  match statuses with
  | [] => ret []
  | status :: rest =>
      do! entries := read_task_entries U board_dir status in
      do! later := indexed_entries board_dir rest in
      ret (imap (fun i e => (status, S i, e)) entries ++ later)
  end.

Definition has_identity (task_identity : text) (e : TaskEntry) : bool :=
  durable_task_identity (content e) == Some task_identity.
Definition has_session (session_id : text) (e : TaskEntry) : bool :=
  codex_session_id_from_task_content (content e) == Some session_id.

Definition projected_task_entry (board_dir : path) (statuses : list TaskStatus)
    (session_id : option text) (task_identity : text) : io (option (TaskStatus * nat * TaskEntry)) :=
  do! entries := indexed_entries board_dir statuses in
  ret match List.filter (fun e => match session_id with Some s => has_session s e.2 | None => true end
                                  && has_identity task_identity e.2) entries with
      | [selected] => Some selected
      | _ => None
      end.

(** The committed board without the selected task, which is active there exactly
    once. *)
Definition agent_git_task_scope_without_selected (root : path) (source_tree task_identity : text)
    : wio text :=
  run! p := create_agent_git_tree_projection root source_tree in
  run! found := on_projection (projected_task_entry projected_board [Todo; Doing] None task_identity) p in
  let '(found, p) := found in
  run! selected := need found GitError in
  let '(status, _, entry) := selected in
  run! removed := on_projection (remove_task_entry_without_reordering projected_board status entry) p in
  run! sanitized_tree := stage_projected_task_tree root removed.2 in
  git_task_subtree root sanitized_tree.

(** A task that may accompany the commit: a new follow-up of the conversation,
    in a line or a file of its own. *)
Definition is_new_follow_up (session_id : text) (parent_entries : list GitTaskProofEntry)
    (files : node) (e : TaskStatus * nat * TaskEntry) : bool :=
  let '(status, _, entry) := e in
  (follow_up_session (content entry) == Some session_id)
  && follow_up_matches_status (content entry) status
  && match source entry with
     | MarkdownLine _ => true
     | PathSource p false => is_file p files
     | PathSource _ true => false
     end
  && negb (existsb (fun parent => follow_up_session (pe_content parent) == Some session_id)
             parent_entries).

Fixpoint remove_entries (board_dir : path) (entries : list (TaskStatus * nat * TaskEntry)) : io unit :=
  match entries with
  | [] => ret tt
  | (status, _, entry) :: rest =>
      do! _ := remove_task_entry_without_reordering board_dir status entry in
      remove_entries board_dir rest
  end.

Definition agent_git_completed_scope_without_selected (root : path)
    (completed_tree parent_tree session_id task_identity : text) : wio text :=
  run! p := create_agent_git_tree_projection root completed_tree in
  run! found := on_projection (projected_task_entry projected_board [Done] (Some session_id)
                                 task_identity) p in
  let '(found, p) := found in
  run! selected := need found GitError in
  run! removed := on_projection
                    (remove_task_entry_without_reordering projected_board Done selected.2) p in
  run! parent_entries := git_ref_task_entries git root parent_tree in
  run! active := on_projection (indexed_entries projected_board [Todo; Doing]) removed.2 in
  let '(active, p) := active in
  let follow_ups := List.filter (is_new_follow_up session_id parent_entries (pr_files p)) active in
  run! _ := ensure (length follow_ups <=? 1) GitError in
  run! sanitized := on_projection (remove_entries projected_board (rev follow_ups)) p in
  run! sanitized_tree := stage_projected_task_tree root sanitized.2 in
  git_task_subtree root sanitized_tree.

(** The staged tree with its task moved to Done: nothing else of the board may
    differ from the parent's. *)
Definition project_agent_git_completed_tree (root : path)
    (staged_tree session_id task_identity parent_tree expected_task_scope_tree : text) : wio text :=
  run! p := create_agent_git_tree_projection root staged_tree in
  run! found := on_projection (projected_task_entry projected_board [Todo; Doing] (Some session_id)
                                 task_identity) p in
  let '(found, p) := found in
  run! selected := need found GitError in
  let '(status, task_index, _) := selected in
  run! moved := on_projection
                  (move_task_without_reordering_after_lock U projected_board status Done task_index) p in
  run! completed_tree := stage_projected_task_tree root moved.2 in
  run! identity := git_ref_completed_task_identity git root completed_tree session_id in
  run! _ := ensure (identity == Some task_identity) GitError in
  run! scope := agent_git_completed_scope_without_selected root completed_tree parent_tree
                  session_id task_identity in
  run! _ := ensure (scope == expected_task_scope_tree) GitError in
  wret completed_tree.

(** ** The delta of a staged file *)

Definition METADATA_LINES : list text :=
  str <$> ["+"; "-"; "old mode "; "new mode "; "new file mode "; "deleted file mode ";
           "rename from "; "rename to "; "copy from "; "copy to "; "\ No newline at end of file"].

(** The lines of a diff that tell what changed, without where. *)
Fixpoint canonical_delta (in_binary_patch in_hunk : bool) (ls : list text) : text :=
  match ls with
  | [] => []
  | line :: rest =>
      let in_binary_patch := in_binary_patch || starts_with (str "GIT binary patch") line in
      if starts_with (str "@@") line then canonical_delta in_binary_patch true rest
      else if in_binary_patch || existsb (fun m => starts_with m line) METADATA_LINES then
        if negb in_hunk && (starts_with (str "--- ") line || starts_with (str "+++ ") line)
        then canonical_delta in_binary_patch in_hunk rest
        else line ++ canonical_delta in_binary_patch in_hunk rest
      else canonical_delta in_binary_patch in_hunk rest
  end.

Definition git_delta_id_for_path (root : path) (diff_arguments : list text) (p : text) : wio text :=
  run! o := run_git git (plain root ([str "diff"] ++ diff_arguments ++
              (str <$> ["--no-ext-diff"; "--binary"; "--full-index"; "--unified=0"; "--"]) ++ [p])) in
  run! _ := ensure (succeeded o) GitError in
  run! diff := need (stdout o) GitError in
  run! _ := ensure (diff =! []) GitError in
  let canonical := canonical_delta false false (split_inclusive_newline diff) in
  run! _ := ensure (canonical =! []) GitError in
  git_hash_stdin git root canonical.

Definition git_worktree_delta_id_for_path (root : path) (p : text) : wio text :=
  git_delta_id_for_path root [] p.

Definition git_untracked_blob_id (root : path) (p : text) : wio text :=
  git_stdout git root [str "hash-object"; str "--no-filters"; str "--"; p].

Fixpoint fingerprint_paths (fingerprint : text -> wio text) (paths : list text)
    (ids : gmap text text) : wio (gmap text text) :=
  match paths with
  | [] => wret ids
  | p :: rest => run! fp := fingerprint p in fingerprint_paths fingerprint rest (<[p := fp]> ids)
  end.

Definition outside_tasks (paths : list text) : list text :=
  List.filter (fun p => negb (starts_with (str "tasks/") p)) paths.

(** ** Sealing *)

Definition staged_paths (root : path) : wio (list text) :=
  git_nul_separated_paths git root (str <$> ["diff"; "--cached"; "--name-only"; "-z"; "--"]).

Definition agent_git_index_tree (root : path) : wio text := git_stdout git root [str "write-tree"].

Definition sealed_baseline (baseline : AgentGitWorktreeBaseline) (patch_ids : gmap text text)
    (tree parent : text) : string :=
  baseline_to_json E
    (baseline <| staged_non_task_patch_ids := Some patch_ids |> <| staged_index_tree := Some tree |>
              <| manifest_parent_head := Some parent |>).

Definition capture_agent_git_staged_manifest (pid : Z) (root : path) (raw_baseline : string)
    (session_id task_identity starting_head : text) (branch_ref : option text) : wio string :=
  run! baseline := read_baseline E raw_baseline in
  run! manifest_parent := resolve_git_commit git root (str "HEAD") in
  run! descends := git_commit_is_ancestor git root starting_head manifest_parent in
  run! safe := (if descends then agent_git_range_is_safe_before_manifest E pid root starting_head
                                   manifest_parent session_id else wret false) in
  run! _ := ensure safe GitError in
  run! expected := agent_git_task_scope_without_selected root manifest_parent task_identity in
  run! staged := staged_paths root in
  run! patch_ids := fingerprint_paths (git_delta_id_for_path root [str "--cached"])
                      (outside_tasks staged) ∅ in
  run! index_tree := agent_git_index_tree root in
  run! linked := git_ref_has_one_active_session_task git root index_tree session_id task_identity in
  run! _ := ensure linked GitError in
  run! sealed_tree := project_agent_git_completed_tree root index_tree session_id task_identity
                        manifest_parent expected in
  run! rechecked_parent := resolve_git_commit git root (str "HEAD") in
  run! rechecked_tree := agent_git_index_tree root in
  run! rechecked_branch := current_agent_git_branch git root in
  if (rechecked_parent =! manifest_parent) || (rechecked_tree =! index_tree)
     || (rechecked_branch =! branch_ref) then refuse GitError
  else
    run! descends := git_commit_is_ancestor git root starting_head rechecked_parent in
    run! _ := ensure descends GitError in
    wret (sealed_baseline baseline patch_ids sealed_tree manifest_parent).

Definition capture_agent_git_resealed_manifest (pid : Z) (root : path) (raw_baseline : string)
    (session_id task_identity starting_head : text) (branch_ref : option text) : wio string :=
  run! baseline := read_baseline E raw_baseline in
  run! _ := ensure (2 <=? b_version baseline)%N GitError in
  run! manifest_parent := resolve_git_commit git root (str "HEAD") in
  run! branch := current_agent_git_branch git root in
  run! _ := ensure (branch == branch_ref) GitError in
  run! descends := git_commit_is_ancestor git root starting_head manifest_parent in
  run! _ := ensure descends GitError in
  run! completed := git_ref_contains_completed_task git root manifest_parent session_id in
  run! _ := ensure (negb completed) GitError in
  run! safe := agent_git_range_is_safe_before_manifest E pid root starting_head manifest_parent
                 session_id in
  run! _ := ensure safe GitError in
  run! staged := staged_paths root in
  run! _ := ensure (staged =! []) GitError in
  run! patch_ids := fingerprint_paths (git_delta_id_for_path root [str "--cached"])
                      (outside_tasks staged) ∅ in
  run! sealed_tree := agent_git_index_tree root in
  run! linked := git_ref_has_one_completed_session_task git root sealed_tree session_id task_identity in
  run! _ := ensure linked GitError in
  run! expected := agent_git_task_scope_without_selected root manifest_parent task_identity in
  run! scope := agent_git_completed_scope_without_selected root sealed_tree manifest_parent
                  session_id task_identity in
  run! _ := ensure (scope == expected) GitError in
  run! rechecked_parent := resolve_git_commit git root (str "HEAD") in
  run! rechecked_tree := agent_git_index_tree root in
  run! rechecked_branch := current_agent_git_branch git root in
  run! _ := ensure ((rechecked_parent == manifest_parent) && (rechecked_tree == sealed_tree)
                    && (rechecked_branch == branch_ref)) GitError in
  wret (sealed_baseline baseline patch_ids sealed_tree manifest_parent).
End Projection.
