(* ===== verification/GitStart.v ===== *)
(** The Git boundary a run starts from (src/managed_git.rs): the checkout is
    synchronised, the task board checkpointed, and the head, branch, upstream and
    index frozen before the task may start. *)
From S2P Require Import Prelude Sql AgentTypes Store Sessions Journals Retire Scheduling.
From S2P Require Import Text Markers TaskNotes Metadata TaskEntry Files Board BoardTree.
From S2P Require Import World Surroundings Git Manifest Projection.

Record AgentGitUpstreamDestination := mkDestination {
  ud_remote : text; ud_merge_ref : text; ud_push_url : option text
}.
#[export] Instance AgentGitUpstreamDestination_eq_dec : EqDecision AgentGitUpstreamDestination.
Proof. solve_decision. Defined.

Section Start.
Context (E : Surroundings).
Local Notation git := (Surroundings.git E).
Let U := unicode E.

Definition git_config (root : path) (key : text) : wio (option text) :=
  git_optional_stdout git root [str "config"; str "--get"; key] [1%Z].

(** ** The push destination *)

Definition capture_agent_git_upstream_destination (root : path) (branch_ref : option text)
    : wio (option AgentGitUpstreamDestination) :=
  match branch_ref ≫= strip_prefix (str "refs/heads/") with
  | None => wret None
  | Some branch_name =>
      let key name := str "branch." ++ branch_name ++ str name in
      run! upstream_remote := git_config root (key ".remote") in
      match upstream_remote with
      | None => wret None
      | Some upstream_remote =>
          run! branch_push_remote := git_config root (key ".pushRemote") in
          run! default_push_remote := git_config root (str "remote.pushDefault") in
          let remote := default upstream_remote (coalesce branch_push_remote default_push_remote) in
          run! _ := ensure (remote =! []) GitError in
          run! merge_ref := git_config root (key ".merge") in
          match merge_ref with
          | None => wret None
          | Some merge_ref =>
              run! _ := ensure (starts_with (str "refs/heads/") merge_ref) GitError in
              run! _ := ensure (remote =! str ".") GitError in
              run! urls := git_stdout git root [str "remote"; str "get-url"; str "--push"; str "--all"; remote] in
              match List.filter (fun u => u =! []) (lines urls) with
              | [url] => wret (Some (mkDestination remote merge_ref (Some url)))
              | _ => refuse GitError
              end
          end
      end
  end.

(** ** The index and the work tree *)

Definition require_agent_git_index_tree (root : path) (expected_tree : text) : wio unit :=
  run! tree := agent_git_index_tree E root in ensure (tree == expected_tree) GitError.

Definition require_agent_git_index_matches_head (root : path) : wio unit :=
  run! o := run_git git (plain root (str <$> ["diff"; "--cached"; "--quiet"; "--exit-code"; "--"])) in
  ensure (succeeded o) GitError.

Definition capture_agent_git_worktree_state (root : path) : wio AgentGitWorktreeBaseline :=
  run! tracked := git_nul_separated_paths git root (str <$> ["diff"; "--name-only"; "-z"; "--"]) in
  run! untracked := git_nul_separated_paths git root
                      (str <$> ["ls-files"; "--others"; "--exclude-standard"; "-z"; "--"]) in
  run! tracked_ids := fingerprint_paths (git_worktree_delta_id_for_path E root) tracked ∅ in
  run! untracked_ids := fingerprint_paths (git_untracked_blob_id E root) untracked ∅ in
  wret (default_baseline <| tracked_patch_ids := tracked_ids |> <| untracked_blob_ids := untracked_ids |>).

Definition ensure_agent_git_index_preflight (root : path) (git_mode : AgentGitMode)
    (resuming_known_session : bool) : wio unit :=
  if (git_mode == GitOff) || resuming_known_session then wret tt
  else run! _ := agent_git_index_tree E root in wret tt.

(** ** Freezing the start *)

Definition destination_of_mode (root : path) (git_mode : AgentGitMode) (branch_ref : option text)
    : wio (option AgentGitUpstreamDestination) :=
  if git_mode == GitCommitAndPush then capture_agent_git_upstream_destination root branch_ref
  else wret None.

Definition with_destination (destination : option AgentGitUpstreamDestination)
    (b : AgentGitWorktreeBaseline) : AgentGitWorktreeBaseline :=
  match destination with
  | None => b
  | Some u => b <| upstream_remote := Some (ud_remote u) |>
                <| upstream_merge_ref := Some (ud_merge_ref u) |>
                <| upstream_push_url := ud_push_url u |>
  end.

Definition capture_agent_git_start_state (root : path) (git_mode : AgentGitMode)
    : wio AgentGitStartState :=
  run! index_tree := agent_git_index_tree E root in
  run! starting_head := git_stdout git root [str "rev-parse"; str "--verify"; str "HEAD^{commit}"] in
  run! branch_ref := current_agent_git_branch git root in
  run! _ := ensure (negb (branch_ref == None)) GitError in
  run! upstream_ref := git_optional_stdout git root
                         [str "rev-parse"; str "--symbolic-full-name"; str "--verify"; str "@{upstream}"]
                         [1%Z; 128%Z] in
  run! _ := ensure (negb ((git_mode == GitCommitAndPush) && (upstream_ref == None))) GitError in
  run! destination := destination_of_mode root git_mode branch_ref in
  run! _ := ensure (negb ((git_mode == GitCommitAndPush) && (destination == None))) GitError in
  run! state := capture_agent_git_worktree_state root in
  let baseline := with_destination destination (state <| initial_index_tree := Some index_tree |>) in
  run! _ := require_agent_git_index_tree root index_tree in
  run! rechecked_head := resolve_git_commit git root (str "HEAD") in
  run! rechecked_branch := current_agent_git_branch git root in
  run! rechecked_upstream := resolve_agent_git_upstream git root branch_ref in
  run! rechecked_destination := destination_of_mode root git_mode branch_ref in
  run! _ := ensure ((rechecked_head == starting_head) && (rechecked_branch == branch_ref)
                    && (rechecked_upstream == upstream_ref)
                    && (rechecked_destination == destination)) GitError in
  wret (mkStart (utf8 starting_head) (utf8 <$> branch_ref) (utf8 <$> upstream_ref)
          (baseline_to_json E baseline)).

Definition frozen_destination (b : AgentGitWorktreeBaseline) : AgentGitUpstreamDestination :=
  mkDestination (default [] (upstream_remote b)) (default [] (upstream_merge_ref b))
    (upstream_push_url b).

Definition verify_agent_git_start_state_unchanged (root : path) (git_mode : AgentGitMode)
    (start : AgentGitStartState) : wio unit :=
  run! current_head := resolve_git_commit git root (str "HEAD") in
  run! current_branch := current_agent_git_branch git root in
  run! current_upstream := resolve_agent_git_upstream git root current_branch in
  run! expected := read_baseline E (st_worktree_baseline start) in
  run! index_tree := agent_git_index_tree E root in
  run! expected_index_tree :=
    (match initial_index_tree expected with
     | Some t => wret t
     | None => git_commit_tree git root (of_utf8 (st_starting_head start))
     end) in
  run! destination := destination_of_mode root git_mode current_branch in
  let upstream_is_unchanged :=
    (git_mode =! GitCommitAndPush) || (destination == Some (frozen_destination expected)) in
  run! _ := ensure ((utf8 current_head == st_starting_head start)
                    && ((utf8 <$> current_branch) == st_branch_ref start)
                    && ((utf8 <$> current_upstream) == st_upstream_ref start)
                    && (index_tree == expected_index_tree) && upstream_is_unchanged) GitError in
  require_agent_git_index_tree root index_tree.

(** ** Preparing the checkout *)

Definition require_agent_git_todo_candidates_committed (root : path) (starting_head : text) : wio unit :=
  run! entries := on_board (read_task_entries U (get_tasks_dir root) Todo) in
  let candidates := List.filter task_entry_is_ready entries in
  run! _ := ensure (negb (length candidates =? 0)) GitError in
  wfor_each (fun candidate =>
    run! task_identity := need (durable_task_identity (content candidate)) NoDurableIdentity in
    require_agent_git_start_task_identity git root starting_head task_identity) candidates.

Definition is_directory_store (s : StatusStore) : bool :=
  match s with Directory _ => true | MarkdownFile _ => false end.

Definition require_agent_git_board_storage_compatible (root : path) : wio unit :=
  let board_dir := get_tasks_dir root in
  run! todo := on_board (get_status_store board_dir Todo) in
  run! doing := on_board (get_status_store board_dir Doing) in
  run! done_store := on_board (get_status_store board_dir Done) in
  run! _ := ensure (negb (is_directory_store todo && negb (is_directory_store doing))) GitError in
  ensure (negb (is_directory_store doing && negb (is_directory_store done_store))) GitError.

(** A command that talks to a remote: it asks nothing, and is stopped after a
    time limit, which counts as a failure. *)
Definition run_agent_git_remote_command (root : path) (args : list text) : wio git_output :=
  run_git git (mkGit root args None None [(str "GIT_TERMINAL_PROMPT", str "0")] None).

Definition synchronize_agent_git_checkout_before_launch (root : path) : wio unit :=
  run! changes := git_stdout git root (str <$> ["status"; "--porcelain"; "--untracked-files=all"]) in
  if changes =! [] then wret tt
  else
  run! branch_ref := current_agent_git_branch git root in
  match branch_ref with
  | None => wret tt
  | Some branch_ref =>
      run! upstream_ref := resolve_agent_git_upstream git root (Some branch_ref) in
      match upstream_ref with
      | None => wret tt
      | Some upstream_ref =>
          run! starting_head := resolve_git_commit git root (str "HEAD") in
          run! o := run_agent_git_remote_command root (str <$> ["pull"; "--ff-only"; "--no-rebase"]) in
          run! _ := ensure (succeeded o) GitError in
          run! _ := require_agent_git_index_matches_head root in
          run! current_branch := current_agent_git_branch git root in
          run! current_upstream := resolve_agent_git_upstream git root current_branch in
          run! current_head := resolve_git_commit git root (str "HEAD") in
          run! _ := ensure ((current_branch == Some branch_ref) && (current_upstream == Some upstream_ref))
                      GitError in
          run! descends := git_commit_is_ancestor git root starting_head current_head in
          ensure descends GitError
      end
  end.

(** ** The board checkpoint *)

Definition stage_board (root : path) (index : nat) : wio text :=
  run! _ := run_agent_git_projection_command E root index None (str <$> ["add"; "-A"; "--"; "tasks"]) in
  run_agent_git_projection_command E root index None [str "write-tree"].

Definition agent_identity_env : list (text * text) :=
  [(str "GIT_AUTHOR_NAME", AGENT_GIT_IDENTITY_NAME); (str "GIT_AUTHOR_EMAIL", AGENT_GIT_IDENTITY_EMAIL);
   (str "GIT_COMMITTER_NAME", AGENT_GIT_IDENTITY_NAME);
   (str "GIT_COMMITTER_EMAIL", AGENT_GIT_IDENTITY_EMAIL)].

Definition configure_agent_git_identity (git_mode : AgentGitMode) : list (text * text) :=
  if git_mode == GitOff then [] else agent_identity_env.

Definition changed_board_paths (root : path) (a b : text) : wio (list text) :=
  git_nul_separated_paths git root
    [str "diff"; str "--name-only"; str "--no-renames"; str "-z"; a; b; str "--"; str "tasks"].

Definition align_arguments (checkpoint_commit : text) (paths : list text) : list text :=
  [str "--literal-pathspecs"; str "reset"; str "--quiet"; checkpoint_commit; str "--"] ++ paths.

(** Head, branch and index are still those the checkpoint was built on. *)
Definition checkpoint_parent_unchanged (root : path) (starting_head branch_ref index_tree : text)
    : wio unit :=
  run! _ := require_agent_git_index_tree root index_tree in
  run! head := resolve_git_commit git root (str "HEAD") in
  if head =! starting_head then refuse GitError
  else
    run! branch := current_agent_git_branch git root in
    ensure (branch == Some branch_ref) GitError.

(** The board's paths that were not staged already take the checkpoint's
    content; the rest of the index stays. *)
Definition publish_checkpoint (root : path)
    (starting_head branch_ref index_tree checkpoint_commit : text) : wio unit :=
  run! staged := changed_board_paths root starting_head index_tree in
  run! checkpointed := changed_board_paths root starting_head checkpoint_commit in
  let align_paths := List.filter (fun p => negb (bool_decide (p ∈ staged))) checkpointed in
  let align_args := align_arguments checkpoint_commit align_paths in
  run! preserved := create_agent_git_tree_projection E root index_tree in
  run! _ := (if align_paths == [] then wret []
             else run_agent_git_projection_command E root (pr_index preserved) None align_args) in
  run! expected_index_tree :=
    run_agent_git_projection_command E root (pr_index preserved) None [str "write-tree"] in
  run! _ := require_agent_git_index_tree root index_tree in
  run! _ := git_stdout git root [str "update-ref"; branch_ref; checkpoint_commit; starting_head] in
  run! _ := (if align_paths == [] then wret [] else git_stdout git root align_args) in
  require_agent_git_index_tree root expected_index_tree.

Definition checkpoint_agent_git_task_board_before_launch (root : path) : wio (option text) :=
  run! index_tree := agent_git_index_tree E root in
  run! starting_head := resolve_git_commit git root (str "HEAD") in
  run! branch := current_agent_git_branch git root in
  run! branch_ref := need branch GitError in
  run! starting_tree := git_commit_tree git root starting_head in
  run! p := create_agent_git_tree_projection E root starting_head in
  run! checkpoint_tree := stage_board root (pr_index p) in
  if checkpoint_tree == starting_tree then wret None
  else
  run! _ := require_agent_git_index_tree root index_tree in
  run! rechecked_head := resolve_git_commit git root (str "HEAD") in
  run! rechecked_branch := current_agent_git_branch git root in
  run! rechecked_tree := stage_board root (pr_index p) in
  run! _ := ensure ((rechecked_head == starting_head) && (rechecked_branch == Some branch_ref)
                    && (rechecked_tree == checkpoint_tree)) GitError in
  run! o := run_git git (mkGit root [str "commit-tree"; checkpoint_tree; str "-p"; starting_head;
                                     str "-m"; AGENT_GIT_BOARD_CHECKPOINT_MESSAGE]
                           None None agent_identity_env None) in
  run! checkpoint_commit := output_text o in
  run! _ := checkpoint_parent_unchanged root starting_head branch_ref index_tree in
  run! _ := publish_checkpoint root starting_head branch_ref index_tree checkpoint_commit in
  run! verified := stage_board root (pr_index p) in
  run! _ := ensure (verified == checkpoint_tree) GitError in
  wret (Some checkpoint_commit).

Definition checkpoint_locked_board (root : path) : wio unit :=
  run! _ := on_board (cleanup_clt_atomic_task_temporaries (get_tasks_dir root)) in
  run! _ := require_agent_git_board_storage_compatible root in
  run! _ := checkpoint_agent_git_task_board_before_launch root in
  wret tt.

(** ** Preparing a run *)

Definition launch_start (a : launch_row) : AgentGitStartState :=
  mkStart (a_starting_head a) (a_branch_ref a) (a_upstream_ref a) (a_worktree_baseline a).

(** Whether a computation succeeds; the Git commands it ran stay run. *)
Definition wattempt {A} (c : wio A) : wio bool := fun w =>
  match c w with (Ok _, w') => (Ok true, w') | (Err _, w') => (Ok false, w') end.

Definition reclaim_prior_boundary (pid : Z) (root : path) : wio unit :=
  run! found := query_res (git_launch_state_for_project pid) in
  run! prior := need found GitError in
  let '(token, a) := prior in
  run! unchanged := wattempt (verify_agent_git_start_state_unchanged root (a_git_mode a) (launch_start a)) in
  run! reclaimed := (if unchanged
                     then on_registry (reclaim_unchanged_git_launch_state pid token (a_git_mode a)
                                         (launch_start a))
                     else wret false) in
  ensure reclaimed GitError.

Definition prepare_agent_git_start_state_for_run (project : Z * project_row) (root : path)
    (task_selection : AgentTaskSelection) (has_started_session has_existing_session_finalization : bool)
    (run_token : string) : wio (option AgentGitStartState) :=
  let '(pid, p) := project in
  if (p_git_mode p == GitOff) && (task_selection =! NextTodo) then wret None
  else if (p_git_mode p =! GitOff) && has_started_session && negb has_existing_session_finalization
  then refuse GitError
  else if has_existing_session_finalization then wret None
  else if task_selection =! NextTodo then refuse GitError
  else
  run! other := query (has_other_git_launch_state pid run_token) in
  run! _ := (if other then reclaim_prior_boundary pid root else wret tt) in
  run! own := query (git_launch_state pid run_token) in
  run! _ := ensure (own == None) GitError in
  if p_git_mode p == GitOff then wret None
  else
  run! _ := acquire_finalization E root (of_utf8 run_token) in
  run! pending := query (list_pending_git_finalizations (Some pid)) in
  run! _ := (if existsb (fun g => g_state g.2 == Working) pending then wret tt
             else synchronize_agent_git_checkout_before_launch root) in
  run! _ := checkpoint_locked_board root in
  run! start := capture_agent_git_start_state root (p_git_mode p) in
  run! _ := require_agent_git_todo_candidates_committed root (of_utf8 (st_starting_head start)) in
  wret (Some start).

(** A paused unmanaged session becomes a managed one. *)
Definition enable_agent_git_for_resumed_session (project : Z * project_row) (root : path)
    (session_id : text) (run_token lease_holder : string) : wio unit :=
  let '(pid, p) := project in
  run! existing := query (git_finalization pid (utf8 session_id)) in
  run! mode := query (session_git_mode (pending_migration_version E) pid (utf8 session_id)) in
  if (p_git_mode p == GitOff) || negb (is_null existing) || (mode =! Some GitOff) then wret tt
  else
  run! _ := acquire_finalization E root session_id in
  let board_dir := get_tasks_dir root in
  run! found := on_board (terminal_task_for_codex_session_in_board U board_dir session_id) in
  run! linked := need found NoConversation in
  let '(status, task) := linked in
  run! _ := ensure ((status == Doing) && negb (task_content_has_completed_note (content task))) WrongStatus in
  run! identity := need (durable_task_identity (content task)) NoDurableIdentity in
  run! claims := git_stdout git root
                   [str "log"; str "--all"; str "--format=%H"; str "--fixed-strings";
                    str "--grep=CLT-Task: codex:" ++ session_id] in
  run! _ := ensure (claims == []) GitError in
  run! now := agent_timestamp E in
  run! idle := query (session_can_enable_git pid (utf8 session_id) lease_holder now) in
  run! _ := ensure idle LostFence in
  run! _ := on_board (cleanup_clt_atomic_task_temporaries board_dir) in
  run! _ := require_agent_git_board_storage_compatible root in
  run! _ := capture_agent_git_start_state root (p_git_mode p) in
  run! _ := checkpoint_agent_git_task_board_before_launch root in
  run! start := capture_agent_git_start_state root (p_git_mode p) in
  let starting_head := of_utf8 (st_starting_head start) in
  run! _ := require_agent_git_start_task_identity git root starting_head identity in
  run! linked := git_ref_has_one_active_session_task git root starting_head session_id identity in
  run! _ := ensure linked GitError in
  run! _ := verify_agent_git_start_state_unchanged root (p_git_mode p) start in
  run! now := agent_timestamp E in
  run! enabled := on_registry (enable_session_git
    (mkNewJournal pid (utf8 session_id) (p_git_mode p) (Some (st_starting_head start))
       (st_branch_ref start) (st_upstream_ref start) (st_worktree_baseline start)
       (Some (utf8 identity)) (Some run_token) now) lease_holder now) in
  ensure enabled LostFence.

(** ** The journal of a run *)

Definition worktree_completed_task_identity (root : path) (session_id : text) : wio (option text) :=
  run! found := on_board (terminal_task_for_codex_session_in_board U (get_tasks_dir root) session_id) in
  wret match found with
       | Some (status, task) =>
           if (status == Done) && task_content_has_completed_note (content task)
           then durable_task_identity (content task) else None
       | None => None
       end.

Definition ensure_agent_git_working_record (project : Z * project_row) (root : path)
    (session_id : text) (run_token : string) (start : option AgentGitStartState) : wio unit :=
  let '(pid, p) := project in
  let sid := utf8 session_id in
  if p_git_mode p == GitOff then wret tt
  else
  run! existing := query (git_finalization pid sid) in
  match existing with
  | Some g =>
      if Finalization.is_terminal (g_state g) then wret tt
      else
      run! _ := ensure (g_git_mode g == p_git_mode p) JournalModeChanged in
      if (g_state g == Working) && is_null (g_task_identity g) && is_null (g_commit_oid g)
         && (g_owner_run_token g =! Some run_token)
      then
        run! now := agent_timestamp E in
        run! adopted := on_registry (compare_and_set_plain pid sid (g_generation g) Working
                          (Some run_token) None None now) in
        ensure adopted LostFence
      else wret tt
  | None =>
      run! start := need start GitError in
      run! completed := worktree_completed_task_identity root session_id in
      run! _ := ensure (completed == None) GitError in
      run! now := agent_timestamp E in
      run! created := on_registry (create_git_finalization
        (mkNewJournal pid sid (p_git_mode p) (Some (st_starting_head start)) (st_branch_ref start)
           (st_upstream_ref start) (st_worktree_baseline start) None (Some run_token) now)) in
      ensure created LostFence
  end.

Definition bind_agent_git_working_task_identity (project : Z * project_row) (root : path)
    (session_id : text) (run_token : string) : wio bool :=
  let '(pid, p) := project in
  let sid := utf8 session_id in
  run! found := query (git_finalization pid sid) in
  match found with
  | None => wret false
  | Some g =>
      run! linked := on_board (terminal_task_for_codex_session_in_board U (get_tasks_dir root) session_id) in
      match linked with
      | None => wret false
      | Some (_, task) =>
          run! identity := need (durable_task_identity (content task)) NoDurableIdentity in
          run! starting_head := need (g_starting_head g) NoStartingCommit in
          run! _ := require_agent_git_start_task_identity git root (of_utf8 starting_head) identity in
          let bind :=
            run! now := agent_timestamp E in
            run! changed := on_registry (compare_and_set_git_finalization_with_identity pid sid
                              (g_generation g) Working (utf8 identity) (Some run_token) now) in
            run! _ := ensure changed LostFence in
            wret true in
          match g_task_identity g with
          | Some bound_identity =>
              run! _ := ensure (bound_identity == utf8 identity) IdentityChanged in
              if (g_state g == Working) && (g_owner_run_token g =! Some run_token)
              then bind else wret true
          | None =>
              run! _ := ensure (g_state g == Working) (ManagedEvidence (g_state g)) in bind
          end
      end
  end.
End Start.
