(* ===== verification/SnapshotLoad.v ===== *)
(** Taking the snapshot tasks are admitted against (src/coordination.rs): the
    tasks of a board and of the boards inside it, what the registry knows of
    their conversations and journals, and the files Git reports as changed. *)
From S2P Require Import Prelude AgentTypes Store Sessions Journals Retire Projects.
From S2P Require Import Text Markers TaskNotes Metadata TaskEntry Files Board BoardTree.
From S2P Require Import World Coordination.

(** Appends the results of the items in order. *)
Fixpoint concat_io {A B} (f : A -> io (list B)) (l : list A) : io (list B) :=
  match l with
  | [] => ret []
  | a :: l' => do! bs := f a in do! rest := concat_io f l' in ret (bs ++ rest)
  end.

(** ** Collecting *)

(** The boards above a board, the outermost first; the board itself is last. *)
Definition ancestors (board : path) : list path :=
  (fun n => take n board) <$> seq 0 (S (length board)).

Definition outer_board (board : path) (s : node) : path :=
  default board (List.find (fun p => board_has_any_status_store p s) (ancestors board)).

Definition initial_owner (content : text) : text :=
  if task_content_is_manual content then str "CLI claimed; activity unconfirmed"
  else if negb (recoverable_codex_session_id_from_task_content content == None)
  then str "saved conversation; idle"
  else str "unclaimed".

(** The records of [git status --porcelain=v1 -z]: two letters, a space and a
    path, and for a rename or a copy the old path as a record of its own. *)
Fixpoint split_zero (s : string) : list string :=
  match s with
  | EmptyString => [EmptyString]
  | String a r =>
      if Ascii.eqb a zero then EmptyString :: split_zero r
      else
        match split_zero r with
        | w :: ws => String a w :: ws
        | [] => [String a EmptyString]
        end
  end.

Fixpoint drop_bytes (n : nat) (s : string) : string :=
  match n, s with
  | S n', String _ s' => drop_bytes n' s'
  | _, _ => s
  end.

Definition has_letter (a : ascii) (s : string) : bool :=
  existsb (Ascii.eqb a) (String.list_ascii_of_string s).

Fixpoint status_paths (records : list string) (changed : gset text) : gset text :=
  match records with
  | [] => changed
  | record :: rest =>
      if String.length record <? 4 then status_paths rest changed
      else
        let changed := {[of_utf8 (drop_bytes 3 record)]} ∪ changed in
        if has_letter "R" (take_bytes 2 record) || has_letter "C" (take_bytes 2 record) then
          match rest with
          | old :: rest' => status_paths rest' ({[of_utf8 old]} ∪ changed)
          | [] => changed
          end
        else status_paths rest changed
  end.

Section Load.
Context (U : UnicodeCase).
Context (from_json : text -> option Metadata) (uuid_parses : text -> bool).

Definition metadata_of (content : text) : Metadata :=
  match read_metadata from_json uuid_parses content with
  | Ok meta => meta
  | Err _ => default_metadata
  end.

Definition board_task (board : path) (status : TaskStatus) (index : N) (entry : TaskEntry) : Task :=
  mkTask board status index entry (metadata_of (content entry))
    (match read_metadata from_json uuid_parses (content entry) with
     | Ok _ => None
     | Err e => Some e
     end)
    None (initial_owner (content entry)).

(** An archived task is in the snapshot when it has a stable id. *)
Definition archived_task (board : path) (entry : TaskEntry) : option Task :=
  let meta := metadata_of (content entry) in
  if id meta == [] then None
  else Some (mkTask board Done 0 entry meta None None (str "archived")).

Fixpoint collect (fuel : nat) (board : path) : io (list Task) :=
  match fuel with
  | O => fail DepthExceeded
  | S fuel' =>
      do! tasks :=
        concat_io (fun status =>
          do! entries := read_task_entries U board status in
          concat_io (fun numbered : nat * TaskEntry =>
            let '(offset, entry) := numbered in
            do! below := match subtask_board entry with
                         | Some p => collect fuel' p
                         | None => ret []
                         end in
            ret (below ++ [board_task board status (N.of_nat offset + 1) entry]))
            (imap pair entries)) Status.ALL in
      do! archived := read_archived_task_entries U board in
      ret (tasks ++ omap (archived_task board) archived)
  end.

Definition collect_all (board : path) : io (list Task) := fun s => collect (search_fuel s) board s.

(** ** What the registry knows *)

Definition control_owner (content : text) (state : AgentSessionControlState) : text :=
  (if task_content_is_manual content then str "CLI claimed" else str "automated")
  ++ str "; "
  ++ match state with
     | Running => str "running"
     | Stopped => str "stopped"
     | _ => str "session control pending"
     end.

Definition journal_wait (g : journal_row) : option text :=
  if Finalization.is_terminal (g_state g) then None
  else Some (if g_state g == PushPending then str "PUSH-PENDING: waiting for publication proof"
             else str "FINALIZING: waiting for task commit proof").

Context (pending_migration_version : option Z).

(** Why a task in Done does not count as complete yet. *)
Definition proof_wait (pid : Z) (session : text) (d : db) : option text :=
  match git_finalization pid (utf8 session) d with
  | Some g => journal_wait g
  | None =>
      match session_git_mode pending_migration_version pid (utf8 session) d with
      | Some mode =>
          if mode =! GitOff
          then Some (str "missing Git journal: restore the prerequisite's completion proof")
          else None
      | None => None
      end
  end.

Definition with_runtime (pid : Z) (controls : list ((Z * string) * control_row))
    (pending : list ((Z * string) * journal_row)) (d : db) (t : Task) : Task :=
  match recoverable_codex_session_id_from_task_content (content (t_entry t)) with
  | None => t
  | Some session =>
      let t :=
        match List.find (fun c => c.1.2 == utf8 session) controls with
        | Some c => t <| t_owner := control_owner (content (t_entry t)) (sc_state c.2) |>
        | None => t
        end in
      if (t_status t == Done)
         && (negb (task_id t == []) || existsb (fun g => g.1.2 == utf8 session) pending)
      then
        match proof_wait pid session d with
        | Some reason => t <| t_completion_wait := Some reason |>
        | None => t
        end
      else t
  end.

(** The project whose directory holds the board. *)
Definition project_above (board : path) (d : db) : option (Z * project_row) :=
  max_by_key (fun p => String.length (p_path p.2))
    (List.filter (fun p => bool_decide (components (p_path p.2) `prefix_of` board)) (list_projects d)).

Definition load_runtime_from_store (board : path) (ts : list Task) : wio (list Task) :=
  run! project := query (project_above board) in
  match project with
  | None => wret ts
  | Some (pid, _) =>
      run! controls := query_res (session_controls_for_project pid) in
      run! pending := query (list_pending_git_finalizations (Some pid)) in
      query (fun d => with_runtime pid controls pending d <$> ts)
  end.

Context (registry_exists : bool).

Definition load_runtime (board : path) (ts : list Task) : wio (list Task) :=
  if registry_exists then load_runtime_from_store board ts else wret ts.

(** What [git status] prints for a directory, when it succeeds. *)
Context (git_status : path -> node -> option string).

Definition has_conversation (t : Task) : bool :=
  negb (recoverable_codex_session_id_from_task_content (content (t_entry t)) == None).

Definition needs_proof (owners : bool) (ts : list Task) : bool :=
  owners || existsb (fun t => negb (task_id t == []) || negb (inferred_symbols t == ∅)) ts.

Definition load_with_context (board : path) (owners : bool) : wio Snapshot :=
  run! present := on_board (look (board_has_any_status_store board)) in
  if negb present then wret (mkSnapshot [] ∅)
  else
    run! outer := on_board (look (outer_board board)) in
    run! ts := on_board (collect_all outer) in
    run! ts := (if needs_proof owners ts && existsb has_conversation ts
                then load_runtime board ts else wret ts) in
    run! output := on_board (look (git_status (parent outer))) in
    wret (mkSnapshot ts
            (match output with
             | Some output => status_paths (split_zero output) ∅
             | None => ∅
             end)).

Definition load (board : path) : wio Snapshot := load_with_context board true.
Definition admission (board : path) : wio Snapshot := load_with_context board false.

(** ** Questions to a fresh snapshot *)

Context (evidence_json : text -> option text -> Scope -> list text -> text).
Context (uuid_v5 : text -> text).

Definition ready_tasks (root : path) : wio (list TaskEntry) :=
  let board := get_tasks_dir root in
  run! present := on_board (look (board_has_any_status_store board)) in
  if negb present then wret []
  else
    run! snapshot := admission board in
    run! entries := on_board (read_task_entries U board Todo) in
    wret (List.filter (ready evidence_json uuid_v5 snapshot) entries).

Definition session_waiting_at (root : path) (session : text) : wio bool :=
  run! snapshot := admission (get_tasks_dir root) in
  wret (session_waiting evidence_json uuid_v5 snapshot session).

Definition ensure_admitted_at (board : path) (status : TaskStatus) (index : N) : wio unit :=
  run! snapshot := admission board in
  match ensure_admitted evidence_json uuid_v5 snapshot board status index with
  | Ok tt => wret tt
  | Err _ => refuse NotAdmitted
  end.

Definition ensure_new_manual_admitted_at (board : path) (stored : text) : wio unit :=
  run! snapshot := admission board in
  match read_metadata from_json uuid_parses stored with
  | Err _ => refuse BadCoordination
  | Ok meta =>
      match ensure_new_manual_admitted evidence_json uuid_v5 snapshot board stored meta with
      | Ok tt => wret tt
      | Err _ => refuse NotAdmitted
      end
  end.
End Load.
