(* ===== verification/Guards.v ===== *)
(** What the operations on a project's board ask before they change a task
    (src/application.rs, src/worker.rs): whether the task's journal allows the
    change, whether the task may start, which conversation an automated run
    owns, and whether an exited worker still holds the project. *)
From S2P Require Import Prelude Sql AgentTypes Store Leases Workers Sessions Journals Holders.
From S2P Require Import Projects.
From S2P Require Import Text Markers TaskNotes Metadata TaskEntry Files Board BoardTree.
From S2P Require Import World Surroundings Coordination SnapshotLoad.

(** [canonicalize_existing_path]; a path of the model has no links. *)
Definition canonicalize_existing_path (root : path) : io path :=
  do! present := look (exists_path root) in if present then ret root else fail Io.

Definition one_based_index (task_index_str : text) : wio nat :=
  match parse_one_based_task_index task_index_str with
  | Ok n => wret (N.to_nat n)
  | Err _ => refuse BadTaskIndex
  end.

Section Guards.
Context (E : Surroundings).

Definition ensure_admitted_in (board : path) (status : TaskStatus) (task_index : nat) : wio unit :=
  ensure_admitted_at (unicode E) (from_json E) (uuid_parses E) (pending_migration_version E)
    (registry_exists E) (git_status E) (evidence_json E) (uuid_v5 E)
    board status (N.of_nat task_index).

(** ** The task's journal *)

Definition ensure_working_task_content_preserves_identity (bound_identity : string)
    (proposed_content : text) : wio unit :=
  ensure (utf8 <$> durable_task_identity proposed_content == Some bound_identity) IdentityChanged.

(** The journal of the conversation a task is linked to, in the project of the
    board. *)
Definition journal_of_task (board_dir : path) (entry : TaskEntry) (d : db)
    : option (Z * text * journal_row) :=
  session_id ← recoverable_codex_session_id_from_task_content (content entry);
  project ← agent_project_for_board board_dir d;
  finalization ← git_finalization project.1 (utf8 session_id) d;
  Some (project.1, session_id, finalization).

Definition ensure_managed_git_task_mutation_allowed (board_dir : path) (entry : TaskEntry)
    (allow_working_preserving_mutation : bool) (proposed_working_content : option text) : wio unit :=
  if negb (registry_exists E) || negb (pending_migration_version E == None) then wret tt
  else
    run! found := query (journal_of_task board_dir entry) in
    match found with
    | None => wret tt
    | Some (_, session_id, finalization) =>
        if Finalization.is_terminal (g_state finalization) then wret tt
        else if allow_working_preserving_mutation && (g_state finalization == Working) then
          match proposed_working_content with
          | Some proposed_content =>
              run! bound_identity := need (g_task_identity finalization) NoDurableIdentity in
              ensure_working_task_content_preserves_identity bound_identity proposed_content
          | None => wret tt
          end
        else refuse (ManagedEvidence (g_state finalization))
    end.

Definition ensure_entries_allowed (board_dir : path) (entries : list TaskEntry) : wio unit :=
  wfor_each (fun entry => ensure_managed_git_task_mutation_allowed board_dir entry false None) entries.

Definition ensure_status_conversion_allowed (board_dir : path) (status : TaskStatus) : wio unit :=
  run! directory := on_board (look (is_dir (board_dir ++ [Status.as_str status]))) in
  if directory then wret tt
  else
    run! entries := on_board (read_task_entries (unicode E) board_dir status) in
    ensure_entries_allowed board_dir entries.

Definition ensure_archive_conversion_allowed (board_dir archive_file : path) : wio unit :=
  run! file := on_board (look (is_file archive_file)) in
  if negb file then wret tt
  else
    run! entries := on_board (read_markdown_entries archive_file) in
    ensure_entries_allowed board_dir entries.

Definition ensure_task_not_stopped (entry : TaskEntry) : wio unit :=
  ensure (negb (task_entry_is_stopped entry)) TaskIsStopped.

(** ** The conversation of an automated run *)

Record AutomatedAgentChildContext := mkChild { ch_project_id : Z; ch_run_token : string }.

Definition running_sessions_of (context : AutomatedAgentChildContext) (d : db)
    : res store_error (list string) :=
  let? controls := session_controls_for_project (ch_project_id context) d in
  Ok ((fun c => c.1.2) <$>
        List.filter (fun c => (sc_state c.2 == Running)
                              && (sc_run_token c.2 == Some (ch_run_token context))) controls).

(** Up to [n] looks at the registry; between two looks other processes may
    change it ([others], in order). *)
Fixpoint poll_running_session (n : nat) (others : list (db -> db))
    (context : AutomatedAgentChildContext) : wio string :=
  match n with
  | O => refuse NoRunningSession
  | S n' =>
      run! matches := query_res (running_sessions_of context) in
      match matches with
      | [session_id] => wret session_id
      | [] =>
          match others with
          | [] => poll_running_session n' [] context
          | change :: others' =>
              fun w => poll_running_session n' others' context (w <| registry := change (registry w) |>)
          end
      | _ => refuse SeveralRunningSessions
      end
  end.

Definition running_session_for_automated_child (others : list (db -> db))
    (context : AutomatedAgentChildContext) : wio string :=
  poll_running_session 40 others context.

(** ** Exited workers *)

Definition AGENT_WORKER_PROTOCOL_VERSION : Z := 2.
Definition AGENT_INLINE_WORKER_SERVICE_LABEL_PREFIX : string := "clt-inline-worker-".

Definition is_inline_agent_worker (w : worker_row) : bool :=
  negb (is_null (Prelude.strip_prefix AGENT_INLINE_WORKER_SERVICE_LABEL_PREFIX (w_service_label w))).

(** A control that shows a session may still be live. *)
Definition control_may_be_live (sc : control_row) : bool :=
  negb (bool_decide (sc_state sc ∈ [Stopped; ResumeRequested]))
  || negb (is_null (sc_child_pid sc)) || negb (is_null (sc_interactive_holder sc))
  || negb (is_null (sc_interactive_launch_token sc)).

Definition worker_proven_exited (pid : Z) (token : string) (w : worker_row) (d : db) : bool :=
  negb ((AGENT_WORKER_PROTOCOL_VERSION <? w_protocol_version w)%Z
        || ((w_worker_pid w ≫= local_process_is_running E) =! Some false)
        || (is_inline_agent_worker w && negb (git_launch_state pid token d == None))).

Definition EXITED_WORKER : string :=
  "Worker process exited before the user cancelled its managed task".

Definition exited_abandonment (token : string) (w : worker_row) (lease : option string)
    (now : string) : AgentWorkerAbandonment :=
  mkAbandonment token (WorkerState.database_value (w_state w)) (w_worker_pid w) (w_heartbeat_at w)
    now EXITED_WORKER
    (match lease with
     | Some holder => if holder =! w_lease_holder w then Some holder else None
     | None => None
     end).

Definition lease_holder_for_project (pid : Z) (d : db) : option string :=
  (fun l => l.1.1.2) <$> lease_for_project pid d.

Definition abandon_exited_worker (pid : Z) (now : string)
    (worker : string * worker_row * string * string) : wio unit :=
  let '(token, w, _, _) := worker in
  run! exited := query (worker_proven_exited pid token w) in
  if negb exited then wret tt
  else
    run! drained := need (drain_worker E token) ServiceError in
    if negb drained then wret tt
    else
      run! lease := query (lease_holder_for_project pid) in
      run! _ := on_registry (abandon_worker (exited_abandonment token w lease now)) in
      wret tt.

Definition reconcile_exited_project_workers_with (pid : Z) (now : string) : wio unit :=
  run! controls := query_res (session_controls_for_project pid) in
  if existsb (fun c => control_may_be_live c.2) controls then wret tt
  else
    run! workers := query_res (list_workers_by_terminal_state false) in
    run! _ := wfor_each (abandon_exited_worker pid now)
                (List.filter (fun worker => w_project_id worker.1.1.2 == pid) workers) in
    run! workers := query_res (list_workers_by_terminal_state false) in
    run! lease := query (lease_holder_for_project pid) in
    match lease with
    | Some holder =>
        if negb (existsb (fun worker => w_project_id worker.1.1.2 == pid) workers)
           && (agent_lease_holder_liveness (own_pid E) (local_process_is_running E) holder == Dead)
        then run! _ := on_registry (release_lease pid holder) in wret tt
        else wret tt
    | None => wret tt
    end.
End Guards.
