(* ===== verification/Workflow.v ===== *)
(** What a user does to the tasks of a project (src/application.rs,
    src/coordination.rs): moving, completing, deleting, editing, reordering,
    archiving and coordinating, each with the checks on the registry around the
    operation on the board. The board lock is held throughout. *)
From S2P Require Import Prelude Sql AgentTypes Store Leases Workers Sessions Journals Retire.
From S2P Require Import Projects.
From S2P Require Import Text Markers TaskNotes Metadata TaskEntry Files Board BoardTree.
From S2P Require Import World Surroundings Coordination SnapshotLoad Guards.

Definition is_path_source (source : TaskSource) : bool :=
  match source with PathSource _ _ => true | MarkdownLine _ => false end.

(** The clock during one cancellation, and the holder the process gives its
    lease. *)
Record CancellationClock := mkClock {
  observed_at : string; acquired_at : string; expires_at : string; task_cancellation_lease_holder : string
}.

Section Workflow.
Context (E : Surroundings).
Let U := unicode E.

(** ** Moving on the board *)

Fixpoint collect_codex_session_tasks_in_board (fuel : nat) (board_dir : path) (session_id : text)
    : io (list (TaskStatus * TaskEntry)) :=
  match fuel with
  | O => fail DepthExceeded
  | S fuel' =>
      concat_io (fun status =>
        do! entries := read_task_entries U board_dir status in
        concat_io (fun task =>
          do! below :=
            match subtask_board task with
            | Some p => collect_codex_session_tasks_in_board fuel' p session_id
            | None => ret []
            end in
          ret ((if recoverable_codex_session_id_from_task_content (content task) == Some session_id
                then [(status, task)] else []) ++ below)) entries) Status.SESSION_SEARCH_ORDER
  end.

Definition session_tasks (board_dir : path) (session_id : text) : io (list (TaskStatus * TaskEntry)) :=
  fun s => collect_codex_session_tasks_in_board (search_fuel s) board_dir session_id s.

(** The conversation of a task a manual session claims, when moving to Todo
    ends the claim. *)
Definition manual_session_of (board_dir : path) (to : TaskStatus) (entry : TaskEntry)
    : wio (option text) :=
  if (to == Todo) && task_content_is_manual (content entry) then
    run! session := need (recoverable_codex_session_id_from_task_content (content entry)) NoConversation in
    run! linked := on_board (session_tasks board_dir session) in
    run! _ := ensure (length linked =? 1) DuplicateLinks in
    wret (Some session)
  else wret None.

Definition keeps_neighbours (board_dir : path) (from to : TaskStatus) (entry : TaskEntry) : io bool :=
  if negb ((from =! to) && task_content_is_manual (content entry)) then ret false
  else if negb (is_path_source (source entry)) then ret true
  else
    do! store := get_status_store board_dir to in
    ret (match store with Directory _ => true | MarkdownFile _ => false end).

(** The task of a conversation, rewritten where it now is. *)
Definition rewrite_session_task (board_dir : path) (status : TaskStatus) (session : text)
    (f : text -> text) : wio unit :=
  run! entries := on_board (read_task_entries U board_dir status) in
  run! task :=
    need (List.find (fun task => recoverable_codex_session_id_from_task_content (content task)
                                 == Some session) entries) TaskChangedMeanwhile in
  on_board (write_task_entry_content board_dir status task (f (content task))).

Definition move_task_in_board_after_lock (board_dir : path) (from to : TaskStatus)
    (task_index : nat) : wio unit :=
  run! entry := on_board (task_entry_at U board_dir from task_index) in
  run! _ := (if ((to == Doing) || (to == Done)) && (from =! to)
             then ensure_admitted_in E board_dir from task_index else wret tt) in
  run! manual_session := manual_session_of board_dir to entry in
  run! _ := (if (from =! to) && is_path_source (source entry)
             then ensure_status_conversion_allowed E board_dir to else wret tt) in
  run! without_reordering := on_board (keeps_neighbours board_dir from to entry) in
  run! _ := on_board (if without_reordering
                      then move_task_without_reordering_after_lock U board_dir from to task_index
                      else Board.move_task_in_board_after_lock U board_dir from to task_index) in
  run! _ :=
    (if (to == Done) && task_content_is_interactive_done (content entry) then
       run! session := need (recoverable_codex_session_id_from_task_content (content entry))
                         NoConversation in
       rewrite_session_task board_dir Done session task_content_without_interactive_done_marker
     else wret tt) in
  match manual_session with
  | Some session => rewrite_session_task board_dir Todo session task_content_without_manual_marker
  | None => wret tt
  end.

(** ** Changing a task whose journal is unfinished *)

(** The change runs under a fence on the project, which is released whatever
    the change returns. *)
Definition mutate_fenced (pid : Z) (holder : string) (mutate : wio unit) : wio unit := fun w =>
  let '(moved, w1) := mutate w in
  match on_registry (release_lease pid holder) w1 with
  | (Err e, w2) => (Err e, w2)
  | (Ok _, w2) => (moved, w2)
  end.

Definition mutate_user_managed_task_with_store_after_lock (board_dir : path) (entry : TaskEntry)
    (clock : CancellationClock) (cancellation : GitTaskCancellation) (mutate : wio unit)
    : wio (option text) :=
  run! found := query (journal_of_task board_dir entry) in
  match found with
  | None => run! _ := mutate in wret None
  | Some (pid, session_id, finalization) =>
      if Finalization.is_terminal (g_state finalization) then run! _ := mutate in wret None
      else if (g_state finalization =! Working) || negb (is_null (g_commit_oid finalization))
      then refuse (SealedJournal (g_state finalization))
      else
        run! _ := reconcile_exited_project_workers_with E pid (observed_at clock) in
        run! cancelled :=
          on_registry (cancel_idle_working_git_finalization pid (utf8 session_id)
                         (g_generation finalization) (g_task_identity finalization)
                         (task_cancellation_lease_holder clock) (acquired_at clock)
                         (expires_at clock) cancellation) in
        run! _ := ensure cancelled JournalChanged in
        run! _ := mutate_fenced pid (task_cancellation_lease_holder clock) mutate in
        wret (Some session_id)
  end.

Definition mutate_user_managed_task_after_lock (board_dir : path) (entry : TaskEntry)
    (clock : CancellationClock) (cancellation : GitTaskCancellation) (mutate : wio unit)
    : wio (option text) :=
  if negb (registry_exists E) || negb (pending_migration_version E == None)
  then run! _ := mutate in wret None
  else mutate_user_managed_task_with_store_after_lock board_dir entry clock cancellation mutate.

Definition move_user_task_to_done_after_lock (board_dir : path) (from : TaskStatus) (task_index : nat)
    (entry : TaskEntry) (clock : CancellationClock) : wio (option text) :=
  mutate_user_managed_task_after_lock board_dir entry clock ExternalCompletion
    (move_task_in_board_after_lock board_dir from Done task_index).

Definition move_task_in_board (board_dir : path) (from to : TaskStatus) (task_index_str : text)
    (clock : CancellationClock) : wio (option text) :=
  run! task_index := one_based_index task_index_str in
  run! entry := on_board (task_entry_at U board_dir from task_index) in
  if to == Done then move_user_task_to_done_after_lock board_dir from task_index entry clock
  else
    run! _ := ensure_managed_git_task_mutation_allowed E board_dir entry
                (Status.is_active from && Status.is_active to) None in
    run! _ := move_task_in_board_after_lock board_dir from to task_index in
    wret None.

(** [automated]: the process was started by the agent runner. *)
Definition delete_task_in_board (automated : bool) (board_dir : path) (status : TaskStatus)
    (task_index_str : text) (clock : CancellationClock) : wio unit :=
  run! task_index := one_based_index task_index_str in
  run! entry := on_board (task_entry_at U board_dir status task_index) in
  if automated then
    run! _ := ensure_managed_git_task_mutation_allowed E board_dir entry false None in
    on_board (remove_task_entry U board_dir status entry)
  else
    run! _ := mutate_user_managed_task_after_lock board_dir entry clock Deletion
                (on_board (remove_task_entry_without_reordering board_dir status entry)) in
    wret tt.

(** ** Archiving, stopping, editing, reordering *)

Definition move_task_to_archive_in_board (board_dir : path) (from : TaskStatus)
    (task_index_str : text) : wio unit :=
  run! task_index := one_based_index task_index_str in
  run! entry := on_board (task_entry_at U board_dir from task_index) in
  run! _ := ensure_managed_git_task_mutation_allowed E board_dir entry false None in
  run! store := on_board (get_or_create_archive_status_store board_dir) in
  match source entry, store with
  | PathSource p _, Directory archive_dir =>
      run! _ := on_board (move_path_into_directory U p archive_dir None) in wret tt
  | PathSource p _, MarkdownFile archive_file =>
      run! _ := ensure_archive_conversion_allowed E board_dir archive_file in
      run! archive_dir := on_board (convert_archive_to_directory U archive_file) in
      run! _ := on_board (move_path_into_directory U p archive_dir None) in wret tt
  | MarkdownLine _, Directory archive_dir =>
      run! _ := on_board (insert_content_into_directory U archive_dir None (content entry)) in
      on_board (remove_task_entry U board_dir from entry)
  | MarkdownLine _, MarkdownFile archive_file =>
      run! _ := on_board (insert_content_into_markdown archive_file None (content entry)) in
      on_board (remove_task_entry U board_dir from entry)
  end.

(** [entry.source == selected.source && entry.content == selected.content]. *)
Definition same_entry (selected entry : TaskEntry) : bool :=
  (source entry == source selected) && (content entry == content selected).

Definition toggle_task_stop_marker_in_board (board_dir : path) (status : TaskStatus)
    (selected : TaskEntry) : wio bool :=
  run! _ := ensure (status =! Done) WrongStatus in
  run! entries := on_board (read_task_entries U board_dir status) in
  run! entry := need (List.find (same_entry selected) entries) TaskChangedMeanwhile in
  let stopped := negb (task_entry_is_stopped entry) in
  let new_content :=
    if stopped then trim_end (content entry) ++ str " " ++ TASK_STOPPED_MARKER
    else task_content_without_stop_marker (content entry) in
  run! _ := on_board (write_task_entry_content board_dir status entry new_content) in
  wret stopped.

(** The text a task gets when its description is edited: its coordination
    metadata, conversation and markers are kept. *)
Definition updated_content (entry : TaskEntry) (new_description : text) : text :=
  let updated :=
    match recoverable_codex_session_id_from_task_content (content entry) with
    | Some session_id =>
        if task_content_is_manual (content entry)
        then task_content_with_manual_session new_description session_id
        else task_content_with_codex_session new_description session_id
    | None => trim_end new_description
    end in
  let updated :=
    if task_content_is_interactive_done (content entry)
    then task_content_with_interactive_done_marker updated else updated in
  if task_entry_is_stopped entry
  then task_content_without_stop_marker updated ++ str " " ++ TASK_STOPPED_MARKER
  else updated.

Definition update_task_in_board_after_lock (board_dir : path) (status : TaskStatus)
    (task_index : nat) (new_description : text) : wio unit :=
  run! entry := on_board (task_entry_at U board_dir status task_index) in
  match preserve (to_json E) (from_json E) (uuid_parses E) (content entry) new_description with
  | Err _ => refuse BadCoordination
  | Ok new_description =>
      let new_content := updated_content entry new_description in
      run! _ := ensure_managed_git_task_mutation_allowed E board_dir entry true (Some new_content) in
      on_board (write_task_entry_content board_dir status entry new_content)
  end.

Definition cycle_task_thinking_in_board (board_dir : path) (status : TaskStatus)
    (selected : TaskEntry) : wio (option text) :=
  run! _ := ensure (status == Todo) WrongStatus in
  run! entries := on_board (read_task_entries U board_dir status) in
  match list_find (fun entry => same_entry selected entry = true) entries with
  | None => refuse TaskChangedMeanwhile
  | Some (index, _) =>
      let '(new_content, level) := Thinking.cycle (task_content_for_edit (content selected)) in
      run! _ := update_task_in_board_after_lock board_dir status (index + 1) new_content in
      wret level
  end.

Definition reorder_task_in_board (board_dir : path) (status : TaskStatus) (from_idx to_idx : nat)
    : wio unit :=
  run! entry := on_board (task_entry_at U board_dir status (from_idx + 1)) in
  run! _ := ensure_managed_git_task_mutation_allowed E board_dir entry (Status.is_active status) None in
  run! store := on_board (get_status_store board_dir status) in
  on_board (match store with
            | MarkdownFile p => reorder_markdown_task p from_idx to_idx
            | Directory p => reorder_directory_task U p from_idx to_idx
            end).

Definition expand_tasks (root : path) (statuses : list TaskStatus) : wio unit :=
  let board_dir := get_tasks_dir root in
  wfor_each (fun status =>
    run! _ := ensure_status_conversion_allowed E board_dir status in
    run! _ := on_board (expand_status_for_command U board_dir status) in
    wret tt) statuses.

(** ** Follow-ups *)

Definition one_line (s : text) : text := join [32%N] (split_whitespace s).
(** An em dash between spaces. *)
Definition DASH : text := [32; 8212; 32]%N.

Definition follow_up_content (description evidence date session_id : text) (blocker : option text)
    : TaskStatus * text :=
  match blocker with
  | Some reason =>
      let evidence := if evidence == reason then [] else str " Evidence: " ++ evidence in
      (Doing, description ++ DASH ++ str "BLOCKED " ++ date ++ str ": " ++ reason ++ evidence
                ++ str " " ++ FOLLOW_UP_PREFIX ++ session_id)
  | None =>
      (Todo, description ++ DASH ++ str "Follow-up evidence: " ++ evidence
               ++ str " " ++ FOLLOW_UP_PREFIX ++ session_id)
  end.

Definition existing_follow_up (board_dir : path) (session_id : text)
    : io (option (TaskStatus * TaskEntry)) :=
  find_in (fun status =>
    do! entries := read_task_entries U board_dir status in
    ret (pair status <$> List.find (fun entry => follow_up_session (content entry) == Some session_id)
                          entries)) TASK_STATUSES.

Definition add_follow_up (root : path) (from : TaskStatus) (task_index_str description evidence : text)
    (blocker : option text) (date : text) : wio TaskStatus :=
  let board_dir := get_tasks_dir root in
  run! _ := ensure (from == Doing) WrongStatus in
  let description := one_line description in
  let evidence := one_line evidence in
  let blocker := one_line <$> blocker in
  run! _ := ensure (negb (description == []) && negb (evidence == [])
                    && from_option (fun reason => negb (reason == [])) true blocker) BadFollowUp in
  run! task_index := one_based_index task_index_str in
  run! parent := on_board (task_entry_at U board_dir from task_index) in
  run! session_id := need (codex_session_id_from_task_content (content parent)) NoConversation in
  run! _ := ensure_managed_git_task_mutation_allowed E board_dir parent true (Some (content parent)) in
  let '(status, new_content) := follow_up_content description evidence date session_id blocker in
  run! _ := ensure ((follow_up_session new_content == Some session_id)
                    && follow_up_matches_status new_content status) BadFollowUp in
  run! existing := on_board (existing_follow_up board_dir session_id) in
  match existing with
  | Some (existing_status, entry) =>
      run! _ := ensure ((existing_status == status) && (trim (content entry) == new_content))
                  FollowUpExists in
      wret status
  | None =>
      run! store := on_board (get_status_store board_dir status) in
      run! _ := on_board
        (match store with
         | MarkdownFile p => insert_content_into_markdown p None new_content
         | Directory p =>
             do! _ := insert_content_into_directory_without_reordering_at U p new_content false in
             ret tt
         end) in
      wret status
  end.

(** ** Coordinating *)

Definition coordinate (root : path) (status : TaskStatus) (index : N) (u : Coordination.Update)
    (fresh : text) : wio text :=
  let board := get_tasks_dir root in
  run! snapshot := SnapshotLoad.load U (from_json E) (uuid_parses E) (pending_migration_version E)
                     (registry_exists E) (git_status E) board in
  match Coordination.selected snapshot board status index with
  | Err _ => refuse TaskChangedMeanwhile
  | Ok chosen =>
      let stored := read_metadata (from_json E) (uuid_parses E) (content (t_entry chosen)) in
      match updated_metadata (evidence_json E) (uuid_v5 E) snapshot chosen status stored fresh u with
      | Err _ => refuse BadCoordination
      | Ok meta =>
          match write_metadata (to_json E) (content (t_entry chosen)) meta with
          | Err _ => refuse BadCoordination
          | Ok new_content =>
              run! _ := ensure_managed_git_task_mutation_allowed E board (t_entry chosen) true
                          (Some new_content) in
              run! _ := on_board (write_task_entry_content board status (t_entry chosen) new_content) in
              wret (Metadata.id meta)
          end
      end
  end.
End Workflow.
