(* ===== verification/Completion.v ===== *)
(** How an automated run takes a task, completes it and corrects it
    (src/application.rs): the task is bound to the run's conversation and
    journal before it is moved, and the completion is recorded in the journal
    before and after the move to Done. *)
From S2P Require Import Prelude Sql AgentTypes Store Leases Workers Sessions Journals Retire.
From S2P Require Import Projects.
From S2P Require Import Text Markers TaskNotes Metadata TaskEntry Files Board BoardTree.
From S2P Require Import World Surroundings Git Manifest Projection GitStart.
From S2P Require Import Coordination SnapshotLoad Guards Workflow.

Inductive TaskDoneOutcome := Normal | Provisional | ExternalCompleted (session_id : text).

Section Completion.
Context (E : Surroundings).
Local Notation git := (Surroundings.git E).
Let U := unicode E.

Definition registered_project (root : path) (context : AutomatedAgentChildContext)
    : wio (Z * project_row) :=
  run! found := query (project_with_id (ch_project_id context)) in
  run! project := need found ProjectNotRegistered in
  run! root := on_board (canonicalize_existing_path root) in
  run! _ := ensure (components (p_path project.2) == root) WrongProject in
  wret project.

Definition owned_by_other (content : text) (session_id : text) : bool :=
  match recoverable_codex_session_id_from_task_content content with
  | Some previous => previous =! session_id
  | None => false
  end.

(** ** Taking a task *)

(** Without managed Git: the conversation is written to the task, then the task
    moves. *)
Definition move_task_to_doing_with_agent_session (root : path) (task_index_str : text)
    (context : AutomatedAgentChildContext) (project : Z * project_row) (others : list (db -> db))
    : wio unit :=
  run! root := on_board (canonicalize_existing_path root) in
  run! _ := ensure (components (p_path project.2) == root) WrongProject in
  run! session := running_session_for_automated_child others context in
  let session_id := of_utf8 session in
  run! task_index := one_based_index task_index_str in
  let board_dir := get_tasks_dir root in
  run! entry := on_board (task_entry_at U board_dir Todo task_index) in
  run! _ := ensure_task_not_stopped entry in
  run! _ := ensure_admitted_in E board_dir Todo task_index in
  run! _ := ensure (negb (owned_by_other (content entry) session_id)) OwnedByAnotherSession in
  run! linked := on_board (task_for_codex_session_in_board U board_dir session_id) in
  run! _ := ensure
    (match linked with
     | Some (status, linked) =>
         (status == Todo) && (source linked == source entry)
         && (recoverable_codex_session_id_from_task_content (content entry) == Some session_id)
     | None => true
     end) OwnedByAnotherSession in
  run! _ := ensure_managed_git_task_mutation_allowed E board_dir entry true None in
  run! _ := ensure_status_conversion_allowed E board_dir Doing in
  run! _ := on_board (attach_codex_session_to_task_after_lock U root Todo entry session_id) in
  Workflow.move_task_in_board_after_lock E board_dir Todo Doing task_index.

Definition start_state_of (g : journal_row) (starting_head : string) : AgentGitStartState :=
  mkStart starting_head (g_branch_ref g) (g_upstream_ref g) (g_worktree_baseline g).

(** With managed Git: the journal the run was launched with is bound to the
    task's identity, the conversation is written to the task, then the task
    moves. *)
Definition bind_task_identity (pid : Z) (session : string) (existing : journal_row)
    (task_identity run_token now : string) : wio unit :=
  run! _ := ensure (match g_task_identity existing with
                    | Some bound => bound == task_identity
                    | None => true
                    end) IdentityChanged in
  if is_null (g_task_identity existing) then
    run! bound := on_registry (compare_and_set_git_finalization_with_identity pid session
                                 (g_generation existing) Working task_identity (Some run_token) now) in
    ensure bound LostFence
  else wret tt.

Definition start_managed_task (pid : Z) (root : path) (task_index : nat) (entry : TaskEntry)
    (session : string) (git_mode : AgentGitMode) (run_token now : string) : wio unit :=
  let board_dir := get_tasks_dir root in
  run! identity := need (durable_task_identity (content entry)) NoDurableIdentity in
  let task_identity := utf8 identity in
  run! found := query (git_finalization pid session) in
  run! existing := need found NoJournal in
  run! _ := ensure ((g_state existing == Working)
                    && (g_owner_run_token existing == Some run_token)) NotTheJournalsOwner in
  run! _ := ensure (g_git_mode existing == git_mode) JournalModeChanged in
  run! starting_head := need (g_starting_head existing) NoStartingCommit in
  run! _ := verify_agent_git_start_state_unchanged E root git_mode
              (start_state_of existing starting_head) in
  run! _ := require_agent_git_start_task_identity git root (of_utf8 starting_head) identity in
  run! _ := bind_task_identity pid session existing task_identity run_token now in
  run! _ := on_board (attach_codex_session_to_task_after_lock U root Todo entry (of_utf8 session)) in
  on_board (move_task_without_reordering_after_lock U board_dir Todo Doing task_index).

Definition start_selection (root : path) (task_index_str : text)
    (context : AutomatedAgentChildContext) (project : Z * project_row) (others : list (db -> db))
    : wio (string * nat * TaskEntry) :=
  run! root := on_board (canonicalize_existing_path root) in
  run! _ := ensure (components (p_path project.2) == root) WrongProject in
  run! session := running_session_for_automated_child others context in
  run! task_index := one_based_index task_index_str in
  let board_dir := get_tasks_dir root in
  run! _ := on_board (cleanup_clt_atomic_task_temporaries board_dir) in
  run! entry := on_board (task_entry_at U board_dir Todo task_index) in
  run! _ := ensure_task_not_stopped entry in
  run! _ := ensure_admitted_in E board_dir Todo task_index in
  run! _ := ensure (negb (owned_by_other (content entry) (of_utf8 session))) OwnedByAnotherSession in
  wret (session, task_index, entry).

Definition move_task_to_doing_with_agent_git_journal (root : path) (task_index_str : text)
    (context : AutomatedAgentChildContext) (project : Z * project_row) (git_mode : AgentGitMode)
    (others : list (db -> db)) (now : string) : wio unit :=
  run! (session, task_index, entry) := start_selection root task_index_str context project others in
  start_managed_task project.1 root task_index entry session git_mode (ch_run_token context) now.

(** [clt start]: an automated run takes a task for its conversation. *)
Definition move_task (automated : option AutomatedAgentChildContext) (root : path)
    (from to : TaskStatus) (task_index_str : text) (others others' : list (db -> db)) (now : string)
    (clock : CancellationClock) : wio unit :=
  match automated with
  | Some context =>
      if (from == Todo) && (to == Doing) then
        run! found := query (project_with_id (ch_project_id context)) in
        run! project := need found ProjectNotRegistered in
        run! session_id := running_session_for_automated_child others context in
        run! git_mode := effective_agent_git_mode (pending_migration_version E) (log_proves_git_off E)
                           project (Some session_id) in
        if git_mode =! GitOff
        then move_task_to_doing_with_agent_git_journal root task_index_str context project git_mode
               others' now
        else move_task_to_doing_with_agent_session root task_index_str context project others'
      else run! _ := move_task_in_board E (get_tasks_dir root) from to task_index_str clock in wret tt
  | None => run! _ := move_task_in_board E (get_tasks_dir root) from to task_index_str clock in wret tt
  end.

(** ** Completing *)

(** The selected task is the running conversation's, finished and noted. *)
Definition selected_completion (board_dir : path) (from : TaskStatus) (task_index : nat)
    (context : AutomatedAgentChildContext) (others : list (db -> db)) : wio (TaskEntry * text) :=
  run! entry := on_board (task_entry_at U board_dir from task_index) in
  run! session_id := need (codex_session_id_from_task_content (content entry)) NoConversation in
  run! running := running_session_for_automated_child others context in
  run! _ := ensure (utf8 session_id == running) OwnedByAnotherSession in
  run! _ := ensure (task_content_has_completed_note (content entry)) NoCompletedNote in
  wret (entry, session_id).

(** The intent to complete, recorded before the task moves: the staged work
    becomes the journal's manifest, or a recorded intent is taken over. *)
Definition record_completion_intent (pid : Z) (root : path) (session : string) (g : journal_row)
    (task_identity run_token now : string) : wio journal_row :=
  if g_state g == Working then
    run! current_branch := current_agent_git_branch git root in
    run! _ := ensure (utf8 <$> current_branch == g_branch_ref g) BranchChanged in
    run! starting_head := need (g_starting_head g) NoStartingCommit in
    run! current_head := current_agent_git_head git root in
    run! ancestor := git_commit_is_ancestor git root (of_utf8 starting_head) current_head in
    run! _ := ensure ancestor HistoryDiverged in
    run! manifest := capture_agent_git_staged_manifest E pid root (g_worktree_baseline g)
                       (of_utf8 session) (of_utf8 task_identity) (of_utf8 starting_head)
                       (of_utf8 <$> g_branch_ref g) in
    run! tracked := on_registry (track_git_finalization_with_manifest pid session (g_generation g)
                                   task_identity manifest run_token now) in
    run! _ := ensure tracked LostFence in
    run! found := query (git_finalization pid session) in
    need found NoJournal
  else if g_state g == Tracking then
    run! owned := on_registry (compare_and_set_owned_git_finalization pid session (g_generation g)
                                 Tracking run_token None None now) in
    run! _ := ensure owned LostFence in
    run! found := query (git_finalization pid session) in
    need found NoJournal
  else wret g.

Definition complete_managed_task (pid : Z) (root : path) (from : TaskStatus) (task_index : nat)
    (entry : TaskEntry) (session : string) (g : journal_row) (run_token now : string) : wio bool :=
  run! _ := ensure (g_git_mode g =! GitOff) JournalModeChanged in
  run! task_identity := need (g_task_identity g) NoDurableIdentity in
  run! selected_identity := need (durable_task_identity (content entry)) NoDurableIdentity in
  run! _ := ensure (utf8 selected_identity == task_identity) IdentityChanged in
  run! g := record_completion_intent pid root session g task_identity run_token now in
  run! _ := ensure ((g_state g == Tracking) && (g_task_identity g == Some task_identity))
              (SealedJournal (g_state g)) in
  run! _ := on_board (move_task_without_reordering_after_lock U (get_tasks_dir root) from Done
                        task_index) in
  run! updated := on_registry (compare_and_set_owned_git_finalization pid session (g_generation g)
                                 CommitPending run_token None None now) in
  run! _ := ensure updated JournalChanged in
  wret true.

Definition completion_selection (root : path) (from : TaskStatus) (task_index_str : text)
    (context : AutomatedAgentChildContext) (others : list (db -> db))
    : wio ((Z * project_row) * nat * (TaskEntry * text)) :=
  run! project := registered_project root context in
  run! task_index := one_based_index task_index_str in
  run! _ := on_board (cleanup_clt_atomic_task_temporaries (get_tasks_dir root)) in
  run! selected := selected_completion (get_tasks_dir root) from task_index context others in
  wret (project, task_index, selected).

Definition move_task_to_done_with_agent_store (root : path) (from : TaskStatus)
    (task_index_str : text) (context : AutomatedAgentChildContext) (others : list (db -> db))
    (now : string) : wio bool :=
  run! (project, task_index, (entry, session_id)) :=
    completion_selection root from task_index_str context others in
  let session := utf8 session_id in
  run! found := query (git_finalization project.1 session) in
  match found with
  | None =>
      run! git_mode := effective_agent_git_mode (pending_migration_version E) (log_proves_git_off E)
                         project (Some session) in
      if git_mode == GitOff then
        run! _ := Workflow.move_task_in_board_after_lock E (get_tasks_dir root) from Done task_index in
        wret false
      else refuse NoJournal
  | Some g =>
      complete_managed_task project.1 root from task_index entry session g (ch_run_token context) now
  end.

(** ** Correcting a provisional completion *)

Definition reseal_provisional_done_task (root : path) (task_index_str : text)
    (context : AutomatedAgentChildContext) (others : list (db -> db)) (now : string) : wio bool :=
  run! found := query (project_with_id (ch_project_id context)) in
  run! project := need found ProjectNotRegistered in
  let pid := project.1 in
  run! running := running_session_for_automated_child others context in
  run! git_mode := effective_agent_git_mode (pending_migration_version E) (log_proves_git_off E)
                     project (Some running) in
  if git_mode == GitOff then wret false
  else
    run! root := on_board (canonicalize_existing_path root) in
    run! _ := ensure (components (p_path project.2) == root) WrongProject in
    run! task_index := one_based_index task_index_str in
    let board_dir := get_tasks_dir root in
    run! entry := on_board (task_entry_at U board_dir Done task_index) in
    run! session_id := need (codex_session_id_from_task_content (content entry)) NoConversation in
    run! _ := ensure (utf8 session_id == running) OwnedByAnotherSession in
    run! _ := ensure (task_content_has_completed_note (content entry)) NoCompletedNote in
    let session := utf8 session_id in
    run! found := query (git_finalization pid session) in
    run! g := need found NoJournal in
    run! _ := ensure (g_state g == CommitPending) (SealedJournal (g_state g)) in
    run! task_identity := need (g_task_identity g) NoDurableIdentity in
    run! _ := ensure (utf8 <$> durable_task_identity (content entry) == Some task_identity)
                IdentityChanged in
    run! starting_head := need (g_starting_head g) NoStartingCommit in
    run! manifest := capture_agent_git_resealed_manifest E pid root (g_worktree_baseline g)
                       session_id (of_utf8 task_identity) (of_utf8 starting_head)
                       (of_utf8 <$> g_branch_ref g) in
    run! resealed := on_registry (reseal_git_finalization_manifest pid session (g_generation g)
                                    task_identity manifest (ch_run_token context) now) in
    run! _ := ensure resealed LostFence in
    wret true.

(** ** [clt done] *)

(** Bytes of a worker token. *)
Definition worker_token_is_valid (token : string) : bool :=
  negb (token == "")
  && forallb (fun a => is_ascii_alphanumeric (N_of_ascii a) || (N_of_ascii a =? 45)%N)
       (String.list_ascii_of_string token).

(** The run token of a live automated control. *)
Definition live_run_token (control : option control_row) : option string :=
  sc ← control;
  if (sc_state sc == Running)
     && from_option (fun child => local_process_is_running E child =! Some false) false (sc_child_pid sc)
     && is_null (sc_interactive_holder sc) && is_null (sc_interactive_launch_token sc)
  then sc_run_token sc else None.

Definition recover_completion_context (root : path) (session : string) (others : list (db -> db))
    : wio (option AutomatedAgentChildContext) :=
  run! root := on_board (canonicalize_existing_path root) in
  run! found := query (fun d => List.find (fun p => components (p_path p.2) == root) (list_projects d)) in
  match found with
  | None => wret None
  | Some (pid, _) =>
      run! control := query_res (session_control pid session) in
      match live_run_token control with
      | None =>
          run! journal := query (git_finalization pid session) in
          run! _ := ensure (from_option (fun g => Finalization.is_terminal (g_state g)) true journal)
                      UnfinishedWork in
          wret None
      | Some run_token =>
          run! _ := ensure (worker_token_is_valid run_token) BadToken in
          let context := mkChild pid run_token in
          run! running := running_session_for_automated_child others context in
          run! _ := ensure (running == session) OwnedByAnotherSession in
          wret (Some context)
      end
  end.

(** [thread]: the conversation named by the environment of a resumed shell. *)
Definition automated_completion_context (automated : option AutomatedAgentChildContext)
    (thread : option text) (root : path) (others : list (db -> db))
    : wio (option AutomatedAgentChildContext) :=
  match automated, thread with
  | Some context, _ => wret (Some context)
  | None, Some session =>
      if codex_session_id_is_uuid session && registry_exists E
      then recover_completion_context root (utf8 session) others else wret None
  | None, None => wret None
  end.

(** [lock_free]: whether Git's finalization lock could be taken. *)
Definition move_task_to_done (automated : option AutomatedAgentChildContext) (thread : option text)
    (lock_free : bool) (root : path) (from : TaskStatus) (task_index_str : text)
    (others others' : list (db -> db)) (now : string) (clock : CancellationClock)
    : wio TaskDoneOutcome :=
  let board := get_tasks_dir root in
  run! index := one_based_index task_index_str in
  run! selected := on_board (task_entry_at U board from index) in
  run! repository := on_board (look (exists_path (root ++ [str ".git"]))) in
  run! _ := ensure (lock_free || negb repository
                    || (recoverable_codex_session_id_from_task_content (content selected) == None))
              GitError in
  run! _ := (if from =! Done then ensure_admitted_in E board from index else wret tt) in
  run! context := automated_completion_context automated thread root others in
  match context with
  | None =>
      run! completed := move_task_in_board E board from Done task_index_str clock in
      wret (match completed with
            | Some session_id => ExternalCompleted session_id
            | None => Normal
            end)
  | Some context =>
      run! provisional :=
        (if from == Done then reseal_provisional_done_task root task_index_str context others' now
         else move_task_to_done_with_agent_store root from task_index_str context others' now) in
      wret (if provisional then Provisional else Normal)
  end.
End Completion.
