(* ===== verification/GitRetire.v ===== *)
(** Managed Git: the lease of a finalization, and journals nobody will finish
    (src/managed_git.rs). *)
From S2P Require Import Prelude Sql AgentTypes Store Leases Sessions Journals Retire Holders.
From S2P Require Import Projects Text Markers TaskNotes Metadata TaskEntry Files Board.
From S2P Require Import BoardTree World Surroundings Git Manifest Scheduling Projection.
From S2P Require Import GitStart SnapshotLoad Guards Workflow.

Definition AGENT_GIT_REMOTE_TIMEOUT_SECONDS : Z := 30.
Definition AGENT_GIT_FINALIZATION_LEASE_SECONDS : Z := AGENT_GIT_REMOTE_TIMEOUT_SECONDS * 8 + 60.
Definition TUI_LEASE_RELEASE_ATTEMPTS : nat := 3.

(** A computation whose failure the caller looks at. *)
Definition wtry {A} (c : wio A) : wio (res refusal A) := fun w =>
  let '(r, w') := c w in (Ok r, w').
Definition from_result {A} (r : res refusal A) : wio A := fun w => (r, w).

(** [lease.release()] of an interactive lease: asked again while it is still held. *)
Fixpoint release_interactive_lease (attempts : nat) (pid : Z) (holder : string) : wio unit :=
  match attempts with
  | O => refuse LostFence
  | S attempts' =>
      run! released := on_registry (release_lease pid holder) in
      if released then wret tt
      else
        run! lease := query (lease_for_project pid) in
        match lease with
        | Some l => if l.1.1.2 == holder then release_interactive_lease attempts' pid holder else wret tt
        | None => wret tt
        end
  end.

(** [heartbeat_error]: whether the renewing thread has recorded a failure, after
    so many Git commands. *)
Record AgentGitFinalizationLease := mkFinalizer {
  fl_project_id : Z; fl_holder : string; heartbeat_error : nat -> bool
}.

Section Lease.
Context (E : Surroundings).

Definition ensure_owned (lease : AgentGitFinalizationLease) : wio unit := fun w =>
  (run! _ := ensure (negb (heartbeat_error lease (git_runs w))) LostFence in
   run! now := agent_timestamp E in
   run! owned := query (git_finalization_lease_is_owned (fl_project_id lease) (fl_holder lease) now) in
   ensure owned LostFence) w.

Definition ensure_agent_git_finalization_fence (lease : option AgentGitFinalizationLease) : wio unit :=
  match lease with Some lease => ensure_owned lease | None => wret tt end.

(** The lease is given back whether or not it was still owned. *)
Definition release_finalization_lease (lease : AgentGitFinalizationLease) : wio unit :=
  run! fence_result := wtry (ensure_owned lease) in
  run! release_result := wtry (release_interactive_lease TUI_LEASE_RELEASE_ATTEMPTS
                                 (fl_project_id lease) (fl_holder lease)) in
  run! _ := from_result fence_result in
  from_result release_result.

(** A holder whose process is dead, or this process's own on request. *)
Definition reclaimable_finalizer (existing : option string) (reclaim_current_process_leases : bool)
    : option string :=
  existing ≫= fun holder =>
    let liveness := agent_lease_holder_liveness (own_pid E) (local_process_is_running E) holder in
    if (liveness == Dead) || (reclaim_current_process_leases && (liveness == CurrentProcess))
    then Some holder else None.

(** [holder] is new; [heartbeat] is what the renewing thread will record. *)
Definition try_acquire_agent_git_finalization_lease (pid : Z) (holder : string)
    (heartbeat : nat -> bool) (reclaim_current_process_leases : bool)
    : wio (option AgentGitFinalizationLease) :=
  run! existing := query (fun d => (fun l => l.1.1.2) <$> lease_for_project pid d) in
  run! acquired_at := agent_timestamp E in
  run! expires_at := agent_timestamp_after E AGENT_GIT_FINALIZATION_LEASE_SECONDS in
  run! acquired := on_registry (try_acquire_git_finalization_lease pid holder acquired_at expires_at
                      (reclaimable_finalizer existing reclaim_current_process_leases)) in
  wret (if acquired then Some (mkFinalizer pid holder heartbeat) else None).

(** ** A failed push *)

Definition first_push_pending (pid : Z) (d : db) : option journal_snapshot :=
  List.find (fun g => g_state g.2 == PushPending) (list_pending_git_finalizations (Some pid) d).

Fixpoint record_push_retry (attempts : nat) (pid : Z) (error : string)
    (lease : AgentGitFinalizationLease) : wio unit :=
  match attempts with
  | O => refuse JournalChanged
  | S attempts' =>
      run! _ := ensure_owned lease in
      run! found := query (first_push_pending pid) in
      match found with
      | None => wret tt
      | Some (k, g) =>
          run! _ := ensure_owned lease in
          run! now := agent_timestamp E in
          run! changed := on_registry (compare_and_set_plain k.1 k.2 (g_generation g) PushPending
                            (g_owner_run_token g) None (Some error) now) in
          if changed then wret tt else record_push_retry attempts' pid error lease
      end
  end.

Definition record_agent_git_push_retry_error_message := record_push_retry 3.

Definition agent_git_push_retry_backoff_remaining (finalizations : list journal_snapshot)
    (now failure_backoff : Z) : option Z :=
  List.find (fun g => (g_state g.2 == PushPending) && negb (is_null (g_last_error g.2))) finalizations
    ≫= fun g => remaining_agent_delay (Some (g_updated_at g.2)) now failure_backoff.
End Lease.

Definition AGENT_ABANDONED_UNBOUND_JOURNAL_REASON : string :=
  "Managed Git proof was cancelled because its run ended before claiming a task".
Definition ORPHANED_JOURNAL_REASON : string :=
  "Abandoned unbound Git journal: no task identity or board marker remains".

Definition exact_working_git_finalization_snapshot (current expected : journal_snapshot) : bool :=
  (g_state current.2 == Working) && (g_state expected.2 == Working) && (current.1 == expected.1)
  && (g_generation current.2 == g_generation expected.2)
  && (g_task_identity current.2 == g_task_identity expected.2)
  && (g_owner_run_token current.2 == g_owner_run_token expected.2)
  && (g_git_mode current.2 == g_git_mode expected.2)
  && (g_starting_head current.2 == g_starting_head expected.2)
  && (g_branch_ref current.2 == g_branch_ref expected.2)
  && (g_upstream_ref current.2 == g_upstream_ref expected.2)
  && (g_worktree_baseline current.2 == g_worktree_baseline expected.2)
  && (g_commit_oid current.2 == g_commit_oid expected.2)
  && (g_created_at current.2 == g_created_at expected.2).

Definition snapshot (pid : Z) (sid : string) (d : db) : option journal_snapshot :=
  (fun g => ((pid, sid), g)) <$> git_finalization pid sid d.

(** The cardinality of a retirement. *)
Fixpoint wcount {A} (f : A -> wio bool) (l : list A) : wio nat :=
  match l with
  | [] => wret 0
  | a :: l' => run! one := f a in run! rest := wcount f l' in wret ((if one then 1 else 0) + rest)
  end.

Section Retirement.
Context (E : Surroundings).
Local Notation git := (Surroundings.git E).
Let U := unicode E.

(** The baseline reads, and seals nothing. *)
Definition baseline_is_unsealed (raw : string) : bool :=
  negb (is_null (baseline_from_json E raw))
  && match json_parse E (of_utf8 raw) with
     | Some value => negb (names_sealed_field value)
     | None => false
     end.

(** ** Unbound journals *)

Definition registered_root_is (pid : Z) (root : path) : wio unit :=
  run! found := query (project_with_id pid) in
  run! project := need found ProjectNotRegistered in
  run! here := on_board (canonicalize_existing_path root) in
  run! registered := on_board (canonicalize_existing_path (components (p_path project.2))) in
  ensure (here == registered) WrongProject.

Definition cancel_orphaned_working_git_journal (root : path) (expected : journal_snapshot)
    (lease : AgentGitFinalizationLease) : wio bool :=
  let g := expected.2 in
  if (g_state g =! Working) || negb (is_null (g_task_identity g)) || negb (is_null (g_commit_oid g))
     || negb (is_null (g_owner_run_token g))
  then wret false
  else if negb (baseline_is_unsealed (g_worktree_baseline g)) then wret false
  else
  run! _ := ensure (fl_project_id lease == expected.1.1) LostFence in
  run! _ := registered_root_is expected.1.1 root in
  run! _ := ensure_owned E lease in
  run! claimed := on_board (task_tree_contains_session_marker (get_tasks_dir root) (of_utf8 expected.1.2)) in
  if claimed then wret false
  else
  run! _ := ensure_owned E lease in
  run! now := agent_timestamp E in
  on_registry (cancel_orphaned_working_git_finalization expected (fl_holder lease)
                 ORPHANED_JOURNAL_REASON now now).

(** Nothing on the board is left unfinished for the conversation: no task and no
    marker, or one task that is done. *)
Definition conversation_is_settled (linked : list (TaskStatus * TaskEntry)) (marked : bool) : bool :=
  match linked with
  | [] => negb marked
  | [(status, _)] => status == Done
  | _ => false
  end.

Definition retire_abandoned_journal (pid : Z) (board_dir : path) (journal : journal_snapshot)
    : wio bool :=
  let session_id := of_utf8 journal.1.2 in
  run! linked := on_board (session_tasks E board_dir session_id) in
  run! marked := (match linked with
                  | [] => on_board (task_tree_contains_session_marker board_dir session_id)
                  | _ => wret false
                  end) in
  if negb (conversation_is_settled linked marked) then wret false
  else
  run! now := agent_timestamp E in
  on_registry (retire_abandoned_unbound_git_finalization pid journal.1.2 (g_generation journal.2)
                 (negb (length linked =? 0)) AGENT_ABANDONED_UNBOUND_JOURNAL_REASON now).

Definition retire_abandoned_unbound_git_journals (project : Z * project_row) : wio nat :=
  run! pending := query (list_pending_git_finalizations (Some project.1)) in
  let candidates := List.filter (fun j => (g_state j.2 == Working) && is_null (g_task_identity j.2)
                                          && is_null (g_commit_oid j.2)) pending in
  wcount (retire_abandoned_journal project.1 (get_tasks_dir (components (p_path project.2)))) candidates.

(** ** What a completed commit still shows *)

Definition worktree_contains_completed_done_task (root : path) (session_id : text) : wio bool :=
  run! found := on_board (terminal_task_for_codex_session_in_board U (get_tasks_dir root) session_id) in
  wret match found with
       | Some (status, task) => (status == Done) && task_content_has_completed_note (content task)
       | None => false
       end.

(** The board in the work tree and on the frozen branch both still have the
    commit's completed task. *)
Definition local_agent_git_task_commit_is_retained (root : path) (branch_ref : option text)
    (commit_oid session_id task_identity : text) : wio bool :=
  match branch_ref with
  | None => wret false
  | Some branch_ref =>
      run! branch := current_agent_git_branch git root in
      if branch =! Some branch_ref then wret false
      else
      run! here := worktree_completed_task_identity E root session_id in
      if here =! Some task_identity then wret false
      else
      run! branch_tip := resolve_git_commit git root branch_ref in
      run! contained := git_commit_is_ancestor git root commit_oid branch_tip in
      if negb contained then wret false
      else
      run! committed := git_ref_completed_task_identity git root branch_tip session_id in
      if committed =! Some task_identity then wret false
      else
      run! active := git_ref_contains_active_task_identity git root branch_tip task_identity in
      if active then wret false
      else
      run! rechecked := resolve_git_commit git root branch_ref in
      wret (rechecked == branch_tip)
  end.

(** ** Superseded journals *)

Fixpoint collect_task_identity_entries (fuel : nat) (board : path) (identity : text)
    : io (list (TaskStatus * TaskEntry)) :=
  match fuel with
  | O => fail DepthExceeded
  | S fuel' =>
      concat_io (fun status =>
        do! entries := read_task_entries U board status in
        concat_io (fun entry =>
          do! below :=
            match subtask_board entry with
            | Some p => collect_task_identity_entries fuel' p identity
            | None => ret []
            end in
          ret (below ++ (if durable_task_identity (content entry) == Some identity
                         then [(status, entry)] else []))) entries) Status.ALL
  end.

Definition identity_entries (board : path) (identity : text) : io (list (TaskStatus * TaskEntry)) :=
  fun s => collect_task_identity_entries (search_fuel s) board identity s.

(** The journal of the conversation that completed the same task. *)
Definition superseding_journal (pid : Z) (board : path) (journal : journal_snapshot) (identity : string)
    : wio (option journal_snapshot) :=
  run! matches := on_board (identity_entries board (of_utf8 identity)) in
  match matches with
  | [(Done, task)] =>
      match codex_session_id_from_task_content (content task) with
      | None => wret None
      | Some session =>
          run! found := query (snapshot pid (utf8 session)) in
          wret (completed ← found;
                let g := completed.2 in
                if (g_state g == Completed) && (g_task_identity g == g_task_identity journal.2)
                   && (g_branch_ref g == g_branch_ref journal.2)
                   && (g_git_mode g == g_git_mode journal.2)
                   && (g_upstream_ref g == g_upstream_ref journal.2)
                   && task_content_has_completed_note (content task)
                then Some completed else None)
      end
  | _ => wret None
  end.

Definition same_destination (a b : AgentGitWorktreeBaseline) : bool :=
  (upstream_remote a == upstream_remote b) && (upstream_merge_ref a == upstream_merge_ref b)
  && (upstream_push_url a == upstream_push_url b).

(** [wand a b]: [b] is asked only when [a] holds. *)
Definition wand (a b : wio bool) : wio bool := run! x := a in if x then b else wret false.

Definition superseding_commit_is_proven (root : path) (baseline : AgentGitWorktreeBaseline)
    (start : text) (completed : journal_snapshot) (commit completed_start identity : text) : wio bool :=
  let g := completed.2 in
  let session := of_utf8 completed.1.2 in
  let branch := of_utf8 <$> g_branch_ref g in
  run! completed_baseline := read_baseline E (g_worktree_baseline g) in
  if negb (same_destination baseline completed_baseline) then wret false
  else
  wand (git_commit_is_ancestor git root start completed_start)
  (wand (local_agent_git_task_commit_is_retained root branch commit session identity)
  (wand (run! found := find_agent_git_task_commit_with_policy E root
                         (default completed_start (manifest_parent_head completed_baseline)) branch
                         session identity (b_version completed_baseline =? 1)%N in
         wret (found == Some commit))
  (git_commit_matches_agent_staged_manifest E root commit session identity (g_worktree_baseline g) true))).

Definition retire_superseded_journal (pid : Z) (root : path) (journal : journal_snapshot) : wio bool :=
  let g := journal.2 in
  let board := get_tasks_dir root in
  match g_task_identity g, baseline_from_json E (g_worktree_baseline g) with
  | Some identity, Some baseline =>
      if (g_state g =! Working) || negb (is_null (g_commit_oid g))
         || negb (baseline_is_unsealed (g_worktree_baseline g))
      then wret false
      else
      run! claimed := on_board (task_tree_contains_session_marker board (of_utf8 journal.1.2)) in
      if claimed then wret false
      else
      run! found := superseding_journal pid board journal identity in
      match found with
      | None => wret false
      | Some completed =>
          match g_starting_head g, g_commit_oid completed.2, g_starting_head completed.2 with
          | Some start, Some commit, Some completed_start =>
              run! proven := superseding_commit_is_proven root baseline (of_utf8 start) completed
                               (of_utf8 commit) (of_utf8 completed_start) (of_utf8 identity) in
              if negb proven then wret false
              else
              run! now := agent_timestamp E in
              on_registry (retire_superseded_working_git_finalization journal completed now)
          | _, _, _ => wret false
          end
      end
  | _, _ => wret false
  end.

Definition retire_superseded_working_git_journals (project : Z * project_row) : wio nat :=
  run! candidates := query (list_pending_git_finalizations (Some project.1)) in
  wcount (retire_superseded_journal project.1 (components (p_path project.2))) candidates.

(** ** Reconciling orphans *)

Definition reconcile_orphaned_agent_git_journals (project : Z * project_row) (holder : string)
    (heartbeat : nat -> bool) : wio nat :=
  run! abandoned := retire_abandoned_unbound_git_journals project in
  run! superseded := retire_superseded_working_git_journals project in
  let retired := abandoned + superseded in
  run! pending := query (list_pending_git_finalizations (Some project.1)) in
  match pending with
  | [] => wret retired
  | _ =>
      run! acquired := try_acquire_agent_git_finalization_lease E project.1 holder heartbeat false in
      run! lease := need acquired LostFence in
      run! result := wtry (
        run! journals := query (list_pending_git_finalizations (Some project.1)) in
        wcount (fun j => cancel_orphaned_working_git_journal (components (p_path project.2)) j lease)
          journals) in
      run! released := wtry (release_finalization_lease E lease) in
      run! orphans := from_result result in
      run! _ := from_result released in
      wret (retired + orphans)
  end.

(** ** A run that never claimed a task *)

Definition cancel_unlinked_working_git_finalization (root : path) (finalization : journal_snapshot)
    (owner_run_token : string) : wio bool :=
  let '(pid, sid) := finalization.1 in
  run! found := on_board (terminal_task_for_codex_session_in_board U (get_tasks_dir root) (of_utf8 sid)) in
  if negb (is_null found) then wret false
  else
  run! found := query (snapshot pid sid) in
  match found with
  | None => wret false
  | Some current =>
      if negb (exact_working_git_finalization_snapshot current finalization)
         || negb (g_owner_run_token current.2 == Some owner_run_token)
      then wret false
      else
      run! now := agent_timestamp E in
      on_registry (compare_and_set_owned_git_finalization pid sid (g_generation current.2) Cancelled
                     owner_run_token None None now)
  end.

Definition retire_unlinked_working_git_finalization_after_run (project : Z * project_row)
    (finalization : journal_snapshot) (session_run_token : option string) : wio bool :=
  match session_run_token with
  | Some token =>
      if g_owner_run_token finalization.2 == Some token
      then cancel_unlinked_working_git_finalization (components (p_path project.2)) finalization token
      else wret false
  | None => wret false
  end.

(** ** A working task's link *)

Definition working_git_history_is_safe (root : path) (finalization : journal_snapshot)
    (starting_head : text) : wio bool :=
  run! current_branch := current_agent_git_branch git root in
  if (utf8 <$> current_branch) =! g_branch_ref finalization.2 then wret false
  else
  run! current_head := current_agent_git_head git root in
  wand (git_commit_is_ancestor git root starting_head current_head)
    (agent_git_range_is_safe_before_manifest E finalization.1.1 root starting_head current_head
       (of_utf8 finalization.1.2)).

Definition is_plain_source (entry : TaskEntry) : bool :=
  match source entry with MarkdownLine _ => true | PathSource _ is_dir => negb is_dir end.

Definition linked_to (session_id task_identity : text) (e : TaskStatus * nat * TaskEntry) : bool :=
  (codex_session_id_from_task_content (task_content_without_stop_marker (content e.2)) == Some session_id)
  && has_identity task_identity e.2.

(** The task's copies in Todo and Doing that a crash between write and removal
    leaves: equal, each of one file or line. *)
Definition crash_duplicates (a b : TaskStatus * nat * TaskEntry) : bool :=
  bool_decide (Todo ∈ [a.1.1; b.1.1]) && bool_decide (Doing ∈ [a.1.1; b.1.1])
  && (trim_end (content a.2) == trim_end (content b.2)) && is_plain_source a.2 && is_plain_source b.2.

Inductive LinkRepair := Settled (linked : bool) | Activate (index : nat)
  | DropDuplicate (status : TaskStatus) (entry : TaskEntry) | Relink.

(** What the linked tasks call for; a stopped or blocked task stays in Todo. *)
Definition link_repair (session_stopped : bool) (linked : list (TaskStatus * nat * TaskEntry))
    : LinkRepair :=
  match linked with
  | [(status, index, entry)] =>
      if status == Doing then Settled true
      else if session_stopped || negb (task_entry_is_ready entry) then Settled true else Activate index
  | [a; b] =>
      if crash_duplicates a b then
        let duplicate_status :=
          if session_stopped || negb (task_entry_is_ready a.2) then Doing else Todo in
        DropDuplicate duplicate_status (if a.1.1 == duplicate_status then a.2 else b.2)
      else Settled false
  | [] => Relink
  | _ => Settled false
  end.

Definition relink_working_task (root : path) (session_id task_identity : text) (session_stopped : bool)
    : wio bool :=
  let board_dir := get_tasks_dir root in
  run! entries := on_board (indexed_entries E board_dir [Todo; Doing]) in
  match List.filter (fun e => has_identity task_identity e.2) entries with
  | [(status, index, entry)] =>
      if task_content_is_manual (content entry)
         || match recoverable_codex_session_id_from_task_content (content entry) with
            | Some session => session =! session_id
            | None => false
            end
      then wret false
      else
      run! _ := on_board (attach_codex_session_to_task_after_lock U root status entry session_id) in
      run! _ := (if (status == Todo) && negb session_stopped && task_entry_is_ready entry
                 then on_board (move_task_without_reordering_after_lock U board_dir Todo Doing index)
                 else wret tt) in
      wret true
  | _ => wret false
  end.

Definition repair_working_git_task_link (root : path) (finalization : journal_snapshot) : wio bool :=
  let '(pid, sid) := finalization.1 in
  match g_task_identity finalization.2, g_starting_head finalization.2 with
  | Some task_identity, Some starting_head =>
      let starting_head := of_utf8 starting_head in
      let board_dir := get_tasks_dir root in
      run! safe := working_git_history_is_safe root finalization starting_head in
      if negb safe then wret false
      else
      run! found := query (snapshot pid sid) in
      match found with
      | None => wret false
      | Some current =>
          run! safe := (if exact_working_git_finalization_snapshot current finalization
                        then working_git_history_is_safe root current starting_head else wret false) in
          if negb safe then wret false
          else
          run! control := query_res (session_control pid sid) in
          let session_stopped :=
            match control with
            | Some sc => bool_decide (sc_state sc ∈ [Stopped; StopRequested])
            | None => false
            end in
          run! _ := on_board (cleanup_clt_atomic_task_temporaries board_dir) in
          run! entries := on_board (indexed_entries E board_dir [Todo; Doing]) in
          match link_repair session_stopped
                  (List.filter (linked_to (of_utf8 sid) (of_utf8 task_identity)) entries) with
          | Settled b => wret b
          | Activate index =>
              run! _ := on_board (move_task_without_reordering_after_lock U board_dir Todo Doing index) in
              wret true
          | DropDuplicate status entry =>
              run! _ := on_board (remove_task_entry_without_reordering board_dir status entry) in
              wret true
          | Relink => relink_working_task root (of_utf8 sid) (of_utf8 task_identity) session_stopped
          end
      end
  | _, _ => wret false
  end.
End Retirement.
