(* ===== verification/GitPublish.v ===== *)
(** Publishing a sealed commit (src/managed_git.rs): it is pushed to the frozen
    destination only, and counts as published when the destination's tip was
    read, fetched and read again. *)
From S2P Require Import Prelude Sql AgentTypes Store Text Markers TaskNotes Metadata.
From S2P Require Import TaskEntry Files Board World Surroundings Git Manifest Projection GitStart.
From S2P Require Import GitRetire.

Section Publish.
Context (E : Surroundings) (root : path) (branch_ref expected_upstream_ref : option text).
Context (baseline : AgentGitWorktreeBaseline) (lease : option AgentGitFinalizationLease).
Local Notation git := (Surroundings.git E).
Local Notation fence := (ensure_agent_git_finalization_fence E lease).

Let destination := frozen_destination baseline.

(** The upstream and the destination are still the frozen ones. *)
Definition destination_is_frozen : wio bool :=
  run! upstream := resolve_agent_git_upstream git root branch_ref in
  if upstream =! expected_upstream_ref then wret false
  else
    run! current := capture_agent_git_upstream_destination E root branch_ref in
    wret (current == Some destination).

Definition push_arguments (push_url commit_oid : text) : list text :=
  (str <$> ["-c"; "push.followTags=false"; "-c"; "push.recurseSubmodules=no"; "push"; "--porcelain";
            "--no-follow-tags"; "--recurse-submodules=no"; "--"])
  ++ [push_url; commit_oid ++ str ":" ++ ud_merge_ref destination].

Definition push_agent_git_commit_to_frozen_destination (commit_oid : text) : wio unit :=
  run! _ := fence in
  run! push_url := need (ud_push_url destination) GitError in
  run! _ := ensure (ud_remote destination =! []) GitError in
  run! _ := ensure (ud_merge_ref destination =! []) GitError in
  run! frozen := destination_is_frozen in
  run! _ := ensure frozen GitError in
  run! _ := fence in
  run! o := run_agent_git_remote_command E root (push_arguments push_url commit_oid) in
  run! _ := fence in
  run! _ := ensure (succeeded o) GitError in
  run! frozen := destination_is_frozen in
  run! _ := ensure frozen GitError in
  fence.

(** The tracking ref of the destination, when the branch fetches from it. *)
Definition tracking_tip_for_push_destination : wio (option text) :=
  match branch_ref ≫= strip_prefix (str "refs/heads/"), expected_upstream_ref with
  | Some branch, Some upstream_ref =>
      if negb (starts_with (str "refs/remotes/") upstream_ref) then wret None
      else
      run! remote := git_config E root (str "branch." ++ branch ++ str ".remote") in
      if remote =! Some (ud_remote destination) then wret None
      else
      run! urls := git_stdout git root [str "remote"; str "get-url"; str "--all"; ud_remote destination] in
      if Some urls =! ud_push_url destination then wret None
      else git_optional_stdout git root [str "rev-parse"; str "--verify"; upstream_ref] [1%Z; 128%Z]
  | _, _ => wret None
  end.

(** A failure to refresh the cache is reported, not returned. *)
Definition refresh_agent_git_tracking_ref (upstream_ref previous_tip verified_tip : text) : wio unit :=
  if previous_tip == verified_tip then wret tt
  else
    run! _ := wattempt (git_stdout git root
      [str "update-ref"; str "--no-deref"; str "-m"; str "clt: verified task publication";
       upstream_ref; verified_tip; previous_tip]) in
    wret tt.

Definition remote_tips (out : text) : list text := omap (fun l => head (split_whitespace l)) (lines out).

Definition read_remote_tip (push_url : text) : wio (option text) :=
  run! _ := fence in
  run! o := run_agent_git_remote_command E root
              [str "ls-remote"; str "--refs"; push_url; ud_merge_ref destination] in
  run! _ := fence in
  run! _ := ensure (succeeded o) GitError in
  run! out := need (stdout o) GitError in
  wret (match remote_tips out with [tip] => Some tip | _ => None end).

Definition refresh_after_fetch (previous_tip : option text) (fetched_tip : text) : wio unit :=
  match expected_upstream_ref, previous_tip with
  | Some upstream_ref, Some previous_tip =>
      run! current := tracking_tip_for_push_destination in
      if current == Some previous_tip then
        run! _ := fence in refresh_agent_git_tracking_ref upstream_ref previous_tip fetched_tip
      else wret tt
  | _, _ => wret tt
  end.

Definition fetch_destination_tip (push_url : text) (previous_tip : option text) : wio (option text) :=
  run! observed := read_remote_tip push_url in
  match observed with
  | None => wret None
  | Some observed_tip =>
      run! _ := fence in
      run! fetch := run_agent_git_remote_command E root
                      [str "fetch"; str "--no-tags"; str "--quiet"; push_url; ud_merge_ref destination] in
      run! _ := fence in
      run! _ := ensure (succeeded fetch) GitError in
      run! fetched_tip := resolve_git_commit git root (str "FETCH_HEAD") in
      run! rechecked_tip := read_remote_tip push_url in
      run! frozen := destination_is_frozen in
      if negb frozen then wret None
      else
      run! _ := fence in
      if (Some fetched_tip =! rechecked_tip) || (fetched_tip =! observed_tip) then wret None
      else
      run! _ := refresh_after_fetch previous_tip fetched_tip in
      run! _ := fence in
      wret (Some fetched_tip)
  end.

(** The upstream of the repository itself. *)
Definition local_destination_tip : wio (option text) :=
  run! tip := resolve_git_commit git root (ud_merge_ref destination) in
  run! _ := fence in
  run! frozen := destination_is_frozen in
  wret (if frozen then Some tip else None).

Definition fetch_agent_git_upstream_tip : wio (option text) :=
  run! _ := fence in
  run! upstream := resolve_agent_git_upstream git root branch_ref in
  if upstream =! expected_upstream_ref then wret None
  else if (ud_remote destination == []) || (ud_merge_ref destination == []) then wret None
  else
  run! current := capture_agent_git_upstream_destination E root branch_ref in
  if current =! Some destination then wret None
  else if ud_remote destination == str "." then local_destination_tip
  else
  match ud_push_url destination with
  | None => wret None
  | Some push_url =>
      run! previous_tip := tracking_tip_for_push_destination in
      fetch_destination_tip push_url previous_tip
  end.

Definition agent_git_upstream_tip_proves_task_commit
    (upstream_tip local_commit_oid session_id task_identity : text) (legacy_identity_checks : bool)
    : wio bool :=
  run! contained := git_commit_is_ancestor git root local_commit_oid upstream_tip in
  if negb contained then wret false
  else
  run! identity := git_ref_completed_task_identity git root upstream_tip session_id in
  if identity =! Some task_identity then wret false
  else if negb legacy_identity_checks then wret true
  else
  run! active := git_ref_contains_active_task_identity git root upstream_tip task_identity in
  wret (negb active).
End Publish.
