(* ===== verification/GitRepair.v ===== *)
(** Repairing the order of a completed task (src/managed_git/repair.rs): the
    unpublished commit at the tip whose board differs from the sealed one only in
    the place of the task's own line is amended to the sealed tree. *)
From S2P Require Import Prelude Sql AgentTypes Store Leases Sessions Journals Retire Projects.
From S2P Require Import Text Markers TaskNotes Metadata TaskEntry Files Board BoardTree.
From S2P Require Import World Surroundings Git Manifest Projection GitStart.
From S2P Require Import SnapshotLoad Guards Workflow GitRetire GitPublish.

Definition DONE_PATH : text := str "tasks/done.md".

(** ** The line of the selected task *)

Definition selects (session line : text) : bool :=
  starts_with (str "- ") line && (codex_session_id_from_task_content (trim line) == Some session).

Fixpoint remove_selected (session : text) (ls : list text) (selected : option text) (rest : text)
    : option (text * text) :=
  match ls with
  | [] => (fun s => (s, rest)) <$> selected
  | line :: ls' =>
      if selects session line then
        match selected with
        | Some _ => None
        | None => remove_selected session ls' (Some line) rest
        end
      else remove_selected session ls' selected (rest ++ line)
  end.

(** The only line linked to the conversation, and the text without it. *)
Definition selected_line_removed (t session : text) : option (text * text) :=
  remove_selected session (split_inclusive_newline t) None [].

Definition path_text (p : path) : text := concat ((fun x => str "/" ++ x) <$> p).

(** What the operating system answers about the process and the files of Git's
    own directory, which the program does not read otherwise. *)
Record RepairSurroundings := mkRepair {
  (** One of [GIT_DIR], [GIT_COMMON_DIR], [GIT_WORK_TREE], [GIT_INDEX_FILE],
      [GIT_NAMESPACE] is set. *)
  git_environment_is_set : bool;
  (** The shared index is a regular file, its lock was created and it was copied. *)
  index_copied : text -> bool;
  (** The corrected index took the place of the shared one. *)
  index_replaced : text -> bool;
  (** A new directory, and whether a reported top level is that directory. *)
  repair_checkout : path;
  checkout_is : text -> bool
}.

Section Repair.
Context (E : Surroundings) (R : RepairSurroundings).
Local Notation git := (Surroundings.git E).

Definition blob (root : path) (tree : text) : wio text :=
  run! o := run_git git (plain root [str "cat-file"; str "blob"; tree ++ str ":" ++ DONE_PATH]) in
  run! _ := ensure (succeeded o) GitError in
  need (stdout o) GitError.

Definition board_mode (root : path) (tree : text) : wio (option text) :=
  run! out := git_stdout git root [str "ls-tree"; tree; DONE_PATH] in
  wret (head (split_whitespace out)).

Definition is_only_selected_order (root : path) (commit tree session : text) : wio bool :=
  run! paths := git_nul_separated_paths git root
                  [str "diff"; str "--name-only"; str "-z"; commit; tree; str "--"] in
  if paths =! [DONE_PATH] then wret false
  else
  run! old_mode := board_mode root commit in
  run! new_mode := board_mode root tree in
  if old_mode =! new_mode then wret false
  else
  run! old := blob root commit in
  run! new := blob root tree in
  wret match selected_line_removed old session, selected_line_removed new session with
       | Some old, Some new => old == new
       | _, _ => false
       end.

(** ** The commit is nowhere but on its branch *)

Definition remote_urls (root : path) (remote : text) : wio (list text) :=
  run! fetch := git_stdout git root [str "remote"; str "get-url"; str "--all"; remote] in
  run! push := git_stdout git root [str "remote"; str "get-url"; str "--push"; str "--all"; remote] in
  wret (lines fetch ++ lines push).

Definition require_tip_without (root : path) (commit : text) (line : text) : wio unit :=
  run! oid := need (head (split_whitespace line)) GitError in
  run! tip := resolve_git_commit git root oid in
  run! published := git_commit_is_ancestor git root commit tip in
  ensure (negb published) GitError.

Definition require_url_without (root : path) (commit : text) (url : text) : wio unit :=
  run! o := run_agent_git_remote_command E root [str "ls-remote"; str "--refs"; url] in
  run! _ := ensure (succeeded o) GitError in
  run! out := need (stdout o) GitError in
  wfor_each (require_tip_without root commit) (lines out).

(** A [BTreeSet] of addresses, in order. *)
Definition url_set (urls : list text) : list text :=
  sort_by (fun a b => text_leb (utf8 a) (utf8 b)) (remove_dups urls).

Definition require_unpublished (root : path) (branch commit : text) (baseline : AgentGitWorktreeBaseline)
    : wio unit :=
  run! refs := git_stdout git root
                 [str "for-each-ref"; str "--contains"; commit; str "--format=%(refname)"] in
  run! _ := ensure (forallb (fun reference => reference == branch) (lines refs)) GitError in
  run! remotes := git_stdout git root [str "remote"] in
  run! urls := wconcat (remote_urls root) (lines remotes) in
  let urls := url_set (urls ++ from_option (fun u => [u]) [] (upstream_push_url baseline)) in
  run! _ := ensure (length urls <=? 8) GitError in
  wfor_each (require_url_without root commit) urls.

(** ** The shared index *)

(** The selected line of the sealed board, its first, and what stands before it. *)
Definition sealed_place (expected session : text) : option (text * text) :=
  selected ← fst <$> selected_line_removed expected session;
  prefix ← fst <$> split_once selected expected;
  if existsb (starts_with (str "- ")) (lines prefix) then None else Some (selected, prefix).

(** The staged board with the selected line at that place. *)
Definition corrected_board (selected prefix staged session : text) : option text :=
  found ← selected_line_removed staged session;
  let '(staged_selected, remainder) := found in
  if (staged_selected == selected) && starts_with prefix remainder
  then Some (prefix ++ selected ++ drop (length prefix) remainder) else None.

Definition stage_corrected (root : path) (index : nat) (corrected : text) : wio unit :=
  run! entries := run_agent_git_projection_command E root index None
                    [str "ls-files"; str "--stage"; str "--"; DONE_PATH] in
  match split_whitespace entries with
  | [mode; _; stage; _] =>
      run! _ := ensure (stage == str "0") GitError in
      run! o := run_git git (mkGit root (str <$> ["hash-object"; "-w"; "--stdin"]) None None []
                               (Some corrected)) in
      run! _ := ensure (succeeded o) GitError in
      run! oid := need (stdout o) GitError in
      run! _ := run_agent_git_projection_command E root index None
                  [str "update-index"; str "--cacheinfo";
                   mode ++ str "," ++ trim oid ++ str "," ++ DONE_PATH] in
      wret tt
  | _ => refuse GitError
  end.

Definition correct_shared_index (root : path) (index : nat) (sealed session : text) : wio unit :=
  run! expected := blob root sealed in
  run! (selected, prefix) := need (sealed_place expected session) GitError in
  run! o := run_git git (mkGit root [str "show"; str ":" ++ DONE_PATH] (Some index) None [] None) in
  run! _ := ensure (succeeded o) GitError in
  run! staged := need (stdout o) GitError in
  run! corrected := need (corrected_board selected prefix staged session) GitError in
  if corrected == staged then wret tt else stage_corrected root index corrected.

(** ** Amending the commit *)

Definition awaits_recovery (generation : Z) (control : option control_row) : bool :=
  match control with
  | Some sc =>
      (sc_state sc == ResumeRequested) && (sc_run_token sc == Some (recovery_token generation))
      && is_null (sc_child_pid sc) && is_null (sc_interactive_holder sc)
      && is_null (sc_interactive_launch_token sc)
  | None => false
  end.

Definition only_completed (linked : list (TaskStatus * TaskEntry)) : bool :=
  match linked with
  | [(status, task)] =>
      (status == Done) && negb (task_entry_is_stopped task) && negb (task_content_is_manual (content task))
  | _ => false
  end.

Definition verify_agent_git_resume_branch (root : path) (g : journal_row) : wio unit :=
  run! current := current_agent_git_branch git root in
  ensure ((utf8 <$> current) == g_branch_ref g) BranchChanged.

(** Nothing the repair relies on has changed. *)
Definition recheck (root : path) (journal : journal_snapshot) (branch commit identity : text)
    (lease : AgentGitFinalizationLease) : wio unit :=
  let '((pid, sid), g) := journal in
  run! _ := ensure_owned E lease in
  run! registered := query list_projects in
  run! _ := ensure (existsb (fun p => (p.1 == pid) && p_enabled p.2) registered) ProjectNotRegistered in
  run! control := query_res (session_control pid sid) in
  run! _ := ensure (awaits_recovery (g_generation g) control) LostFence in
  run! linked := on_board (session_tasks E (get_tasks_dir root) (of_utf8 sid)) in
  run! _ := ensure (only_completed linked) TaskChangedMeanwhile in
  run! current := query (git_finalization pid sid) in
  run! _ := ensure (current == Some g) JournalChanged in
  run! _ := verify_agent_git_resume_branch root g in
  run! head := current_agent_git_head git root in
  run! _ := ensure (head == commit) GitError in
  run! retained := local_agent_git_task_commit_is_retained E root (Some branch) commit (of_utf8 sid)
                     identity in
  ensure retained GitError.

Definition amend_in_checkout (root : path) (journal : journal_snapshot) (tree commit identity : text)
    : wio text :=
  let '((pid, sid), g) := journal in
  let checkout := repair_checkout R in
  run! o := run_agent_git_remote_command E root
              ((str <$> ["worktree"; "add"; "--detach"; "--no-checkout"]) ++ [path_text checkout; commit]) in
  run! _ := ensure (succeeded o) GitError in
  run! top := git_stdout git checkout [str "rev-parse"; str "--show-toplevel"] in
  run! _ := ensure (checkout_is R top) GitError in
  run! materialized := run_agent_git_remote_command E checkout
                         [str "read-tree"; str "--reset"; str "-u"; tree] in
  run! _ := ensure (succeeded materialized) GitError in
  run! o := run_git git (mkGit checkout (str <$> ["commit"; "--amend"; "--no-edit"]) None None
                           (configure_agent_git_identity (g_git_mode g)) None) in
  run! _ := ensure (succeeded o) GitError in
  run! repaired := resolve_git_commit git checkout (str "HEAD") in
  run! kept :=
    wand (git_commit_matches_agent_staged_manifest E root repaired (of_utf8 sid) identity
            (g_worktree_baseline g) true)
    (wand (git_commit_uses_agent_identity git root repaired)
    (run! trailers := git_commit_task_trailers git root repaired in
     wret (trailers == [str "codex:" ++ of_utf8 sid]))) in
  run! _ := ensure kept GitError in
  wret repaired.

Definition publish_repair (root : path) (journal : journal_snapshot)
    (index_file tree branch commit identity : text) (lease : AgentGitFinalizationLease) : wio unit :=
  run! repaired := amend_in_checkout root journal tree commit identity in
  run! _ := recheck root journal branch commit identity lease in
  run! _ := ensure (index_replaced R index_file) GitError in
  run! _ := git_stdout git root [str "update-ref"; str "-m"; str "clt: repair sealed task board order";
                                 branch; repaired; commit] in
  ensure_owned E lease.

Definition repair_with_index (root : path) (journal : journal_snapshot)
    (tree branch commit identity : text) (lease : AgentGitFinalizationLease) : wio unit := fun w =>
  let index := git_runs w in
  (run! index_file := git_stdout git root
     (str <$> ["rev-parse"; "--path-format=absolute"; "--git-path"; "index"]) in
   run! _ := ensure (index_copied R index_file) GitError in
   run! _ := correct_shared_index root index tree (of_utf8 journal.1.2) in
   run! _ := run_agent_git_projection_command E root index None [str "write-tree"] in
   run! result := wtry (publish_repair root journal index_file tree branch commit identity lease) in
   run! _ := wtry (run_git git (plain root [str "worktree"; str "remove"; str "--force";
                                            path_text (repair_checkout R)])) in
   from_result result) w.

Definition repair_board_order (root : path) (journal : journal_snapshot) (commit : text)
    (lease : option AgentGitFinalizationLease) : wio bool :=
  let g := journal.2 in
  match lease with
  | None => wret false
  | Some lease =>
      run! _ := ensure (negb (git_environment_is_set R)) GitError in
      run! baseline := read_baseline E (g_worktree_baseline g) in
      match staged_index_tree baseline, g_branch_ref g, g_task_identity g with
      | Some tree, Some branch, Some identity =>
          let branch := of_utf8 branch in
          let identity := of_utf8 identity in
          if (b_version baseline <? 2)%N || (g_state g =! CommitPending) || negb (is_null (g_commit_oid g))
          then wret false
          else
          run! only_order := is_only_selected_order root commit tree (of_utf8 journal.1.2) in
          if negb only_order then wret false
          else
          run! _ := recheck root journal branch commit identity lease in
          run! _ := require_unpublished root branch commit baseline in
          run! _ := recheck root journal branch commit identity lease in
          run! _ := repair_with_index root journal tree branch commit identity lease in
          wret true
      | _, _, _ => wret false
      end
  end.
End Repair.
