(* ===== verification/GitFinalize.v ===== *)
(** Finalizing a managed task (src/managed_git.rs): a journal is taken from the
    recorded intent to the published commit, each step after the fence of the
    finalizer and on the proof Git gives for it. *)
From S2P Require Import Prelude Sql AgentTypes Store Leases Sessions Journals Retire Projects.
From S2P Require Import Text Markers TaskNotes Metadata TaskEntry Files Board BoardTree.
From S2P Require Import World Surroundings Git Manifest Projection GitStart.
From S2P Require Import SnapshotLoad Guards Workflow GitRetire GitPublish GitRepair.

Section Finalize.
Context (E : Surroundings) (R : RepairSurroundings).
Local Notation git := (Surroundings.git E).
Let U := unicode E.

Definition agent_git_manifest_parent_is_current (root : path) (g : journal_row) : wio bool :=
  run! branch := current_agent_git_branch git root in
  if (utf8 <$> branch) =! g_branch_ref g then wret false
  else
  run! current_head := current_agent_git_head git root in
  run! baseline := read_baseline E (g_worktree_baseline g) in
  if (2 <=? b_version baseline)%N then wret (manifest_parent_head baseline == Some current_head)
  else
  match g_starting_head g with
  | None => wret false
  | Some starting_head => git_commit_is_ancestor git root (of_utf8 starting_head) current_head
  end.

(** ** The move to Done *)

Definition completes (session_id task_identity : text) (e : TaskEntry) : bool :=
  has_session session_id e && has_identity task_identity e && task_content_has_completed_note (content e).

Definition matching_agent_session_tasks (board_dir : path) (status : TaskStatus)
    (session_id task_identity : text) : io (list TaskEntry) :=
  do! entries := read_task_entries U board_dir status in
  ret (List.filter (completes session_id task_identity) entries).

(** Removes the last copy until [keep] are left. *)
Fixpoint drop_copies (fuel keep : nat) (board_dir : path) (status : TaskStatus)
    (session_id task_identity : text) : io unit :=
  match fuel with
  | O => fail DepthExceeded
  | S fuel' =>
      do! copies := matching_agent_session_tasks board_dir status session_id task_identity in
      match last copies with
      | Some copy =>
          if length copies <=? keep then ret tt
          else
            do! _ := remove_task_entry_without_reordering board_dir status copy in
            drop_copies fuel' keep board_dir status session_id task_identity
      | None => ret tt
      end
  end.

Definition tagged (status : TaskStatus) (entries : list TaskEntry) : list (TaskStatus * TaskEntry) :=
  pair status <$> entries.

Definition finish_active_task (board_dir : path) (active : list (TaskStatus * TaskEntry)) : io bool :=
  match active with
  | [(status, entry)] =>
      do! entries := read_task_entries U board_dir status in
      match list_find (fun candidate => source candidate = source entry) entries with
      | Some (i, _) =>
          do! _ := move_task_without_reordering_after_lock U board_dir status Done (S i) in
          ret true
      | None => fail TaskDisappeared
      end
  | _ => ret false
  end.

(** The intent was recorded; the move to Done is finished, or its copies that a
    crash left are removed. *)
Definition repair_tracking_agent_git_board (root : path) (session_id task_identity : text) : io bool :=
  let board_dir := get_tasks_dir root in
  let matching status := matching_agent_session_tasks board_dir status session_id task_identity in
  do! _ := cleanup_clt_atomic_task_temporaries board_dir in
  do! backlog := matching Backlog in
  if negb (length backlog =? 0) then ret false
  else
  do! completed := matching Done in
  do! todo := matching Todo in
  do! doing := matching Doing in
  let active := tagged Todo todo ++ tagged Doing doing in
  match completed with
  | [] => finish_active_task board_dir active
  | first :: _ =>
      let copies_are_safe :=
        forallb (fun e => is_plain_source e && (trim_end (content e) == trim_end (content first)))
          (completed ++ (snd <$> active)) in
      if (negb (length active =? 0) || (1 <? length completed)) && negb copies_are_safe then ret false
      else
      do! _ := drop_copies (S (length completed)) 1 board_dir Done session_id task_identity in
      do! _ := drop_copies (S (length todo)) 0 board_dir Todo session_id task_identity in
      do! _ := drop_copies (S (length doing)) 0 board_dir Doing session_id task_identity in
      ret true
  end.

(** ** Why a seal stalls *)

Definition quoted_paths (paths : list text) : text :=
  join (str ", ") (take 8 paths) ++ (if 8 <? length paths then str ", " ++ [8230%N] else []).

Definition tree_mismatch (root : path) (commit expected : text) : wio (option text) :=
  run! actual := git_stdout git root [str "rev-parse"; commit ++ str "^{tree}"] in
  if actual == expected then wret None
  else
  run! paths := git_nul_separated_paths git root
                  [str "diff"; str "--name-only"; str "-z"; expected; actual; str "--"] in
  wret (Some (str "Task commit " ++ commit ++ str " has tree " ++ actual ++ str ", but CLT sealed "
              ++ expected ++ str "; differing paths: " ++ quoted_paths paths
              ++ str ". The commit already exists. Repeating it or resealing after it cannot repair this mismatch; inspect the diff and obtain authorization for any required history correction.")).

Definition agent_git_finalization_diagnostic (root : path) (journal : journal_snapshot) : wio text :=
  let g := journal.2 in
  run! baseline := read_baseline E (g_worktree_baseline g) in
  match coalesce (manifest_parent_head baseline) (of_utf8 <$> g_starting_head g), g_task_identity g with
  | Some parent, Some identity =>
      run! found := find_agent_git_task_commit_with_policy E root parent (of_utf8 <$> g_branch_ref g)
                      (of_utf8 journal.1.2) (of_utf8 identity) (b_version baseline =? 1)%N in
      match found with
      | None =>
          wret (str "No single task commit satisfies the frozen parent " ++ parent
                ++ str ", CLT Agent identity, completed task, and exact CLT-Task: codex:"
                ++ of_utf8 journal.1.2
                ++ str " trailer. Inspect existing commits before retrying; do not duplicate a task commit.")
      | Some commit =>
          run! mismatch := (match staged_index_tree baseline with
                            | Some expected => tree_mismatch root commit expected
                            | None => wret None
                            end) in
          wret (default (str "Task commit " ++ commit
                  ++ str " exists, but its completed task or frozen branch is no longer retained. Restore the recorded task/branch evidence without creating another task commit.")
                  mismatch)
      end
  | _, _ =>
      wret (str "The finalization is missing its frozen parent or task identity; preserve the journal for recovery.")
  end.

(** ** One round *)

(** The journal is returned as it is, or the loop goes on with the journal read
    again or, after a repair of its commit, with the same. *)
Inductive RoundEnd := Return (journal : journal_snapshot) | ReadAgain | SameAgain.

Section Round.
Context (root : path) (lease : option AgentGitFinalizationLease).
Local Notation fence := (ensure_agent_git_finalization_fence E lease).

Definition seal_is_complete (baseline : AgentGitWorktreeBaseline) : bool :=
  negb (is_null (staged_non_task_patch_ids baseline)) && negb (is_null (staged_index_tree baseline))
  && negb (is_null (manifest_parent_head baseline)).

(** A journal that is still Working, although its task is done, is recovered
    when its baseline was sealed. *)
Definition recover_intent (journal : journal_snapshot) (owner : option string) : wio RoundEnd :=
  let '((pid, sid), g) := journal in
  match g_task_identity g with
  | None => wret (Return journal)
  | Some task_identity =>
      run! baseline := read_baseline E (g_worktree_baseline g) in
      if (2 <=? b_version baseline)%N && negb (seal_is_complete baseline) then wret (Return journal)
      else
      run! proven := wand (worktree_contains_completed_done_task E root (of_utf8 sid))
                       (agent_git_manifest_parent_is_current root g) in
      if negb proven then wret (Return journal)
      else
      run! _ := fence in
      run! now := agent_timestamp E in
      run! _ := on_registry (recover_git_finalization_intent pid sid (g_generation g) task_identity
                               owner now) in
      wret ReadAgain
  end.

Definition working_round (journal : journal_snapshot) (owner : option string) : wio RoundEnd :=
  let '((pid, sid), _) := journal in
  run! cancelled := (match lease with
                     | Some lease => cancel_orphaned_working_git_journal E root journal lease
                     | None => wret false
                     end) in
  if cancelled then
    run! retired := query (snapshot pid sid) in
    run! retired := need retired NoJournal in
    wret (Return retired)
  else recover_intent journal owner.

Definition tracking_round (journal : journal_snapshot) (owner : option string) : wio RoundEnd :=
  let '((pid, sid), g) := journal in
  match g_task_identity g with
  | None => wret (Return journal)
  | Some task_identity =>
      run! current := agent_git_manifest_parent_is_current root g in
      if negb current then wret (Return journal)
      else
      run! _ := fence in
      run! repaired := on_board (repair_tracking_agent_git_board root (of_utf8 sid)
                                   (of_utf8 task_identity)) in
      if negb repaired then wret (Return journal)
      else
      run! _ := fence in
      run! completed := worktree_contains_completed_done_task E root (of_utf8 sid) in
      if negb completed then wret (Return journal)
      else
      run! _ := fence in
      run! now := agent_timestamp E in
      run! _ := on_registry (compare_and_set_plain pid sid (g_generation g) CommitPending owner None
                               None now) in
      wret ReadAgain
  end.

Definition proof_start (baseline : AgentGitWorktreeBaseline) (starting_head : text) : text :=
  if (2 <=? b_version baseline)%N then default starting_head (manifest_parent_head baseline)
  else starting_head.

Definition diagnosed {A} (journal : journal_snapshot) : wio A :=
  run! message := agent_git_finalization_diagnostic root journal in refuse (Diagnosed message).

Definition after_commit (git_mode : AgentGitMode) : option GitFinalizationState :=
  match git_mode with
  | GitOff => None
  | GitCommit => Some Completed
  | GitCommitAndPush => Some PushPending
  end.

Definition accept_commit (journal : journal_snapshot) (owner : option string)
    (commit_oid task_identity : text) : wio RoundEnd :=
  let '((pid, sid), g) := journal in
  run! retained := local_agent_git_task_commit_is_retained E root (of_utf8 <$> g_branch_ref g) commit_oid
                     (of_utf8 sid) task_identity in
  if negb retained then diagnosed journal
  else
  run! _ := fence in
  run! next_state := need (after_commit (g_git_mode g)) JournalModeChanged in
  run! now := agent_timestamp E in
  run! _ := on_registry (compare_and_set_plain pid sid (g_generation g) next_state owner
                           (Some (utf8 commit_oid)) None now) in
  wret ReadAgain.

Definition commit_round (journal : journal_snapshot) (owner : option string) : wio RoundEnd :=
  let '((pid, sid), g) := journal in
  match g_starting_head g, g_task_identity g with
  | Some starting_head, Some task_identity =>
      let task_identity := of_utf8 task_identity in
      run! baseline := read_baseline E (g_worktree_baseline g) in
      run! found := find_agent_git_task_commit_with_policy E root
                      (proof_start baseline (of_utf8 starting_head)) (of_utf8 <$> g_branch_ref g)
                      (of_utf8 sid) task_identity (b_version baseline =? 1)%N in
      match found with
      | None => wret (Return journal)
      | Some commit_oid =>
          run! matches := git_commit_matches_agent_staged_manifest E root commit_oid (of_utf8 sid)
                            task_identity (g_worktree_baseline g) true in
          if negb matches then
            run! repaired := repair_board_order E R root journal commit_oid lease in
            if repaired then wret SameAgain else diagnosed journal
          else accept_commit journal owner commit_oid task_identity
      end
  | _, _ => wret (Return journal)
  end.

(** The commit the journal names is still the sealed work. *)
Definition local_commit_is_proven (journal : journal_snapshot) (commit_oid task_identity : text)
    : wio bool :=
  let '((pid, sid), g) := journal in
  wand (git_commit_matches_agent_staged_manifest E root commit_oid (of_utf8 sid) task_identity
          (g_worktree_baseline g) true)
    (local_agent_git_task_commit_is_retained E root (of_utf8 <$> g_branch_ref g) commit_oid
       (of_utf8 sid) task_identity).

Definition publish_commit (g : journal_row) (baseline : AgentGitWorktreeBaseline)
    (commit_oid session_id task_identity : text) : wio (option text) :=
  let branch := of_utf8 <$> g_branch_ref g in
  let upstream := of_utf8 <$> g_upstream_ref g in
  run! tip := fetch_agent_git_upstream_tip E root branch upstream baseline lease in
  run! already_published := (match tip with
    | Some tip => agent_git_upstream_tip_proves_task_commit E root tip commit_oid session_id task_identity
                    (b_version baseline =? 1)%N
    | None => wret false
    end) in
  if already_published then wret tip
  else
  run! _ := push_agent_git_commit_to_frozen_destination E root branch upstream baseline lease commit_oid in
  fetch_agent_git_upstream_tip E root branch upstream baseline lease.

Definition push_round (journal : journal_snapshot) (owner : option string) : wio RoundEnd :=
  let '((pid, sid), g) := journal in
  let session_id := of_utf8 sid in
  match g_task_identity g with
  | None => wret (Return journal)
  | Some task_identity =>
      let task_identity := of_utf8 task_identity in
      run! baseline := read_baseline E (g_worktree_baseline g) in
      match g_commit_oid g with
      | None => wret (Return journal)
      | Some oid =>
          let commit_oid := of_utf8 oid in
          run! proven := local_commit_is_proven journal commit_oid task_identity in
          if negb proven then wret (Return journal)
          else
          run! tip := publish_commit g baseline commit_oid session_id task_identity in
          match tip with
          | None => wret (Return journal)
          | Some tip =>
              run! published := wand
                (agent_git_upstream_tip_proves_task_commit E root tip commit_oid session_id task_identity
                   (b_version baseline =? 1)%N)
                (local_agent_git_task_commit_is_retained E root (of_utf8 <$> g_branch_ref g) commit_oid
                   session_id task_identity) in
              if negb published then wret (Return journal)
              else
              run! _ := fence in
              run! now := agent_timestamp E in
              run! _ := on_registry (compare_and_set_plain pid sid (g_generation g) Completed owner
                                       (Some oid) None now) in
              wret ReadAgain
          end
      end
  end.

Definition reconcile_round (journal : journal_snapshot) (owner_run_token : option string) : wio RoundEnd :=
  run! _ := fence in
  let owner := coalesce owner_run_token (g_owner_run_token journal.2) in
  match g_state journal.2 with
  | Working => working_round journal owner
  | Tracking => tracking_round journal owner
  | CommitPending => commit_round journal owner
  | PushPending => push_round journal owner
  | Completed | Cancelled => wret (Return journal)
  end.

(** ** The loop *)

(** Held from the first round that finalizes. *)
Definition coordination_guard (held : bool) (journal : journal_snapshot) : wio bool :=
  if Finalization.is_finalizing (g_state journal.2) && negb held then
    run! _ := acquire_finalization E root (of_utf8 journal.1.2) in wret true
  else wret held.

(** No other process acts between two steps, so the journal in hand is the registry's:
    where the code reads it again after a refused compare-and-set, that write succeeds. *)
Fixpoint reconcile_rounds (rounds : nat) (held : bool) (journal : journal_snapshot)
    (owner_run_token : option string) : wio journal_snapshot :=
  match rounds with
  | O => refuse TooManyRounds
  | S rounds' =>
      run! held := coordination_guard held journal in
      run! ended := reconcile_round journal owner_run_token in
      match ended with
      | Return journal => wret journal
      | SameAgain => reconcile_rounds rounds' held journal owner_run_token
      | ReadAgain =>
          run! found := query (snapshot journal.1.1 journal.1.2) in
          run! journal := need found NoJournal in
          reconcile_rounds rounds' held journal owner_run_token
      end
  end.

Definition reconcile_agent_git_finalization (journal : journal_snapshot)
    (owner_run_token : option string) : wio journal_snapshot :=
  reconcile_rounds 6 false journal owner_run_token.

(** ** All pending journals of a project *)

(** [format!] of an error. *)
Context (error_text : refusal -> string).

(** What keeps the journal from being finalized is recorded in it. *)
Definition record_reconcile_error (journal : journal_snapshot) (e : refusal) : wio unit :=
  let '((pid, sid), g) := journal in
  match lease with
  | Some lease =>
      if Finalization.is_finalizing (g_state g) then
        run! _ := ensure_owned E lease in
        if g_last_error g == Some (error_text e) then wret tt
        else
          run! now := agent_timestamp E in
          run! _ := on_registry (compare_and_set_plain pid sid (g_generation g) (g_state g)
                                   (g_owner_run_token g) None (Some (error_text e)) now) in
          wret tt
      else wret tt
  | None => wret tt
  end.

Definition reconcile_pending_journal (journal : journal_snapshot) : wio journal_snapshot :=
  run! result := wtry (reconcile_agent_git_finalization journal None) in
  run! _ := (match result with Err e => record_reconcile_error journal e | Ok _ => wret tt end) in
  from_result result.

Fixpoint reconcile_each (journals : list journal_snapshot) : wio (list journal_snapshot) :=
  match journals with
  | [] => wret []
  | journal :: rest =>
      run! first := reconcile_pending_journal journal in
      run! others := reconcile_each rest in
      wret (first :: others)
  end.

Definition reconcile_pending_agent_git_finalizations (pid : Z) : wio (list journal_snapshot) :=
  run! journals := query (list_pending_git_finalizations (Some pid)) in
  reconcile_each journals.
End Round.
End Finalize.
