(* ===== verification/Supervisor.v ===== *)
(** The supervisor of blocked work (src/supervisor.rs): the evidence a review is
    bound to, the gate it puts before a project's next run, the review itself and
    the retry it may approve. A decision never replaces the conversation, the
    journal or the stop controls of the task it is about. *)
From S2P Require Import Prelude Sql AgentTypes Runs Sessions Journals Retire Projects.
From S2P Require Import Text Models Markers TaskNotes Metadata TaskEntry Files Board BoardTree.
From S2P Require Import World Surroundings Git Manifest Scheduling SnapshotLoad Guards Workflow.
From S2P Require Import GitRetire GitFinalize Store.

Definition MAX_REVIEWS : N := 2.
Definition MAX_RETRIES : N := 2.

Definition HELD : string := "held".
Definition RETRY : string := "retry".
Definition PENDING : string := "pending".
Definition REVIEWING : string := "reviewing".

(** [{:?}] of the derived [Debug]. *)
Definition kind_label (kind : DecisionKind) : string :=
  match kind with
  | Retry => "Retry"
  | Wait => "Wait"
  | User => "User"
  | Replan => "Replan"
  | Repair => "Repair"
  end.

Definition review_message (r : SupervisorReview) : string :=
  match rv_error r, rv_decision r with
  | Some error, _ => "Supervisor needs attention: " +:+ error +:+ ". Press r to review again."
  | None, Some d =>
      "Supervisor " +:+ kind_label (de_decision d) +:+ ": " +:+ de_reason d +:+ " Next: " +:+ de_next_action d
  | None, None => "Supervisor review pending; project work is waiting."
  end.

Inductive Gate := Normal | Review | RetryGate (session : text) | Hold (message : string).
#[export] Instance Gate_eq_dec : EqDecision Gate.
Proof. solve_decision. Defined.

Definition control_allows_review (c : control_row) : bool :=
  ((sc_state c == Stopped) || (sc_state c == ResumeRequested)) && is_null (sc_child_pid c)
  && is_null (sc_interactive_holder c) && is_null (sc_interactive_launch_token c).

(** ** JSON of the evidence *)

Definition json_int (z : Z) : json :=
  if (0 <=? z)%Z then JNat (Z.to_N z) else JNumber (of_utf8 (dec z)).
Definition json_string (s : string) : json := JString (of_utf8 s).
Definition json_option (s : option string) : json := of_option (of_utf8 <$> s).

Section Supervisor.
Context (E : Surroundings).
Let U := unicode E.
Local Notation pending := (pending_migration_version E).

(** [serde_json::from_slice] of a [Decision] and [chrono::Local::now] as a date. *)
Context (decision_from_json : text -> option Decision) (today : nat -> text).

Definition local_date : wio text := fun w => (Ok (today (git_runs w)), w).

Local Notation project := (Z * project_row)%type.
Local Notation candidate := (TaskStatus * TaskEntry)%type.
Definition project_root (p : project) : path := components (p_path p.2).
Definition board_of (p : project) : path := get_tasks_dir (project_root p).

Definition session_of (task : TaskEntry) : option text :=
  recoverable_codex_session_id_from_task_content (content task).

(** ** Candidates *)

Definition entries_in (statuses : list TaskStatus) (board : path) : io (list candidate) :=
  concat_io (fun status =>
    do! entries := read_task_entries U board status in ret (pair status <$> entries)) statuses.

Definition can_be_reviewed (task : TaskEntry) : bool :=
  negb (task_entry_is_stopped task) && negb (task_content_is_manual (content task)).

Definition blocked_candidates (p : project) : io (list candidate) :=
  do! tasks := entries_in [Todo; Doing] (board_of p) in
  ret (List.filter (fun c => task_entry_is_blocked c.2 && can_be_reviewed c.2) tasks).

(** Ready Todo work goes before queued blockers, not before a blocked task in
    Doing. *)
Definition queued_blockers_can_wait (p : project) : wio bool :=
  run! blocked := on_board (blocked_candidates p) in
  if existsb (fun c => c.1 == Doing) blocked then wret false
  else
    run! ready := ready_tasks U (from_json E) (uuid_parses E) pending (registry_exists E)
                    (git_status E) (evidence_json E) (uuid_v5 E) (project_root p) in
    wret (negb (length ready =? 0)).

Definition run_failed (r : run_row) : bool :=
  negb (is_null (r_finished_at r)) && ((r_status r == "failure") || (r_status r == "timeout")).

(** The last two runs of the task's conversation failed. *)
Definition failed_twice (pid : Z) (task : TaskEntry) (d : db) : bool :=
  if task_entry_is_stopped task || task_content_is_manual (content task) || task_entry_is_blocked task
  then false
  else
  match session_of task with
  | None => false
  | Some session =>
      match latest_run_for_codex_session pid (utf8 session) false None d with
      | None => false
      | Some (latest, _, _) =>
          run_failed latest.2 &&
          match latest_run_for_codex_session pid (utf8 session) false (Some latest.1) d with
          | None => false
          | Some (previous, _, _) => run_failed previous.2
          end
      end
  end.

Definition repeated_failure_candidates (p : project) : wio (list candidate) :=
  run! tasks := on_board (entries_in [Todo; Doing] (board_of p)) in
  query (fun d => List.filter (fun c => failed_twice p.1 c.2 d) tasks).

Definition finalizing_journals (pid : Z) (d : db) : list journal_snapshot :=
  List.filter (fun j => Finalization.is_finalizing (g_state j.2))
    (list_pending_git_finalizations (Some pid) d).

Definition has_sealed_finalization (pid : Z) (d : db) : bool :=
  negb (length (finalizing_journals pid d) =? 0).

(** The task of a sealed journal, which may already be in Done. *)
Definition sealed_candidate (p : project) (j : journal_snapshot) : wio (list candidate) :=
  run! linked := on_board (session_tasks E (board_of p) (of_utf8 j.1.2)) in
  wret (match linked with
        | [(status, task)] =>
            if (Status.is_active status || (status == Done)) && can_be_reviewed task
            then linked else []
        | _ => []
        end).

Definition same_candidate (a b : candidate) : bool :=
  (a.1 == b.1) && (source a.2 == source b.2) && (content a.2 == content b.2).

Definition add_candidate (candidates : list candidate) (c : candidate) : list candidate :=
  if existsb (same_candidate c) candidates then candidates else candidates ++ [c].

Definition review_candidates (p : project) : wio (list candidate) :=
  run! sealed := query (finalizing_journals p.1) in
  if negb (length sealed =? 0) then wconcat (sealed_candidate p) sealed
  else
    run! blocked := on_board (blocked_candidates p) in
    run! repeated := repeated_failure_candidates p in
    wret (foldl add_candidate blocked repeated).

Definition retry_session_is_idle (pid : Z) (session : text) : wio bool :=
  run! control := query_res (session_control pid (utf8 session)) in
  wret (match control with
        | None => true
        | Some c => (sc_state c == ResumeRequested) && is_null (sc_child_pid c)
                    && is_null (sc_interactive_holder c) && is_null (sc_interactive_launch_token c)
        end).

Definition journal_state (pid : Z) (session : text) (d : db) : option GitFinalizationState :=
  g_state <$> git_finalization pid (utf8 session) d.

Definition retry_status_available (pid : Z) (status : TaskStatus) (session : text) (d : db) : bool :=
  Status.is_active status
  || ((status == Done)
      && match journal_state pid session d with
         | Some s => Finalization.is_finalizing s
         | None => false
         end).

(** ** Evidence *)

Definition evidence (p : project) : io text :=
  do! tasks := entries_in [Todo; Doing; Done] (board_of p) in
  ret (json_print E (JArray ((fun c => JObject [(str "status", JString (Status.as_str c.1));
                                                (str "content", JString (content c.2))]) <$> tasks))).

Definition seal_evidence (p : project) (j : journal_snapshot) : wio (list json) :=
  run! manifest := need (json_parse E (of_utf8 (g_worktree_baseline j.2))) (Bail "JSON") in
  run! head := resolve_git_commit (git E) (project_root p) (str "HEAD") in
  run! diagnostic := agent_git_finalization_diagnostic E (project_root p) j in
  wret [JObject [(str "session", json_string j.1.2);
                 (str "generation", json_int (g_generation j.2));
                 (str "state", json_string (Finalization.status_label (g_state j.2)));
                 (str "manifest", manifest);
                 (str "last_error", json_option (g_last_error j.2));
                 (str "head", JString head);
                 (str "diagnostic", JString diagnostic)]].

Definition run_json (r : AgentRunRecord) : json :=
  let '(run, _, _) := r in
  JObject [(str "id", json_int run.1); (str "status", json_string (r_status run.2));
           (str "summary", json_option (r_summary run.2))].

Definition failure_json (pid : Z) (session : text) (d : db) : json :=
  JObject [(str "session", JString session);
           (str "run", match latest_run_for_codex_session pid (utf8 session) false None d with
                       | Some r => run_json r
                       | None => JNull
                       end)].

Definition eligibility_json (pid : Z) (session : text) : wio (list json) :=
  run! idle := retry_session_is_idle pid session in
  wret [JObject [(str "session", JString session); (str "can_retry", JBool idle)]].

Definition sessions_of (candidates : list candidate) : list text :=
  omap (fun c => session_of c.2) candidates.

(** Heartbeats and recovery tokens are not part of it: they change without
    anything to decide. *)
Definition review_evidence (p : project) : wio text :=
  run! sealed := query (finalizing_journals p.1) in
  run! seals := wconcat (seal_evidence p) sealed in
  run! repeated := repeated_failure_candidates p in
  run! failures := query (fun d => (fun s => failure_json p.1 s d) <$> sessions_of repeated) in
  run! candidates := review_candidates p in
  run! eligibility := wconcat (eligibility_json p.1) (sessions_of candidates) in
  run! board := on_board (evidence p) in
  wret (json_print E (JObject [(str "board", JString board);
                               (str "finalizations", JArray seals);
                               (str "repeated_failures", JArray failures);
                               (str "session_eligibility", JArray eligibility)])).

(** ** The gate before a project's next run *)

Definition is_retry (r : option SupervisorReview) : bool :=
  match r with Some r => rv_state r == RETRY | None => false end.

Definition review_of (pid : Z) : wio (option SupervisorReview) := query (supervisor_review pending pid).
Definition save_review (pid : Z) (r : SupervisorReview) : wio unit :=
  on_registry (save_supervisor_review pid r).
Definition clear_review (pid : Z) : wio unit := on_registry (clear_supervisor_review pending pid).

(** The project runs as without a supervisor; an old review is dropped. *)
Definition pass_gate (pid : Z) (previous : option SupervisorReview) : wio Gate :=
  run! _ := (if is_null previous then wret tt else clear_review pid) in wret Normal.

(** The retry a saved decision approves, as long as its task is there. *)
Definition approved_retry (p : project) (sealed : bool) (r : SupervisorReview) (session : text)
    : wio (option Gate) :=
  run! linked := on_board (session_tasks E (board_of p) session) in
  match linked with
  | [(status, task)] =>
      run! available := query (retry_status_available p.1 status session) in
      if negb available || task_entry_is_blocked task then wret None
      else if negb (can_be_reviewed task)
      then wret (Some (Hold "Supervisor-approved task is stopped or manually owned."))
      else if sealed then
        run! current := review_evidence p in
        wret (Some (if of_utf8 (rv_evidence r) =! current then Review else RetryGate session))
      else wret (Some (RetryGate session))
  | _ => wret None
  end.

Definition journal_unsealed (pid : Z) (session : text) (d : db) : bool :=
  match journal_state pid session d with Some s => s == Working | None => true end.

(** A hold for a wait that an older version put on the whole project. *)
Definition waits_in_doing (p : project) (r : SupervisorReview) : wio bool :=
  match rv_error r, rv_decision r with
  | None, Some d =>
      if (rv_state r =! HELD) || (de_decision d =! Wait) then wret false
      else
      run! candidates := review_candidates p in
      match candidates !! N.to_nat (N.pred (de_task d)) with
      | Some (Doing, task) =>
          match session_of task with
          | Some session =>
              wand (retry_session_is_idle p.1 session) (query (journal_unsealed p.1 session))
          | None => wret false
          end
      | _ => wret false
      end
  | _, _ => wret false
  end.

(** The review was made on the current evidence. *)
Definition gate_on_review (p : project) (r : SupervisorReview) : wio Gate :=
  if rv_state r == RETRY then
    wret (match rv_retry_session r with
          | Some session => RetryGate (of_utf8 session)
          | None => Hold "Supervisor retry has no original session; press r to review again."
          end)
  else
  run! upgrade := waits_in_doing p r in
  if upgrade then
    run! _ := save_review p.1 (r <| rv_state := PENDING |> <| rv_attempts := 0%N |>) in
    wret Review
  else if (rv_state r == PENDING) || ((rv_state r == REVIEWING) && (rv_attempts r <? MAX_REVIEWS)%N)
  then wret Review
  else if (rv_state r == REVIEWING) && (MAX_REVIEWS <=? rv_attempts r)%N
  then wret (Hold "Supervisor review attempt limit reached; press r to review again.")
  else wret (Hold (review_message r)).

Definition gate_on_evidence (p : project) (previous : option SupervisorReview) : wio Gate :=
  run! current := review_evidence p in
  match previous with
  | Some r => if of_utf8 (rv_evidence r) == current then gate_on_review p r else wret Review
  | None => wret Review
  end.

(** There is something to review, or a retry was approved. *)
Definition gate_retry (p : project) (sealed has_blocked : bool) (previous : option SupervisorReview)
    : wio Gate :=
  match previous with
  | Some r =>
      if negb (rv_state r == RETRY) then gate_on_evidence p previous
      else
      run! approved := (match rv_retry_session r with
                        | Some session => approved_retry p sealed r (of_utf8 session)
                        | None => wret None
                        end) in
      match approved with
      | Some g => wret g
      | None =>
          if has_blocked then gate_on_evidence p previous
          else run! _ := clear_review p.1 in wret Normal
      end
  | None => gate_on_evidence p previous
  end.

(** An approved conversation that runs, is stopped or is taken over stays so. *)
Definition retry_is_owned (pid : Z) (previous : option SupervisorReview) : wio bool :=
  match previous with
  | Some r =>
      if negb (rv_state r == RETRY) then wret false
      else
      match rv_retry_session r with
      | Some session => run! idle := retry_session_is_idle pid (of_utf8 session) in wret (negb idle)
      | None => wret false
      end
  | None => wret false
  end.

Definition gate (p : project) (has_blocked : bool) : wio Gate :=
  run! settings := query (supervisor_settings pending) in
  if negb (ss_enabled settings) then wret Normal
  else
  run! sealed := query (has_sealed_finalization p.1) in
  run! failing := repeated_failure_candidates p in
  let repeated := negb (length failing =? 0) in
  run! has_blocked :=
    (if has_blocked || repeated then wret true
     else if sealed then run! candidates := review_candidates p in wret (negb (length candidates =? 0))
     else wret false) in
  run! previous := review_of p.1 in
  run! can_wait := (if negb sealed && negb repeated && negb (is_retry previous)
                    then queued_blockers_can_wait p else wret false) in
  if can_wait then pass_gate p.1 previous
  else
  run! owned := retry_is_owned p.1 previous in
  if owned then
    wret (Hold "Supervisor-approved task is stopped or owned by another session control; preserve that control.")
  else if negb has_blocked && negb (is_retry previous) then pass_gate p.1 previous
  else gate_retry p sealed has_blocked previous.

(** ** A review *)

Definition new_review (evidence : text) (old : option SupervisorReview) : SupervisorReview :=
  let attempts :=
    (match old with
     | Some r => if of_utf8 (rv_evidence r) == evidence then rv_attempts r else 0
     | None => 0
     end + 1)%N in
  let over := (MAX_REVIEWS <? attempts)%N in
  mkReview (utf8 evidence) (if over then HELD else REVIEWING) attempts
    (match old with Some r => rv_retries r | None => 0%N end) None None
    (if over then Some "Review attempt limit reached" else None).

Definition begin_review (p : project) : wio SupervisorReview :=
  run! current := review_evidence p in
  run! old := review_of p.1 in
  let review := new_review current old in
  run! _ := save_review p.1 review in
  run! _ := ensure (rv_attempts review <=? MAX_REVIEWS)%N
              (Bail "Supervisor review attempt limit reached") in
  wret review.

(** The reviewer runs with the supervisor's model and without Git. *)
Definition configured_project (p : project) (d : db) : project :=
  let settings := supervisor_settings pending d in
  (p.1, p.2 <| p_git_mode := GitOff |> <| p_codex_provider := ss_provider settings |>
            <| p_codex_model := ss_model settings |>
            <| p_codex_reasoning_effort := ss_thinking settings |>
            <| p_codex_fast_enabled := ss_fast settings |>).

Definition codex_marker (session : text) : text := str "codex:" ++ session.

(** [note] is put before the task's link to its conversation. *)
Definition with_note (task : TaskEntry) (session note : text) (error : string) : wio text :=
  run! split := need (rfind (codex_marker session) (content task)) (Bail error) in
  wret (trim_end (take split (content task)) ++ [10%N; 10%N] ++ note ++ drop split (content task)).

Definition wait_note (date : text) (d : Decision) : text :=
  str "BLOCKED " ++ date ++ str ": Supervisor wait: " ++ of_utf8 (de_reason d) ++ str " Next: "
  ++ of_utf8 (de_next_action d) ++ str " ".

Definition conversation_is_free (pid : Z) (session : option text) : wio bool :=
  run! idle := (match session with
                | Some session => retry_session_is_idle pid session
                | None => wret true
                end) in
  run! unsealed := query (fun d => match session with
                                   | Some session => journal_unsealed pid session d
                                   | None => true
                                   end) in
  wret (idle && unsealed).

(** A task in Doing that waits goes back to Todo, with the wait noted in it and
    its conversation and journal as they are. *)
Definition defer_wait (p : project) (task : TaskEntry) (d : Decision) (r : SupervisorReview)
    : wio unit :=
  let board := board_of p in
  run! free := conversation_is_free p.1 (session_of task) in
  if negb free then wret tt
  else
  run! entries := on_board (read_task_entries U board Doing) in
  run! found := need (list_find (fun entry => source entry = source task /\ content entry = content task)
                        entries) (Bail "The waiting task changed before deferral") in
  run! _ := (if task_entry_is_blocked task then wret tt
             else
             run! session := need (session_of task) (Bail "A failed runtime task lost its session") in
             run! date := local_date in
             run! noted := with_note task session (wait_note date d)
                             "Waiting task lost its session marker" in
             on_board (write_task_entry_content board Doing task noted)) in
  run! _ := on_board (move_task_without_reordering_after_lock U board Doing Todo (S found.1)) in
  run! evidence := review_evidence p in
  save_review p.1 (r <| rv_evidence := utf8 evidence |>).

(** The host, not the reviewer, decides whether a retry may be tried. *)
Definition approve_retry (p : project) (task : TaskEntry) (r : SupervisorReview)
    : wio SupervisorReview :=
  run! _ := ensure (rv_retries r <? MAX_RETRIES)%N
              (Bail "Supervisor retry budget exhausted; user review is required") in
  run! session := need (session_of task)
                    (Bail "Cannot retry an unlinked task; a plan or user decision is required") in
  run! idle := retry_session_is_idle p.1 session in
  run! _ := ensure idle (Bail "Original task session is busy or stopped") in
  run! linked := on_board (session_tasks E (board_of p) session) in
  run! _ := ensure (length linked =? 1) (Bail "Original task session has ambiguous task links") in
  wret (r <| rv_retry_session := Some (utf8 session) |> <| rv_retries := (rv_retries r + 1)%N |>
          <| rv_state := RETRY |>).

(** [answer]: the file the reviewer left, if it left one. *)
Definition finish_review (p : project) (answer : option text) : wio string :=
  run! settings := query (supervisor_settings pending) in
  run! _ := ensure (ss_enabled settings)
              (Bail "Supervisor was disabled during review; decision was not applied") in
  run! saved := review_of p.1 in
  run! review := need saved (Bail "Supervisor review disappeared") in
  run! current := review_evidence p in
  run! _ := ensure (of_utf8 (rv_evidence review) == current)
              (Bail "Project evidence changed during supervisor review; discard this decision and review the new evidence") in
  run! d := need (answer ≫= decision_from_json) (Bail "Supervisor did not return a valid decision") in
  run! _ := ensure (negb (trimmed (de_reason d) == "") && negb (trimmed (de_next_action d) == ""))
              (Bail "Supervisor must provide its reasoning and an actionable next step") in
  run! candidates := review_candidates p in
  run! _ := ensure (0 <? de_task d)%N (Bail "Invalid supervisor task index") in
  run! chosen := need (candidates !! N.to_nat (N.pred (de_task d)))
                   (Bail "Supervisor selected a task outside its evidence") in
  let review := review <| rv_state := HELD |> in
  run! review := (if de_decision d == Retry then approve_retry p chosen.2 review else wret review) in
  let review := review <| rv_decision := Some d |> <| rv_error := None |> in
  run! _ := save_review p.1 review in
  run! _ := (if (de_decision d == Wait) && (chosen.1 == Doing) then defer_wait p chosen.2 d review
             else wret tt) in
  wret (review_message review).

(** ** An approved retry *)

Definition unblocked_note (date : text) : text :=
  str "UNBLOCKED " ++ date
  ++ str ": Supervisor approved a concrete new attempt; consult the saved supervisor decision. ".

Definition is_approved (r : SupervisorReview) : bool :=
  (rv_state r == RETRY) && (match rv_decision r with Some d => de_decision d == Retry | None => false end).

(** The task of an approved retry is unblocked by the worker that runs it. *)
Definition prepare_retry (p : project) : wio unit :=
  run! saved := review_of p.1 in
  run! review := need saved (Bail "Supervisor retry decision disappeared") in
  run! _ := ensure (is_approved review) (Bail "No approved supervisor retry exists") in
  run! session := need (of_utf8 <$> rv_retry_session review)
                    (Bail "Supervisor retry has no original session") in
  run! idle := retry_session_is_idle p.1 session in
  run! _ := ensure idle (Bail "Original retry session is busy or stopped") in
  run! linked := on_board (session_tasks E (board_of p) session) in
  run! chosen := need (match linked with [c] => Some c | _ => None end)
                   (Bail "Original retry session must belong to exactly one task") in
  run! available := query (retry_status_available p.1 chosen.1 session) in
  run! _ := ensure (available && can_be_reviewed chosen.2)
              (Bail "Supervisor retry task is no longer available") in
  run! current := review_evidence p in
  run! _ := ensure (of_utf8 (rv_evidence review) == current)
              (Bail "Retry evidence changed; a new supervisor review is required") in
  if negb (task_entry_is_blocked chosen.2) || (chosen.1 == Done) then wret tt
  else
  run! date := local_date in
  run! noted := with_note chosen.2 session (unblocked_note date)
                  "Original task session marker disappeared" in
  run! _ := on_board (write_task_entry_content (board_of p) chosen.1 chosen.2 noted) in
  run! evidence := review_evidence p in
  save_review p.1 (review <| rv_evidence := utf8 evidence |>).

Definition hold_error (pid : Z) (error : string) : wio unit :=
  run! saved := review_of pid in
  match saved with
  | Some r => save_review pid (r <| rv_state := HELD |> <| rv_error := Some error |>)
  | None => wret tt
  end.

Definition ended_note (date : text) (status : string) : text :=
  str "BLOCKED " ++ date ++ str ": Supervisor-approved attempt ended with " ++ of_utf8 status
  ++ str "; review its runtime diagnostics before continuing. ".

(** A retry that ended badly blocks its task again. *)
Definition block_failed_retry (p : project) (session : text) (status : string) : wio unit :=
  run! linked := on_board (session_tasks E (board_of p) session) in
  match linked with
  | [(task_status, task)] =>
      if Status.is_active task_status && negb (task_entry_is_blocked task) then
        run! date := local_date in
        run! noted := with_note task session (ended_note date status)
                        "Retry task lost its session marker" in
        on_board (write_task_entry_content (board_of p) task_status task noted)
      else wret tt
  | _ => wret tt
  end.

Definition was_interrupted (status : string) : bool := (status == "stopped") || (status == "handoff").

Definition pending_review (evidence : text) (old : option SupervisorReview) : SupervisorReview :=
  mkReview (utf8 evidence) PENDING 0 (match old with Some r => rv_retries r | None => 0%N end)
    None None None.

(** The review a run leaves to be made: none when nothing is left to review. *)
Definition queue_review (p : project) (old : option SupervisorReview) : wio unit :=
  run! candidates := review_candidates p in
  if length candidates =? 0 then clear_review p.1
  else
    run! evidence := review_evidence p in
    save_review p.1 (pending_review evidence old).

Definition after_task_run (p : project) (selection : AgentTaskSelection) (status : string) : wio unit :=
  let retried := selection == SupervisorRetry in
  run! settings := query (supervisor_settings pending) in
  if negb (ss_enabled settings) then wret tt
  else
  run! sealed := query (has_sealed_finalization p.1) in
  if negb ((status == "blocked") || retried || (sealed && negb (was_interrupted status))) then wret tt
  else
  run! old := review_of p.1 in
  if retried && was_interrupted status then wret tt
  else
  run! _ := (match old ≫= rv_retry_session with
             | Some session =>
                 if retried && negb ((status == "success") || (status == "blocked"))
                 then block_failed_retry p (of_utf8 session) status
                 else wret tt
             | None => wret tt
             end) in
  queue_review p old.

(** ** The user asks for another attempt (src/tui.rs) *)

Definition retry_selected_tui_agent_project (p : project) : wio bool :=
  run! now := agent_timestamp E in
  run! changed := on_registry (clear_project_failure_backoff_for_path (p_path p.2) now) in
  run! _ := clear_review p.1 in
  wret changed.

End Supervisor.
