(* ===== verification/Completed.v ===== *)
(** Conversations of completed tasks (src/session_control/completed.rs,
    src/session_control.rs): what opening one may do, and the restoration of a
    task that an older version moved out of Done for the conversation. *)
From S2P Require Import Prelude Sql AgentTypes Leases Workers Sessions Handoff Journals Retire.
From S2P Require Import Holders Projects.
From S2P Require Import Text Markers TaskNotes Metadata TaskEntry Files Board BoardTree.
From S2P Require Import World Surroundings SnapshotLoad Guards Workflow Store.

(** The board, the status and the one-based index of a task with a link. *)
Record LinkedTask := mkLinked {
  lt_board : path; lt_status : TaskStatus; lt_index : nat; lt_task : TaskEntry
}.

Section Completed.
Context (E : Surroundings).
Let U := unicode E.

(** The board of a registered project; its lock is held by the caller. *)
Definition lock_project_board (pid : Z) : wio path :=
  run! found := query (project_with_id pid) in
  run! project := need found (Bail "Project is no longer registered") in
  wret (get_tasks_dir (components (p_path project.2))).

Definition link_wanted (session : option text) (task : TaskEntry) : bool :=
  let linked := recoverable_codex_session_id_from_task_content (content task) in
  match session with
  | Some session => linked == Some session
  | None => negb (is_null linked) && task_content_is_interactive_done (content task)
  end.

Definition numbered {A} (l : list A) : list (nat * A) := imap (fun i a => (S i, a)) l.

Fixpoint collect_linked_tasks (fuel : nat) (board : path) (session : option text)
    : io (list LinkedTask) :=
  match fuel with
  | O => fail DepthExceeded
  | S fuel' =>
      concat_io (fun status =>
        do! entries := read_task_entries U board status in
        concat_io (fun '(index, task) =>
          do! below :=
            match subtask_board task with
            | Some p => collect_linked_tasks fuel' p session
            | None => ret []
            end in
          ret ((if link_wanted session task then [mkLinked board status index task] else []) ++ below))
          (numbered entries)) Status.SESSION_SEARCH_ORDER
  end.

Definition linked_tasks_of (board : path) (session : option text) : io (list LinkedTask) :=
  fun s => collect_linked_tasks (search_fuel s) board session s.

(** ** Restoring a task *)

Definition duplicate_links : refusal :=
  Bail "This Codex session belongs to multiple tasks; resolve duplicate links before continuing".

Definition between_doing_and_done (one other : LinkedTask) : bool :=
  (lt_board one == lt_board other) && (lt_status one =! lt_status other)
  && ((lt_status one == Doing) || (lt_status other == Doing))
  && ((lt_status one == Done) || (lt_status other == Done))
  && (trim_end (content (lt_task one)) == trim_end (content (lt_task other)))
  && task_content_is_interactive_done (content (lt_task one)).

(** A move of a Markdown task writes its destination first: the copy a crash one
    at its source is removed. *)
Definition repair_move (destination : TaskStatus) (tasks : list LinkedTask) : wio (list LinkedTask) :=
  match tasks with
  | [one; other] =>
      if between_doing_and_done one other then
        let '(stale, kept) := if lt_status one =! destination then (one, other) else (other, one) in
        run! _ := on_board (remove_task_entry_without_reordering (lt_board stale) (lt_status stale)
                              (lt_task stale)) in
        wret [kept]
      else wret tasks
  | _ => wret tasks
  end.

Definition concerns_completed (destination : TaskStatus) (t : LinkedTask) : bool :=
  task_content_is_interactive_done (content (lt_task t))
  || ((destination == Doing) && (lt_status t == Done)).

Definition linked_task (board : path) (session : text) (destination : TaskStatus)
    : wio (option LinkedTask) :=
  run! tasks := on_board (linked_tasks_of board (Some session)) in
  if negb (existsb (concerns_completed destination) tasks) then wret None
  else
  run! tasks := repair_move destination tasks in
  run! _ := ensure (length tasks <=? 1) duplicate_links in
  wret (head tasks).

Definition prepare_destination (board : path) (task : TaskEntry) (destination : TaskStatus) : wio unit :=
  run! directory := on_board (look (is_dir (board ++ [Status.as_str destination]))) in
  if is_path_source (source task) && negb directory then
    run! _ := ensure_status_conversion_allowed E board destination in
    run! _ := on_board (convert_status_to_directory U board destination) in
    wret tt
  else wret tt.

(** The marker stays until the task is back in Done, so a crash can be repaired. *)
Definition restore_completed_task_after_lock (board : path) (session : text) : wio unit :=
  run! found := linked_task board session Done in
  match found with
  | None => wret tt
  | Some t =>
      if negb (task_content_is_interactive_done (content (lt_task t))) then wret tt
      else
      let board := lt_board t in
      run! _ := (if lt_status t == Doing then
                   run! _ := prepare_destination board (lt_task t) Done in
                   on_board (move_task_without_reordering_after_lock U board Doing Done (lt_index t))
                 else wret tt) in
      run! again := linked_task board session Done in
      run! t := need again (Bail "Reopened task disappeared while returning to Done") in
      on_board (write_task_entry_content board (lt_status t) (lt_task t)
        (task_content_without_manual_marker
           (task_content_without_interactive_done_marker (content (lt_task t)))))
  end.

(** ** Opening and closing the conversation *)

Definition holds_guardian (guardian : string) (c : control_row) : bool :=
  (sc_interactive_holder c == Some guardian) && (sc_interactive_launch_token c == Some guardian).

Definition prepare_completed_task_context (pid : Z) (session : text) (guardian : string) : wio bool :=
  run! board := lock_project_board pid in
  run! found := query_res (session_control pid (utf8 session)) in
  run! control := need found
    (Bail "Interactive session control disappeared before opening task context") in
  run! _ := ensure ((sc_state control == Interactive) && holds_guardian guardian control
                    && is_null (sc_child_pid control))
              (Bail "Interactive session ownership changed before opening task context") in
  run! tasks := on_board (linked_tasks_of board (Some session)) in
  run! _ := ensure (length tasks <=? 1) duplicate_links in
  wret (match tasks with t :: _ => lt_status t == Done | [] => false end).

(** The guardian's child was reaped, or its process group is proven absent. *)
Definition restore_completed_task_for_guardian (pid : Z) (session : text) (guardian : string)
    : wio unit :=
  run! board := lock_project_board pid in
  run! control := query_res (session_control pid (utf8 session)) in
  match control with
  | Some c =>
      if ((sc_state c == Interactive) || (sc_state c == StopRequested)) && holds_guardian guardian c
      then restore_completed_task_after_lock board session
      else wret tt
  | None => wret tt
  end.

Definition recover_stale_interactive_guardian_with_task (pid : Z) (session : text) (guardian : string)
    (expected_child_pid : option Z) (disposition : InteractiveGuardianDisposition) : wio bool :=
  run! board := lock_project_board pid in
  run! now := agent_timestamp E in
  run! recovered := on_registry (recover_stale_interactive_guardian pid (utf8 session) guardian
                                   expected_child_pid disposition now) in
  run! _ := (if recovered && (disposition =! ResumeExec)
             then restore_completed_task_after_lock board session else wret tt) in
  wret recovered.

(** ** Queued resumes of completed tasks *)

Definition board_has_store (board : path) (s : node) : bool :=
  existsb (fun status => status_store_exists board status s) TASK_STATUSES.

Definition recovers_git_proof (c : control_row) : bool :=
  match sc_run_token c with
  | Some token => String.prefix AGENT_GIT_FINALIZATION_RESUME_TOKEN_PREFIX token
  | None => false
  end.

Definition retire_completed_resume_request (pid : Z) (session : text) (now : Z) : wio bool :=
  run! board := lock_project_board pid in
  run! control := query_res (session_control pid (utf8 session)) in
  match control with
  | None => wret false
  | Some c =>
      if (sc_state c =! ResumeRequested) || negb (control_is_unowned c) || recovers_git_proof c
      then wret false
      else
      run! present := on_board (look (board_has_store board)) in
      if negb present then wret false
      else
      run! tasks := on_board (linked_tasks_of board (Some session)) in
      match tasks with
      | [t] =>
          if lt_status t =! Done then wret false
          else on_registry (Handoff.retire_completed_resume_request (mkObserved pid (utf8 session) c) now)
      | _ => wret false
      end
  end.

(** ** Restoration while nothing runs *)

Definition journal_is_inert (g : option journal_row) : bool :=
  match g with
  | None => true
  | Some g => Finalization.is_terminal (g_state g)
              || ((g_state g == Working) && is_null (g_task_identity g) && is_null (g_commit_oid g))
  end.

Definition control_is_inert (c : option control_row) : bool :=
  match c with
  | None => true
  | Some c => ((sc_state c == Stopped) || (sc_state c == ResumeRequested)) && control_is_unowned c
  end.

Definition restore_idle_task (pid : Z) (board : path) (t : LinkedTask) : wio unit :=
  run! session := need (recoverable_codex_session_id_from_task_content (content (lt_task t)))
                    (Bail "Reopened task lost its saved conversation") in
  run! control := query_res (session_control pid (utf8 session)) in
  run! inert := query (fun d => control_is_inert control
                                && journal_is_inert (git_finalization pid (utf8 session) d)) in
  if inert then restore_completed_task_after_lock board session else wret tt.

Definition restore_idle_completed_tasks (pid : Z) : wio unit :=
  run! board := lock_project_board pid in
  run! present := on_board (look (board_has_store board)) in
  if negb present then wret tt
  else
  run! workers := query_res (list_workers_by_terminal_state false) in
  if existsb (fun w => w_project_id w.1.1.2 == pid) workers then wret tt
  else
  run! launch := query_res (git_launch_state_for_project pid) in
  if negb (is_null launch) then wret tt
  else
  run! tasks := on_board (linked_tasks_of board None) in
  wfor_each (restore_idle_task pid board) tasks.
End Completed.
