(* ===== verification/Reattach.v ===== *)
(** Sessions whose worker is gone: a lease whose holder is gone is given back
    (src/scheduler.rs), and a Codex process that still runs gets a new supervisor
    (src/session_recovery.rs). *)
From S2P Require Import Prelude Sql AgentTypes Leases Workers Sessions Handoff Holders Projects.
From S2P Require Import Text Board World Surroundings GitRetire Store.

Definition RECOVERED_LEASE_SECONDS : Z := 60.
Definition RECOVERED_STOP_GRACE_MILLIS : Z := 3000.
Definition RENEWAL_MILLIS : Z := 10000.

(** The lease of a project that is still registered. *)
Definition agent_lease_for_project (pid : Z) (d : db) : option lease_row :=
  (fun l => mkLease l.1.1.2 l.1.2 l.2) <$> lease_for_project pid d.

Definition has_unfinished_worker (pid : Z) (p : worker_row -> bool)
    (workers : list (string * worker_row * string * string)) : bool :=
  existsb (fun w => (w_project_id w.1.1.2 == pid) && p w.1.1.2) workers.

Section Reclaim.
Context (E : Surroundings).
Local Notation liveness := (agent_lease_holder_liveness (own_pid E) (local_process_is_running E)).

Definition lease_reclaimable (l : lease_row) (reclaim_current_process_leases : bool) (now : Z) : bool :=
  agent_lease_is_reclaimable (own_pid E) (local_process_is_running E) l
    reclaim_current_process_leases now.

(** No conversation of the project names the dead terminal that holds it. *)
Definition orphaned_interactive_lease (pid : Z) (l : lease_row) : wio bool :=
  if interactive_lease_holder_liveness (own_pid E) (local_process_is_running E) (l_holder l) == Some Dead
  then
    run! controls := query_res (session_controls_for_project pid) in
    wret (negb (existsb (fun c => sc_interactive_holder c.2 == Some (l_holder l)) controls))
  else wret false.

Definition try_reclaim_inactive_agent_lease (pid : Z) (l : lease_row)
    (reclaim_current_process_leases : bool) : wio bool :=
  run! now := agent_timestamp_seconds E in
  let ordinarily := lease_reclaimable l reclaim_current_process_leases now in
  run! orphaned := (if ordinarily then wret false else orphaned_interactive_lease pid l) in
  if negb ordinarily && negb orphaned then wret false
  else
  run! workers := query_res (list_workers_by_terminal_state false) in
  if has_unfinished_worker pid (fun w => w_lease_holder w == l_holder l) workers then wret false
  else on_registry (release_lease pid (l_holder l)).
End Reclaim.

(** ** Which sessions get a new supervisor *)

Definition recoverable_control (c : control_row) : bool :=
  automated_state (sc_state c) && is_null (sc_interactive_launch_token c)
  && negb (is_null (sc_child_pid c)) && negb (is_null (sc_run_token c)).

Definition same_generation (expected : ObservedControl) (k : Z * string) (current : control_row) : bool :=
  (ob_project_id expected == k.1) && (ob_session_id expected == k.2)
  && (sc_child_pid (ob_row expected) == sc_child_pid current)
  && (sc_run_token (ob_row expected) == sc_run_token current) && recoverable_control current.

(** [OrphanProcess::attach] of a process id, a project and a run token: a handle,
    or the proof that the process is gone; and starting the helper process. *)
Record ProcessSurroundings := mkProcesses {
  attach : Z -> Z -> string -> res refusal bool;
  spawn_supervisor : ObservedControl -> res refusal unit
}.

Section Ensure.
Context (E : Surroundings) (P : ProcessSurroundings).
Local Notation liveness := (agent_lease_holder_liveness (own_pid E) (local_process_is_running E)).

Definition held_by_living (l : option lease_row) : bool :=
  match l with Some l => liveness (l_holder l) =! Dead | None => false end.

(** The process is looked at before a helper is started for it. *)
Definition reattach (pid : Z) (sid : string) (c : control_row) (l : option lease_row) : wio bool :=
  run! child_pid := need (sc_child_pid c) (Bail "Missing orphan process ID") in
  run! token := need (sc_run_token c) (Bail "Missing orphan run token") in
  run! attached := from_result (attach P child_pid pid token) in
  if negb attached then wret false
  else
  run! free := (match l with
                | Some l => try_reclaim_inactive_agent_lease E pid l false
                | None => wret true
                end) in
  if negb free then wret false
  else run! _ := from_result (spawn_supervisor P (mkObserved pid sid c)) in wret true.

Definition ensure_orphaned_session_supervision (pid : Z) (sid : string) : wio bool :=
  run! control := query_res (session_control pid sid) in
  run! lease := query (agent_lease_for_project pid) in
  run! project := query (project_with_id pid) in
  run! workers := query_res (list_workers_by_terminal_state false) in
  match control with
  | Some c =>
      if negb (recoverable_control c) || has_unfinished_worker pid (fun _ => true) workers
         || is_null project || held_by_living lease
      then wret false
      else reattach pid sid c lease
  | None => wret false
  end.
End Ensure.

(** ** The supervisor *)

Inductive Signal := StopProcess | KillProcess.
#[export] Instance Signal_eq_dec : EqDecision Signal.
Proof. solve_decision. Defined.

(** One turn of the loop: what other processes did before it, the clocks, and the
    answers of the operating system. *)
Record Tick := mkTick {
  tk_others : db -> db; tk_now : Z; tk_instant_millis : Z;
  tk_is_running : res refusal bool; tk_signal : res refusal unit; tk_repair_required : bool
}.

Record Supervision := mkSupervision { stop_started : option Z; last_renewal : Z }.

(** A signal and the registry at that moment. *)
Definition sent : Type := db * Signal.

Section Supervise.
Context (expected : ObservedControl) (holder : string).
Local Notation key := (ob_project_id expected, ob_session_id expected).

Definition after_seconds (t : Tick) (seconds : Z) : string :=
  let at_ := (tk_now t + seconds)%Z in dec (if (at_ <=? i64_max)%Z then at_ else tk_now t).

Definition holds_lease (d : db) : bool :=
  match agent_lease_for_project (ob_project_id expected) d with
  | Some l => l_holder l == holder
  | None => false
  end.

(** The lease is renewed when it is time; the state keeps when that was. *)
Definition renew (t : Tick) (s : Supervision) : wio (Supervision * res refusal bool) :=
  if (tk_instant_millis t - last_renewal s <? RENEWAL_MILLIS)%Z then wret (s, Ok true)
  else
  run! renewed := wtry (on_registry (renew_lease (ob_project_id expected) holder
                                       (after_seconds t RECOVERED_LEASE_SECONDS))) in
  wret (match renewed with
        | Ok true => (mkSupervision (stop_started s) (tk_instant_millis t), Ok true)
        | _ => (s, renewed)
        end).

(** The process is gone: the session is settled as its control asks. *)
Definition settle_exit (t : Tick) : wio bool :=
  on_registry (finalize_reattached_automated_session expected holder (dec (tk_now t))
                 (after_seconds t RECOVERED_LEASE_SECONDS) (dec (tk_now t))).

Definition signal_for (started : Z) (t : Tick) : Signal :=
  if (RECOVERED_STOP_GRACE_MILLIS <=? tk_instant_millis t - started)%Z then KillProcess else StopProcess.

Definition deliver (c : control_row) (t : Tick) (s : Supervision)
    : wio (Supervision * list sent * res refusal bool) :=
  match Control.requested_action (sc_state c) with
  | None => wret (s, [], Ok false)
  | Some _ =>
      let started := default (tk_instant_millis t) (stop_started s) in
      run! now := query id in
      wret (mkSupervision (Some started) (last_renewal s), [(now, signal_for started t)],
            match tk_signal t with Ok tt => Ok false | Err e => Err e end)
  end.

(** A session this supervisor still owns, in the generation it watches. *)
Definition supervise_owned (t : Tick) (s : Supervision) : wio (Supervision * list sent * res refusal bool) :=
  run! control := wtry (query_res (session_control (ob_project_id expected) (ob_session_id expected))) in
  match control with
  | Err e => wret (s, [], Err e)
  | Ok None => wret (s, [], Ok true)
  | Ok (Some c) =>
      if negb (same_generation expected key c) then wret (s, [], Ok true)
      else
      match tk_is_running t with
      | Err e => wret (s, [], Err e)
      | Ok true => deliver c t s
      | Ok false => run! settled := wtry (settle_exit t) in wret (s, [], settled)
      end
  end.

Definition supervise_step (t : Tick) (s : Supervision) : wio (Supervision * list sent * res refusal bool) :=
  run! held := query holds_lease in
  if negb held then wret (s, [], Ok true)
  else
  run! (s, renewed) := renew t s in
  match renewed with
  | Err e => wret (s, [], Err e)
  | Ok false => wret (s, [], Ok true)
  | Ok true => supervise_owned t s
  end.

(** [true] when the loop returned; an error ends it only when the registry must be
    repaired. *)
Fixpoint supervise_attached_process (ticks : list Tick) (s : Supervision) : wio (list sent * bool) :=
  match ticks with
  | [] => wret ([], false)
  | t :: rest =>
      run! _ := on_registry (fun d => (Ok tt, tk_others t d)) in
      run! (s, signals, step) := supervise_step t s in
      match step with
      | Ok true => wret (signals, true)
      | Ok false => run! (more, ended) := supervise_attached_process rest s in wret (signals ++ more, ended)
      | Err e =>
          if tk_repair_required t then wret (signals, true)
          else run! (more, ended) := supervise_attached_process rest s in wret (signals ++ more, ended)
      end
  end.
End Supervise.

Section Run.
Context (E : Surroundings) (P : ProcessSurroundings).

(** [holder]: the prefix, this process's id and a new token. *)
Definition run_orphaned_session_supervisor (pid : Z) (sid : string) (child_pid : Z) (run_token holder : string)
    (started_at : Z) (ticks : list Tick) : wio (list sent * bool) :=
  run! found := query_res (session_control pid sid) in
  match found with
  | None => wret ([], true)
  | Some c =>
      if negb (recoverable_control c) || (sc_child_pid c =! Some child_pid) || (sc_run_token c =! Some run_token)
      then wret ([], true)
      else
      run! attached := from_result (attach P child_pid pid run_token) in
      if negb attached then wret ([], true)
      else
      let expected := mkObserved pid sid c in
      run! acquired_at := agent_timestamp E in
      run! expires_at := agent_timestamp_after E RECOVERED_LEASE_SECONDS in
      run! claimed := on_registry (claim_orphaned_session_supervision expected holder acquired_at expires_at) in
      if negb claimed then wret ([], true)
      else
      run! (signals, ended) := supervise_attached_process expected holder ticks
                                 (mkSupervision None started_at) in
      run! _ := (if ended then run! _ := on_registry (release_lease pid holder) in wret tt else wret tt) in
      wret (signals, ended)
  end.
End Run.
