(* ===== verification/GitRecovery.v ===== *)
(** Recovery of a task whose attempt cannot continue (src/application/git_recovery.rs):
    the plan a user confirms or the scheduler makes, and its execution, which
    retires the old attempt and queues the task for a fresh conversation. *)
From S2P Require Import Prelude Sql AgentTypes Runs Sessions Handoff Journals Retire Recovery.
From S2P Require Import Projects.
From S2P Require Import Text Markers TaskNotes Metadata TaskEntry Files Board BoardTree.
From S2P Require Import World Surroundings Git Manifest SnapshotLoad Guards Workflow.
From S2P Require Import GitRetire Leases Store.

Definition failure_has_missing_git_start (summary : string) : bool :=
  contains (str "no frozen Git start journal") (of_utf8 summary)
  || contains (str "no frozen start journal") (of_utf8 summary).

Definition failure_has_git_recovery (summary : string) : bool :=
  failure_has_missing_git_start summary || contains (str "Git task branch changed:") (of_utf8 summary).

Record GitRecoveryTask := mkRecoveryTask {
  rt_task : TaskEntry; rt_status : TaskStatus; rt_board_dir : path
}.

Record GitRecoveryPlan := mkPlan {
  pl_project : Z * project_row; pl_session_id : text; pl_linked : option GitRecoveryTask;
  pl_run_id : Z; pl_journal : option journal_snapshot; pl_current_branch : option text;
  pl_restart : bool; pl_preactivation : bool; pl_stale_head : option text;
  pl_writer_conflict : option (Z * string)
}.
#[export] Instance GitRecoveryPlan_eta : Eta GitRecoveryPlan := fun p =>
  mkPlan (pl_project p) (pl_session_id p) (pl_linked p) (pl_run_id p) (pl_journal p)
    (pl_current_branch p) (pl_restart p) (pl_preactivation p) (pl_stale_head p) (pl_writer_conflict p).

Definition run_of (r : AgentRunRecord) : Z * run_row := r.1.1.
Definition failed_or_timed_out (r : AgentRunRecord) : bool :=
  bool_decide (r_status (run_of r).2 ∈ ["failure"; "timeout"]).

Definition recovery_token_of (run_id : Z) : string :=
  AGENT_MISSING_GIT_RECOVERY_TOKEN_PREFIX +:+ dec run_id.

Section GitRecovery.
Context (E : Surroundings).
Local Notation git := (Surroundings.git E).
Let U := unicode E.

Local Notation located := (path * TaskStatus * TaskEntry)%type.

(** ** Linked tasks *)

Definition session_link (t : located) : option text :=
  recoverable_codex_session_id_from_task_content (content t.2).
Definition links_to (session : text) (t : located) : bool := session_link t == Some session.

Fixpoint linked_tasks_in (fuel : nat) (board_dir : path) : io (list located) :=
  match fuel with
  | O => fail DepthExceeded
  | S fuel' =>
      concat_io (fun status =>
        do! entries := read_task_entries U board_dir status in
        concat_io (fun task =>
          do! below := match subtask_board task with
                       | Some p => linked_tasks_in fuel' p
                       | None => ret []
                       end in
          let here := (board_dir, status, task) in
          ret ((if is_null (session_link here) then [] else [here]) ++ below)) entries) TASK_STATUSES
  end.
Definition linked_tasks (board_dir : path) : io (list located) :=
  fun s => linked_tasks_in (search_fuel s) board_dir s.

Definition waits_in_todo (linked : list located) : bool :=
  match linked with
  | [(_, Todo, task)] => task_entry_is_blocked task || task_entry_is_stopped task
  | _ => false
  end.

(** A restart leaves other unfinished work of the project alone only when that
    work waits in Todo. *)
Definition restart_preserves_other_git_work (pid : Z) (session : text) (tasks : list located) (d : db)
    : bool :=
  forallb (fun j =>
    let other := of_utf8 j.1.2 in
    (other == session)
    || ((g_state j.2 == Working) && waits_in_todo (List.filter (links_to other) tasks)))
    (list_pending_git_finalizations (Some pid) d).

(** ** The plan for a failed run *)

Definition stopped_for_recovery (session : text) (run_id : Z) (c : (Z * string) * control_row) : bool :=
  (c.1.2 == utf8 session) && (sc_state c.2 == Stopped)
  && (sc_run_token c.2 == Some (recovery_token_of run_id)).

Definition asks_to_resume (session : text) (c : (Z * string) * control_row) : bool :=
  (c.1.2 == utf8 session) && (sc_state c.2 == ResumeRequested).

Definition interrupted_recovery (controls : list ((Z * string) * control_row)) (session : text)
    (run_id : Z) (g : journal_row) : bool :=
  (g_state g == Cancelled) && (g_last_error g == Some AGENT_BRANCH_GIT_RECOVERY_REASON)
  && existsb (stopped_for_recovery session run_id) controls.

Definition unfinished_attempt (g : journal_row) : bool :=
  bool_decide (g_state g ∈ [Working; Tracking; CommitPending]).

Definition branch_differs (branch : option text) (g : journal_row) : bool := (utf8 <$> branch) =! g_branch_ref g.

Definition selected_for_recovery (controls : list ((Z * string) * control_row)) (run_id : Z)
    (requested : option text) (session : text) (status : TaskStatus) : bool :=
  match requested with
  | Some requested => requested == session
  | None =>
      (status == Doing)
      || existsb (fun c => asks_to_resume session c || stopped_for_recovery session run_id c) controls
  end.

Local Notation candidate := (located * text * option journal_snapshot)%type.

Local Notation project := (Z * project_row)%type.
Definition root_of (p : project) : path := components (p_path p.2).

(** The branch last read, and the candidate the task is, if it is one. *)
Definition recovery_candidate (p : project) (controls : list ((Z * string) * control_row))
    (run : Z * run_row) (requested branch : option text) (t : located)
    : wio (option text * list candidate) :=
  run! session := need (session_link t) (Bail "unlinked task") in
  if negb (selected_for_recovery controls run.1 requested session t.1.2) then wret (branch, [])
  else
  run! journal := query (snapshot p.1 (utf8 session)) in
  match journal with
  | Some j =>
      run! branch := current_agent_git_branch git (root_of p) in
      let recoverable :=
        is_null (g_commit_oid j.2) && negb (is_null branch)
        && (interrupted_recovery controls session run.1 j.2
            || (branch_differs branch j.2 && unfinished_attempt j.2)) in
      wret (branch, if recoverable then [(t, session, journal)] else [])
  | None =>
      let recoverable := match r_summary run.2 with
                         | Some summary => failure_has_missing_git_start summary
                         | None => false
                         end in
      wret (branch, if recoverable then [(t, session, None)] else [])
  end.

Fixpoint recovery_candidates (p : project) (controls : list ((Z * string) * control_row))
    (run : Z * run_row) (requested branch : option text) (tasks : list located)
    : wio (option text * list candidate) :=
  match tasks with
  | [] => wret (branch, [])
  | t :: rest =>
      run! (branch, found) := recovery_candidate p controls run requested branch t in
      run! (branch, others) := recovery_candidates p controls run requested branch rest in
      wret (branch, found ++ others)
  end.

(** The failed journal itself, when no task of the checkout carries its link. *)
Definition orphaned_attempt (p : project) (controls : list ((Z * string) * control_row))
    (run : Z * run_row) (requested : option text) (tasks : list located) : wio (option GitRecoveryPlan) :=
  match requested with
  | None => wret None
  | Some session =>
      if existsb (links_to session) tasks then wret None
      else
      run! journal := query (snapshot p.1 (utf8 session)) in
      match journal with
      | None => wret None
      | Some j =>
          run! branch := current_agent_git_branch git (root_of p) in
          wret (if is_null (g_commit_oid j.2) && negb (is_null branch) && branch_differs branch j.2
                   && (interrupted_recovery controls session run.1 j.2 || unfinished_attempt j.2)
                then Some (mkPlan p session None run.1 journal branch false false None None)
                else None)
      end
  end.

Definition recorded_session_agrees (session_id : option text) (run : run_row) : bool :=
  match session_id, r_codex_session_id run with
  | Some requested, Some recorded => utf8 requested == recorded
  | _, _ => true
  end.

Definition plan_of_candidate (p : project) (run : Z * run_row) (branch : option text)
    (tasks : list located) (c : candidate) : wio GitRecoveryPlan :=
  let '((board, status, task), session, journal) := c in
  run! _ := ensure (length (List.filter (links_to session) tasks) =? 1)
              (Bail "The conversation is linked to several tasks; resolve the duplicate links before recovery") in
  run! _ := ensure (bool_decide (status ∈ [Todo; Doing; Done]))
              (Bail "Move the affected task out of Backlog before recovering it") in
  wret (mkPlan p session (Some (mkRecoveryTask task status board)) run.1 journal branch
          false false None None).

(** A preview: it names the run and the task's contents the user accepts. *)
Definition plan_git_recovery (p : project) (session_id : option text) : wio GitRecoveryPlan :=
  run! latest := query (latest_run_for_project p.1) in
  run! failed := need (match latest with
                       | Some r => if failed_or_timed_out r then Some (run_of r) else None
                       | None => None
                       end) (Bail "This project has no failed Git attempt to recover") in
  run! _ := ensure (recorded_session_agrees session_id failed.2)
              (Bail "The selected conversation does not match the failed run; recover the task identified by that run") in
  run! tasks := on_board (linked_tasks (get_tasks_dir (root_of p))) in
  let requested := coalesce session_id (of_utf8 <$> r_codex_session_id failed.2) in
  run! controls := query_res (session_controls_for_project p.1) in
  run! (branch, candidates) := recovery_candidates p controls failed requested None tasks in
  run! orphan := (if length candidates =? 0 then orphaned_attempt p controls failed requested tasks
                  else wret None) in
  match orphan, candidates with
  | Some plan, _ => wret plan
  | None, [c] => plan_of_candidate p failed branch tasks c
  | None, _ =>
      refuse (Bail "Cannot identify one affected task. Use clt agent recover-task --session <session-id> for the intended task; its saved error is available with l")
  end.

(** ** The plan for a restart *)

Definition restartable (journal : option journal_snapshot) : bool :=
  match journal with
  | None => true
  | Some j => is_null (g_commit_oid j.2) && bool_decide (g_state j.2 ∈ [Working; Cancelled])
  end.

Definition owner_run (pid : Z) (journal : option journal_snapshot) (d : db) : option AgentRunRecord :=
  match journal ≫= (fun j => g_owner_run_token j.2) with
  | Some token => run_for_worker_token pid token d
  | None => None
  end.

Definition session_run (pid : Z) (session : text) (d : db) : option AgentRunRecord :=
  latest_run_for_codex_session pid (utf8 session) false None d.

Definition plan_task_restart (p : project) (session : text) : wio GitRecoveryPlan :=
  run! tasks := on_board (linked_tasks (get_tasks_dir (root_of p))) in
  let chosen := List.filter (links_to session) tasks in
  run! first := need (head chosen) (Bail "No task links to the selected session") in
  let '(board_dir, status, task) := first in
  run! _ := ensure (length chosen =? 1) (Bail "The conversation is linked to several tasks") in
  run! _ := ensure (Status.is_active status || (status == Done))
              (Bail "Move the selected task out of Backlog before restarting it") in
  run! journal := query (snapshot p.1 (utf8 session)) in
  run! _ := ensure (restartable journal)
              (Bail "Cannot restart sealed or verified Git work; finish its existing finalization first") in
  run! found := query (fun d => match session_run p.1 session d with
                                | Some r => Some r
                                | None => owner_run p.1 journal d
                                end) in
  run! r := need found (Bail "The selected session has no recorded task run") in
  run! branch := current_agent_git_branch git (root_of p) in
  wret (mkPlan p session (Some (mkRecoveryTask task status board_dir)) (run_of r).1 journal branch
          true false None None).

(** ** Evidence of a writer conflict *)

(** A log of at most 64 KiB of UTF-8; [None] for any other file. *)
Context (read_small_log : string -> option text).

Definition writer_message (session : text) : text :=
  str "thread " ++ session ++ str " already has an active writer".

Definition is_code (code : text) (j : json) : bool :=
  match j with JNumber other => other == code | _ => false end.

Definition is_writer_diagnostic (session line : text) : bool :=
  let line := trim line in
  (line == str "Error: thread/resume: thread/resume failed: " ++ writer_message session ++ str " (code -32600)")
  || match strip_prefix (str "Error: Codex thread/resume: ") line ≫= json_parse E with
     | Some error =>
         match json_get (str "code") error with
         | Some code => is_code (str "-32600") code
         | None => false
         end
         && ((json_get (str "message") error ≫= as_text) == Some (writer_message session))
     | None => false
     end.

(** The run failed before the agent wrote anything. *)
Definition writer_conflict_at_startup (r : AgentRunRecord) (session : text) : bool :=
  let run := (run_of r).2 in
  (r_status run == "failure") && negb (is_null (r_finished_at run))
  && match r_exit_code run with Some code => negb (code =? 0)%Z | None => false end
  && (r_codex_session_id run == Some (utf8 session))
  && match r_stdout_path run ≫= read_small_log, r_stderr_path run ≫= read_small_log with
     | Some stdout, Some stderr =>
         (trim stdout == []) && existsb (is_writer_diagnostic session) (lines stderr)
     | _, _ => false
     end.

(** ** Execution *)

(** An automated child's context in the environment, the holders this process
    names itself by, and [chrono::Local::now] as a date. *)
Context (automated_child : bool) (holder_for_current_process : nat -> string) (today : nat -> text).

Definition recovery_reason_text (plan : GitRecoveryPlan) : text :=
  if negb (is_null (pl_writer_conflict plan)) then
    str "two consecutive resumes failed at startup because the old conversation already has an active writer; the idle attempt was retired automatically"
  else if pl_preactivation plan then
    str "the selected Todo was absent from the old launch checkpoint and its worker failed before activation; the unbound attempt was retired automatically"
  else if negb (is_null (pl_stale_head plan)) then
    str "HEAD changed before task activation and the worker ended; the stale unbound attempt was retired automatically"
  else if pl_restart plan then
    str "the owner explicitly restarted this unfinished task; the old attempt remains in history"
  else
    match pl_journal plan with
    | Some j =>
        str "the checkout branch changed from " ++ of_utf8 (default "detached HEAD" (g_branch_ref j.2))
        ++ str " to " ++ default (str "detached HEAD") (pl_current_branch plan)
        ++ str "; the previous Git attempt was retired"
    | None => str "the previous run lost its Git starting record"
    end.

(** The previous conversation stays in the task as history, not as a link. *)
Definition recovered_content (plan : GitRecoveryPlan) (date original : text) : text :=
  original ++ [10%N; 10%N] ++ str "UNBLOCKED " ++ date ++ str ": CLT recovered after "
  ++ recovery_reason_text plan ++ str ". Previous Codex session: " ++ pl_session_id plan
  ++ str ". Review current files and Git history first; preserve existing work and commits, verify what is already complete, and implement only what remains. This is a fresh attempt; follow the project's current Git settings. Do not recreate or duplicate earlier commits.".

Definition has_link (session : text) (task : TaskEntry) : bool :=
  recoverable_codex_session_id_from_task_content (content task) == Some session.

Definition is_ordinary_restart (plan : GitRecoveryPlan) : bool :=
  pl_restart plan && negb (pl_preactivation plan) && is_null (pl_stale_head plan)
  && is_null (pl_writer_conflict plan).

(** A task the user restarted goes before the rest of Todo. *)
Definition prioritized (plan : GitRecoveryPlan) (linked : GitRecoveryTask) (todo : TaskEntry) : wio TaskEntry :=
  if is_ordinary_restart plan then
    run! _ := on_board (prioritize_task_after_lock U (rt_board_dir linked) Todo todo) in
    run! entries := on_board (read_task_entries U (rt_board_dir linked) Todo) in
    run! first := need (head entries) (Bail "The restarted task disappeared before activation") in
    run! _ := ensure (has_link (pl_session_id plan) first) (Bail "Restarted task order changed") in
    wret first
  else wret todo.

(** The stopped old link stays through the move, so a crash leaves a task that is
    stopped and can be recovered again. *)
Definition requeue_task (plan : GitRecoveryPlan) (linked : GitRecoveryTask) (index : nat) : wio unit :=
  let board := rt_board_dir linked in
  let stopped := task_content_without_stop_marker (content (rt_task linked)) ++ str " " ++ TASK_STOPPED_MARKER in
  run! _ := on_board (write_task_entry_content board (rt_status linked) (rt_task linked) stopped) in
  run! _ := (if rt_status linked =! Todo
             then on_board (move_task_without_reordering_after_lock U board (rt_status linked) Todo (S index))
             else wret tt) in
  run! entries := on_board (read_task_entries U board Todo) in
  run! todo := need (List.find (has_link (pl_session_id plan)) entries)
                 (Bail "The recovered task disappeared before it could be queued") in
  run! todo := prioritized plan linked todo in
  let original :=
    task_content_without_recoverable_codex_session (task_content_without_stop_marker (content todo)) in
  run! date := (fun w => (Ok (today (git_runs w)), w)) in
  on_board (write_task_entry_content board Todo todo (recovered_content plan date original)).

Definition needs_requeue (plan : GitRecoveryPlan) (linked : GitRecoveryTask) : bool :=
  (rt_status linked =! Done) || negb (is_null (pl_journal plan)) || pl_restart plan.

Definition recovery_message (plan : GitRecoveryPlan) : text :=
  let name := of_utf8 (p_name (pl_project plan).2) in
  match pl_linked plan with
  | None =>
      str "Retired orphaned Git attempt in " ++ name
      ++ str " and stopped its obsolete retry. The current task board, files, staging, commits and old journal were preserved."
  | Some linked =>
      if needs_requeue plan linked then
        str "Recovered task in " ++ name
        ++ str ". A fresh Codex run will review existing work and finish what remains when project scheduling is active. Files, commits and the old conversation were preserved."
      else
        str "Accepted completed task in " ++ name
        ++ str " and stopped its obsolete retry. Files and commits were preserved."
  end.

Definition finish_recovery (plan : GitRecoveryPlan) (holder : string)
    (chosen : option (GitRecoveryTask * nat)) : wio text :=
  run! _ := (match chosen with
             | Some (linked, index) =>
                 if needs_requeue plan linked then requeue_task plan linked index else wret tt
             | None => wret tt
             end) in
  run! now := agent_timestamp E in
  run! _ := on_registry (finish_missing_git_recovery (pl_project plan).1 holder now) in
  wret (recovery_message plan).

(** ** What must still hold when the plan is executed *)

Definition position_of_task (linked : GitRecoveryTask) : wio nat :=
  run! entries := on_board (read_task_entries U (rt_board_dir linked) (rt_status linked)) in
  run! found := need (list_find (fun task => source task = source (rt_task linked)
                                             /\ content task = content (rt_task linked)) entries)
                  (Bail "The task changed while recovery was being confirmed; press r to review it again") in
  wret found.1.

Definition chosen_task (plan : GitRecoveryPlan) : wio (option (GitRecoveryTask * nat)) :=
  match pl_linked plan with
  | None => wret None
  | Some linked => run! index := position_of_task linked in wret (Some (linked, index))
  end.

Definition verify_checkout (plan : GitRecoveryPlan) : wio unit :=
  let root := root_of (pl_project plan) in
  run! _ := (if negb (is_null (pl_journal plan)) || pl_restart plan then
               run! branch := current_agent_git_branch git root in
               ensure (branch == pl_current_branch plan)
                 (Bail "The checkout branch changed while recovery was being confirmed; review recovery again")
             else wret tt) in
  match pl_stale_head plan with
  | Some head =>
      run! current := current_agent_git_head git root in
      ensure (current == head)
        (Bail "The checkout commit changed during activation recovery; retry on the next scan")
  | None => wret tt
  end.

Definition conflict_persists (plan : GitRecoveryPlan) (previous_id : Z) (latest previous : AgentRunRecord) : bool :=
  ((run_of latest).1 =? pl_run_id plan)%Z && ((run_of previous).1 =? previous_id)%Z
  && writer_conflict_at_startup latest (pl_session_id plan)
  && writer_conflict_at_startup previous (pl_session_id plan).

Definition verify_writer_conflict (plan : GitRecoveryPlan) : wio unit :=
  match pl_writer_conflict plan with
  | None => wret tt
  | Some (previous_id, _) =>
      let pid := (pl_project plan).1 in
      run! found := query (session_run pid (pl_session_id plan)) in
      run! latest := need found (Bail "Writer conflict run disappeared") in
      run! found := query (latest_run_for_codex_session pid (utf8 (pl_session_id plan)) false
                             (Some (run_of latest).1)) in
      run! previous := need found (Bail "Previous writer conflict run disappeared") in
      ensure (conflict_persists plan previous_id latest previous)
        (Bail "Writer conflict evidence changed; preserving the old attempt")
  end.

Definition recovery_request (plan : GitRecoveryPlan) (require_resume_requested : bool)
    (holder acquired_at expires_at : string) : RecoveryRequest :=
  mkRecovery (pl_project plan).1 (p_path (pl_project plan).2) (utf8 (pl_session_id plan)) (pl_run_id plan)
    (pl_journal plan) require_resume_requested (pl_restart plan) (negb (is_null (pl_stale_head plan)))
    (pl_writer_conflict plan) holder acquired_at expires_at.

(** The board's lock is held throughout; the lease is given back however it ends. *)
Definition execute_git_recovery (plan : GitRecoveryPlan) (require_resume_requested : bool) : wio text :=
  let pid := (pl_project plan).1 in
  let board := get_tasks_dir (root_of (pl_project plan)) in
  run! _ := ensure (negb automated_child)
              (Bail "Git task recovery must run outside an automated CLT task") in
  run! manual := on_board (board_has_manual_session U board (pl_session_id plan)) in
  run! _ := ensure (negb manual)
              (Bail "This task is manually owned; finish or hand it off before recovery") in
  run! tasks := on_board (linked_tasks board) in
  run! _ := ensure (length (List.filter (links_to (pl_session_id plan)) tasks)
                    =? (if is_null (pl_linked plan) then 0 else 1))
              (Bail "The task's conversation links changed; review recovery again") in
  run! chosen := chosen_task plan in
  run! preserved := query (restart_preserves_other_git_work pid (pl_session_id plan) tasks) in
  run! _ := ensure (negb (pl_restart plan) || preserved)
              (Bail "Another unfinished task owns this project; return its dependency wait to Todo before restarting the prerequisite") in
  run! _ := verify_checkout plan in
  run! _ := verify_writer_conflict plan in
  run! holder := (fun w => (Ok (holder_for_current_process (git_runs w)), w)) in
  run! acquired_at := agent_timestamp E in
  run! expires_at := agent_timestamp_after E 60 in
  run! _ := on_registry (begin_missing_git_recovery
              (recovery_request plan require_resume_requested holder acquired_at expires_at)) in
  run! result := wtry (finish_recovery plan holder chosen) in
  run! released := wtry (on_registry (release_lease pid holder)) in
  run! message := from_result result in
  run! _ := from_result released in
  wret message.

Definition recover_git_task (plan : GitRecoveryPlan) : wio text := execute_git_recovery plan false.

(** ** Recoveries the scheduler starts by itself *)

(** The first that recovers something ends the search. *)
Fixpoint first_recovery {A} (f : A -> wio (option text)) (l : list A) : wio (option text) :=
  match l with
  | [] => wret None
  | a :: rest =>
      run! recovered := f a in
      match recovered with Some _ => wret recovered | None => first_recovery f rest end
  end.

Definition executed (plan : GitRecoveryPlan) : wio (option text) :=
  run! message := execute_git_recovery plan false in wret (Some message).

Definition journal_can_restart (journal : option journal_snapshot) : bool :=
  match journal with
  | Some j => (g_state j.2 == Working) && is_null (g_commit_oid j.2)
  | None => true
  end.

Definition plan_is_ready (plan : GitRecoveryPlan) : bool :=
  match pl_linked plan with
  | Some linked => Status.is_active (rt_status linked) && task_entry_is_ready (rt_task linked)
  | None => false
  end.

(** The last two resumes of the conversation both failed before they wrote
    anything: the latest run and the one before it. *)
Definition conflicting_runs (pid : Z) (session : text) (d : db) : option (AgentRunRecord * AgentRunRecord) :=
  latest ← session_run pid session d;
  if negb (writer_conflict_at_startup latest session) then None
  else
  previous ← latest_run_for_codex_session pid (utf8 session) false (Some (run_of latest).1) d;
  if writer_conflict_at_startup previous session then Some (latest, previous) else None.

Definition recover_writer_conflict (p : project) (c : (Z * string) * control_row) : wio (option text) :=
  let session := of_utf8 c.1.2 in
  match sc_run_token c.2 with
  | None => wret None
  | Some token =>
      if (sc_state c.2 =! ResumeRequested) || negb (control_is_unowned c.2) then wret None
      else
      run! runs := query (conflicting_runs p.1 session) in
      match runs with
      | None => wret None
      | Some (latest, previous) =>
          run! journal := query (snapshot p.1 c.1.2) in
          if negb (journal_can_restart journal) then wret None
          else
          run! plan := plan_task_restart p session in
          if (pl_journal plan =! journal) || (pl_run_id plan =! (run_of latest).1) || negb (plan_is_ready plan)
          then wret None
          else
          run! mode := query (session_git_mode (pending_migration_version E) p.1 c.1.2) in
          if is_null (pl_journal plan) && (mode =! Some GitOff) then wret None
          else executed (plan <| pl_writer_conflict := Some ((run_of previous).1, token) |>)
      end
  end.

Definition recover_writer_conflict_automatically (p : project) : wio (option text) :=
  if negb (p_enabled p.2) then wret None
  else
  run! controls := query_res (session_controls_for_project p.1) in
  first_recovery (recover_writer_conflict p) controls.

Definition latest_of (owner session : option AgentRunRecord) : option AgentRunRecord :=
  match owner, session with
  | Some a, Some b => Some (if ((run_of a).1 <=? (run_of b).1)%Z then b else a)
  | Some a, None => Some a
  | None, b => b
  end.

Definition ended_badly (r : AgentRunRecord) : bool :=
  bool_decide (r_status (run_of r).2 ∈ ["failure"; "blocked"; "timeout"])
  && negb (is_null (r_finished_at (run_of r).2)).

(** The control asks to resume exactly the journal's attempt, and nobody owns it. *)
Definition control_awaits_attempt (g : journal_row) (c : option control_row) : bool :=
  match c with
  | Some c => (sc_state c == ResumeRequested) && control_is_unowned c && (sc_run_token c == g_owner_run_token g)
  | None => true
  end.

(** A blocked note that says something else than this startup failure stays. *)
Definition note_is_about_startup (content : text) : bool :=
  match task_blocking_note content with
  | Some note => contains (str "committed exactly once") note && contains (str "(found 0)") note
  | None => true
  end.

(** HEAD is where the attempt started, and its board has no such task. *)
Definition task_absent_from_start (p : project) (head : text) (task : TaskEntry) : wio bool :=
  match durable_task_identity (content task) with
  | None => wret false
  | Some identity =>
      run! count := git_ref_active_task_identity_count git (root_of p) head identity in
      wret ((count =? 0) && note_is_about_startup (content task))
  end.

Definition restart_failed_activation (p : project) (j : journal_snapshot) (run_id : Z)
    (plan : GitRecoveryPlan) (linked : GitRecoveryTask) : wio (option text) :=
  let session := of_utf8 j.1.2 in
  run! head := current_agent_git_head git (root_of p) in
  let head_changed := (of_utf8 <$> g_starting_head j.2) =! Some head in
  run! proven := (if head_changed then wret true else task_absent_from_start p head (rt_task linked)) in
  if negb proven then wret None
  else
  run! tasks := on_board (linked_tasks (get_tasks_dir (root_of p))) in
  run! preserved := query (restart_preserves_other_git_work p.1 session tasks) in
  if negb preserved then wret None
  else executed (plan <| pl_run_id := run_id |> <| pl_preactivation := negb head_changed |>
                      <| pl_stale_head := Some head |>).

Definition activation_can_restart (j : journal_snapshot) (plan : GitRecoveryPlan) : option GitRecoveryTask :=
  linked ← pl_linked plan;
  if (pl_journal plan == Some j) && Status.is_active (rt_status linked)
     && negb (task_entry_is_stopped (rt_task linked)) && negb (task_content_is_manual (content (rt_task linked)))
  then Some linked else None.

Definition failed_run_of (pid : Z) (j : journal_snapshot) (d : db) : option AgentRunRecord :=
  r ← latest_of (owner_run pid (Some j) d) (session_run pid (of_utf8 j.1.2) d);
  if ended_badly r && negb (is_null (g_starting_head j.2)) && negb (is_null (g_branch_ref j.2))
  then Some r else None.

Definition recover_failed_activation (p : project) (j : journal_snapshot) : wio (option text) :=
  let g := j.2 in
  if (g_state g =! Working) || negb (is_null (g_task_identity g)) || negb (is_null (g_commit_oid g))
  then wret None
  else
  run! failed := query (failed_run_of p.1 j) in
  match failed with
  | None => wret None
  | Some r =>
      run! branch := current_agent_git_branch git (root_of p) in
      if branch_differs branch g then wret None
      else
      run! control := query_res (session_control p.1 j.1.2) in
      if negb (control_awaits_attempt g control) then wret None
      else
      run! plan := plan_task_restart p (of_utf8 j.1.2) in
      match activation_can_restart j plan with
      | None => wret None
      | Some linked => restart_failed_activation p j (run_of r).1 plan linked
      end
  end.

Definition recover_failed_activation_automatically (p : project) : wio (option text) :=
  if negb (p_enabled p.2) then wret None
  else
  run! journals := query (list_pending_git_finalizations (Some p.1)) in
  first_recovery (recover_failed_activation p) journals.

Definition recover_changed_branch_automatically (p : project) (session : text) : wio (option text) :=
  run! control := query_res (session_control p.1 (utf8 session)) in
  if negb (match control with Some c => sc_state c == ResumeRequested | None => false end) then wret None
  else
  run! plan := plan_git_recovery p (Some session) in
  if is_null (pl_journal plan)
     || (match pl_linked plan with Some linked => task_entry_is_stopped (rt_task linked) | None => false end)
  then wret None
  else run! message := execute_git_recovery plan true in wret (Some message).
End GitRecovery.
