(* ===== verification/Dispatch.v ===== *)
(** Workers as the dispatcher sees them (src/worker.rs): what a running, stale or
    unclaimed worker becomes, and the dispatch of a job to a new one. *)
From S2P Require Import Prelude Sql AgentTypes Leases Workers Sessions Journals Holders Projects.
From S2P Require Import Text Board TaskEntry World Surroundings Scheduling SnapshotLoad Guards.
From S2P Require Import GitRetire Reattach Store.

Definition AGENT_WORKER_STARTUP_TIMEOUT_SECONDS : Z := 60.
Definition AGENT_WORKER_HEARTBEAT_TIMEOUT_SECONDS : Z := 60.

(** A worker with its token. *)
Definition worker_record_row : Type := string * worker_row.

Record BlockedTaskSnapshot := mkBlocked { bs_status : TaskStatus; bs_content : text }.
#[export] Instance BlockedTaskSnapshot_eq_dec : EqDecision BlockedTaskSnapshot.
Proof. solve_decision. Defined.

Record AgentRunJob := mkJob {
  j_project : Z * project_row; j_holder : string; j_worker_token : option string;
  j_max_global_jobs : Z; j_task_selection : AgentTaskSelection; j_resume_session_id : option string;
  j_blocked_task_count_before : Z; j_done_task_contents_before : list text;
  j_blocked_task_snapshots_before : list BlockedTaskSnapshot
}.
#[export] Instance AgentRunJob_eta : Eta AgentRunJob := fun j =>
  mkJob (j_project j) (j_holder j) (j_worker_token j) (j_max_global_jobs j) (j_task_selection j)
    (j_resume_session_id j) (j_blocked_task_count_before j) (j_done_task_contents_before j)
    (j_blocked_task_snapshots_before j).

Record AgentWorkerLaunchSpec := mkSpec {
  sp_executable : string; sp_worker_token : string; sp_project_id : Z;
  sp_task_selection : AgentTaskSelection; sp_resume_session_id : option string;
  sp_service_label : string; sp_command_arguments : option (list text);
  sp_codex_path : option string; sp_path : string
}.

Definition agent_worker_observation_is_stale (raw : option string) (now timeout_seconds : Z) : bool :=
  match raw ≫= parse_u64 with
  | Some observed => (timeout_seconds <=? saturating_sub now observed)%Z
  | None => true
  end.

Definition runs_or_finalizes (s : worker_state) : bool :=
  match s with WRunning | WFinalizing => true | _ => false end.

Section Dispatch.
Context (E : Surroundings).

(** The inline workers of this process that are still registered. *)
Context (inline_agent_worker_generation_is_registered : string -> bool).

(** The answers of the service manager: starting a worker, and preparing it. *)
Context (launch_dispatching : AgentWorkerLaunchSpec -> res refusal unit).

Definition drained (token : string) (w : worker_row) : option bool :=
  if is_inline_agent_worker w then Some true else drain_worker E token.

Definition process_state (w : worker_row) : option bool := w_worker_pid w ≫= local_process_is_running E.

(** ** What is wrong with a worker *)

Section Verdict.
Context (token : string) (w : worker_row) (owns_lease : bool) (now : Z).

Definition current_generation (registered : bool) : bool :=
  is_inline_agent_worker w && (w_worker_pid w == Some (own_pid E))
  && Bool.eqb (inline_agent_worker_generation_is_registered token) registered.

(** A worker nothing is decided about. *)
Definition worker_left_alone : bool :=
  (current_generation true && runs_or_finalizes (w_state w))
  || (is_inline_agent_worker w && (w_worker_pid w =! Some (own_pid E)) && negb (is_null (w_worker_pid w))
      && (process_state w =! Some false) && runs_or_finalizes (w_state w)).

Definition startup_stale : bool :=
  (w_state w == Dispatching)
  && agent_worker_observation_is_stale (Some (w_created_at w)) now AGENT_WORKER_STARTUP_TIMEOUT_SECONDS.
Definition heartbeat_stale : bool :=
  runs_or_finalizes (w_state w)
  && agent_worker_observation_is_stale (w_heartbeat_at w) now AGENT_WORKER_HEARTBEAT_TIMEOUT_SECONDS.

Definition abandonment_reason : option string :=
  if is_inline_agent_worker w && (w_state w == Dispatching) then
    Some "Inline worker reservation was not atomically claimed"
  else if current_generation false then
    Some "Inline worker generation is no longer owned by this CLT process"
  else if negb owns_lease then
    if (process_state w == Some true) && negb heartbeat_stale then None
    else Some "Worker no longer owns its project lease"
  else if startup_stale then
    Some ("Worker did not claim its durable reservation within "
          +:+ dec AGENT_WORKER_STARTUP_TIMEOUT_SECONDS +:+ " seconds")
  else if runs_or_finalizes (w_state w) && (process_state w == Some false) then
    Some "Worker process exited before durable finalization"
  else if heartbeat_stale then
    Some ("Worker heartbeat was stale for at least "
          +:+ dec AGENT_WORKER_HEARTBEAT_TIMEOUT_SECONDS +:+ " seconds")
  else if (w_state w == WRunning) && is_null (w_worker_pid w) then
    Some "Running worker is missing its process ID"
  else None.
End Verdict.

(** ** What becomes of it *)

Definition abandonment (token : string) (w : worker_row) (reason now : string) (successor : option string)
    : AgentWorkerAbandonment :=
  mkAbandonment token (WorkerState.database_value (w_state w)) (w_worker_pid w) (w_heartbeat_at w)
    now reason successor.

Definition successor_of (w : worker_row) (lease : option string) : option string :=
  match lease with
  | Some holder => if holder =! w_lease_holder w then Some holder else None
  | None => None
  end.

(** A worker that cannot be drained is looked at again in the next pass. *)
Definition abandon_drained (token : string) (w : worker_row) (reason : string) (lease : option string)
    : wio unit :=
  if drained token w == Some true then
    run! now := agent_timestamp E in
    run! _ := on_registry (abandon_worker (abandonment token w reason now (successor_of w lease))) in
    wret tt
  else wret tt.

Definition arguments_of (raw : string) : option (list text) :=
  match json_parse E (of_utf8 raw) with
  | Some (JArray items) => mapM as_text items
  | _ => None
  end.

Definition spec_of_worker (token : string) (w : worker_row) (selection : AgentTaskSelection)
    (arguments : list text) : AgentWorkerLaunchSpec :=
  mkSpec (w_binary_path w) token (w_project_id w) selection (w_resume_session_id w) (w_service_label w)
    (Some arguments) (w_codex_path w) (w_path_env w).

(** A reserved worker is asked for again; the service manager may refuse. *)
Definition redispatch (token : string) (w : worker_row) : wio unit :=
  match TaskSelection.from_label (w_task_selection w) with
  | Some selection =>
      run! arguments := need (arguments_of (w_command_arguments w)) (Bail "launch arguments") in
      run! _ := wtry (from_result (launch_dispatching (spec_of_worker token w selection arguments))) in
      wret tt
  | None =>
      run! emptied := need (drained token w) ServiceError in
      if emptied then
        run! now := agent_timestamp E in
        run! _ := on_registry (abandon_worker (abandonment token w
          ("Invalid durable worker task selection: Unknown agent worker task selection: "
           +:+ w_task_selection w) now None)) in
        wret tt
      else wret tt
  end.

Definition reconcile_worker (now : Z) (worker : worker_record_row) : wio unit :=
  let '(token, w) := worker in
  if (AGENT_WORKER_PROTOCOL_VERSION <? w_protocol_version w)%Z then wret tt
  else
  run! lease := query (lease_holder_for_project (w_project_id w)) in
  let owns_lease := lease == Some (w_lease_holder w) in
  run! launching := query (fun d => is_inline_agent_worker w
                                    && negb (is_null (git_launch_state (w_project_id w) token d))) in
  if launching || worker_left_alone token w then wret tt
  else
  match abandonment_reason token w owns_lease now with
  | Some reason => abandon_drained token w reason lease
  | None => if w_state w == Dispatching then redispatch token w else wret tt
  end.

Definition active_workers : wio (list worker_record_row) :=
  run! workers := query_res (list_workers_by_terminal_state false) in
  wret ((fun w => w.1.1) <$> workers).

Definition reconcile_agent_worker_effects_stage (now : Z) : wio (list worker_record_row) :=
  run! workers := active_workers in
  run! _ := wfor_each (reconcile_worker now) workers in
  active_workers.

(** ** Services of workers that ended *)

(** [remove_worker_dir]: whether the directory of a worker could be removed. *)
Context (remove_worker_dir : string -> res refusal unit).

Definition clean_terminal_worker (project_path : option string) (worker : string * worker_row * string * string)
    : wio unit :=
  let '(token, w, _, project) := worker in
  if negb (is_null (w_service_cleaned_at w))
     || (match project_path with Some path => project =! path | None => false end)
  then wret tt
  else
  run! emptied := need (drained token w) ServiceError in
  run! _ := ensure emptied (Bail "Agent worker service is still active after its drain request") in
  run! _ := from_result (remove_worker_dir token) in
  run! now := agent_timestamp E in
  run! _ := on_registry (mark_worker_service_cleaned token now) in
  wret tt.

Definition cleanup_terminal_agent_worker_services (project_path : option string) : wio unit :=
  run! workers := query_res (list_workers_by_terminal_state true) in
  wfor_each (clean_terminal_worker project_path) workers.

Definition reconcile_independent_agent_workers : wio (list worker_record_row) :=
  run! _ := cleanup_terminal_agent_worker_services None in
  run! now := agent_timestamp_seconds E in
  reconcile_agent_worker_effects_stage now.

(** ** A worker that failed *)

Definition find_worker (token : string) (workers : list worker_record_row) : option worker_record_row :=
  List.find (fun w => w.1 == token) workers.

Definition abandon_agent_worker_after_error (token error : string) : wio unit :=
  run! workers := active_workers in
  match find_worker token workers with
  | None => wret tt
  | Some (_, w) =>
      run! launching := query (fun d => is_inline_agent_worker w
                                        && negb (is_null (git_launch_state (w_project_id w) token d))) in
      if launching then wret tt
      else
      run! lease := query (lease_holder_for_project (w_project_id w)) in
      run! now := agent_timestamp E in
      run! _ := on_registry (abandon_worker (abandonment token w
                  ("Independent worker failed: " +:+ error) now (successor_of w lease))) in
      wret tt
  end.

(** ** Dispatching a job *)

Definition release_agent_job_lease_for_shutdown (job : AgentRunJob) : wio unit :=
  run! _ := on_registry (release_lease (j_project job).1 (j_holder job)) in wret tt.

Definition spec_of_job (executable token service_label : string) (codex_path : option string)
    (path_env : string) (job : AgentRunJob) : AgentWorkerLaunchSpec :=
  mkSpec executable token (j_project job).1 (j_task_selection job) (j_resume_session_id job) service_label
    None codex_path path_env.

Definition reservation_of (spec : AgentWorkerLaunchSpec) (job : AgentRunJob) (arguments created_at : string)
    : AgentWorkerReservation :=
  mkReservation (j_project job).1 (sp_worker_token spec) (j_holder job) (j_max_global_jobs job)
    AGENT_WORKER_PROTOCOL_VERSION (sp_service_label spec) (sp_executable spec) arguments (sp_path spec)
    (sp_codex_path spec) (TaskSelection.label (sp_task_selection spec)) (sp_resume_session_id spec) created_at.

(** The lease goes back when the worker could not be reserved. *)
Definition reserve_for_job (spec : AgentWorkerLaunchSpec) (job : AgentRunJob) (arguments created_at : string)
    : wio unit :=
  run! result := wtry (on_registry (reserve_worker (reservation_of spec job arguments created_at) None)) in
  match result with
  | Ok true => wret tt
  | Ok false =>
      run! _ := release_agent_job_lease_for_shutdown job in
      refuse (Bail "Project lost its lease before worker could be reserved")
  | Err e => run! _ := release_agent_job_lease_for_shutdown job in refuse e
  end.

(** [prepare_worker]: the files of the service; [error_text]: [format!] of an
    error; [command_arguments]: their JSON. *)
Context (prepare_worker : AgentWorkerLaunchSpec -> res refusal unit) (error_text : refusal -> string).
Context (command_arguments : AgentWorkerLaunchSpec -> string).

Definition dispatch_independent_agent_worker_with (spec : AgentWorkerLaunchSpec) (job : AgentRunJob)
    : wio unit :=
  match prepare_worker spec with
  | Err e => run! _ := release_agent_job_lease_for_shutdown job in refuse e
  | Ok tt =>
      run! created_at := agent_timestamp E in
      run! _ := reserve_for_job spec job (command_arguments spec) created_at in
      match launch_dispatching spec with
      | Ok tt => wret tt
      | Err e =>
          run! now := agent_timestamp E in
          run! abandoned := on_registry (abandon_worker (mkAbandonment (sp_worker_token spec)
              (WorkerState.database_value Dispatching) None (Some created_at) now
              ("Worker service launch failed: " +:+ error_text e) None)) in
          if abandoned then refuse e else wret tt
      end
  end.
End Dispatch.
