(* ===== verification/Scheduler.v ===== *)
(** The scheduler (src/scheduler.rs): stale session controls, the work a project
    has, the acquisition of a job and the scheduling pass over all projects. *)
From S2P Require Import Prelude Sql AgentTypes Leases Workers Runs Sessions Handoff Journals.
From S2P Require Import Retire Holders Projects.
From S2P Require Import Text Markers TaskNotes Metadata TaskEntry Files Board BoardTree.
From S2P Require Import World Surroundings Git Manifest Scheduling SnapshotLoad Guards Workflow.
From S2P Require Import GitRetire GitPublish GitRepair GitFinalize Supervisor Completed Reattach.
From S2P Require Import GitRecovery.
From S2P Require Import Dispatch Store.

Definition TUI_SESSION_HANDOFF_TIMEOUT_SECONDS : Z := 15.
Definition AGENT_DAEMON_CHECKIN_STALE_SECONDS : Z := 45.

(** What else the scheduler asks of its surroundings; the settings are read from
    the environment, which may hold something unreadable. *)
Record SchedulerSurroundings := mkScheduler {
  sx_processes : ProcessSurroundings;
  sx_repair : RepairSurroundings;
  sx_error_text : refusal -> string;
  sx_registered : string -> bool;
  sx_launch : AgentWorkerLaunchSpec -> res refusal unit;
  sx_remove_worker_dir : string -> res refusal unit;
  sx_today : nat -> text;
  sx_read_small_log : string -> option text;
  sx_automated_child : bool;
  sx_new_holder : nat -> string;
  sx_heartbeat : nat -> nat -> bool;
  (** [agent_process_group_exists]. *)
  sx_process_group_exists : Z -> option bool;
  sx_lease_timeout : res refusal Z;
  sx_success_cooldown : res refusal Z;
  sx_failure_backoff : res refusal Z
}.

Section Scheduler.
Context (E : Surroundings) (X : SchedulerSurroundings).
Let U := unicode E.
Local Notation project := (Z * project_row)%type.
Local Notation control := ((Z * string) * control_row)%type.
Local Notation root_of := (project_root).

Definition coordination_waits (root : path) (session : text) : wio bool :=
  session_waiting_at U (from_json E) (uuid_parses E) (pending_migration_version E) (registry_exists E)
    (git_status E) (evidence_json E) (uuid_v5 E) root session.

Definition ready_work (root : path) : wio (list TaskEntry) :=
  ready_tasks U (from_json E) (uuid_parses E) (pending_migration_version E) (registry_exists E)
    (git_status E) (evidence_json E) (uuid_v5 E) root.

(** ** Stale controls *)

Definition automated_agent_process_group_is_running (pid : Z) : option bool :=
  if local_process_is_running E pid == Some true then Some true
  else if (pid =? 0)%Z || (2 ^ 31 - 1 <? pid)%Z then Some false
  else sx_process_group_exists X pid.

Definition interactive_guardian_child_is_proven_absent (child_pid : option Z) : bool :=
  match child_pid with
  | Some pid => automated_agent_process_group_is_running pid == Some false
  | None => true
  end.

Definition recorded_child_is_gone (c : control_row) : bool :=
  match sc_child_pid c with
  | Some pid => automated_agent_process_group_is_running pid == Some false
  | None => false
  end.

Definition proven_dead (holder : string) : bool :=
  interactive_lease_holder_is_proven_dead (own_pid E) (local_process_is_running E) holder.

Section Stale.
Context (lease : option lease_row) (reclaim_current_process_leases : bool) (now : Z).

Definition reclaimable (l : lease_row) : bool :=
  agent_lease_is_reclaimable (own_pid E) (local_process_is_running E) l reclaim_current_process_leases now.

Definition lease_is_active : bool :=
  match lease with Some l => negb (reclaimable l) | None => false end.

Definition matching_active_lease (holder : string) : bool :=
  match lease with
  | Some l => (l_holder l == holder) && negb (reclaimable l) && negb (proven_dead holder)
  | None => false
  end.

Definition requester_alive (holder : string) : bool :=
  (agent_lease_holder_liveness (own_pid E) (local_process_is_running E) holder =! Dead)
  && negb (proven_dead holder).

Definition recently_updated (c : control_row) : bool :=
  match parse_u64 (sc_updated_at c) with
  | Some at_ => (saturating_sub now at_ <=? TUI_SESSION_HANDOFF_TIMEOUT_SECONDS + 5)%Z
  | None => false
  end.

(** An idle conversation reserved by a terminal that did not open it. *)
Definition idle_reservation_abandoned (c : control_row) : option string :=
  match sc_interactive_holder c with
  | Some holder =>
      if (sc_state c == ReadyInteractive)
         && (Prelude.starts_with "clt-idle-interactive-" holder || Prelude.starts_with "clt-stopped-interactive-" holder)
         && negb (matching_active_lease holder) && (proven_dead holder || negb (recently_updated c))
      then Some holder else None
  | None => None
  end.

(** A conversation a guardian has opened. *)
Definition guarded_by (c : control_row) : option (string * InteractiveGuardianDisposition) :=
  match sc_interactive_holder c with
  | Some holder =>
      if bool_decide (sc_state c ∈ [Interactive; StopRequested])
         && (sc_interactive_launch_token c == Some holder)
      then pair holder <$> Guardian.from_guardian_holder holder else None
  | None => None
  end.

Definition guardian_abandoned (holder : string) (c : control_row) : bool :=
  Guardian.guardian_process_is_proven_dead (local_process_is_running E) holder
  || (negb (matching_active_lease holder) && (negb (requester_alive holder) || negb (recently_updated c))).

Definition handoff_abandoned (c : control_row) : bool :=
  match sc_interactive_holder c with
  | Some holder => negb (matching_active_lease holder) && (negb (requester_alive holder) || negb (recently_updated c))
  | None => true
  end.

Definition held_by_worker (c : control_row) : bool :=
  match sc_interactive_holder c with
  | Some holder =>
      Prelude.starts_with "clt-interactive-worker-" holder || Prelude.starts_with "clt-idle-interactive-worker-" holder
      || Prelude.starts_with "clt-stopped-interactive-worker-" holder
  | None => false
  end.

Definition interactive_child_is_gone (c : control_row) : bool :=
  match sc_child_pid c with
  | Some pid => local_process_is_running E pid == Some false
  | None => true
  end.

(** The state a stale control recovers to; [None] leaves it fenced. *)
Definition recovery_state (c : control_row) : option AgentSessionControlState :=
  let gone := negb lease_is_active && recorded_child_is_gone c in
  match sc_state c with
  | Running => if gone then Some ResumeRequested else None
  | StopRequested => if gone then Some Stopped else None
  | InterruptRequested => if gone then Some ReadyInteractive else None
  | ReadyInteractive | Interactive =>
      if negb (handoff_abandoned c) then None
      else if (sc_state c == Interactive) && held_by_worker c then None
      else if interactive_child_is_gone c then Some ResumeRequested else None
  | _ => None
  end.

Definition lease_holder_or_empty : string := match lease with Some l => l_holder l | None => "" end.

Definition apply_recovery (pid : Z) (sid : string) (c : control_row) (to : AgentSessionControlState)
    : wio unit :=
  run! at_ := agent_timestamp E in
  match sc_state c with
  | InterruptRequested =>
      match sc_run_token c with
      | None => wret tt
      | Some token =>
          run! child := need (sc_child_pid c) (Bail "stale recovery checked child PID") in
          run! timeout := from_result (sx_lease_timeout X) in
          run! expires_at := agent_timestamp_after E (Z.max timeout 60) in
          run! _ := on_registry (finalize_reaped_automated_session pid child token lease_holder_or_empty
                                   at_ expires_at at_) in
          wret tt
      end
  | Running | StopRequested =>
      run! child := need (sc_child_pid c) (Bail "stale recovery checked child PID") in
      run! _ := on_registry (recover_stale_automated_session_control pid sid (sc_state c) to child
                               (sc_run_token c) at_) in
      wret tt
  | _ =>
      run! _ := on_registry (recover_stale_interactive_session_control pid sid (sc_state c) to
                               (sc_interactive_holder c) at_) in
      wret tt
  end.

(** A process that may still run gets a new supervisor; what that says is printed. *)
Definition supervise_again (pid : Z) (sid : string) (c : control_row) : wio unit :=
  if negb lease_is_active && negb (recorded_child_is_gone c) && automated_state (sc_state c) then
    run! _ := wtry (ensure_orphaned_session_supervision E (sx_processes X) pid sid) in wret tt
  else wret tt.

Definition recover_guardian (pid : Z) (sid : string) (holder : string)
    (disposition : InteractiveGuardianDisposition) (c : control_row) : wio unit :=
  if guardian_abandoned holder c && interactive_guardian_child_is_proven_absent (sc_child_pid c) then
    run! _ := recover_stale_interactive_guardian_with_task E pid (of_utf8 sid) holder (sc_child_pid c)
                disposition in
    wret tt
  else wret tt.

Definition reconcile_control (pid : Z) (kc : control) : wio unit :=
  let sid := kc.1.2 in
  let c := kc.2 in
  run! retired := (if sc_state c == ResumeRequested
                   then Completed.retire_completed_resume_request E pid (of_utf8 sid) now
                   else wret false) in
  if retired then wret tt
  else
  match idle_reservation_abandoned c with
  | Some holder =>
      run! at_ := agent_timestamp E in
      run! _ := on_registry (cancel_idle_session_interactive pid sid holder at_) in wret tt
  | None =>
      match guarded_by c with
      | Some (holder, disposition) => recover_guardian pid sid holder disposition c
      | None =>
          run! _ := supervise_again pid sid c in
          match recovery_state c with
          | Some to => apply_recovery pid sid c to
          | None => wret tt
          end
      end
  end.

Definition reconcile_stale_agent_session_controls (pid : Z) : wio unit :=
  run! controls := query_res (session_controls_for_project pid) in
  run! _ := restore_idle_completed_tasks E pid in
  wfor_each (reconcile_control pid) controls.
End Stale.

(** ** Which conversation resumes *)

Definition cancelled_by_user (pid : Z) (session : text) (d : db) : bool :=
  match git_finalization pid (utf8 session) d with
  | Some g => (g_state g == Cancelled)
              && bool_decide (g_last_error g ∈ [Some AGENT_EXTERNAL_COMPLETION_REASON;
                                                Some AGENT_TASK_DELETION_REASON])
  | None => false
  end.

(** The first element whose answer is not [None]. *)
Fixpoint first_some {A B} (f : A -> wio (option B)) (l : list A) : wio (option B) :=
  match l with
  | [] => wret None
  | a :: rest =>
      run! found := f a in
      match found with Some _ => wret found | None => first_some f rest end
  end.

Definition may_resume (p : project) (session : text) : wio (option text) :=
  run! cancelled := query (cancelled_by_user p.1 session) in
  if cancelled then wret None
  else run! waits := coordination_waits (root_of p) session in wret (if waits then None else Some session).

Definition resumable_task (p : project) (task : TaskEntry) : wio (option text) :=
  if task_content_is_manual (content task) then wret None
  else
  match recoverable_codex_session_id_from_task_content (content task) with
  | None => wret None
  | Some session => may_resume p session
  end.

Definition project_has_resumable_doing_task (p : project) : wio bool :=
  run! doing := on_board (read_task_entries U (board_of p) Doing) in
  run! found := first_some (resumable_task p) doing in
  wret (negb (is_null found)).

Definition interrupted_task (p : project) (task : TaskEntry) : wio (option text) :=
  if task_entry_is_blocked task || task_entry_is_stopped task || task_content_is_manual (content task)
  then wret None
  else
  match recoverable_codex_session_id_from_task_content (content task) with
  | None => wret None
  | Some session =>
      run! control := query_res (session_control p.1 (utf8 session)) in
      if negb (is_null control) then wret None else may_resume p session
  end.

Definition interrupted_codex_session_in_doing (p : project) : wio (option text) :=
  run! doing := on_board (read_task_entries U (board_of p) Doing) in
  first_some (interrupted_task p) doing.

Definition queued_resume_can_wait (p : project) (kc : control) : wio bool :=
  let session := of_utf8 kc.1.2 in
  if (sc_state kc.2 =! ResumeRequested) || negb (control_is_unowned kc.2) then wret false
  else
  run! found := on_board (task_for_codex_session_in_board U (board_of p) session) in
  match found with
  | None => wret false
  | Some (status, task) =>
      run! yields := (if status == Done then wret false
                      else if task_entry_is_stopped task then wret true
                      else coordination_waits (root_of p) session) in
      if yields then wret true
      else if (status == Todo) && task_entry_is_blocked task then queued_blockers_can_wait E p
      else wret false
  end.

Definition session_controls_suspend_project (controls : list control) : bool :=
  existsb (fun kc => sc_state kc.2 =! Stopped) controls.

Definition suspends_ready_work (p : project) (kc : control) : wio bool :=
  if sc_state kc.2 == Stopped then wret false
  else run! can_wait := queued_resume_can_wait p kc in wret (negb can_wait).

Definition controls_suspend_ready_work (p : project) (controls : list control) : wio bool :=
  if negb (session_controls_suspend_project controls) then wret false
  else
  run! found := first_some (fun kc => run! b := suspends_ready_work p kc in
                                      wret (if b then Some kc else None)) controls in
  wret (negb (is_null found)).

(** A queued conversation whose task is gone loses its request. *)
Definition clear_orphaned_resume (p : project) (session : text) (now : Z) : wio (option text) :=
  run! status := on_board (task_status_for_codex_session_in_board U (board_of p) session) in
  if negb (is_null status) then wret (Some session)
  else
  run! cleared := on_registry (clear_orphaned_resume_requested_session p.1 (utf8 session) now) in
  wret (if cleared then None else Some session).

Definition awaits_proof (c : option control_row) : bool :=
  match c ≫= sc_run_token with
  | Some token => Prelude.starts_with AGENT_GIT_FINALIZATION_RESUME_TOKEN_PREFIX token
  | None => false
  end.

(** The request of a completed journal either acknowledges its proof or resumes. *)
Definition resume_completed (p : project) (session : text) : wio (option text) :=
  run! control := query_res (session_control p.1 (utf8 session)) in
  if awaits_proof control then
    run! at_ := agent_timestamp E in
    run! _ := on_registry (acknowledge_completed_git_finalization_session p.1 (utf8 session) at_) in
    wret None
  else wret (Some session).

Definition resume_unfinished (p : project) (session : text) (j : journal_snapshot) : wio (option text) :=
  run! _ := (if g_state j.2 == Working then
               run! status := on_board (task_status_for_codex_session_in_board U (board_of p) session) in
               if is_null status then
                 run! _ := repair_working_git_task_link E (root_of p) j in wret tt
               else wret tt
             else wret tt) in
  wret (Some session).

Definition resumable_control (p : project) (now : Z) (kc : control) : wio (option text) :=
  let session := of_utf8 kc.1.2 in
  if sc_state kc.2 =! ResumeRequested then wret None
  else
  run! can_wait := queued_resume_can_wait p kc in
  if can_wait then wret None
  else
  run! retired := Completed.retire_completed_resume_request E p.1 session now in
  if retired then wret None
  else
  run! journal := query (snapshot p.1 kc.1.2) in
  match journal with
  | Some j =>
      if g_state j.2 == Completed then resume_completed p session
      else if negb (Finalization.is_terminal (g_state j.2)) then resume_unfinished p session j
      else clear_orphaned_resume p session now
  | None => clear_orphaned_resume p session now
  end.

Definition resumable_codex_session_for_project (p : project) (now : Z) : wio (option text) :=
  run! controls := query_res (session_controls_for_project p.1) in
  first_some (resumable_control p now) controls.

(** ** What is on a board *)

Definition scanned_task (sn : Coordination.Snapshot) (task : TaskEntry) : ScannedTask :=
  mkScanned (task_content_is_manual (content task)) (task_entry_is_blocked task) (task_entry_is_stopped task)
    (Coordination.ready (evidence_json E) (uuid_v5 E) sn task).

Definition scan_board (root : path) : wio AgentProjectScan :=
  run! todo := on_board (read_task_entries U (get_tasks_dir root) Todo) in
  run! doing := on_board (read_task_entries U (get_tasks_dir root) Doing) in
  run! sn := admission U (from_json E) (uuid_parses E) (pending_migration_version E) (registry_exists E)
               (git_status E) (get_tasks_dir root) in
  wret (scan_entries (scanned_task sn <$> todo) (scanned_task sn <$> doing)).

Definition scan_existing_board (root : path) : wio AgentProjectScan :=
  run! exists_ := on_board (ensure_existing_board root) in
  if exists_ then scan_board root else wret (Scan.of_status ScanUninitialized).

(** A failure is part of the result. *)
Definition scan_agent_project (p : project) : wio AgentProjectScan :=
  let root := root_of p in
  run! found := on_board (look (get root)) in
  match found with
  | None => wret (Scan.of_status ScanMissing)
  | Some (File _ _) =>
      wret (Scan.of_status (ScanUnavailable ("Project path is not a directory: " +:+ p_path p.2)))
  | Some (Dir _) =>
      run! result := wtry (scan_existing_board root) in
      wret (match result with
            | Ok scan => scan
            | Err e => Scan.of_status (ScanUnavailable (sx_error_text X e))
            end)
  end.

Definition blocked_tasks (root : path) : io (list (TaskStatus * TaskEntry)) :=
  concat_io (fun status =>
    do! entries := read_task_entries U (get_tasks_dir root) status in
    ret (pair status <$> List.filter (fun task => task_entry_is_blocked task && negb (task_entry_is_stopped task)
                                                  && negb (task_content_is_manual (content task))) entries))
    [Todo; Doing].

Definition blocked_task_snapshots (root : path) : io (list BlockedTaskSnapshot) :=
  do! tasks := blocked_tasks root in
  ret ((fun t => mkBlocked t.1 (trim_end (content t.2))) <$> tasks).

Definition completed_task_contents (root : path) : io (list text) :=
  do! entries := read_task_entries U (get_tasks_dir root) Done in ret (content <$> entries).

Definition or_empty {A} (c : io (list A)) : wio (list A) :=
  run! r := wtry (on_board c) in wret (match r with Ok l => l | Err _ => [] end).

(** ** Acquiring a job *)

Inductive AgentJobAcquisitionResult :=
| Acquired (job : AgentRunJob) (acquired_at expires_at : string)
| ActiveLease (lease : option lease_row)
| SessionSuspended.

(** What a lease is released for when the work it was taken for does not start. *)
Definition release_unstarted (jobs : list (Z * string)) : wio unit :=
  wfor_each (fun job => run! _ := wtry (on_registry (release_lease job.1 job.2)) in wret tt) jobs.

Definition guarded {A} (jobs : list (Z * string)) (c : wio A) : wio A :=
  run! result := wtry c in
  match result with
  | Ok a => wret a
  | Err e => run! _ := release_unstarted jobs in refuse e
  end.

Section Acquire.
Context (p : project) (scan : AgentProjectScan) (holder : string) (lease_timeout : Z).
Context (reclaim_current_process_leases : bool) (max_global_jobs : nat).
Context (selection : AgentTaskSelection) (resume : option string).

Definition gate_still_selects (g : Gate) : bool :=
  match g with
  | Supervisor.Review => selection == Scheduling.SupervisorReview
  | RetryGate session => (selection == Scheduling.SupervisorRetry) && (resume == Some (utf8 session))
  | _ => false
  end.

Definition is_supervised : bool :=
  match selection with Scheduling.SupervisorReview | Scheduling.SupervisorRetry => true | _ => false end.

(** The selected conversation is rechecked under the board's lock. *)
Definition resume_is_taken : wio bool :=
  match resume with
  | None => wret false
  | Some session =>
      run! manual := on_board (board_has_manual_session U (board_of p) (of_utf8 session)) in
      if manual then wret true else coordination_waits (root_of p) (of_utf8 session)
  end.

Definition nothing_ready : wio bool :=
  if selection == NextTodo then run! ready := ready_work (root_of p) in wret (length ready =? 0)
  else wret false.

Definition supervision_changed : wio bool :=
  if is_supervised then
    run! blocked := on_board (blocked_tasks (root_of p)) in
    run! g := gate E p (negb (length blocked =? 0)) in
    wret (negb (gate_still_selects g))
  else wret false.

(** Questions are asked until one says that the job must not start. *)
Definition must_not_start : wio bool :=
  run! taken := resume_is_taken in
  if taken then wret true
  else run! none := nothing_ready in
       if none then wret true else supervision_changed.

Definition try_lease : wio (bool * string * string) :=
  run! acquired_at := agent_timestamp E in
  run! expires_at := agent_timestamp_after E lease_timeout in
  run! acquired := on_registry (try_acquire_lease p.1 holder acquired_at expires_at) in
  wret (acquired, acquired_at, expires_at).

(** The lease, or the lease of an owner that is gone. *)
Definition take_lease : wio (bool * string * string) :=
  run! first := try_lease in
  if first.1.1 then wret first
  else
  run! lease := query (agent_lease_for_project p.1) in
  run! reclaimed := (match lease with
                     | Some l => try_reclaim_inactive_agent_lease E p.1 l reclaim_current_process_leases
                     | None => wret false
                     end) in
  if reclaimed then try_lease else wret first.

Definition controls_suspend : wio bool :=
  match resume with
  | Some _ => wret false
  | None =>
      run! controls := query_res (session_controls_for_project p.1) in
      if selection == Scheduling.SupervisorReview
      then wret (existsb (fun kc => negb (control_allows_review kc.2)) controls)
      else controls_suspend_ready_work p controls
  end.

Definition job_for (done : list text) (blocked : list BlockedTaskSnapshot) : AgentRunJob :=
  mkJob p holder None (Z.of_nat max_global_jobs) selection resume (Scan.blocked_task_count scan) done blocked.

Definition acquire_agent_job_stage : wio AgentJobAcquisitionResult :=
  run! stop := must_not_start in
  if stop then wret SessionSuspended
  else
  run! (acquired, acquired_at, expires_at) := take_lease in
  if negb acquired then
    run! lease := query (agent_lease_for_project p.1) in wret (ActiveLease lease)
  else
  run! suspended := guarded [(p.1, holder)] controls_suspend in
  if suspended then
    run! _ := on_registry (release_lease p.1 holder) in wret SessionSuspended
  else
  run! done := or_empty (completed_task_contents (root_of p)) in
  run! blocked := or_empty (blocked_task_snapshots (root_of p)) in
  wret (Acquired (job_for done blocked) acquired_at expires_at).
End Acquire.

(** ** The work a project has *)

(** Nothing, a lease that keeps the finalizer out, or a job to acquire. *)
Inductive Visit :=
| Skipped
| LeaseHeld
| Work (p : project) (scan : AgentProjectScan) (selection : AgentTaskSelection) (resume : option string)
    (supervised : bool).

Definition gate_visit (p : project) (scan : AgentProjectScan) : wio (option Visit) :=
  run! g := gate E p (Scan.has_blocked_task scan) in
  wret (match g with
        | Normal => None
        | Hold _ => Some Skipped
        | Supervisor.Review => Some (Work p scan Scheduling.SupervisorReview None true)
        | RetryGate session => Some (Work p scan Scheduling.SupervisorRetry (Some (utf8 session)) true)
        end).

Definition or_else (a : wio (option Visit)) (b : wio Visit) : wio Visit :=
  run! found := a in match found with Some v => wret v | None => b end.

Definition reload (p : project) (message : string) : wio project :=
  run! found := query (project_with_id p.1) in need found (Bail message).

(** A recovery that did something, or failed, ends the visit. *)
Definition recovery_ended (c : wio (option text)) : wio bool :=
  run! r := wtry c in wret (match r with Ok None => false | _ => true end).

Definition pending_of (p : project) : wio (list journal_snapshot) :=
  query (list_pending_git_finalizations (Some p.1)).

(** *** Finalizing what is pending *)

Section Finalize.
Context (p : project) (now failure_backoff : Z).
Local Notation pid := (p.1).

(** A dead owner's token is replaced before the finalizer asks for its lease. *)
Definition prepare_pending (pending : list journal_snapshot) : wio unit :=
  run! _ := wfor_each (fun j =>
    run! at_ := agent_timestamp E in
    run! _ := on_registry (ensure_pending_git_finalization_resume_requested pid j.1.2 at_) in wret tt)
    (List.filter (fun j => (g_state j.2 =! PushPending)
                           && negb ((g_state j.2 == Working) && is_null (g_task_identity j.2))) pending) in
  wfor_each (fun j =>
    run! _ := on_registry (clear_autonomous_push_resume_request pid j.1.2) in wret tt)
    (List.filter (fun j => g_state j.2 == PushPending) pending).

Definition changed_branch (j : journal_snapshot) : wio (option (journal_snapshot * refusal)) :=
  run! r := wtry (verify_agent_git_resume_branch E (root_of p) j.2) in
  wret (match r with Ok _ => None | Err e => Some (j, e) end).

Definition already_reported (j : journal_snapshot) (summary : string) (d : db) : bool :=
  match latest_run_for_project pid d with
  | Some r => (r_status (run_of r).2 == "failure") && (r_codex_session_id (run_of r).2 == Some j.1.2)
              && (r_summary (run_of r).2 == Some summary)
  | None => false
  end.

Definition report_branch_change (lease : AgentGitFinalizationLease) (j : journal_snapshot) (e : refusal)
    : wio unit :=
  let summary := sx_error_text X e in
  run! _ := ensure_owned E lease in
  run! reported := query (already_reported j summary) in
  if reported then wret tt
  else
  run! at_ := agent_timestamp E in
  run! _ := on_registry (record_run_outcome (mkOutcome pid "failure" at_ (Some at_) None None None None
                           (Some summary) (Some j.1.2))) in
  wret tt.

Definition NO_PROGRESS : string :=
  "CLT's bounded publication attempt made no remotely provable progress; the exact frozen publication remains pending".

Definition attempt_finalization (lease : AgentGitFinalizationLease) : wio (list journal_snapshot) :=
  run! result := wtry (reconcile_pending_agent_git_finalizations E (sx_repair X) (root_of p) (Some lease)
                         (sx_error_text X) pid) in
  match result with
  | Ok finalizations =>
      if existsb (fun j => g_state j.2 == PushPending) finalizations then
        run! _ := record_agent_git_push_retry_error_message E pid NO_PROGRESS lease in
        pending_of p
      else wret finalizations
  | Err e =>
      run! _ := ensure_owned E lease in
      run! _ := record_agent_git_push_retry_error_message E pid (sx_error_text X e) lease in
      pending_of p
  end.

Definition relink (lease : AgentGitFinalizationLease) (j : journal_snapshot) : wio unit :=
  run! _ := ensure_owned E lease in
  run! _ := repair_working_git_task_link E (root_of p) j in
  ensure_owned E lease.

(** The journals, and the conversation whose branch is not checked out. *)
Definition reconcile_under_lease (lease : AgentGitFinalizationLease)
    : wio (list journal_snapshot * option string) :=
  run! current := pending_of p in
  run! changed := first_some changed_branch (List.filter (fun j => g_state j.2 =! PushPending) current) in
  match changed with
  | Some (j, e) => run! _ := report_branch_change lease j e in wret (current, Some j.1.2)
  | None =>
      if negb (is_null (agent_git_push_retry_backoff_remaining current now failure_backoff))
      then wret (current, None)
      else
      run! reconciled := attempt_finalization lease in
      run! _ := wfor_each (relink lease) (List.filter (fun j => g_state j.2 == Working) reconciled) in
      wret (reconciled, None)
  end.

(** [None]: somebody else holds the lease. The lease is given back however it
    ends. *)
Definition finalize_pending (reclaim_current_process_leases : bool) (pending : list journal_snapshot)
    : wio (option (list journal_snapshot * option string)) :=
  run! _ := prepare_pending pending in
  match pending with
  | [] => wret (Some ([], None))
  | _ =>
      run! n := (fun w => (Ok (git_runs w), w)) in
      run! acquired := try_acquire_agent_git_finalization_lease E pid (sx_new_holder X n) (sx_heartbeat X n)
                         reclaim_current_process_leases in
      match acquired with
      | None => wret None
      | Some lease =>
          run! result := wtry (reconcile_under_lease lease) in
          run! released := wtry (release_finalization_lease E lease) in
          run! reconciled := from_result result in
          run! _ := from_result released in
          wret (Some reconciled)
      end
  end.
End Finalize.

(** *** Scheduling *)

Section Schedule.
Context (p : project) (scan : AgentProjectScan) (lease : option lease_row).
Context (now success_cooldown failure_backoff : Z) (reclaim_current_process_leases : bool).
Context (abandoned_project_ids : list Z).

Definition recovery_backoff_active : bool :=
  Scan.has_blocked_task scan && negb (is_null (blocked_recovery_backoff_reason p.2 now failure_backoff)).

(** A working task that may go on. *)
Definition working_may_resume (j : journal_snapshot) : wio (option journal_snapshot) :=
  run! found := on_board (terminal_task_for_codex_session_in_board U (board_of p) (of_utf8 j.1.2)) in
  match found with
  | None => wret None
  | Some (status, task) =>
      run! waits := (if (status == Todo) && task_entry_is_blocked task then queued_blockers_can_wait E p
                     else wret false) in
      let eligible := Status.is_active status && negb waits && negb (task_entry_is_stopped task)
                      && (negb (task_entry_is_blocked task) || negb recovery_backoff_active) in
      wret (if eligible then Some j else None)
  end.

Definition git_session_to_resume (finalizations : list journal_snapshot) : wio (option journal_snapshot) :=
  run! working := first_some working_may_resume
                    (List.filter (fun j => g_state j.2 == Working) finalizations) in
  wret (match List.find (fun j => Finalization.is_finalizing (g_state j.2)) finalizations with
        | Some j => Some j
        | None => working
        end).

(** [None]: the conversation of the journal is suspended. *)
Definition session_to_resume (finalizations : list journal_snapshot) : wio (option (option string)) :=
  run! git_session := git_session_to_resume finalizations in
  match git_session with
  | Some j =>
      run! at_ := agent_timestamp E in
      run! ready := on_registry (ensure_pending_git_finalization_resume_requested p.1 j.1.2 at_) in
      wret (if ready then Some (Some j.1.2) else None)
  | None =>
      run! session := resumable_codex_session_for_project p now in
      wret (Some (utf8 <$> session))
  end.

Definition lease_is_reclaimable : bool :=
  match lease with
  | Some l => reclaimable reclaim_current_process_leases now l
  | None => false
  end.

Definition resumes_interrupted (interrupted : option text) : wio bool :=
  run! has_task := (if (0 <? doing_count scan)%Z then project_has_resumable_doing_task p else wret false) in
  wret (negb (is_null interrupted)
        || (has_task && (existsb (Z.eqb p.1) abandoned_project_ids || lease_is_reclaimable))).

Definition waiting_blockers : wio bool :=
  if Scan.has_blocked_task scan then
    run! wait := queued_blockers_can_wait E p in wret (negb wait)
  else wret false.

(** What runs next for a project nothing is suspended in. *)
Definition select_work (rolled_forward : bool) (resume : option string) : wio Visit :=
  run! interrupted := (if is_null resume then interrupted_codex_session_in_doing p else wret None) in
  run! resume_interrupted := resumes_interrupted interrupted in
  run! has_blocked := waiting_blockers in
  let selection := decide_agent_scheduling_stage
    (mkDecisionRequest (negb (is_null resume)) resume_interrupted has_blocked recovery_backoff_active
       (Scan.has_pending_task scan)) in
  match selection with
  | None => wret Skipped
  | Some selection =>
      if negb rolled_forward
         && negb (is_null (agent_task_cooldown_reason p.2 selection now success_cooldown failure_backoff))
      then wret Skipped
      else wret (Work p scan selection (coalesce resume (utf8 <$> interrupted)) false)
  end.

Definition schedule (rolled_forward : bool) (finalizations : list journal_snapshot) : wio Visit :=
  run! found := session_to_resume finalizations in
  match found with
  | None => wret Skipped
  | Some resume =>
      run! suspended := (match resume with
                         | Some _ => wret false
                         | None => run! controls := query_res (session_controls_for_project p.1) in
                                   controls_suspend_ready_work p controls
                         end) in
      if suspended then wret Skipped else select_work rolled_forward resume
  end.
End Schedule.

Section Visit.
Context (now success_cooldown failure_backoff : Z) (reclaim_current_process_leases : bool).
Context (abandoned_project_ids : list Z).

Definition acknowledge_completed (pid : Z) (completed : list journal_snapshot) : wio unit :=
  wfor_each (fun j =>
    run! at_ := agent_timestamp E in
    run! _ := on_registry (acknowledge_completed_git_finalization_session pid j.1.2 at_) in wret tt) completed.

(** Commits that are proven roll forward before anything else is decided. *)
Definition after_finalization (p : project) (scan : AgentProjectScan) (lease : option lease_row)
    (finalizations : list journal_snapshot) : wio Visit :=
  let completed := List.filter (fun j => g_state j.2 == Completed) finalizations in
  let rolled_forward := negb (length completed =? 0) in
  run! _ := acknowledge_completed p.1 completed in
  run! p := (if rolled_forward then reload p "Acknowledged Git finalization project disappeared" else wret p) in
  match List.find (fun j => g_state j.2 == PushPending) finalizations with
  | Some j =>
      run! _ := on_registry (clear_autonomous_push_resume_request p.1 j.1.2) in wret Skipped
  | None =>
      or_else (if rolled_forward || existsb (fun j => Finalization.is_finalizing (g_state j.2)) finalizations
               then gate_visit p scan else wret None)
        (schedule p scan lease now success_cooldown failure_backoff reclaim_current_process_leases
           abandoned_project_ids rolled_forward finalizations)
  end.

Definition finalize_then_schedule (p : project) (scan : AgentProjectScan) (lease : option lease_row)
    : wio Visit :=
  run! pending := pending_of p in
  run! found := finalize_pending p now failure_backoff reclaim_current_process_leases pending in
  match found with
  | None => wret LeaseHeld
  | Some (_, Some session) =>
      run! _ := recovery_ended (recover_changed_branch_automatically E (sx_read_small_log X)
                  (sx_automated_child X) (sx_new_holder X) (sx_today X) p (of_utf8 session)) in
      wret Skipped
  | Some (finalizations, None) =>
      run! lease := (match pending with
                     | [] => wret lease
                     | _ => query (agent_lease_for_project p.1)
                     end) in
      after_finalization p scan lease finalizations
  end.

(** A blocked outcome is reviewed before ordinary recovery, unless a commit of the
    project is sealed. *)
Definition supervise_then_finalize (p : project) (scan : AgentProjectScan) (lease : option lease_row)
    : wio Visit :=
  run! pending := pending_of p in
  or_else (if forallb (fun j => g_state j.2 == Working) pending then gate_visit p scan else wret None)
    (finalize_then_schedule p scan lease).

Definition retire_obsolete (p : project) : wio project :=
  run! abandoned := retire_abandoned_unbound_git_journals E p in
  run! superseded := retire_superseded_working_git_journals E p in
  if 0 <? abandoned + superseded
  then reload p "Project disappeared after retiring its obsolete attempt" else wret p.

Definition visit_board (p : project) : wio Visit :=
  run! lease := query (agent_lease_for_project p.1) in
  run! _ := reconcile_stale_agent_session_controls lease reclaim_current_process_leases now p.1 in
  run! lease := query (agent_lease_for_project p.1) in
  run! scan := scan_agent_project p in
  run! p := retire_obsolete p in
  run! ended := recovery_ended (recover_writer_conflict_automatically E (sx_read_small_log X)
                  (sx_automated_child X) (sx_new_holder X) (sx_today X) p) in
  if ended then wret Skipped
  else
  run! ended := recovery_ended (recover_failed_activation_automatically E (sx_read_small_log X)
                  (sx_automated_child X) (sx_new_holder X) (sx_today X) p) in
  if ended then wret Skipped else supervise_then_finalize p scan lease.

Definition board_is_available (s : AgentProjectScan) : bool :=
  match scan_status s with
  | ScanMissing | ScanUninitialized | ScanUnavailable _ => false
  | _ => true
  end.

Definition scan_error (s : AgentProjectScan) : option string :=
  match scan_status s with ScanUnavailable e => Some e | _ => None end.

Definition visit_enabled (p : project) : wio Visit :=
  run! scan := scan_agent_project p in
  run! at_ := agent_timestamp E in
  run! _ := on_registry (record_project_daemon_scan p.1 (Scan.status_label scan) (scan_error scan) at_) in
  if board_is_available scan then visit_board p else wret Skipped.

Definition visit_disabled (p : project) : wio unit :=
  run! lease := query (agent_lease_for_project p.1) in
  run! _ := reconcile_stale_agent_session_controls lease reclaim_current_process_leases now p.1 in
  match lease with
  | Some l => run! _ := try_reclaim_inactive_agent_lease E p.1 l reclaim_current_process_leases in wret tt
  | None => wret tt
  end.
End Visit.

(** ** The pass *)

Record AgentSchedulerPass := mkPass {
  scanned_projects : nat; pending_projects : nat; active_agent_jobs : nat; skipped_active_lease : nat;
  deferred_projects : nat; runs_started : nat; runs_recorded : nat
}.
#[export] Instance pass_eta : Eta AgentSchedulerPass := fun r =>
  mkPass (scanned_projects r) (pending_projects r) (active_agent_jobs r) (skipped_active_lease r)
    (deferred_projects r) (runs_started r) (runs_recorded r).

(** The counters and the jobs, whose leases are held until they are dispatched. *)
Record AgentSchedulerStart := mkStart { st_pass : AgentSchedulerPass; st_jobs : list AgentRunJob }.

Record AgentDaemonCheckinSource := mkCheckinSource { ci_holder : string; ci_mode : string; ci_started_at : string }.

Definition record_agent_daemon_checkin (c : AgentDaemonCheckinSource) : wio unit :=
  run! checked_in_at := agent_timestamp E in
  run! expires_at := agent_timestamp_after E AGENT_DAEMON_CHECKIN_STALE_SECONDS in
  on_registry (record_daemon_checkin (ci_holder c) (ci_mode c) (ci_started_at c) checked_in_at expires_at).

Definition agent_lease_holder : string := "clt-agent-" +:+ dec (own_pid E).

Definition lease_of_job (job : AgentRunJob) : Z * string := ((j_project job).1, j_holder job).

Section Pass.
Context (holder : string) (lease_timeout success_cooldown failure_backoff now : Z).
Context (reclaim_current_process_leases : bool) (max_global_jobs : nat).
Context (durable_project_ids abandoned_project_ids : list Z).

Definition at_capacity (s : AgentSchedulerStart) : bool :=
  max_global_jobs <=? active_agent_jobs (st_pass s) + length (st_jobs s).

Definition count (f : AgentSchedulerPass -> AgentSchedulerPass) (s : AgentSchedulerStart) : AgentSchedulerStart :=
  mkStart (f (st_pass s)) (st_jobs s).

Definition start_job (job : AgentRunJob) (s : AgentSchedulerStart) : AgentSchedulerStart :=
  mkStart ((st_pass s) <| runs_started := S (runs_started (st_pass s)) |>) (st_jobs s ++ [job]).

(** Work beyond the global limit waits for the next pass. *)
Definition book (v : Visit) (s : AgentSchedulerStart) : wio AgentSchedulerStart :=
  match v with
  | Skipped => wret s
  | LeaseHeld => wret (count (fun c => c <| skipped_active_lease := S (skipped_active_lease c) |>) s)
  | Work p scan selection resume supervised =>
      let s := count (fun c => c <| pending_projects := S (pending_projects c) |>) s in
      if at_capacity s
      then wret (count (fun c => c <| deferred_projects := S (deferred_projects c) |>) s)
      else
      run! acquisition := acquire_agent_job_stage p scan holder lease_timeout reclaim_current_process_leases
                            max_global_jobs selection resume in
      wret (match acquisition with
            | Acquired job _ _ => start_job job s
            | ActiveLease _ =>
                if supervised then s
                else count (fun c => c <| skipped_active_lease := S (skipped_active_lease c) |>) s
            | SessionSuspended => s
            end)
  end.

Definition count_scanned (s : AgentSchedulerStart) : AgentSchedulerStart :=
  count (fun c => c <| scanned_projects := S (scanned_projects c) |>) s.

Definition visit_project (p : project) (s : AgentSchedulerStart) : wio AgentSchedulerStart :=
  if existsb (Z.eqb p.1) durable_project_ids then wret (if p_enabled p.2 then count_scanned s else s)
  else if negb (p_enabled p.2) then
    run! _ := visit_disabled now reclaim_current_process_leases p in wret s
  else
    run! v := visit_enabled now success_cooldown failure_backoff reclaim_current_process_leases
                abandoned_project_ids p in
    book v (count_scanned s).

(** A failure gives back the leases of the jobs found so far. *)
Fixpoint visit_projects (ps : list project) (s : AgentSchedulerStart) : wio AgentSchedulerStart :=
  match ps with
  | [] => wret s
  | p :: rest =>
      run! s := guarded (lease_of_job <$> st_jobs s) (visit_project p s) in
      visit_projects rest s
  end.
End Pass.

(** [JOIN projects ... WHERE expires_at > ? ORDER BY expires_at, name]. *)
Definition lease_before (a b : (Z * lease_row) * string) : bool :=
  let ea := cast_integer (l_expires_at a.1.2) in
  let eb := cast_integer (l_expires_at b.1.2) in
  (ea <? eb)%Z || ((ea =? eb)%Z && text_leb (string_lower a.2) (string_lower b.2)).

Definition list_active_leases (now : string) (d : db) : list (Z * lease_row) :=
  fst <$> sort_by lease_before
    (omap (fun kl => (fun p => (kl, p_name p)) <$> projects d !! kl.1)
       (filter (fun kl => cast_integer now < cast_integer (l_expires_at kl.2))%Z (map_to_list (leases d)))).

Definition busy_projects (reclaim_current_process_leases : bool) (now : Z) (occupied : list Z) : wio (list Z) :=
  run! at_ := agent_timestamp E in
  run! active := query (list_active_leases at_) in
  wret (occupied ++ (fst <$> List.filter (fun l => negb (reclaimable reclaim_current_process_leases now l.2)) active)).

Definition acknowledge_idle_projects (busy : list Z) : wio unit :=
  run! completed := query (list_unacknowledged_completed_git_finalizations None) in
  wfor_each (fun j =>
    run! at_ := agent_timestamp E in
    run! _ := on_registry (acknowledge_completed_git_finalization_session j.1.1 j.1.2 at_) in wret tt)
    (List.filter (fun j => negb (existsb (Z.eqb j.1.1) busy)) completed).

Definition abandoned_projects : wio (list Z) :=
  run! workers := query_res (list_workers_by_terminal_state true) in
  wret ((fun w => w_project_id w.1.1.2)
        <$> List.filter (fun w => w_state w.1.1.2 == Abandoned) workers).

(** The projects of the workers that run, then what happens before any project is
    visited. *)
Definition before_the_visits (reclaim_current_process_leases : bool) (now : Z) (active_project_ids : list Z)
    : wio (list Z * list Z) :=
  run! workers := reconcile_independent_agent_workers E (sx_registered X) (sx_launch X)
                    (sx_remove_worker_dir X) in
  let occupied := ((fun w => w_project_id w.2) <$> workers) ++ active_project_ids in
  run! busy := busy_projects reclaim_current_process_leases now occupied in
  run! _ := acknowledge_idle_projects busy in
  run! abandoned := abandoned_projects in
  wret (remove_dups occupied, abandoned).

Definition run_agent_scheduler_pass_with_max_global_jobs (reclaim_current_process_leases : bool)
    (active_project_ids : list Z) (max_global_jobs : nat) (checkin : option AgentDaemonCheckinSource)
    : wio AgentSchedulerStart :=
  run! _ := ensure (negb (max_global_jobs =? 0)) (Bail "CLT_AGENT_MAX_GLOBAL_JOBS must be greater than zero") in
  run! _ := (match checkin with Some c => record_agent_daemon_checkin c | None => wret tt end) in
  run! now := agent_timestamp_seconds E in
  run! (durable, abandoned) := before_the_visits reclaim_current_process_leases now active_project_ids in
  let holder := match checkin with Some c => ci_holder c | None => agent_lease_holder end in
  run! lease_timeout := from_result (sx_lease_timeout X) in
  run! success_cooldown := from_result (sx_success_cooldown X) in
  run! failure_backoff := from_result (sx_failure_backoff X) in
  run! projects := query list_projects in
  visit_projects holder lease_timeout success_cooldown failure_backoff now reclaim_current_process_leases
    max_global_jobs durable abandoned projects
    (mkStart (mkPass 0 0 (length durable) 0 0 0 0) []).
End Scheduler.
