(* ===== verification/Job.v ===== *)
(** A job of a worker (src/worker.rs): the run of an agent on a project, what is made
    of its result, and what the registry and the board record of it. *)
From S2P Require Import Prelude Sql AgentTypes Leases Workers Runs Sessions Handoff Journals.
From S2P Require Import Retire Holders Projects.
From S2P Require Import Text Models Markers TaskNotes Metadata TaskEntry Files Board BoardTree.
From S2P Require Import World Surroundings Git Scheduling SnapshotLoad Guards Workflow.
From S2P Require Import GitRetire GitPublish GitRepair GitFinalize Supervisor Completed Reattach.
From S2P Require Import Dispatch Scheduler Store.

(** ** The runner

    [AgentRunner] (src/runner.rs) is a trait; a job only knows what it returns. *)

Record AgentRunRequest := mkRunRequest {
  rq_project : Z * project_row; rq_task_selection : AgentTaskSelection;
  rq_resume_session_id : option string; rq_lease_holder : string; rq_run_token : option string
}.

Record AgentRunResult := mkRunResult {
  rr_status : string; rr_exit_code : option Z; rr_log_dir : string; rr_stdout_path : string;
  rr_stderr_path : string; rr_summary : string; rr_codex_session_id : option string;
  rr_session_run_token : option string; rr_control_action : option AgentSessionControlAction
}.
#[export] Instance AgentRunResult_eta : Eta AgentRunResult := fun r =>
  mkRunResult (rr_status r) (rr_exit_code r) (rr_log_dir r) (rr_stdout_path r) (rr_stderr_path r)
    (rr_summary r) (rr_codex_session_id r) (rr_session_run_token r) (rr_control_action r).

Class AgentRunner := run_project : AgentRunRequest -> wio AgentRunResult.

Record AgentRunCompletion := mkCompletion {
  cp_run_id : Z; cp_project_name : string; cp_project_path : string; cp_status : string;
  cp_summary : string; cp_stdout_path : option string; cp_stderr_path : option string
}.

(** What a job is about to record of its run; the two flags say that the run's
    journal is left to its conversation, or to another publication. *)
Record JobOutcome := mkJobOutcome {
  jo_status : string; jo_exit_code : option Z; jo_log_dir : option string;
  jo_stdout_path : option string; jo_stderr_path : option string; jo_summary : string;
  jo_codex_session_id : option string; jo_session_run_token : option string;
  jo_control_action : option AgentSessionControlAction;
  jo_git_finalization_pending : bool; jo_autonomous_git_push_pending : bool
}.
#[export] Instance JobOutcome_eta : Eta JobOutcome := fun o =>
  mkJobOutcome (jo_status o) (jo_exit_code o) (jo_log_dir o) (jo_stdout_path o) (jo_stderr_path o)
    (jo_summary o) (jo_codex_session_id o) (jo_session_run_token o) (jo_control_action o)
    (jo_git_finalization_pending o) (jo_autonomous_git_push_pending o).

Inductive AgentSessionLinkResult :=
| AlreadyLinked | ExactResumePreserved | Attached | NoEligibleTask.

(** What else a job asks of its surroundings. *)
Record JobSurroundings := mkJobSurroundings {
  jx_scheduler : SchedulerSurroundings;
  (** The file a reviewer left in the directory of its run. *)
  jx_review_answer : AgentRunResult -> option text;
  jx_decision_from_json : text -> option Decision;
  (** [next_agent_worker_token], the program's path, its arguments, the search path and Codex. *)
  jx_new_worker_token : nat -> Z -> string;
  jx_binary_path : string;
  jx_command_arguments : string;
  jx_path_env : string;
  jx_codex_path : option string;
  jx_max_global_jobs : res refusal nat
}.

Definition AGENT_INLINE_WORKER_SERVICE_LABEL_PREFIX : string := "clt-inline-worker-".

(** ** Tasks that appeared during a run *)

Section Appeared.
Context {A K : Type} `{Countable K} (key : A -> K).

Definition count_keys (before : list K) : gmap K nat :=
  foldl (fun m k => <[k := S (default 0 (m !! k))]> m) ∅ before.

(** The elements that are left when each counted key stands for one of them. *)
Fixpoint unmatched (remaining : gmap K nat) (l : list A) : list A :=
  match l with
  | [] => []
  | a :: l' =>
      match remaining !! key a with
      | None | Some O => a :: unmatched remaining l'
      | Some (S n) => unmatched (<[key a := n]> remaining) l'
      end
  end.
End Appeared.

(** The elements of a list with their positions that leave [before] when removed. *)
Definition insertion_points (contents_before contents_after : list text) : list nat :=
  List.filter (fun skipped => delete skipped contents_after == contents_before)
    (seq 0 (length contents_after)).

Definition newly_added_task_entry (contents_before : list text) (entries_after : list TaskEntry)
    : option TaskEntry :=
  if length entries_after <=? length contents_before then None
  else
  let candidates := if length entries_after =? S (length contents_before)
                    then insertion_points contents_before (content <$> entries_after) else [] in
  match candidates with
  | [index] => entries_after !! index
  | _ :: _ :: _ => None
  | [] =>
      match unmatched content (count_keys contents_before) entries_after with
      | [entry] => Some entry
      | _ => None
      end
  end.

#[export] Instance TaskStatus_countable : Countable TaskStatus.
Proof.
  refine (inj_countable' (fun s => (s == Todo, s == Doing, s == Done))
    (fun '(todo, doing, done_) =>
       if todo then Todo else if doing then Doing else if done_ then Done else Backlog) _).
  by intros [].
Defined.

Definition snapshot_of (t : TaskStatus * TaskEntry) : TaskStatus * text :=
  (t.1, trim_end (content t.2)).
Definition snapshot_key (s : BlockedTaskSnapshot) : TaskStatus * text := (bs_status s, bs_content s).

Definition changed_blocked_task (snapshots_before : list BlockedTaskSnapshot)
    (allow_unchanged_single_task : bool) (tasks_after : list (TaskStatus * TaskEntry))
    : option (TaskStatus * TaskEntry) :=
  match unmatched snapshot_of (count_keys (snapshot_key <$> snapshots_before)) tasks_after with
  | [task] => Some task
  | _ =>
      match tasks_after with
      | [task] => if allow_unchanged_single_task then Some task else None
      | _ => None
      end
  end.

Section Job.
Context (E : Surroundings) (JX : JobSurroundings).
Let X := jx_scheduler JX.
Let U := unicode E.
Local Notation project := (Z * project_row)%type.
Local Notation root_of := project_root.

Definition codex_session_for_task (task : TaskEntry) : option text :=
  recoverable_codex_session_id_from_task_content (content task).

Definition without_manual (tasks : list TaskEntry) : list TaskEntry :=
  List.filter (fun task => negb (task_content_is_manual (content task))) tasks.
Definition contents_without_manual (contents : list text) : list text :=
  List.filter (fun c => negb (task_content_is_manual c)) contents.

Definition blocked_task_after_run (root : path) (snapshots_before : list BlockedTaskSnapshot)
    (allow_unchanged_single_task : bool) : io (option (TaskStatus * TaskEntry)) :=
  do! tasks_after := blocked_tasks E root in
  ret (changed_blocked_task snapshots_before allow_unchanged_single_task tasks_after).

Definition newly_completed_task (root : path) (contents_before : list text) : io (option TaskEntry) :=
  do! entries_after := read_task_entries U (get_tasks_dir root) Done in
  ret (newly_added_task_entry (contents_without_manual contents_before) (without_manual entries_after)).

Definition completes_a_blocked_task (before : list BlockedTaskSnapshot) (task : TaskEntry) : bool :=
  task_content_has_completed_note (content task)
  && match durable_task_identity (content task) with
     | Some identity => existsb (fun s => durable_task_identity (bs_content s) == Some identity) before
     | None => false
     end.

(** Completing the blocked task is progress, and so is any other way to fewer
    blocked tasks. *)
Definition blocked_recovery_made_no_progress (job : AgentRunJob) : wio bool :=
  if j_task_selection job =! RecoverBlocked then wret false
  else
  run! completed := wtry (on_board (newly_completed_task (root_of (j_project job))
                                      (j_done_task_contents_before job))) in
  let progressed := match completed with
                    | Ok (Some task) =>
                        completes_a_blocked_task (j_blocked_task_snapshots_before job) task
                    | _ => false
                    end in
  if progressed then wret false
  else
    run! scan := scan_agent_project E X (j_project job) in
    wret (j_blocked_task_count_before job <=? Scan.blocked_task_count scan)%Z.

(** ** The conversation a job continues *)

Definition only_session (tasks : list TaskEntry) : option text :=
  match tasks with [task] => codex_session_for_task task | _ => None end.

Definition automated_codex_session_to_resume (root : path) (selection : AgentTaskSelection)
    : wio (option text) :=
  let board := get_tasks_dir root in
  match selection with
  | NextTodo =>
      run! exists_ := on_board (look (fun s => exists_path (board ++ [str "todo"]) s
                                               || exists_path (board ++ [str "todo.md"]) s)) in
      if negb exists_ then wret None
      else run! ready := ready_work E root in
           wret (match ready with task :: _ => codex_session_for_task task | [] => None end)
  | ResumeDoing =>
      run! doing := on_board (read_task_entries U board Doing) in
      wret (only_session (without_manual doing))
  | RecoverBlocked =>
      run! blocked := on_board (blocked_tasks E root) in
      wret (only_session (snd <$> blocked))
  | _ => wret None
  end.

Definition session_of_job (job : AgentRunJob) : wio (option string) :=
  match j_resume_session_id job with
  | Some session => wret (Some session)
  | None =>
      run! found := automated_codex_session_to_resume (root_of (j_project job)) (j_task_selection job) in
      wret (utf8 <$> found)
  end.

(** Only the preparation of a launch may turn Git on for work without it. *)
Definition agent_git_mode_for_launch (p : project) (resume_session_id : option string)
    : wio AgentGitMode :=
  run! mode := effective_agent_git_mode (pending_migration_version E) (log_proves_git_off E) p
                 resume_session_id in
  wret (if mode == GitOff then p_git_mode p.2 else mode).

Definition agent_job_uses_git (job : AgentRunJob) : wio bool :=
  if j_task_selection job == Scheduling.SupervisorReview then wret false
  else
    run! session := session_of_job job in
    run! mode := agent_git_mode_for_launch (j_project job) session in
    wret (mode =! GitOff).

(** ** The link of a task to the conversation that works on it, during the run *)

(** A sole blocked follow-up is unambiguous even beside other work in Doing. *)
Definition sole_blocked_follow_up (blocked_task_snapshots_before : list BlockedTaskSnapshot)
    (tasks : list TaskEntry) : option TaskEntry :=
  match blocked_task_snapshots_before with
  | [snapshot] =>
      if bs_status snapshot =! Doing then None
      else
      match List.filter (fun task => (bs_content snapshot == trim_end (content task))
                                     && is_null (codex_session_for_task task)) tasks with
      | [task] => Some task
      | _ => None
      end
  | _ => None
  end.

Definition task_being_worked_on (selection : AgentTaskSelection) (doing_task_contents_before : list text)
    (blocked_task_snapshots_before : list BlockedTaskSnapshot) (tasks : list TaskEntry)
    : option TaskEntry :=
  let newly_started := newly_added_task_entry (contents_without_manual doing_task_contents_before) tasks in
  match selection with
  | NextTodo => newly_started
  | ResumeDoing => match tasks with [task] => Some task | _ => None end
  | RecoverBlocked =>
      match newly_started with
      | Some task => Some task
      | None => sole_blocked_follow_up blocked_task_snapshots_before tasks
      end
  | _ => None
  end.

Definition claimed_by_another (session_id : text) (selected_task_identity : option text)
    (task : TaskEntry) : bool :=
  match codex_session_for_task task with Some owner => owner =! session_id | None => false end
  || match selected_task_identity with
     | Some identity => durable_task_identity (content task) =! Some identity
     | None => false
     end.

Definition attach_codex_session_to_active_task (root : path) (selection : AgentTaskSelection)
    (doing_task_contents_before : list text) (blocked_task_snapshots_before : list BlockedTaskSnapshot)
    (session_id : text) (selected_task_identity : option text) : io bool :=
  if selection == Scheduling.SupervisorReview then ret true
  else
  do! status := task_status_for_codex_session_in_board U (get_tasks_dir root) session_id in
  if negb (is_null status) then ret true
  else
  do! doing := read_task_entries U (get_tasks_dir root) Doing in
  match task_being_worked_on selection doing_task_contents_before blocked_task_snapshots_before
          (without_manual doing) with
  | None => ret false
  | Some task =>
      if claimed_by_another session_id selected_task_identity task then ret false
      else
        do! _ := attach_codex_session_to_task_after_lock U root Doing task session_id in
        ret true
  end.

(** ** What a result is worth *)

Definition error_text : refusal -> string := sx_error_text X.
Definition reviews (job : AgentRunJob) : bool := j_task_selection job == Scheduling.SupervisorReview.
Definition job_board (job : AgentRunJob) : path := board_of (j_project job).
Definition job_root (job : AgentRunJob) : path := root_of (j_project job).
Definition job_pid (job : AgentRunJob) : Z := (j_project job).1.

(** The decision a review ends with; a failure of it is held for the user. *)
Definition conclude_review (job : AgentRunJob) (result : AgentRunResult) : wio AgentRunResult :=
  if negb (reviews job) then wret result
  else
  run! decision := wtry
    (if rr_status result == "success"
     then finish_review E (jx_decision_from_json JX) (sx_today X) (j_project job) (jx_review_answer JX result)
     else refuse (Bail ("Supervisor stopped without a decision: " +:+ rr_summary result))) in
  match decision with
  | Ok message => wret (result <| rr_summary := message |>)
  | Err e =>
      let summary := "Supervisor needs attention: " +:+ error_text e in
      run! _ := hold_error E (job_pid job) summary in
      wret (if is_null (rr_control_action result)
            then result <| rr_summary := summary |> <| rr_status := "failure" |>
            else result <| rr_summary := summary |>)
  end.

Definition one_of (status : string) (l : list string) : bool := bool_decide (status ∈ l).

Definition refuse_idle_recovery (job : AgentRunJob) (result : AgentRunResult) : wio AgentRunResult :=
  if negb (one_of (rr_status result) ["success"; "idle"]) then wret result
  else
  run! no_progress := blocked_recovery_made_no_progress job in
  wret (if no_progress then
          result <| rr_status := "blocked" |>
                 <| rr_summary := "Blocked-task recovery left " +:+ dec (j_blocked_task_count_before job)
                      +:+ " blocked task(s) unresolved across todo and doing; retry after the recovery backoff. Runner result: "
                      +:+ rr_summary result |>
        else result).

Definition linked_status (job : AgentRunJob) (session : option string) : wio (option TaskStatus) :=
  match session with
  | Some session => on_board (task_status_for_codex_session_in_board U (job_board job) (of_utf8 session))
  | None => wret None
  end.

Definition active_status (s : option TaskStatus) : bool :=
  match s with Some s => Status.is_active s | None => false end.

Definition scan_error (scan : AgentProjectScan) : option string :=
  match scan_status scan with ScanUnavailable error => Some error | _ => None end.

(** A report that nothing is left holds only when the board agrees. *)
Definition refuse_idle_report (job : AgentRunJob) (result : AgentRunResult) : wio AgentRunResult :=
  if rr_status result =! "idle" then wret result
  else
  run! scan := scan_agent_project E X (j_project job) in
  run! linked := linked_status job (coalesce (rr_codex_session_id result) (j_resume_session_id job)) in
  wret (if Scan.has_pending_task scan || active_status linked || negb (is_null (scan_error scan)) then
          result <| rr_status := "failure" |>
                 <| rr_summary := "Codex reported no available tasks, but the board still has "
                      +:+ dec (Scan.available_todo_count scan) +:+ " ready Todo task(s) and "
                      +:+ dec (doing_count scan) +:+ " Doing task(s) (scan: " +:+ Scan.status_label scan
                      +:+ "). No-task report was not accepted; retry after the failure backoff."
                      +:+ match scan_error scan with Some error => " " +:+ error | None => "" end |>
        else result).

(** *** The link of the run's conversation to its task *)

Definition must_be_identified (run_status : string) : bool :=
  one_of run_status ["success"; "blocked"; "stopped"; "handoff"].

(** The task the run completed, or the one it left blocked, when there is one. *)
Definition task_of_run (job : AgentRunJob) : wio (option (TaskStatus * TaskEntry)) :=
  run! completed := on_board (newly_completed_task (job_root job) (j_done_task_contents_before job)) in
  let completed := pair Done <$> completed in
  run! blocked := on_board (blocked_task_after_run (job_root job) (j_blocked_task_snapshots_before job)
                     (is_null completed && (j_task_selection job =! NextTodo))) in
  wret (match completed, blocked with
        | Some task, None | None, Some task => Some task
        | _, _ => None
        end).

Definition link_new_task (job : AgentRunJob) (session : text) (run_status : string)
    : wio AgentSessionLinkResult :=
  run! task := task_of_run job in
  match task with
  | Some (status, entry) =>
      run! _ := on_board (attach_codex_session_to_task_after_lock U (job_root job) status entry session) in
      wret Attached
  | None =>
      if must_be_identified run_status
      then refuse (Bail "Could not identify exactly one completed or blocked task for Codex session")
      else wret NoEligibleTask
  end.

Definition link_agent_session_after_run_stage (job : AgentRunJob) (session_id run_status : string)
    : wio AgentSessionLinkResult :=
  if reviews job then wret ExactResumePreserved
  else
  let session := of_utf8 session_id in
  run! terminal := on_board (terminal_task_for_codex_session_in_board U (job_board job) session) in
  if negb (is_null terminal) then wret AlreadyLinked
  else if j_task_selection job == ResumeSession then
    run! status := on_board (task_status_for_codex_session_in_board U (job_board job) session) in
    if negb (is_null status) then wret ExactResumePreserved
    else refuse (Bail "The task marker for exact Codex session disappeared before handback")
  else link_new_task job session run_status.

(** A run whose conversation cannot be linked failed. *)
Definition link_result (job : AgentRunJob) (result : AgentRunResult) : wio AgentRunResult :=
  match rr_codex_session_id result with
  | None => wret result
  | Some session =>
      run! linked := wtry (link_agent_session_after_run_stage job session (rr_status result)) in
      wret (match linked with
            | Ok _ => result
            | Err e => result <| rr_status := "failure" |>
                              <| rr_summary := rr_summary result
                                   +:+ " Failed to persist the Codex session marker on the task: "
                                   +:+ error_text e |>
            end)
  end.

Definition outcome_of_result (r : AgentRunResult) : JobOutcome :=
  mkJobOutcome (rr_status r) (rr_exit_code r) (Some (rr_log_dir r)) (Some (rr_stdout_path r))
    (Some (rr_stderr_path r)) (rr_summary r) (rr_codex_session_id r) (rr_session_run_token r)
    (rr_control_action r) false false.

Definition runner_failure (e : refusal) : string :=
  "Codex runner failed before completion: " +:+ error_text e.

Definition outcome_of_failure (job : AgentRunJob) (e : refusal) : JobOutcome :=
  mkJobOutcome "failure" None None None None (runner_failure e) (j_resume_session_id job) None None
    false false.

Definition outcome_of_run (job : AgentRunJob) (run : res refusal AgentRunResult) : wio JobOutcome :=
  match run with
  | Ok result =>
      run! result := conclude_review job result in
      run! result := refuse_idle_recovery job result in
      run! result := refuse_idle_report job result in
      run! result := link_result job result in
      wret (outcome_of_result result)
  | Err e => wret (outcome_of_failure job e)
  end.

(** ** The run's journal *)

Definition failed (o : JobOutcome) (summary : string) : JobOutcome :=
  o <| jo_status := "failure" |> <| jo_summary := summary |>.
Definition left_pending (o : JobOutcome) : JobOutcome := o <| jo_git_finalization_pending := true |>.
Definition left_to_push (o : JobOutcome) : JobOutcome := o <| jo_autonomous_git_push_pending := true |>.
Definition blocked_with (o : JobOutcome) (summary : string) : JobOutcome :=
  o <| jo_status := "blocked" |> <| jo_summary := summary |>.

Definition reconcile_session_journal (job : AgentRunJob) (o : JobOutcome) (session : string)
    : wio (option (GitFinalizationState * journal_snapshot)) :=
  run! found := query (snapshot (job_pid job) session) in
  match found with
  | None => wret None
  | Some journal =>
      run! reconciled := reconcile_agent_git_finalization E (sx_repair X) (job_root job) None journal
                           (jo_session_run_token o) in
      wret (Some (g_state journal.2, reconciled))
  end.

(** A completed journal speaks for this run when it was not completed before it. *)
Definition completed_by_run (before : option journal_snapshot) (proof_recovery : bool)
    (run_token : option string) (initial : GitFinalizationState) (j : journal_snapshot) : bool :=
  negb (Finalization.is_terminal initial)
  || match before with
     | Some b => negb (Finalization.is_terminal (g_state b.2)) && (b.1.2 == j.1.2)
                 && (g_generation b.2 <? g_generation j.2)%Z
     | None => false
     end
  || match run_token with Some token => g_owner_run_token j.2 == Some token | None => false end
  || proof_recovery.

Definition short_oid (oid : option string) : string :=
  match oid with Some oid => String.substring 0 12 oid | None => "unknown" end.

(** A journal that is still Working: its task waits, is blocked, never was, or is
    left to its conversation. *)
Definition after_working (job : AgentRunJob) (o : JobOutcome) (j : journal_snapshot) : wio JobOutcome :=
  let session := of_utf8 j.1.2 in
  run! linked := on_board (terminal_task_for_codex_session_in_board U (job_board job) session) in
  let durably_blocked := match linked with
                         | Some (status, task) => Status.is_active status && task_entry_is_blocked task
                         | None => false
                         end in
  let unbound := is_null (g_task_identity j.2) && is_null (g_commit_oid j.2) in
  run! waiting := coordination_waits E (job_root job) session in
  if waiting then
    wret (blocked_with o "The task has a coordination wait; its work and exact Git journal are preserved. CLT reevaluates its prerequisite/overlap automatically; see clt context.")
  else if durably_blocked then
    wret (blocked_with o "The linked task recorded a durable blocker; its pre-run Git journal remains available for a later recovery without finalizing the task.")
  else if is_null linked && ((jo_status o == "idle") || unbound) then
    run! cancelled := retire_unlinked_working_git_finalization_after_run E (j_project job) j
                        (jo_session_run_token o) in
    wret (if cancelled then o
          else left_pending (failed o "An unused Git journal could not be cancelled because its task link or running generation changed."))
  else if jo_status o =! "blocked" then
    wret (left_pending (failed o "The task's Git journal remains WORKING; CLT preserved this exact Codex session because the task is neither durably blocked nor finalized."))
  else wret o.

(** What the journal's state after the reconciliation says of the run. *)
Definition after_reconciliation (job : AgentRunJob) (before : option journal_snapshot)
    (proof_recovery : bool) (o : JobOutcome) (initial : GitFinalizationState) (j : journal_snapshot)
    : wio JobOutcome :=
  if (g_state j.2 == Completed)
     && completed_by_run before proof_recovery (jo_session_run_token o) initial j then
    wret (o <| jo_status := "success" |>
            <| jo_summary := "CLT proved the task-specific Git finalization at commit "
                 +:+ short_oid (g_commit_oid j.2) +:+ "." |>)
  else if g_state j.2 == Working then after_working job o j
  else if g_state j.2 == PushPending then
    wret (left_to_push (failed o "The sealed task commit remains PUSH-PENDING; CLT will retry its exact frozen-OID publication without resuming Codex or scheduling another project task."))
  else if negb (Finalization.is_terminal (g_state j.2)) then
    run! diagnostic := agent_git_finalization_diagnostic E (job_root job) j in
    wret (left_pending (failed o ("Task Git finalization remains "
            +:+ Finalization.status_label (g_state j.2) +:+ ": " +:+ utf8 diagnostic
            +:+ " CLT preserves this exact session; the enabled supervisor will assess recovery before another attempt.")))
  else wret o.

Definition push_is_pending (pid : Z) (session : string) (d : db) : bool :=
  match git_finalization pid session d with Some g => g_state g == PushPending | None => false end.

Definition after_journal (job : AgentRunJob) (before : option journal_snapshot) (proof_recovery : bool)
    (o : JobOutcome) (session : string) : wio JobOutcome :=
  run! reconciled := wtry (reconcile_session_journal job o session) in
  match reconciled with
  | Ok (Some (initial, j)) => after_reconciliation job before proof_recovery o initial j
  | Ok None =>
      run! unrecorded := (if p_git_mode (j_project job).2 =! GitOff
                          then worktree_contains_completed_done_task E (job_root job) (of_utf8 session)
                          else wret false) in
      wret (if unrecorded
            then left_pending (failed o "The task entered Done without its required durable Git finalization record; CLT preserved the exact session for recovery.")
            else o)
  | Err e =>
      run! pushing := query (push_is_pending (job_pid job) session) in
      wret (if pushing
            then left_to_push (failed o ("The sealed task commit remains PUSH-PENDING after CLT's bounded publication attempt; CLT will retry without resuming Codex: " +:+ error_text e))
            else left_pending (failed o ("Git finalization proof failed and remains resumable in this exact session: " +:+ error_text e)))
  end.

Definition session_of_outcome (job : AgentRunJob) (o : JobOutcome) : option string :=
  coalesce (jo_codex_session_id o) (j_resume_session_id job).

Definition settle_journal (job : AgentRunJob) (before : option journal_snapshot) (proof_recovery : bool)
    (o : JobOutcome) : wio JobOutcome :=
  match jo_control_action o, session_of_outcome job o with
  | None, Some session => after_journal job before proof_recovery o session
  | _, _ => wret o
  end.

(** A run that found another branch keeps that diagnosis. *)
Definition branch_recovery_error (run : res refusal AgentRunResult) : option string :=
  match run with
  | Err e => let error := runner_failure e in
             if contains (str "Git task branch changed:") (of_utf8 error) then Some error else None
  | Ok _ => None
  end.

Definition keep_branch_error (error : option string) (o : JobOutcome) : JobOutcome :=
  match error with
  | Some error => if jo_status o =! "success" then left_pending (failed o error) else o
  | None => o
  end.

(** ** The control of the run's conversation *)

(** The conversation stays requested, for the same task to be resumed exactly. *)
Definition retries_exactly (job : AgentRunJob) (o : JobOutcome) : bool :=
  negb (jo_autonomous_git_push_pending o)
  && (jo_git_finalization_pending o
      || (j_task_selection job == ResumeSession)
         && negb (one_of (jo_status o) ["success"; "idle"; "blocked"])).

(** One look at the control; [None] when the control could not be cleared and is
    looked at again. *)
Definition look_at_control (job : AgentRunJob) (o : JobOutcome) (session run_token : string)
    : wio (option JobOutcome) :=
  run! control := query_res (session_control (job_pid job) session) in
  match control with
  | None => wret (Some o)
  | Some c =>
      if sc_run_token c =! Some run_token then wret (Some o)
      else
      match Control.requested_action (sc_state c) with
      | Some action => wret (Some (o <| jo_control_action := Some action |>))
      | None =>
          if sc_state c =! Running then wret (Some o)
          else if retries_exactly job o then wret (Some o)
          else
            run! cleared := on_registry (clear_running_session_control (job_pid job) session
                                           (Some run_token)) in
            wret (if cleared then Some o else None)
      end
  end.

Fixpoint look_until_settled (rounds : nat) (job : AgentRunJob) (o : JobOutcome)
    (session run_token : string) : wio (option JobOutcome) :=
  match rounds with
  | O => wret None
  | S rounds' =>
      run! settled := look_at_control job o session run_token in
      match settled with
      | Some o => wret (Some o)
      | None => look_until_settled rounds' job o session run_token
      end
  end.

(** [rounds] bounds the looks of a loop that has no bound: running out is not a
    result. *)
Definition resolve_control (rounds : nat) (job : AgentRunJob) (o : JobOutcome) : wio JobOutcome :=
  match jo_control_action o, jo_codex_session_id o, jo_session_run_token o with
  | None, Some session, Some run_token =>
      run! resolved := wtry (look_until_settled rounds job o session run_token) in
      match resolved with
      | Ok (Some o) => wret o
      | Ok None => refuse TooManyRounds
      | Err e => wret (failed o (jo_summary o +:+ " Failed to resolve Codex session control: "
                                 +:+ error_text e))
      end
  | _, _, _ => wret o
  end.

Definition apply_control_action (o : JobOutcome) : JobOutcome :=
  match jo_control_action o with
  | Some ActStop => o <| jo_status := "stopped" |>
                      <| jo_summary := "Codex task session stopped and remains resumable." |>
  | Some ActInterrupt => o <| jo_status := "handoff" |>
                           <| jo_summary := "Codex task session is ready for interactive handoff." |>
  | None => o
  end.

Definition already_stopped (pid : Z) (session run_token : string) : wio bool :=
  run! control := query_res (session_control pid session) in
  wret (match control with
        | Some c => (sc_state c == Stopped) && (sc_run_token c == Some run_token)
                    && is_null (sc_child_pid c)
        | None => false
        end).

Definition finish_stop (job : AgentRunJob) (o : JobOutcome) : wio unit :=
  run! session := need (jo_codex_session_id o)
                    (Bail "Stopped Codex run did not report the session ID needed for resumption") in
  run! run_token := need (jo_session_run_token o)
                      (Bail "Stopped Codex run did not report its session-control generation") in
  run! now := agent_timestamp E in
  run! stopped := on_registry (complete_session_stop (job_pid job) session run_token now) in
  run! stopped := (if stopped then wret true else already_stopped (job_pid job) session run_token) in
  ensure stopped (Bail "Codex session changed before its stop could be finalized").

(** The holder of a handoff that was completed before. *)
Definition handed_over (pid : Z) (session run_token : string) : wio (option string) :=
  run! control := query_res (session_control pid session) in
  run! lease := query (lease_holder_for_project pid) in
  wret (match control with
        | Some c =>
            match sc_interactive_holder c with
            | Some holder =>
                if (sc_state c == ReadyInteractive) && (sc_run_token c == Some run_token)
                   && is_null (sc_child_pid c) && (lease == Some holder)
                then Some holder else None
            | None => None
            end
        | None => None
        end).

Definition finish_interrupt (job : AgentRunJob) (o : JobOutcome) : wio string :=
  run! session := need (jo_codex_session_id o)
                    (Bail "Interrupted Codex run did not report the session ID needed for handoff") in
  run! run_token := need (jo_session_run_token o)
                      (Bail "Interrupted Codex run did not report its session-control generation") in
  run! timeout := from_result (sx_lease_timeout X) in
  run! acquired_at := agent_timestamp E in
  run! expires_at := agent_timestamp_after E (Z.max timeout 60) in
  run! holder := on_registry (complete_session_interrupt_handoff (job_pid job) session run_token
                                (j_holder job) acquired_at expires_at acquired_at) in
  run! successor := (match holder with
                     | Some holder => wret (Some holder)
                     | None => handed_over (job_pid job) session run_token
                     end) in
  need successor (Bail "Codex session changed before its interactive handoff completed").

Definition release_control (job : AgentRunJob) (o : JobOutcome) : wio unit :=
  match session_of_outcome job o with
  | Some session =>
      if retries_exactly job o then wret tt
      else
        run! _ := on_registry (clear_running_session_control (job_pid job) session
                                 (jo_session_run_token o)) in
        wret tt
  | None => wret tt
  end.

(** The holder the lease went to, when the run was interrupted. *)
Definition finish_control (job : AgentRunJob) (o : JobOutcome) : wio (option string) :=
  match jo_control_action o with
  | Some ActStop => run! _ := finish_stop job o in wret None
  | Some ActInterrupt => run! holder := finish_interrupt job o in wret (Some holder)
  | None => run! _ := release_control job o in wret None
  end.

(** ** The worker's heartbeat *)

Definition renew_agent_job_worker_fence (job : AgentRunJob) : wio unit :=
  match j_worker_token job with
  | None => wret tt
  | Some token =>
      run! timeout := from_result (sx_lease_timeout X) in
      run! expires_at := agent_timestamp_after E timeout in
      run! now := agent_timestamp E in
      run! renewed := on_registry (renew_worker token (own_pid E) now expires_at) in
      if renewed then wret tt
      else
        run! snapshot := query (worker_fence_snapshot token (own_pid E)) in
        refuse (Bail ("Agent worker " +:+ token +:+ " lost its durable ownership fence ("
                      +:+ snapshot +:+ ")"))
  end.

(** ** A blocked task goes back to Todo *)

Definition control_keeps_task (c : control_row) : bool :=
  (sc_state c =! ResumeRequested) || negb (is_null (sc_child_pid c))
  || negb (is_null (sc_interactive_holder c)) || negb (is_null (sc_interactive_launch_token c)).

Definition task_is_owned (pid : Z) (session : string) : wio bool :=
  run! control := query_res (session_control pid session) in
  if match control with Some c => control_keeps_task c | None => false end then wret true
  else
    query (fun d => match git_finalization pid session d with
                    | Some g => g_state g =! Working
                    | None => false
                    end).

Definition may_wait_in_todo (job : AgentRunJob) (session : string) (status : TaskStatus)
    (task : TaskEntry) : wio bool :=
  if negb (Status.is_active status) then wret false
  else
  run! waits := (if task_entry_is_blocked task then wret true
                 else coordination_waits E (job_root job) (of_utf8 session)) in
  wret (waits && negb (task_entry_is_stopped task) && negb (task_content_is_manual (content task))).

Definition same_entry (a b : TaskEntry) : bool := (source a == source b) && (content a == content b).

Definition move_to_todo (job : AgentRunJob) (task : TaskEntry) : wio bool :=
  run! doing := on_board (read_task_entries U (job_board job) Doing) in
  match list_find (fun entry => same_entry entry task = true) doing with
  | Some (index, _) =>
      run! _ := on_board (move_task_without_reordering_after_lock U (job_board job) Doing Todo (S index)) in
      wret true
  | None => wret false
  end.

Definition defer_blocked_task_after_run (job : AgentRunJob) (session : string) : wio bool :=
  run! _ := renew_agent_job_worker_fence job in
  run! owned := task_is_owned (job_pid job) session in
  if owned then wret false
  else
  run! linked := on_board (session_tasks E (job_board job) (of_utf8 session)) in
  match linked with
  | [(status, task)] =>
      run! waits := may_wait_in_todo job session status task in
      if negb waits then wret false
      else if status == Doing then move_to_todo job task
      else wret true
  | _ => wret false
  end.

(** ** Recording the run *)

Definition finalization_of (token holder finished_at : string) (o : JobOutcome) : AgentWorkerFinalization :=
  mkFinalization token (Some (own_pid E)) holder (jo_status o) finished_at (jo_exit_code o) (jo_log_dir o)
    (jo_stdout_path o) (jo_stderr_path o) (Some (jo_summary o)) (jo_codex_session_id o) None.

Definition run_outcome_of (pid : Z) (started_at finished_at : string) (o : JobOutcome) : AgentRunOutcome :=
  mkOutcome pid (jo_status o) started_at (Some finished_at) (jo_exit_code o) (jo_log_dir o)
    (jo_stdout_path o) (jo_stderr_path o) (Some (jo_summary o)) (jo_codex_session_id o).

(** Ending a worker releases its lease; a run without one releases its own, unless
    an interactive session has it now. *)
Definition record_agent_result_stage (job : AgentRunJob) (finalization_lease_holder : string)
    (lease_transferred : bool) (started_at finished_at : string) (o : JobOutcome) : wio Z :=
  run! recorded := wtry
    (match j_worker_token job with
     | Some token =>
         run! run_id := on_registry (finalize_worker
                          (finalization_of token finalization_lease_holder finished_at o)) in
         need run_id (Bail "Agent worker lost its finalization fence")
     | None => on_registry (record_run_outcome (run_outcome_of (job_pid job) started_at finished_at o))
     end) in
  run! released := wtry
    (if negb (is_null (j_worker_token job)) || lease_transferred then wret tt
     else run! _ := on_registry (release_lease (job_pid job) (j_holder job)) in wret tt) in
  run! run_id := from_result recorded in
  run! _ := from_result released in
  wret run_id.

(** What the supervisor makes of the run. *)
Definition report_to_supervisor (job : AgentRunJob) (o : JobOutcome) : wio unit :=
  if reviews job then
    if jo_status o =! "success" then hold_error E (job_pid job) (jo_summary o) else wret tt
  else after_task_run E (sx_today X) (j_project job) (j_task_selection job) (jo_status o).

Definition may_defer (job : AgentRunJob) (finished : res refusal (option string)) (o : JobOutcome) : bool :=
  match finished with Ok _ => true | Err _ => false end
  && is_null (jo_control_action o) && negb (jo_git_finalization_pending o)
  && negb (jo_autonomous_git_push_pending o) && negb (reviews job).

Definition defer_blocked (job : AgentRunJob) (finished : res refusal (option string)) (o : JobOutcome)
    : wio JobOutcome :=
  match session_of_outcome job o with
  | Some session =>
      if negb (may_defer job finished o) then wret o
      else
      run! deferred := defer_blocked_task_after_run job session in
      wret (if deferred
            then blocked_with o ("The waiting task is queued in Todo with its work and session preserved. "
                                 +:+ jo_summary o)
            else o)
  | None => wret o
  end.

Definition unless_finished (finished : res refusal (option string)) (o : JobOutcome) : JobOutcome :=
  match finished with
  | Ok _ => o
  | Err e => failed o (jo_summary o +:+ " Failed to finalize Codex session control: " +:+ error_text e)
  end.

(** ** The job *)

(** What the run starts from: the project as it is run, the journal of the resumed
    conversation, and whether that was resumed to prove a commit. *)
Record JobStart := mkJobStart {
  js_job : AgentRunJob; js_journal_before : option journal_snapshot; js_proof_recovery : bool;
  js_started_at : string
}.

Definition resumed_journal (job : AgentRunJob) (d : db) : option journal_snapshot :=
  j_resume_session_id job ≫= fun session => snapshot (job_pid job) session d.

Definition resumed_for_proof (job : AgentRunJob) : wio bool :=
  match j_resume_session_id job with
  | Some session =>
      run! control := query_res (session_control (job_pid job) session) in wret (awaits_proof control)
  | None => wret false
  end.

Definition with_mode (job : AgentRunJob) (mode : AgentGitMode) : AgentRunJob :=
  job <| j_project := ((j_project job).1, (j_project job).2 <| p_git_mode := mode |>) |>.

(** A review runs with the supervisor's settings. *)
Definition start_supervised (job : AgentRunJob) : wio AgentRunJob :=
  run! _ := (if j_task_selection job == Scheduling.SupervisorRetry
             then prepare_retry E (sx_today X) (j_project job) else wret tt) in
  if negb (reviews job) then wret job
  else
    run! _ := begin_review E (j_project job) in
    run! configured := query (configured_project E (j_project job)) in
    wret (job <| j_project := configured |>).

Definition supersede_abandoned (job : AgentRunJob) : wio unit :=
  if is_null (j_worker_token job) && (j_task_selection job == ResumeDoing) then
    run! _ := on_registry (supersede_abandoned_workers_for_lease (job_pid job) (j_holder job)) in wret tt
  else wret tt.

Definition start_job (job : AgentRunJob) : wio JobStart :=
  run! session := session_of_job job in
  run! mode := agent_git_mode_for_launch (j_project job) session in
  let job := with_mode job mode in
  run! _ := supersede_abandoned job in
  run! before := query (resumed_journal job) in
  run! proof_recovery := resumed_for_proof job in
  run! job := start_supervised job in
  run! started_at := agent_timestamp E in
  wret (mkJobStart job before proof_recovery started_at).

Definition request_of (job : AgentRunJob) : AgentRunRequest :=
  mkRunRequest (j_project job) (j_task_selection job) (j_resume_session_id job) (j_holder job)
    (j_worker_token job).

Definition completion_of (job : AgentRunJob) (o : JobOutcome) (run_id : Z) : AgentRunCompletion :=
  mkCompletion run_id (p_name (j_project job).2) (p_path (j_project job).2) (jo_status o) (jo_summary o)
    (jo_stdout_path o) (jo_stderr_path o).

(** From the runner's return to the decision what is recorded. *)
Definition judge_run (rounds : nat) (start : JobStart) (run : res refusal AgentRunResult) : wio JobOutcome :=
  let job := js_job start in
  run! o := outcome_of_run job run in
  run! o := settle_journal job (js_journal_before start) (js_proof_recovery start) o in
  let o := keep_branch_error (branch_recovery_error run) o in
  run! o := resolve_control rounds job o in
  wret (apply_control_action o).

Definition conclude_run (start : JobStart) (finished_at : string) (o : JobOutcome) : wio AgentRunCompletion :=
  let job := js_job start in
  run! finished := wtry (finish_control job o) in
  let holder := match finished with Ok (Some holder) => holder | _ => j_holder job end in
  let transferred := match finished with Ok (Some _) => true | _ => false end in
  run! o := defer_blocked job finished (unless_finished finished o) in
  run! _ := report_to_supervisor job o in
  run! run_id := record_agent_result_stage job holder transferred (js_started_at start) finished_at o in
  run! _ := from_result finished in
  wret (completion_of job o run_id).

Context `{AgentRunner} (rounds : nat).

Definition run_agent_job_inner (job : AgentRunJob) : wio AgentRunCompletion :=
  run! start := start_job job in
  run! run := wtry (run_project (request_of (js_job start))) in
  run! _ := renew_agent_job_worker_fence (js_job start) in
  run! finished_at := agent_timestamp E in
  run! o := judge_run rounds start run in
  run! _ := renew_agent_job_worker_fence (js_job start) in
  conclude_run start finished_at o.

(** ** A job without a worker owns its project as an inline worker *)

Definition inline_reservation (job : AgentRunJob) (token created_at : string) : AgentWorkerReservation :=
  mkReservation (job_pid job) token (j_holder job) (j_max_global_jobs job) AGENT_WORKER_PROTOCOL_VERSION
    (AGENT_INLINE_WORKER_SERVICE_LABEL_PREFIX +:+ token) (jx_binary_path JX) (jx_command_arguments JX)
    (jx_path_env JX) (jx_codex_path JX) (TaskSelection.label (j_task_selection job))
    (j_resume_session_id job) created_at.

(** The reservation may have been committed although it reported an error. *)
Definition reservation_committed (job : AgentRunJob) (token : string) : wio bool :=
  run! workers := active_workers in
  wret (match find_worker token workers with
        | Some (_, w) => (w_project_id w == job_pid job) && (w_state w == WRunning)
                         && (w_worker_pid w == Some (own_pid E))
                         && (w_lease_holder w == worker_lease_holder token)
        | None => false
        end).

Definition release_job_lease (job : AgentRunJob) : wio unit :=
  run! _ := on_registry (release_lease (job_pid job) (j_holder job)) in wret tt.

Definition reserve_inline (job : AgentRunJob) (token : string) : wio unit :=
  run! started_at := agent_timestamp E in
  run! reserved := wtry (on_registry (reserve_worker (inline_reservation job token started_at)
                                        (Some (own_pid E, started_at)))) in
  match reserved with
  | Ok true => wret tt
  | Ok false =>
      run! _ := release_job_lease job in
      refuse (Bail "Project lost its lease or global worker capacity before inline ownership could be reserved")
  | Err e =>
      run! committed := wtry (reservation_committed job token) in
      match committed with
      | Ok true => wret tt
      | Ok false => run! _ := wtry (release_job_lease job) in refuse e
      | Err _ => refuse e
      end
  end.

Definition new_worker_token (pid : Z) : wio string := fun w => (Ok (jx_new_worker_token JX (git_runs w) pid), w).

Definition ensure_durable_inline_git_worker (job : AgentRunJob) : wio AgentRunJob :=
  if negb (is_null (j_worker_token job)) then wret job
  else
  run! uses_git := agent_job_uses_git job in
  if negb uses_git then wret job
  else
    run! token := new_worker_token (job_pid job) in
    run! _ := reserve_inline job token in
    wret (job <| j_holder := worker_lease_holder token |> <| j_worker_token := Some token |>).

(** A run that fails ends its worker; a failure of that is told with it. *)
Definition run_owned_job (job : AgentRunJob) : wio AgentRunCompletion :=
  run! result := wtry (run_agent_job_inner job) in
  match result with
  | Ok completion => wret completion
  | Err e =>
      match j_worker_token job with
      | None => refuse e
      | Some token => run! _ := wtry (abandon_agent_worker_after_error E token (error_text e)) in refuse e
      end
  end.

Definition run_agent_job (job : AgentRunJob) : wio AgentRunCompletion :=
  run! job := ensure_durable_inline_git_worker job in
  run_owned_job job.

(** ** The process of an independent worker *)

Definition validate_agent_worker_token (token : string) : bool :=
  negb (token == "") && forallb (fun c => is_ascii_alphanumeric c || (c =? 45)%N) (of_utf8 token).

Definition matches_reservation (pid : Z) (token : string) (selection : AgentTaskSelection)
    (resume : option string) (w : worker_row) : bool :=
  (w_project_id w == pid) && (w_protocol_version w == AGENT_WORKER_PROTOCOL_VERSION)
  && (w_task_selection w == TaskSelection.label selection) && (w_resume_session_id w == resume)
  && (w_lease_holder w == worker_lease_holder token).

Definition worker_job (pid : Z) (token : string) (selection : AgentTaskSelection)
    (resume : option string) : wio AgentRunJob :=
  run! found := query (project_with_id pid) in
  run! p := need found (Bail "Registered project no longer exists") in
  run! scan := scan_agent_project E X p in
  run! completed := or_empty (completed_task_contents E (root_of p)) in
  run! blocked := or_empty (blocked_task_snapshots E (root_of p)) in
  run! max_global_jobs := from_result (jx_max_global_jobs JX) in
  wret (mkJob p (worker_lease_holder token) (Some token) (Z.of_nat max_global_jobs) selection resume
          (Scan.blocked_task_count scan) completed blocked).

Definition run_independent_agent_worker (pid : Z) (token : string) (selection : AgentTaskSelection)
    (resume : option string) : wio unit :=
  run! _ := ensure (validate_agent_worker_token token) (Bail "Invalid independent agent worker token") in
  run! workers := active_workers in
  run! reserved := need (find_worker token workers) (Bail "Agent worker reservation is no longer active") in
  run! _ := ensure (matches_reservation pid token selection resume reserved.2)
              (Bail "Agent worker arguments do not match its durable reservation") in
  run! started_at := agent_timestamp E in
  run! claimed := on_registry (claim_worker token (own_pid E) started_at) in
  run! _ := ensure claimed (Bail "Agent worker lost its startup fence") in
  run! result := wtry (run! job := worker_job pid token selection resume in
                       run! _ := run_agent_job job in wret tt) in
  run! _ := (match result with
             | Err e => abandon_agent_worker_after_error E token (error_text e)
             | Ok _ => wret tt
             end) in
  from_result result.

(** ** One pass with its jobs, in the foreground *)

Fixpoint run_jobs (jobs : list AgentRunJob) : wio nat :=
  match jobs with
  | [] => wret 0
  | job :: rest =>
      run! _ := run_agent_job job in
      run! recorded := run_jobs rest in
      wret (S recorded)
  end.

Definition run_agent_once_with_runner : wio AgentSchedulerPass :=
  run! max_global_jobs := from_result (jx_max_global_jobs JX) in
  run! start := run_agent_scheduler_pass_with_max_global_jobs E X true [] max_global_jobs None in
  run! recorded := run_jobs (st_jobs start) in
  let pass := st_pass start in
  wret (pass <| runs_recorded := runs_recorded pass + recorded |>).
End Job.
