(* ===== verification/Interactive.v ===== *)
(** What a terminal does to a conversation (src/session_control.rs): stopping and
    resuming it, taking it over and reserving it, handing it back, the end of its
    guardian, and the process that resumes a queued conversation. *)
From S2P Require Import Prelude Sql AgentTypes Leases Workers Runs Sessions Handoff Journals.
From S2P Require Import Retire Holders Projects.
From S2P Require Import Text Models Markers TaskNotes Metadata TaskEntry Files Board BoardTree.
From S2P Require Import World Surroundings Git Scheduling SnapshotLoad Guards Workflow.
From S2P Require Import GitRetire GitPublish GitRepair GitFinalize Supervisor Completed Reattach.
From S2P Require Import Dispatch Scheduler Job Store.

(** [TUI_SESSION_HANDOFF_TIMEOUT_SECONDS.max(60)]. *)
Definition HANDOFF_LEASE_SECONDS : Z := Z.max TUI_SESSION_HANDOFF_TIMEOUT_SECONDS 60.

(** ** Which tasks can be continued by hand *)

Definition task_supports_interactive_codex_resume (status : TaskStatus) (task : TaskEntry) : bool :=
  ((status == Done) || negb (task_content_is_manual (content task)))
  && bool_decide (status ∈ [Todo; Doing; Done]).

(** What other processes do to the registry between two looks at it. *)
Definition by_others (change : db -> db) : wio unit := fun w =>
  (Ok tt, w <| registry := change (registry w) |>).

Section Interactive.
Context (E : Surroundings) (JX : JobSurroundings).
Let X := jx_scheduler JX.
Let U := unicode E.

Definition linked_tasks (board : path) (session : string) : wio (list (TaskStatus * TaskEntry)) :=
  on_board (session_tasks E board (of_utf8 session)).

Definition codex_session_task_supports_interactive_resume (root : path) (session : string) : wio bool :=
  run! matches := linked_tasks (get_tasks_dir root) session in
  wret (match matches with
        | [(status, task)] => task_supports_interactive_codex_resume status task
        | _ => false
        end).

(** ** Stop and resume

    The answers are the messages shown to the user. *)

Definition recorded_child (c : control_row) : wio Z :=
  need (sc_child_pid c) (Bail "The Codex session is still registering its child process; try again").
Definition recorded_run (c : control_row) : wio string :=
  need (sc_run_token c) (Bail "The Codex session is still registering its run; try again").

Definition stop_running (pid : Z) (session : string) (c : control_row) : wio string :=
  run! child_pid := recorded_child c in
  run! run_token := recorded_run c in
  run! now := agent_timestamp E in
  run! requested := on_registry (request_session_stop pid session child_pid run_token now) in
  if negb requested then wret "The Codex session changed before it could be stopped; try again."
  else
    run! supervised := wtry (ensure_orphaned_session_supervision E (sx_processes X) pid session) in
    wret (match supervised with
          | Ok _ => "Stopping this Codex task session; use Shift+S on the task board or s in Agent Projects once stopped to resume it."
          | Err e => "Stop requested; CLT could not reattach supervision: " +:+ sx_error_text X e
                     +:+ ". The session remains fenced until its process exits."
          end).

(** A planning conversation that waits in Todo has no run to resume. *)
Definition only_planned (pid : Z) (session : string) (c : control_row) : wio bool :=
  if negb (is_null (sc_run_token c)) then wret false
  else
  run! found := query (project_with_id pid) in
  match found with
  | Some p =>
      run! status := on_board (task_status_for_codex_session_in_board U (board_of p) (of_utf8 session)) in
      wret (status == Some Todo)
  | None => wret false
  end.

Definition resume_stopped (pid : Z) (session : string) (c : control_row) : wio string :=
  run! planned := only_planned pid session c in
  if planned then
    wret "This planning session has no automated run to resume; press c to continue the conversation. Todo automation can start the task normally."
  else
    run! now := agent_timestamp E in
    run! requested := on_registry (request_stopped_session_resume pid session (sc_run_token c) now) in
    wret (if requested then "Resuming this stopped Codex task session in automated exec mode."
          else "The stopped Codex session changed before it could be resumed; try again.").

Definition stop_interactive (pid : Z) (session : string) (c : control_row) : wio string :=
  run! child_pid := need (sc_child_pid c)
                      (Bail "The interactive Codex session is still registering; try again") in
  run! holder := need (sc_interactive_holder c)
                   (Bail "The interactive Codex session has no guardian identity; leave it fenced") in
  run! now := agent_timestamp E in
  run! requested := on_registry (request_interactive_session_stop pid session child_pid holder now) in
  wret (if requested then "Stopping this interactive Codex session safely; CLT will reap it and release its reservation."
        else "The interactive Codex session changed before it could be stopped; try again.").

Definition toggle_tui_codex_session_stop_at (pid : Z) (session : string) : wio string :=
  run! control := query_res (session_control pid session) in
  match control with
  | None => wret "This task does not have a live or stopped Codex session to control."
  | Some c =>
      match sc_state c with
      | Running => stop_running pid session c
      | StopRequested =>
          run! _ := ensure_orphaned_session_supervision E (sx_processes X) pid session in
          wret "This Codex task session is already stopping."
      | Stopped => resume_stopped pid session c
      | Interactive => stop_interactive pid session c
      | InterruptRequested | ReadyInteractive =>
          wret "This Codex session is being used for an interactive handoff."
      | ResumeRequested => wret "This Codex task session is already queued to resume in exec mode."
      end
  end.

Definition idle_planning (status : TaskStatus) (c : control_row) : bool :=
  (status == Todo) && (sc_state c == Stopped) && is_null (sc_run_token c) && is_null (sc_child_pid c)
  && is_null (sc_interactive_holder c) && is_null (sc_interactive_launch_token c).

(** The conversation a stop of the task concerns; a link alone does not imply that
    CLT controls a run. *)
Definition controlled_session (project_id : option Z) (status : TaskStatus) (task : TaskEntry)
    : wio (option (Z * string)) :=
  match project_id, codex_session_for_task task with
  | Some pid, Some session =>
      if task_entry_is_stopped task then wret None
      else
        run! control := query_res (session_control pid (utf8 session)) in
        wret (match control with
              | Some c => if idle_planning status c then None else Some (pid, utf8 session)
              | None => None
              end)
  | _, _ => wret None
  end.

Definition toggle_tui_task_stop_at (project_id : option Z) (board : path) (status : TaskStatus)
    (task : TaskEntry) : wio string :=
  if (status =! Done) && task_content_is_manual (content task) then
    wret "This task is owned by a directly opened Codex session. Use clt handoff to release it to automation."
  else
  run! controlled := controlled_session project_id status task in
  match controlled with
  | Some (pid, session) => toggle_tui_codex_session_stop_at pid session
  | None =>
      run! stopped := toggle_task_stop_marker_in_board E board status task in
      wret (if stopped then "Task stopped. CLT will skip it until you press Shift+S on the task again."
            else "Task started. CLT may pick it up when it is ready.")
  end.

(** ** The lease of a terminal

    A lease value is its holder; dropping it gives the lease back and ignores
    errors. *)

Definition try_acquire_with_holder_at (pid : Z) (holder : string) (timeout : Z) : wio bool :=
  run! acquired_at := agent_timestamp E in
  run! expires_at := agent_timestamp_after E timeout in
  run! _ := lock_project_board pid in
  on_registry (try_acquire_lease pid holder acquired_at expires_at).

Definition adopt_at (pid : Z) (holder : string) : wio bool :=
  query (fun d => match agent_lease_for_project pid d with Some l => l_holder l == holder | None => false end).

Definition drop_lease (pid : Z) (holder : string) : wio unit :=
  run! _ := wtry (on_registry (release_lease pid holder)) in wret tt.

(** [PendingInteractiveHandoff]: dropped unless the handoff succeeded. *)
Definition drop_pending_handoff (pid : Z) (session holder : string) : wio unit :=
  run! now := agent_timestamp E in
  run! _ := wtry (on_registry (cancel_session_interrupt_handoff pid session holder now)) in
  drop_lease pid holder.

(** [c], with [cleanup] when it fails. *)
Definition or_drop {A} (cleanup : wio unit) (c : wio A) : wio A :=
  run! result := wtry c in
  match result with
  | Ok a => wret a
  | Err e => run! _ := cleanup in refuse e
  end.

(** ** Taking a running conversation over *)

Definition interrupt_running (pid : Z) (session holder : string) (c : control_row) : wio unit :=
  run! _ := ensure_orphaned_session_supervision E (sx_processes X) pid session in
  run! child_pid := recorded_child c in
  run! run_token := recorded_run c in
  run! now := agent_timestamp E in
  run! requested := on_registry (request_session_interrupt pid session child_pid run_token holder now) in
  ensure requested (Bail "The Codex session changed before it could be interrupted; try again").

Definition open_stopped (pid : Z) (session holder : string) (c : control_row) (timeout : Z) : wio string :=
  run! acquired := try_acquire_with_holder_at pid holder timeout in
  run! _ := ensure acquired (Bail "The project became busy before the stopped Codex session could open") in
  or_drop (drop_lease pid holder)
    (run! now := agent_timestamp E in
     run! begun := on_registry (begin_stopped_session_interactive pid session holder (sc_run_token c) now) in
     run! _ := ensure begun (Bail "The stopped Codex session changed before it could open interactively") in
     wret holder).

(** The process group may be gone before any supervisor noticed. *)
Definition complete_handoff_of_exited (pid : Z) (c : control_row) : wio unit :=
  if recorded_child_is_gone E X c then
    run! lease := query (agent_lease_for_project pid) in
    run! now := agent_timestamp_seconds E in
    reconcile_stale_agent_session_controls E X lease false now pid
  else wret tt.

(** One look at the handoff: whether the lease was transferred. *)
Definition look_at_handoff (pid : Z) (session holder : string) : wio bool :=
  run! control := query_res (session_control pid session) in
  run! c := need control (Bail "Codex session disappeared during handoff") in
  match sc_state c with
  | ReadyInteractive =>
      if sc_interactive_holder c == Some holder then
        run! adopted := adopt_at pid holder in
        run! _ := ensure adopted (Bail "The Codex runner did not transfer its project lease for handoff") in
        wret true
      else refuse (Bail "Codex session entered unexpected state during handoff")
  | InterruptRequested => run! _ := complete_handoff_of_exited pid c in wret false
  | ResumeRequested => refuse (Bail "The automated runner could not complete the interactive handoff")
  | _ => refuse (Bail "Codex session entered unexpected state during handoff")
  end.

(** Each look comes with what other processes did before it, and whether the time
    is up after it. *)
Fixpoint wait_for_handoff (looks : list ((db -> db) * bool)) (pid : Z) (session holder : string)
    : wio string :=
  match looks with
  | [] => refuse TooManyRounds
  | (change, expired) :: looks' =>
      run! _ := by_others change in
      run! ready := look_at_handoff pid session holder in
      if ready then wret holder
      else if expired then refuse (Bail "Timed out waiting for the Codex runner to enter interactive mode")
      else wait_for_handoff looks' pid session holder
  end.

Definition prepare_tui_codex_session_interrupt_at (looks : list ((db -> db) * bool)) (pid : Z)
    (session interactive_holder : string) (lease_timeout_seconds : Z) : wio string :=
  run! control := query_res (session_control pid session) in
  run! c := need control (Bail "Codex session is not registered as running or stopped") in
  match sc_state c with
  | Running =>
      run! _ := interrupt_running pid session interactive_holder c in
      or_drop (drop_pending_handoff pid session interactive_holder)
        (wait_for_handoff looks pid session interactive_holder)
  | Stopped => open_stopped pid session interactive_holder c lease_timeout_seconds
  | StopRequested => refuse (Bail "This Codex session is still stopping; try again when it is stopped")
  | InterruptRequested | ReadyInteractive | Interactive =>
      refuse (Bail "This Codex session already has an interactive handoff in progress")
  | ResumeRequested => refuse (Bail "This Codex session is already queued to resume in exec mode")
  end.

Definition prepare_tui_codex_session_interrupt (looks : list ((db -> db) * bool)) (pid : Z)
    (session interactive_holder : string) : wio string :=
  prepare_tui_codex_session_interrupt_at looks pid session interactive_holder HANDOFF_LEASE_SECONDS.

(** ** Handing a conversation back *)

Definition queue_tui_codex_session_exec_resume (pid : Z) (session interactive_holder : string) : wio unit :=
  run! now := agent_timestamp E in
  run! cancelled := on_registry (cancel_session_interrupt_handoff pid session interactive_holder now) in
  if cancelled then wret tt
  else
  run! control := query_res (session_control pid session) in
  run! c := need control (Bail "Codex session disappeared before exec resume") in
  ensure ((sc_state c == ResumeRequested) || (sc_state c == Running))
    (Bail "Codex session changed before exec resume could be queued").

(** ** Reserving a conversation nobody runs *)

Definition unfinished_in_doing (tasks : list (TaskStatus * TaskEntry)) : bool :=
  match tasks with
  | [(Doing, task)] => negb (task_entry_is_stopped task)
                       && negb (task_content_is_interactive_done (content task))
  | _ => false
  end.

(** A failed activation can leave a queued, unbound Git attempt linked in Todo. *)
Definition queued_unbound_recovery (tasks : list (TaskStatus * TaskEntry)) (control : option control_row)
    (journal : option journal_row) : bool :=
  match tasks with [(Todo, task)] => negb (task_entry_is_stopped task) | _ => false end
  && match control with Some c => sc_state c == ResumeRequested | None => false end
  && match journal with
     | Some g => (g_state g == Working) && is_null (g_task_identity g)
                 && negb (is_null (g_owner_run_token g))
     | None => false
     end.

(** Something of the conversation was run by the program. *)
Definition was_run (pid : Z) (session : string) (journal : option journal_row) (d : db) : bool :=
  negb (is_null journal)
  || negb (is_null (session_git_mode (pending_migration_version E) pid session d))
  || negb (is_null (latest_run_for_codex_session pid session true None d)).

Definition resumes_exec (tasks : list (TaskStatus * TaskEntry)) (control : option control_row)
    (journal : option journal_row) (was_run : bool) : bool :=
  (unfinished_in_doing tasks || queued_unbound_recovery tasks control journal)
  && match control with Some c => sc_state c == ResumeRequested | None => true end
  && match journal with Some g => negb (Finalization.is_terminal (g_state g)) | None => true end
  && was_run.

(** The state that was looked at is part of the reservation's condition. *)
Definition reserve_idle_codex_session_interactive (pid : Z) (session interactive_holder : string)
    (expected_stopped_run_token : option string) : wio (option InteractiveCodexResumeMode) :=
  run! board := lock_project_board pid in
  run! manual := on_board (board_has_manual_session U board (of_utf8 session)) in
  run! _ := ensure (negb manual) (Bail "This Codex session owns a manual task; continue it in its directly opened session") in
  run! control := query_res (session_control pid session) in
  run! tasks := linked_tasks board session in
  run! journal := query (git_finalization pid session) in
  run! ran_before := query (was_run pid session journal) in
  run! now := agent_timestamp E in
  run! reserved := on_registry (reserve_idle_session_interactive_for_state pid session interactive_holder
                                  expected_stopped_run_token (sc_state <$> control) now) in
  wret (if negb reserved then None
        else Some (if resumes_exec tasks control journal ran_before then ModeResumeExec else WritableIdle)).

(** Beside a manual owner, which has no lease and no control of its own. *)
Definition reserve_tui_shared_codex_session_interactive_at (pid : Z) (session interactive_holder : string)
    (expected_stopped_run_token : option string) : wio bool :=
  run! board := lock_project_board pid in
  run! linked := linked_tasks board session in
  run! _ := ensure (negb (existsb (fun t => (t.1 =! Done) && task_content_is_manual (content t.2)) linked))
              (Bail "This Codex session owns a manual task; continue it in its directly opened session") in
  run! has_manual_owner := on_board (board_has_manual_task U board) in
  run! now := agent_timestamp E in
  on_registry (reserve_shared_session_interactive pid session interactive_holder
                 expected_stopped_run_token has_manual_owner now).

Definition cancel_tui_idle_codex_session_interactive (pid : Z) (session interactive_holder : string)
    : wio bool :=
  run! now := agent_timestamp E in
  run! cancelled := on_registry (cancel_idle_session_interactive pid session interactive_holder now) in
  if cancelled then wret true
  else
  run! control := query_res (session_control pid session) in
  wret (match control with
        | None => true
        | Some c => (sc_state c == Stopped) && is_null (sc_interactive_holder c)
        end).

(** ** The end of a guardian *)

Definition interactive_guardian_stop_requested (c : control_row) (guardian_pid : Z) : bool :=
  (sc_state c == StopRequested)
  && match sc_interactive_holder c with
     | Some holder => Guardian.guardian_process_id holder == Some guardian_pid
     | None => false
     end.

(** A turn of the loop: what other processes did before it, whether the registry
    file needs a repair, and whether the lease is due for renewal. *)
Record GuardianTurn := mkGuardianTurn {
  gt_others : db -> db; gt_repair_required : bool; gt_renewal_due : bool
}.

Section Guardian.
Context (pid : Z) (session guardian : string) (disposition : InteractiveGuardianDisposition).

(** Whether the conversation is finished, and then whether it resumes. *)
Definition finalized (control : option control_row) : option bool :=
  match disposition with
  | ResumeExec =>
      match control with
      | Some c =>
          if sc_interactive_holder c == Some guardian then None
          else match sc_state c with
               | ResumeRequested | Running => Some true
               | Stopped => Some false
               | _ => None
               end
      | None => None
      end
  | _ =>
      match control with
      | Some c => if (sc_state c == Stopped) && is_null (sc_interactive_holder c) then Some false else None
      | None => None
      end
  end.

(** What one turn comes to: [None] when it has to be tried again. *)
Definition settle_guardian (changed : bool) (control : option control_row) : wio (option bool) :=
  if is_null control && Guardian.holds_project_lease disposition then
    run! released := wtry (on_registry (release_lease pid guardian)) in
    match released with
    | Ok _ => refuse (Bail "Interactive Codex session disappeared after its guarded child was reaped; CLT released the orphaned project reservation")
    | Err _ => wret None
    end
  else
    match finalized control with
    | Some resume_exec => wret (Some resume_exec)
    | None =>
        refuse (Bail (if changed
                      then "Interactive guardian finalized its child but left an unexpected session state"
                      else "Interactive guardian state changed before its reaped child could be finalized"))
    end.

Definition guardian_turn (t : GuardianTurn) : wio (option bool) :=
  run! _ := by_others (gt_others t) in
  run! _ := ensure (negb (gt_repair_required t)) (Bail "The agent registry needs recovery") in
  run! _ := (if disposition =! ResumeExec
             then restore_completed_task_for_guardian E pid (of_utf8 session) guardian else wret tt) in
  run! now := agent_timestamp E in
  run! changed := wtry (on_registry (finish_interactive_guardian pid session guardian disposition now)) in
  match changed with
  | Ok changed =>
      run! control := wtry (query_res (session_control pid session)) in
      match control with
      | Ok control => settle_guardian changed control
      | Err _ => wret None
      end
  | Err _ => wret None
  end.

Definition renew_guardian (lease_timeout : Z) : wio unit :=
  run! expires_at := agent_timestamp_after E (Z.max lease_timeout 60) in
  run! _ := wtry (on_registry (renew_lease pid guardian expires_at)) in wret tt.

Fixpoint finish_interactive_guardian_after_reap (turns : list GuardianTurn) (lease_timeout : Z) : wio bool :=
  match turns with
  | [] => refuse TooManyRounds
  | t :: turns' =>
      run! finished := guardian_turn t in
      match finished with
      | Some resume_exec => wret resume_exec
      | None =>
          run! _ := (if gt_renewal_due t then renew_guardian lease_timeout else wret tt) in
          finish_interactive_guardian_after_reap turns' lease_timeout
      end
  end.
End Guardian.

(** ** The process that resumes a queued conversation *)

Section Resume.
Context `{AgentRunner} (rounds : nat) (pid : Z) (session holder : string) (lease_timeout : Z)
        (p : Z * project_row) (blocked_before : Z) (done_before : list text)
        (snapshots_before : list BlockedTaskSnapshot).

Definition lease_in_use (l : option lease_row) : wio bool :=
  run! now := agent_timestamp_seconds E in
  wret (match l with Some l => negb (lease_reclaimable E l false now) | None => false end).

(** A run whose process is gone is queued again. *)
Definition requeue_exited (c : control_row) : wio unit :=
  run! lease := query (agent_lease_for_project pid) in
  run! in_use := lease_in_use lease in
  if in_use then wret tt
  else
  match sc_child_pid c with
  | Some child_pid =>
      if recorded_child_is_gone E X c then
        run! now := agent_timestamp E in
        run! _ := on_registry (recover_stale_automated_session_control pid session Running ResumeRequested
                                 child_pid (sc_run_token c) now) in wret tt
      else wret tt
  | None => wret tt
  end.

Definition acquire_for_resume : wio bool :=
  run! acquired_at := agent_timestamp E in
  run! expires_at := agent_timestamp_after E lease_timeout in
  on_registry (try_acquire_lease pid holder acquired_at expires_at).

Definition reclaim_for_resume : wio unit :=
  run! lease := query (agent_lease_for_project pid) in
  run! in_use := lease_in_use lease in
  match lease with
  | Some l => if in_use then wret tt
              else run! _ := on_registry (release_lease pid (l_holder l)) in wret tt
  | None => wret tt
  end.

Definition resume_job : wio AgentRunJob :=
  run! max_global_jobs := from_result (jx_max_global_jobs JX) in
  wret (mkJob p holder None (Z.of_nat max_global_jobs) Scheduling.ResumeSession (Some session)
          blocked_before done_before snapshots_before).

(** Whether the process is done with the queued conversation. *)
Definition run_queued : wio bool :=
  run! now := agent_timestamp_seconds E in
  run! retired := retire_completed_resume_request E pid (of_utf8 session) now in
  if retired then wret true
  else
  run! acquired := acquire_for_resume in
  if negb acquired then run! _ := reclaim_for_resume in wret false
  else
  run! job := resume_job in
  run! completion := wtry (run_agent_job E JX rounds job) in
  match completion with
  | Err _ => wret false
  | Ok c =>
      if one_of (cp_status c) ["failure"; "timeout"]
      then run! _ := from_result (sx_failure_backoff X) in wret false
      else wret true
  end.

Definition resume_turn : wio bool :=
  run! control := query_res (session_control pid session) in
  match control with
  | Some c =>
      match sc_state c with
      | ResumeRequested => run_queued
      | Running => run! _ := requeue_exited c in wret false
      | _ => wret true
      end
  | None => wret true
  end.

(** Each turn comes with what other processes did before it. *)
Fixpoint resume_until_settled (turns : list (db -> db)) : wio unit :=
  match turns with
  | [] => refuse TooManyRounds
  | change :: turns' =>
      run! _ := by_others change in
      run! settled := resume_turn in
      if settled then wret tt else resume_until_settled turns'
  end.
End Resume.

(** A paused project leaves the request to the scheduler. *)
Definition run_agent_session_resume_worker `{AgentRunner} (rounds : nat) (turns : list (db -> db)) (pid : Z)
    (session : string) : wio unit :=
  run! _ := ensure (validate_agent_worker_token session) (Bail "Invalid Codex session ID for exact-session resume") in
  run! found := query (project_with_id pid) in
  run! p := need found (Bail "Registered project no longer exists") in
  if negb (p_enabled p.2) then wret tt
  else
  run! scan := scan_agent_project E X p in
  run! completed := or_empty (completed_task_contents E (project_root p)) in
  run! blocked := or_empty (blocked_task_snapshots E (project_root p)) in
  run! lease_timeout := from_result (sx_lease_timeout X) in
  resume_until_settled rounds pid session (agent_lease_holder E) lease_timeout p
    (Scan.blocked_task_count scan) completed blocked turns.
End Interactive.
