(* ===== verification/GitQuiet.v ===== *)
(** Managed Git: which operations leave the board, or the board and the registry,
    alone. *)
From S2P Require Import Prelude Sql AgentTypes Store Leases Sessions Journals Retire Projects.
From S2P Require Import Text Markers TaskNotes Metadata TaskEntry Files Board BoardTree World.
From S2P Require Import Surroundings Git Manifest Projection GitStart SnapshotLoad Guards.
From S2P Require Import Workflow GitRetire GitPublish GitRepair GitFinalize.

(** ** Commands and commits *)

Section Git.
Context (git : git_oracle) (root : path).

Lemma still_run_git command : still (run_git git command).
Proof. intros w. by exists (S (git_runs w)). Qed.
#[local] Hint Resolve still_run_git : still_db.
Lemma still_output_text o : still (output_text o).
Proof. unfold output_text. stay. Qed.
#[local] Hint Resolve still_output_text : still_db.
Lemma still_git_stdout args : still (git_stdout git root args).
Proof. unfold git_stdout. stay. Qed.
Lemma still_git_optional_stdout args codes : still (git_optional_stdout git root args codes).
Proof. unfold git_optional_stdout. stay. Qed.
Lemma still_git_paths args : still (git_nul_separated_paths git root args).
Proof. unfold git_nul_separated_paths. stay. Qed.
Lemma still_hash_stdin bytes : still (git_hash_stdin git root bytes).
Proof. unfold git_hash_stdin. stay. Qed.
#[local] Hint Resolve still_git_stdout still_git_optional_stdout still_git_paths : still_db.
Lemma still_commit reference : still (resolve_git_commit git root reference).
Proof. unfold resolve_git_commit. stay. Qed.
Lemma still_tree reference : still (git_commit_tree git root reference).
Proof. unfold git_commit_tree. stay. Qed.
Lemma still_branch : still (current_agent_git_branch git root).
Proof. unfold current_agent_git_branch. stay. Qed.
#[local] Hint Resolve still_commit : still_db.
Lemma still_head : still (current_agent_git_head git root).
Proof. unfold current_agent_git_head. stay. Qed.
Lemma still_is_ancestor a b : still (git_commit_is_ancestor git root a b).
Proof. unfold git_commit_is_ancestor. stay. Qed.
Lemma still_first_parent a b : still (git_commit_is_first_parent_ancestor git root a b).
Proof. unfold git_commit_is_first_parent_ancestor. stay. Qed.
Lemma still_between a b : still (commits_between git root a b).
Proof. unfold commits_between. stay. Qed.
Lemma still_parents c : still (commit_parents git root c).
Proof. unfold commit_parents. stay. Qed.
Lemma still_trailers c : still (git_commit_task_trailers git root c).
Proof. unfold git_commit_task_trailers. stay. Qed.
Lemma still_identity c : still (git_commit_uses_agent_identity git root c).
Proof. unfold git_commit_uses_agent_identity. stay. Qed.
Lemma still_upstream b : still (resolve_agent_git_upstream git root b).
Proof. unfold resolve_agent_git_upstream. stay. Qed.

Lemma still_wconcat {A B} (f : A -> wio (list B)) l :
  (forall a, still (f a)) -> still (wconcat f l).
Proof. intros Hf. induction l as [|a l IH]; cbn [wconcat]; stay; auto. Qed.
Lemma still_wforall {A} (f : A -> wio bool) l : (forall a, still (f a)) -> still (wforall f l).
Proof. intros Hf. induction l as [|a l IH]; cbn [wforall]; stay; auto. Qed.

Lemma still_blob reference p : still (git_ref_blob_content git root reference p).
Proof. unfold git_ref_blob_content. stay. Qed.
#[local] Hint Resolve still_blob : still_db.
Lemma still_task_content reference paths task_path child is_directory :
  still (committed_task_content git root reference paths task_path child is_directory).
Proof. unfold committed_task_content. stay. Qed.
#[local] Hint Resolve still_task_content : still_db.

Lemma still_collect fuel reference paths board :
  still (collect_git_ref_board_task_entries git fuel root reference paths board).
Proof.
  revert board. induction fuel as [|fuel IH]; intros board; [apply still_refuse|].
  cbn [collect_git_ref_board_task_entries]. apply still_wconcat. intros status.
  destruct (git_tree_has_directory _ _); [|stay].
  apply still_wconcat. intros [child is_directory]. stay.
Qed.
#[local] Hint Resolve still_collect : still_db.

Lemma still_entries reference : still (git_ref_task_entries git root reference).
Proof. unfold git_ref_task_entries. stay. Qed.
#[local] Hint Resolve still_entries : still_db.
Lemma still_completed_identity reference sid : still (git_ref_completed_task_identity git root reference sid).
Proof. unfold git_ref_completed_task_identity. stay. Qed.
#[local] Hint Resolve still_completed_identity : still_db.
Lemma still_completed reference sid : still (git_ref_contains_completed_task git root reference sid).
Proof. unfold git_ref_contains_completed_task. stay. Qed.
Lemma still_active_count reference i : still (git_ref_active_task_identity_count git root reference i).
Proof. unfold git_ref_active_task_identity_count. stay. Qed.
#[local] Hint Resolve still_active_count : still_db.
Lemma still_active reference i : still (git_ref_contains_active_task_identity git root reference i).
Proof. unfold git_ref_contains_active_task_identity. stay. Qed.
Lemma still_start_identity reference i : still (require_agent_git_start_task_identity git root reference i).
Proof. unfold require_agent_git_start_task_identity. stay. Qed.
Lemma still_one_active reference sid i :
  still (git_ref_has_one_active_session_task git root reference sid i).
Proof. unfold git_ref_has_one_active_session_task. stay. Qed.
Lemma still_one_completed reference sid i :
  still (git_ref_has_one_completed_session_task git root reference sid i).
Proof. unfold git_ref_has_one_completed_session_task. stay. Qed.
End Git.

#[export] Hint Resolve still_run_git still_output_text still_git_stdout still_git_optional_stdout
  still_git_paths still_hash_stdin still_commit still_tree still_branch still_head still_is_ancestor
  still_first_parent still_between still_parents still_trailers still_identity still_upstream
  still_entries still_completed_identity still_completed still_active_count still_active
  still_start_identity still_one_active still_one_completed : still_db.

(** ** Manifests and projections *)

Section Manifest.
Context (E : Surroundings) (root : path).

Lemma still_read_baseline raw : still (read_baseline E raw).
Proof. unfold read_baseline. stay. Qed.
#[local] Hint Resolve still_read_baseline : still_db.
Lemma still_matches c sid i raw b :
  still (git_commit_matches_agent_staged_manifest E root c sid i raw b).
Proof. unfold git_commit_matches_agent_staged_manifest. stay. Qed.
#[local] Hint Resolve still_matches : still_db.
Lemma still_claims s sid i l n c : still (commit_claims E root s sid i l n c).
Proof. unfold commit_claims. stay. Qed.
Lemma still_collect_claims f cs : (forall c, still (f c)) -> still (collect_claims f cs).
Proof. intros Hf. induction cs as [|c cs IH]; cbn [collect_claims]; stay; auto. Qed.
Lemma still_find s b sid i l : still (find_agent_git_task_commit_with_policy E root s b sid i l).
Proof.
  unfold find_agent_git_task_commit_with_policy.
  pose proof still_claims as H. pose proof still_collect_claims as H'. stay.
Qed.
Lemma still_concurrent c sid : still (git_commit_is_compatible_concurrent_work E root c sid).
Proof. unfold git_commit_is_compatible_concurrent_work. stay. Qed.
Lemma still_proven pid c sid : still (git_commit_is_proven_completed_other_session E pid root c sid).
Proof. unfold git_commit_is_proven_completed_other_session. stay. Qed.
#[local] Hint Resolve still_concurrent still_proven : still_db.
Lemma still_range pid s m sid : still (agent_git_range_is_safe_before_manifest E pid root s m sid).
Proof. unfold agent_git_range_is_safe_before_manifest. stay. apply still_wforall. stay. Qed.
#[local] Hint Resolve still_range : still_db.

Lemma still_projection_command i f args : still (run_agent_git_projection_command E root i f args).
Proof. unfold run_agent_git_projection_command. stay. Qed.
#[local] Hint Resolve still_projection_command : still_db.
Lemma still_materialize i t : still (materialize_agent_git_task_tree E root i t).
Proof. unfold materialize_agent_git_task_tree. stay. Qed.
#[local] Hint Resolve still_materialize : still_db.
Lemma still_here_runs {A} (f : nat -> wio A) :
  (forall n, still (f n)) -> still (fun w => f (git_runs w) w).
Proof. intros Hf w. apply Hf. Qed.
Lemma still_projection t : still (create_agent_git_tree_projection E root t).
Proof.
  unfold create_agent_git_tree_projection.
  apply (still_here_runs (fun index =>
    run! _ := run_agent_git_projection_command E root index None [str "read-tree"; t] in
    run! files := materialize_agent_git_task_tree E root index t in
    wret (mkProjection index files))). stay.
Qed.
Lemma still_on_projection {A} (c : io A) p : still (on_projection c p).
Proof. unfold on_projection. destruct (c _) as [[]]; stay. Qed.
Lemma still_subtree t : still (git_task_subtree E root t).
Proof. unfold git_task_subtree. stay. Qed.
Lemma still_stage p : still (stage_projected_task_tree E root p).
Proof. unfold stage_projected_task_tree. stay. Qed.
#[local] Hint Resolve still_projection @still_on_projection still_subtree still_stage : still_db.
Lemma still_scope t i : still (agent_git_task_scope_without_selected E root t i).
Proof. unfold agent_git_task_scope_without_selected. stay. Qed.
Lemma still_completed_scope t p sid i :
  still (agent_git_completed_scope_without_selected E root t p sid i).
Proof. unfold agent_git_completed_scope_without_selected. stay. Qed.
#[local] Hint Resolve still_scope still_completed_scope : still_db.
Lemma still_project t sid i p e : still (project_agent_git_completed_tree E root t sid i p e).
Proof. unfold project_agent_git_completed_tree. stay. Qed.
Lemma still_delta args p : still (git_delta_id_for_path E root args p).
Proof. unfold git_delta_id_for_path. stay. Qed.
Lemma still_blob_id p : still (git_untracked_blob_id E root p).
Proof. unfold git_untracked_blob_id. stay. Qed.
Lemma still_fingerprints f ps m : (forall p, still (f p)) -> still (fingerprint_paths f ps m).
Proof. intros Hf. revert m. induction ps as [|p ps IH]; intros m; cbn [fingerprint_paths]; stay; auto. Qed.
Lemma still_staged_paths : still (staged_paths E root).
Proof. unfold staged_paths. stay. Qed.
Lemma still_index_tree : still (agent_git_index_tree E root).
Proof. unfold agent_git_index_tree. stay. Qed.
#[local] Hint Resolve still_project still_delta still_blob_id still_fingerprints still_staged_paths
  still_index_tree : still_db.
Lemma still_staged_manifest pid raw sid i s b :
  still (capture_agent_git_staged_manifest E pid root raw sid i s b).
Proof. unfold capture_agent_git_staged_manifest. stay. Qed.
Lemma still_resealed_manifest pid raw sid i s b :
  still (capture_agent_git_resealed_manifest E pid root raw sid i s b).
Proof. unfold capture_agent_git_resealed_manifest. stay. Qed.

(** ** The start of a run *)

Lemma still_destination b : still (capture_agent_git_upstream_destination E root b).
Proof. unfold capture_agent_git_upstream_destination, git_config. stay. Qed.
#[local] Hint Resolve still_destination : still_db.
Lemma still_mode_destination m b : still (destination_of_mode E root m b).
Proof. unfold destination_of_mode. stay. Qed.
#[local] Hint Resolve still_mode_destination : still_db.
Lemma still_require_tree t : still (require_agent_git_index_tree E root t).
Proof. unfold require_agent_git_index_tree. stay. Qed.
#[local] Hint Resolve still_require_tree : still_db.
Lemma still_worktree_state : still (capture_agent_git_worktree_state E root).
Proof. unfold capture_agent_git_worktree_state, git_worktree_delta_id_for_path. stay. Qed.
#[local] Hint Resolve still_worktree_state : still_db.
Lemma still_capture m : still (capture_agent_git_start_state E root m).
Proof. unfold capture_agent_git_start_state. stay. Qed.
Lemma still_verify_start m s : still (verify_agent_git_start_state_unchanged E root m s).
Proof. unfold verify_agent_git_start_state_unchanged. stay. Qed.
End Manifest.

#[export] Hint Resolve still_read_baseline still_matches still_find still_range still_staged_manifest
  still_resealed_manifest still_destination still_mode_destination still_require_tree
  still_worktree_state still_capture still_verify_start still_projection_command still_projection
  still_scope still_completed_scope still_index_tree still_staged_paths : still_db.

Section Lease.
Context (E : Surroundings).

Lemma still_timestamp : still (agent_timestamp E).
Proof. intros w. apply still_here. Qed.
#[local] Hint Resolve still_timestamp : still_db.
Lemma still_reading {A} (f : nat -> wio A) : (forall n, still (f n)) -> still (fun w => f (git_runs w) w).
Proof. intros Hf w. apply Hf. Qed.
Lemma still_acquire root owner : still (acquire_finalization E root owner).
Proof.
  apply (still_reading (fun n => ensure (finalization_lock E n root owner) GitError)). stay.
Qed.
Lemma still_owned lease : still (ensure_owned E lease).
Proof.
  apply (still_reading (fun n =>
    run! _ := ensure (negb (heartbeat_error lease n)) LostFence in
    run! now := agent_timestamp E in
    run! owned := query (git_finalization_lease_is_owned (fl_project_id lease) (fl_holder lease) now) in
    ensure owned LostFence)). stay.
Qed.
#[local] Hint Resolve still_owned : still_db.
Lemma still_fence lease : still (ensure_agent_git_finalization_fence E lease).
Proof. unfold ensure_agent_git_finalization_fence. stay. Qed.
Lemma still_wand a b : still a -> still b -> still (wand a b).
Proof. unfold wand. stay. Qed.
Lemma still_wattempt {A} (c : wio A) : still c -> still (wattempt c).
Proof. intros Hc w. destruct (Hc w) as [n Hn]. unfold wattempt. destruct (c w) as [[]]; by exists n. Qed.
Lemma quiet_wand a b : keeps_registry a -> keeps_registry b -> keeps_registry (wand a b).
Proof. unfold wand. intros Ha Hb. apply keeps_registry_bind; [done|]. intros []; [done|by intros w]. Qed.
Lemma quiet_wtry {A} (c : wio A) : keeps_registry c -> keeps_registry (wtry c).
Proof. intros Hc w. specialize (Hc w). unfold wtry. by destruct (c w). Qed.
Lemma quiet_from_result {A} (r : res refusal A) : keeps_registry (from_result r).
Proof. done. Qed.
End Lease.

#[export] Hint Resolve still_timestamp still_acquire still_owned still_fence still_wand still_wattempt
  still_wconcat : still_db.
#[export] Hint Resolve quiet_wand quiet_wtry quiet_from_result : registry_db.

Section Publish.
Context (E : Surroundings) (root : path).

Lemma still_remote args : still (run_agent_git_remote_command E root args).
Proof. unfold run_agent_git_remote_command. stay. Qed.
#[local] Hint Resolve still_remote : still_db.

Section Frozen.
Context (b u : option text) (base : AgentGitWorktreeBaseline) (lease : option AgentGitFinalizationLease).

Lemma still_frozen : still (destination_is_frozen E root b u base).
Proof. unfold destination_is_frozen. stay. Qed.
#[local] Hint Resolve still_frozen : still_db.
Lemma still_push oid : still (push_agent_git_commit_to_frozen_destination E root b u base lease oid).
Proof. unfold push_agent_git_commit_to_frozen_destination. stay. Qed.
Lemma still_tracking_tip : still (tracking_tip_for_push_destination E root b u base).
Proof. unfold tracking_tip_for_push_destination, git_config. stay. Qed.
#[local] Hint Resolve still_tracking_tip : still_db.
Lemma still_refresh a p t : still (refresh_agent_git_tracking_ref E root a p t).
Proof. unfold refresh_agent_git_tracking_ref. stay. Qed.
#[local] Hint Resolve still_refresh : still_db.
Lemma still_refresh_after p t : still (refresh_after_fetch E root b u base lease p t).
Proof. unfold refresh_after_fetch. pose proof still_tracking_tip. stay. Qed.
Lemma still_remote_tip url : still (read_remote_tip E root base lease url).
Proof. unfold read_remote_tip. stay. Qed.
#[local] Hint Resolve still_refresh_after still_remote_tip : still_db.
Lemma still_destination_tip url p : still (fetch_destination_tip E root b u base lease url p).
Proof. unfold fetch_destination_tip. stay. Qed.
Lemma still_local_tip : still (local_destination_tip E root b u base lease).
Proof. unfold local_destination_tip. stay. Qed.
#[local] Hint Resolve still_destination_tip still_local_tip : still_db.
Lemma still_fetch : still (fetch_agent_git_upstream_tip E root b u base lease).
Proof. unfold fetch_agent_git_upstream_tip. pose proof still_tracking_tip. stay. Qed.
Lemma still_tip_proves t oid sid i l :
  still (agent_git_upstream_tip_proves_task_commit E root t oid sid i l).
Proof. unfold agent_git_upstream_tip_proves_task_commit. stay. Qed.
End Frozen.
End Publish.

#[export] Hint Resolve still_remote still_push still_fetch still_tip_proves : still_db.

Section Repair.
Context (E : Surroundings) (R : RepairSurroundings) (root : path).

Lemma quiet_done_task sid : keeps_registry (worktree_contains_completed_done_task E root sid).
Proof. unfold worktree_contains_completed_done_task. keep_registry. Qed.
Lemma quiet_completed_identity sid : keeps_registry (worktree_completed_task_identity E root sid).
Proof. unfold worktree_completed_task_identity. keep_registry. Qed.
#[local] Hint Resolve quiet_completed_identity : registry_db.
Lemma quiet_retained b oid sid i :
  keeps_registry (local_agent_git_task_commit_is_retained E root b oid sid i).
Proof. unfold local_agent_git_task_commit_is_retained. keep_registry. Qed.
#[local] Hint Resolve quiet_retained : registry_db.
Lemma still_done_blob t : still (blob E root t).
Proof. unfold blob. stay. Qed.
#[local] Hint Resolve still_done_blob : still_db.
Lemma still_only_order c t s : still (is_only_selected_order E root c t s).
Proof. unfold is_only_selected_order, board_mode. stay. Qed.
Lemma still_unpublished b c base : still (require_unpublished E root b c base).
Proof.
  unfold require_unpublished, remote_urls, require_url_without, require_tip_without. stay.
  apply still_wconcat. stay.
Qed.
Lemma still_correct_index i t s : still (correct_shared_index E root i t s).
Proof. unfold correct_shared_index, stage_corrected. stay. Qed.
#[local] Hint Resolve still_only_order still_unpublished still_correct_index : still_db.
Lemma quiet_recheck j b c i lease : keeps_registry (recheck E root j b c i lease).
Proof. unfold recheck, verify_agent_git_resume_branch. destruct j as [[pid sid] g]. keep_registry. Qed.
#[local] Hint Resolve quiet_recheck : registry_db.
Lemma quiet_publish_repair j f t b c i lease :
  keeps_registry (publish_repair E R root j f t b c i lease).
Proof.
  unfold publish_repair, amend_in_checkout. destruct j as [[pid sid] g]. keep_registry.
  repeat apply quiet_wand; keep_registry.
Qed.
#[local] Hint Resolve quiet_publish_repair : registry_db.
Lemma quiet_repair_with_index j t b c i lease :
  keeps_registry (repair_with_index E R root j t b c i lease).
Proof.
  intros w. unfold repair_with_index. generalize (git_runs w) as index. intros index. revert w.
  match goal with |- forall w, registry ((?c w).2) = _ => change (keeps_registry c) end.
  keep_registry.
Qed.
#[local] Hint Resolve quiet_repair_with_index : registry_db.
Lemma quiet_repair j c lease : keeps_registry (repair_board_order E R root j c lease).
Proof. unfold repair_board_order. keep_registry. Qed.

Lemma still_parent_current g : still (agent_git_manifest_parent_is_current E root g).
Proof. unfold agent_git_manifest_parent_is_current. stay. Qed.
Lemma still_diagnostic j : still (agent_git_finalization_diagnostic E root j).
Proof. unfold agent_git_finalization_diagnostic, tree_mismatch. stay. Qed.
#[local] Hint Resolve still_diagnostic : still_db.
Lemma still_diagnosed {A} j : still (@diagnosed E root A j).
Proof. unfold diagnosed. stay. Qed.
Lemma still_publish_commit lease g base oid sid i :
  still (publish_commit E root lease g base oid sid i).
Proof. unfold publish_commit. stay. Qed.
Lemma quiet_local_proven j oid i : keeps_registry (local_commit_is_proven E root j oid i).
Proof. unfold local_commit_is_proven. destruct j as [[pid sid] g]. keep_registry. Qed.
End Repair.

#[export] Hint Resolve still_diagnostic still_parent_current @still_diagnosed still_publish_commit : still_db.
#[export] Hint Resolve quiet_done_task quiet_retained quiet_repair quiet_local_proven : registry_db.
