(* ===== verification/Registry.v ===== *)
(** The registry as a transition system: every operation of the repositories is
    a command, and a reachable database is one a sequence of commands leads to
    from the empty one.

    Commands take their clock readings and operating-system answers as
    arguments, so a statement about all commands covers every interleaving of
    the processes that share the database: each transaction is one step. *)
From S2P Require Import Prelude Sql AgentTypes Store Leases Workers Runs Sessions Handoff.
From S2P Require Import Journals Retire Recovery Holders Projects Models.

(** ** The recoveries the scheduler performs on a stale control

    [reconcile_stale_agent_session_controls] (src/scheduler.rs) fixes the target
    state from the state it observed. *)

Definition recover_stale_running (pid : Z) (sid : string) (child_pid : Z)
    (run_token : option string) (now : string) : store_op bool :=
  recover_stale_automated_session_control pid sid Running ResumeRequested child_pid
    run_token now.

Definition recover_stale_stopping (pid : Z) (sid : string) (child_pid : Z)
    (run_token : option string) (now : string) : store_op bool :=
  recover_stale_automated_session_control pid sid StopRequested Stopped child_pid
    run_token now.

Definition recover_stale_handoff (pid : Z) (sid : string) (launched : bool)
    (holder : option string) (now : string) : store_op bool :=
  recover_stale_interactive_session_control pid sid
    (if launched then Interactive else ReadyInteractive) ResumeRequested holder now.

(** ** Commands *)

Inductive command :=
| TryAcquireLease (pid : Z) (holder at_ exp : string)
| TryAcquireFinalizationLease (pid : Z) (holder at_ exp : string) (reclaim : option string)
| RenewFinalizationLease (pid : Z) (holder exp : string)
| RenewLease (pid : Z) (holder exp : string)
| ReleaseLease (pid : Z) (holder : string)
| ReserveWorker (r : AgentWorkerReservation) (claim : option (Z * string))
| ClaimWorker (token : string) (worker_pid : Z) (at_ : string)
| RenewWorker (token : string) (worker_pid : Z) (at_ exp : string)
| SupersedeAbandoned (pid : Z) (holder : string)
| MarkServiceCleaned (token at_ : string)
| AbandonWorker (a : AgentWorkerAbandonment)
| FinalizeWorker (f : AgentWorkerFinalization)
| RecordRunOutcome (o : AgentRunOutcome)
| RecordDaemonCheckin (holder mode started at_ exp : string)
| ClearDaemonCheckin (holder : string)
| CleanAgentHistory (at_ : string)
| MarkSessionRunning
    (pid : Z) (sid : string) (child : Z) (token out err : string) (mode : option AgentGitMode)
    (now : string)
| RequestInterrupt (pid : Z) (sid : string) (child : Z) (token holder now : string)
| CancelInterruptHandoff (pid : Z) (sid holder now : string)
| RequestStop (pid : Z) (sid : string) (child : Z) (token now : string)
| RequestInteractiveStop (pid : Z) (sid : string) (child : Z) (holder now : string)
| RequestStoppedResume (pid : Z) (sid : string) (token : option string) (now : string)
| BeginStoppedInteractive (pid : Z) (sid holder : string) (token : option string) (now : string)
| CompleteStop (pid : Z) (sid token now : string)
| RegisterPlanning (pid : Z) (sid holder now : string)
| RegisterSharedPlanning (pid : Z) (sid now : string)
| ReserveIdleInteractive
    (pid : Z) (sid holder : string) (token : option string)
    (expected : option AgentSessionControlState) (now : string)
| ReserveSharedInteractive
    (pid : Z) (sid holder : string) (token : option string) (manual : bool) (now : string)
| CancelIdleInteractive (pid : Z) (sid holder now : string)
| AdoptGuardian (pid : Z) (sid : option string) (from guardian at_ exp now : string)
| RegisterGuardianChild (pid : Z) (sid guardian : string) (child : Z) (now exp : string)
| FinishGuardian
    (pid : Z) (sid guardian : string) (disposition : InteractiveGuardianDisposition)
    (now : string)
| RecoverStaleGuardian
    (pid : Z) (sid guardian : string) (child : option Z)
    (disposition : InteractiveGuardianDisposition) (now : string)
| CompleteInterruptHandoff (pid : Z) (sid token from at_ exp now : string)
| RecoverStaleRunning
    (pid : Z) (sid : string) (child : Z) (token : option string) (now : string)
| RecoverStaleStopping
    (pid : Z) (sid : string) (child : Z) (token : option string) (now : string)
| RecoverStaleHandoff
    (pid : Z) (sid : string) (launched : bool) (holder : option string)
    (now : string)
| ClaimOrphan (expected : ObservedControl) (holder at_ exp : string)
| FinalizeReattached (expected : ObservedControl) (holder at_ exp now : string)
| FinalizeReaped (pid child : Z) (token holder at_ exp now : string)
| EnsureFinalizationResume (pid : Z) (sid now : string)
| RetireCompletedResume (expected : ObservedControl) (now : Z)
| ClearOrphanedResume (pid : Z) (sid : string) (now : Z)
| ClearPushResume (pid : Z) (sid : string)
| ClearRunningControl (pid : Z) (sid : string) (token : option string)
| RegisterKnownSession (r : AgentKnownSessionRegistration) (now exp : string)
| RecordLaunchState
    (pid : Z) (token : string) (mode : AgentGitMode) (start : AgentGitStartState)
    (now : string)
| ReclaimLaunchState
    (pid : Z) (token : string) (mode : AgentGitMode) (start : AgentGitStartState)
| DeleteLaunchState (pid : Z) (token : string)
| CreateJournal (n : NewGitFinalization)
| CompareAndSetJournal (pid : Z) (sid : string) (generation : Z) (u : JournalUpdate)
| AcknowledgeJournal (pid : Z) (sid now : string)
| EnableSessionGit (n : NewGitFinalization) (holder now : string)
| RecoverUnmanagedMode (pid : Z) (sid err : string)
| CancelOrphanedJournal (expected : journal_snapshot) (holder reason at_ now : string)
| RetireAbandonedJournal
    (pid : Z) (sid : string) (generation : Z) (completed : bool) (reason at_ : string)
| RetireSupersededJournal (expected completed : journal_snapshot) (at_ : string)
| CancelIdleJournal
    (pid : Z) (sid : string) (generation : Z) (identity : option string)
    (holder at_ exp : string) (cancellation : GitTaskCancellation)
| BeginRecovery (q : RecoveryRequest)
| FinishRecovery (pid : Z) (holder now : string)
| SetProjectEnabled (pid : Z) (enabled : bool) (now : string)
| SetProjectEnabledAt (path : string) (enabled : bool) (now : string)
| ClearFailureBackoff (path now : string)
| SetProjectGitMode (pending : option Z) (pid : Z) (mode : AgentGitMode) (now : string)
| SetProjectGitModeAt (pending : option Z) (path : string) (mode : AgentGitMode) (now : string)
| SetCodexSettings
    (pid : Z) (provider model effort : option string) (fast : bool) (now : string)
| RecordProjectScan (pid : Z) (now : string)
| RecordDaemonScan (pid : Z) (status : string) (error : option string) (now : string)
| RegisterProject (path name now : string)
| UnregisterProject (own_pid : Z) (running : Z -> option bool) (path : string) (now : Z)
| UpsertProvider (pending : option Z) (provider : string) (p : provider_row)
| DeleteProvider (provider now : string)
| UpsertTarget (provider model : string) (t : target_row)
| SetProviderEnabled (provider : string) (enabled : bool)
| SetProviderKey (pending : option Z) (provider : string) (key : option string)
| SetTargetFlags (provider model : string) (enabled favorite : bool)
| SetTargetReasoning (provider model : string) (effort : option string)
| SetModelDefault (provider model : string)
| SetSupervisorSettings (pending : option Z) (settings : SupervisorSettings)
| SaveReview (pid : Z) (review : SupervisorReview)
| ClearReview (pending : option Z) (pid : Z).

Definition exec (c : command) (d : db) : db :=
  match c with
  | TryAcquireLease pid holder at_ exp => (try_acquire_lease pid holder at_ exp d).2
  | TryAcquireFinalizationLease pid holder at_ exp reclaim =>
      (try_acquire_git_finalization_lease pid holder at_ exp reclaim d).2
  | RenewFinalizationLease pid holder exp => (renew_git_finalization_lease pid holder exp d).2
  | RenewLease pid holder exp => (renew_lease pid holder exp d).2
  | ReleaseLease pid holder => (release_lease pid holder d).2
  | ReserveWorker r claim => (reserve_worker r claim d).2
  | ClaimWorker token worker_pid at_ => (claim_worker token worker_pid at_ d).2
  | RenewWorker token worker_pid at_ exp => (renew_worker token worker_pid at_ exp d).2
  | SupersedeAbandoned pid holder => (supersede_abandoned_workers_for_lease pid holder d).2
  | MarkServiceCleaned token at_ => (mark_worker_service_cleaned token at_ d).2
  | AbandonWorker a => (abandon_worker a d).2
  | FinalizeWorker f => (finalize_worker f d).2
  | RecordRunOutcome o => (record_run_outcome o d).2
  | RecordDaemonCheckin holder mode started at_ exp =>
      (record_daemon_checkin holder mode started at_ exp d).2
  | ClearDaemonCheckin holder => (clear_daemon_checkin holder d).2
  | CleanAgentHistory at_ => (clean_agent_history at_ d).2
  | MarkSessionRunning pid sid child token out err mode now =>
      (mark_session_running pid sid child token out err mode now d).2
  | RequestInterrupt pid sid child token holder now =>
      (request_session_interrupt pid sid child token holder now d).2
  | CancelInterruptHandoff pid sid holder now =>
      (cancel_session_interrupt_handoff pid sid holder now d).2
  | RequestStop pid sid child token now => (request_session_stop pid sid child token now d).2
  | RequestInteractiveStop pid sid child holder now =>
      (request_interactive_session_stop pid sid child holder now d).2
  | RequestStoppedResume pid sid token now =>
      (request_stopped_session_resume pid sid token now d).2
  | BeginStoppedInteractive pid sid holder token now =>
      (begin_stopped_session_interactive pid sid holder token now d).2
  | CompleteStop pid sid token now => (complete_session_stop pid sid token now d).2
  | RegisterPlanning pid sid holder now => (register_planning_session pid sid holder now d).2
  | RegisterSharedPlanning pid sid now => (register_shared_planning_session pid sid now d).2
  | ReserveIdleInteractive pid sid holder token expected now =>
      (reserve_idle_session_interactive_for_state pid sid holder token expected now d).2
  | ReserveSharedInteractive pid sid holder token manual now =>
      (reserve_shared_session_interactive pid sid holder token manual now d).2
  | CancelIdleInteractive pid sid holder now =>
      (cancel_idle_session_interactive pid sid holder now d).2
  | AdoptGuardian pid sid from guardian at_ exp now =>
      (adopt_interactive_guardian pid sid from guardian at_ exp now d).2
  | RegisterGuardianChild pid sid guardian child now exp =>
      (register_interactive_guardian_child pid sid guardian child now exp d).2
  | FinishGuardian pid sid guardian disposition now =>
      (finish_interactive_guardian pid sid guardian disposition now d).2
  | RecoverStaleGuardian pid sid guardian child disposition now =>
      (recover_stale_interactive_guardian pid sid guardian child disposition now d).2
  | CompleteInterruptHandoff pid sid token from at_ exp now =>
      (complete_session_interrupt_handoff pid sid token from at_ exp now d).2
  | RecoverStaleRunning pid sid child token now =>
      (recover_stale_running pid sid child token now d).2
  | RecoverStaleStopping pid sid child token now =>
      (recover_stale_stopping pid sid child token now d).2
  | RecoverStaleHandoff pid sid launched holder now =>
      (recover_stale_handoff pid sid launched holder now d).2
  | ClaimOrphan expected holder at_ exp =>
      (claim_orphaned_session_supervision expected holder at_ exp d).2
  | FinalizeReattached expected holder at_ exp now =>
      (finalize_reattached_automated_session expected holder at_ exp now d).2
  | FinalizeReaped pid child token holder at_ exp now =>
      (finalize_reaped_automated_session pid child token holder at_ exp now d).2
  | EnsureFinalizationResume pid sid now =>
      (ensure_pending_git_finalization_resume_requested pid sid now d).2
  | RetireCompletedResume expected now => (retire_completed_resume_request expected now d).2
  | ClearOrphanedResume pid sid now => (clear_orphaned_resume_requested_session pid sid now d).2
  | ClearPushResume pid sid => (clear_autonomous_push_resume_request pid sid d).2
  | ClearRunningControl pid sid token => (clear_running_session_control pid sid token d).2
  | RegisterKnownSession r now exp => (register_known_session_with_child r now exp d).2
  | RecordLaunchState pid token mode start now =>
      (record_git_launch_state pid token mode start now d).2
  | ReclaimLaunchState pid token mode start =>
      (reclaim_unchanged_git_launch_state pid token mode start d).2
  | DeleteLaunchState pid token => (delete_git_launch_state pid token d).2
  | CreateJournal n => (create_git_finalization n d).2
  | CompareAndSetJournal pid sid generation u =>
      (compare_and_set_git_finalization pid sid generation u d).2
  | AcknowledgeJournal pid sid now =>
      (acknowledge_completed_git_finalization_session pid sid now d).2
  | EnableSessionGit n holder now => (enable_session_git n holder now d).2
  | RecoverUnmanagedMode pid sid err => (recover_unmanaged_session_git_mode pid sid err d).2
  | CancelOrphanedJournal expected holder reason at_ now =>
      (cancel_orphaned_working_git_finalization expected holder reason at_ now d).2
  | RetireAbandonedJournal pid sid generation completed reason at_ =>
      (retire_abandoned_unbound_git_finalization pid sid generation completed reason at_ d).2
  | RetireSupersededJournal expected completed at_ =>
      (retire_superseded_working_git_finalization expected completed at_ d).2
  | CancelIdleJournal pid sid generation identity holder at_ exp cancellation =>
      (cancel_idle_working_git_finalization
         pid sid generation identity holder at_ exp cancellation d).2
  | BeginRecovery q => (begin_missing_git_recovery q d).2
  | FinishRecovery pid holder now => (finish_missing_git_recovery pid holder now d).2
  | SetProjectEnabled pid enabled now => (set_project_enabled pid enabled now d).2
  | SetProjectEnabledAt path enabled now => (set_project_enabled_for_path path enabled now d).2
  | ClearFailureBackoff path now => (clear_project_failure_backoff_for_path path now d).2
  | SetProjectGitMode pending pid mode now => (set_project_git_mode pending pid mode now d).2
  | SetProjectGitModeAt pending path mode now =>
      (set_project_git_mode_for_path pending path mode now d).2
  | SetCodexSettings pid provider model effort fast now =>
      (set_project_codex_settings pid provider model effort fast now d).2
  | RecordProjectScan pid now => (record_project_scan pid now d).2
  | RecordDaemonScan pid status error now =>
      (record_project_daemon_scan pid status error now d).2
  | RegisterProject path name now => (register_project path name now d).2
  | UnregisterProject own_pid running path now =>
      (unregister_project own_pid running path now d).2
  | UpsertProvider pending provider p => (upsert_model_provider pending provider p d).2
  | DeleteProvider provider now => (delete_model_provider provider now d).2
  | UpsertTarget provider model t => (upsert_model_target provider model t d).2
  | SetProviderEnabled provider enabled => (set_model_provider_enabled provider enabled d).2
  | SetProviderKey pending provider key => (set_model_provider_api_key pending provider key d).2
  | SetTargetFlags provider model enabled favorite =>
      (set_model_target_flags provider model enabled favorite d).2
  | SetTargetReasoning provider model effort =>
      (set_model_target_reasoning provider model effort d).2
  | SetModelDefault provider model => (set_model_default provider model d).2
  | SetSupervisorSettings pending settings => (set_supervisor_settings pending settings d).2
  | SaveReview pid review => (save_supervisor_review pid review d).2
  | ClearReview pending pid => (clear_supervisor_review pending pid d).2
  end.

Definition exec_all (cs : list command) (d : db) : db := foldl (fun d c => exec c d) d cs.

Definition reachable (d : db) : Prop := exists cs, d = exec_all cs empty_db.

Lemma reachable_empty : reachable empty_db.
Proof. by exists []. Qed.

Lemma reachable_exec c d : reachable d -> reachable (exec c d).
Proof. intros [cs ->]. exists (cs ++ [c]). unfold exec_all. by rewrite foldl_app. Qed.

(** An invariant of every command holds of every reachable database. *)
Lemma reachable_ind (P : db -> Prop) :
  P empty_db -> (forall c d, P d -> P (exec c d)) -> forall d, reachable d -> P d.
Proof.
  intros H0 Hstep d [cs ->]. unfold exec_all. revert H0. generalize empty_db as d0.
  induction cs as [|c cs IH]; intros d0 H0; simpl; [done|]. apply IH. by apply Hstep.
Qed.
