(* ===== verification/Footprint.v ===== *)
(** Relations between the tables before and after an operation, and footprints: which
    tables the shared parts of the operations write, with a tactic for the tables a
    command does not write. *)
From S2P Require Import Prelude Sql AgentTypes Store Leases Workers Runs Sessions Handoff.
From S2P Require Import Journals Retire Recovery Holders Projects Models Registry.

Section Pointwise.
Context {K V : Type} `{Countable K} (R : K -> option V -> option V -> Prop).

Definition pointwise (t t' : gmap K V) : Prop := forall k, R k (t !! k) (t' !! k).

Context {HR : forall k, Reflexive (R k)}.

Lemma pointwise_refl t : pointwise t t.
Proof. intros k. reflexivity. Qed.

Lemma pointwise_trans {HT : forall k, Transitive (R k)} t1 t2 t3 :
  pointwise t1 t2 -> pointwise t2 t3 -> pointwise t1 t3.
Proof. intros H1 H2 k. exact (transitivity (H1 k) (H2 k)). Qed.

Lemma pointwise_insert k v t : R k (t !! k) (Some v) -> pointwise t (<[k := v]> t).
Proof.
  intros Hv k'. destruct (decide (k' = k)) as [->|Hne].
  - by rewrite lookup_insert_eq.
  - by rewrite lookup_insert_ne.
Qed.

Lemma pointwise_delete k t : R k (t !! k) None -> pointwise t (delete k t).
Proof.
  intros Hv k'. destruct (decide (k' = k)) as [->|Hne].
  - by rewrite lookup_delete_eq.
  - by rewrite lookup_delete_ne.
Qed.

Lemma pointwise_sql_update k (p : V -> bool) f t t' n :
  sql_update k p f t = (t', n) ->
  (forall v, t !! k = Some v -> p v = true -> R k (Some v) (Some (f v))) ->
  pointwise t t'.
Proof.
  intros Hu Hf.
  destruct (sql_update_cases k p f t) as [(v & Hv & Hp & Heq)|[_ Heq]];
    rewrite Hu in Heq; injection Heq as -> ->; [|apply pointwise_refl].
  apply pointwise_insert. rewrite Hv. auto.
Qed.

Lemma pointwise_sql_delete k (p : V -> bool) t t' n :
  sql_delete k p t = (t', n) ->
  (forall v, t !! k = Some v -> p v = true -> R k (Some v) None) ->
  pointwise t t'.
Proof.
  intros Hu Hf.
  destruct (sql_delete_cases k p t) as [(v & Hv & Hp & Heq)|[_ Heq]];
    rewrite Hu in Heq; injection Heq as -> ->; [|apply pointwise_refl].
  apply pointwise_delete. rewrite Hv. auto.
Qed.

Lemma pointwise_update_where (p : K -> V -> bool) f t t' n :
  sql_update_where p f t = (t', n) ->
  (forall k v, t !! k = Some v -> p k v = true -> R k (Some v) (Some (f k v))) ->
  pointwise t t'.
Proof.
  intros Hu Hf k. replace t' with (sql_update_where p f t).1 by (by rewrite Hu).
  rewrite lookup_update_where. destruct (t !! k) as [v|] eqn:Hv; simpl; [|reflexivity].
  destruct (p k v) eqn:Hp; [by apply Hf|reflexivity].
Qed.

Lemma pointwise_filter (P : K * V -> Prop) `{!forall x, base.Decision (P x)} t :
  (forall k v, t !! k = Some v -> ~ P (k, v) -> R k (Some v) None) ->
  pointwise t (filter P t).
Proof.
  intros Hf k. rewrite map_lookup_filter.
  destruct (t !! k) as [v|] eqn:Hv; simpl; [|reflexivity].
  case_guard as HP; simpl; [reflexivity|by apply Hf].
Qed.

Lemma pointwise_empty t :
  (forall k v, t !! k = Some v -> R k (Some v) None) -> pointwise t ∅.
Proof.
  intros Hf k. rewrite lookup_empty. destruct (t !! k) as [v|] eqn:Hv; [by eapply Hf|reflexivity].
Qed.
End Pointwise.

Lemma pointwise_same {K V} `{Countable K} (R : K -> option V -> option V -> Prop)
  `{!forall k, Reflexive (R k)} (t t' : gmap K V) : t' = t -> pointwise R t t'.
Proof. intros ->. apply pointwise_refl; apply _. Qed.

(** A branch that leaves the table alone. *)
Ltac unchanged := apply pointwise_refl; apply _.

(** ** Following the branches of an operation

    [op_cases] splits a goal about [(op d).2] along every test and statement of
    the operation, keeping the equation of each. *)

Ltac op_split :=
  match goal with
  | |- context [match ?x with _ => _ end] =>
      lazymatch x with
      | match _ with _ => _ end => fail
      | _ => let E := fresh "E" in destruct x eqn:E
      end
  end.

(** A statement whose effect is still a branch of a recorded equation. *)
Ltac op_split_hyp :=
  match goal with
  | H : context [match ?x with _ => _ end] |- _ =>
      lazymatch x with
      | sql_update _ _ _ _ => let E := fresh "E" in destruct x eqn:E
      | sql_delete _ _ _ => let E := fresh "E" in destruct x eqn:E
      end
  end.

Ltac op_cases := repeat (first [op_split | op_split_hyp]; simplify_eq/=).

(** Boolean guards of the branch, as facts. *)
Ltac guards :=
  cbv beta in *; repeat (match goal with
          | H : negb _ = true |- _ => apply negb_true_iff in H
          | H : negb _ = false |- _ => apply negb_false_iff in H
          | H : (_ && _)%bool = true |- _ => apply andb_true_iff in H; destruct H
          | H : (_ || _)%bool = false |- _ => apply orb_false_iff in H; destruct H
          | H : bool_decide _ = true |- _ => apply bool_decide_eq_true in H
          | H : bool_decide _ = false |- _ => apply bool_decide_eq_false in H
          | H : sql_eq _ (Some _) = true |- _ => apply sql_eq_Some in H
          | H : is_null _ = true |- _ => apply is_null_true in H
          | H : sql_eq_or_null _ _ = true |- _ => apply sql_eq_or_null_is in H
          end); simplify_eq/=.

Lemma db_same_projects d : d = d <| projects := projects d |>.
Proof. by destruct d. Qed.
Lemma db_same_leases d : d = d <| leases := leases d |>.
Proof. by destruct d. Qed.
Lemma db_same_controls d : d = d <| session_controls := session_controls d |>.
Proof. by destruct d. Qed.
Lemma db_same_runs d : d = d <| runs := runs d |>.
Proof. by destruct d. Qed.
Lemma db_same_modes d : d = d <| session_git_modes := session_git_modes d |>.
Proof. by destruct d. Qed.

Lemma update_project_after_run_frame o d :
  exists ps, update_project_after_run o d = d <| projects := ps |>.
Proof. unfold update_project_after_run. repeat case_match; eauto. Qed.

Lemma record_worker_run_frame token o d id d' :
  record_worker_run token o d = Ok (id, d') ->
  exists rs ps, d' = d <| runs := rs |> <| projects := ps |>.
Proof.
  unfold record_worker_run, insert_run_or_ignore, res_bind. intros H.
  repeat (case_match; simplify_eq/=).
  all: try match goal with
    | |- context [update_project_after_run ?o ?d] =>
        destruct (update_project_after_run_frame o d) as [ps ->]; by eexists _, ps
    end.
  match goal with
  | |- exists _ _, ?d = _ => exists (runs d), (projects d); by destruct d
  end.
Qed.

Lemma insert_worker_or_ignore_frame token w d n d' :
  insert_worker_or_ignore token w d = Ok (n, d') ->
  exists ws, d' = d <| agent_workers := ws |>.
Proof.
  unfold insert_worker_or_ignore. intros H. repeat (case_match; simplify_eq/=); eauto.
  all: match goal with |- exists _, ?d = _ => exists (agent_workers d); by destruct d end.
Qed.

Lemma claim_dispatching_frame token worker_pid at_ d d' n :
  claim_dispatching token worker_pid at_ d = (d', n) ->
  exists ws, d' = d <| agent_workers := ws |>.
Proof. unfold claim_dispatching. intros H. repeat (case_match; simplify_eq/=); eauto. Qed.

Lemma complete_finalizing_frame f w d a d' :
  complete_finalizing f w d = Commit a d' ->
  exists rs ps ws ls,
    d' = d <| runs := rs |> <| projects := ps |> <| agent_workers := ws |> <| leases := ls |>.
Proof.
  unfold complete_finalizing, txn_try. intros H. repeat (case_match; simplify_eq/=).
  match goal with H : record_worker_run _ _ _ = Ok _ |- _ =>
    apply record_worker_run_frame in H as (? & ? & ->) end.
  by eexists _, _, _, _.
Qed.

Lemma acknowledged_run_frame pid sid at_ summary d id d' :
  acknowledged_run pid sid at_ summary d = (id, d') -> exists rs, d' = d <| runs := rs |>.
Proof.
  unfold acknowledged_run. intros H. repeat (case_match; simplify_eq/=); eauto.
  match goal with |- exists _, ?d = _ => exists (runs d) end. apply db_same_runs.
Qed.

Lemma insert_control_frame k sc d n d' :
  insert_control k sc d = Ok (n, d') -> exists cs, d' = d <| session_controls := cs |>.
Proof.
  unfold insert_control. intros H. repeat (case_match; simplify_eq/=); eauto.
  match goal with |- exists _, ?d = _ => exists (session_controls d) end.
  apply db_same_controls.
Qed.

Lemma claim_new_or_planning_frame r now d n d' :
  claim_new_or_planning r now d = Ok (n, d') -> exists cs, d' = d <| session_controls := cs |>.
Proof.
  unfold claim_new_or_planning, update_control. intros H.
  repeat (case_match; simplify_eq/=); eauto using insert_control_frame.
Qed.

Lemma fix_git_mode_frame k mode tok d d' :
  fix_git_mode k mode tok d = Ok d' -> exists ms, d' = d <| session_git_modes := ms |>.
Proof.
  unfold fix_git_mode. intros H. repeat (case_match; simplify_eq/=); eauto.
  all: try (match goal with |- exists _, ?d = _ => exists (session_git_modes d) end;
            apply db_same_modes).
Qed.

Lemma attach_journal_frame k mode tok at_ d d' :
  attach_journal k mode tok at_ d = Ok d' ->
  exists gs ls, d' = d <| git_finalizations := gs |> <| agent_git_launch_states := ls |>.
Proof.
  unfold attach_journal. intros H. repeat (case_match; simplify_eq/=); eauto.
  all: match goal with
       | |- exists _ _, ?d = _ =>
           exists (git_finalizations d), (agent_git_launch_states d); by destruct d
       end.
Qed.

Lemma hand_lease_over_frame pid holder l d a d' :
  hand_lease_over pid holder l d = Commit a d' -> exists ls, d' = d <| leases := ls |>.
Proof.
  unfold hand_lease_over, transfer_lease. intros H. repeat (case_match; simplify_eq/=); eauto.
Qed.

Lemma fence_project_frame pid sid generation identity holder at_ exp d b d' :
  fence_project pid sid generation identity holder at_ exp d = Ok (b, d') ->
  exists ls, d' = d <| leases := ls |>.
Proof. unfold fence_project. intros H. repeat (case_match; simplify_eq/=); eauto. Qed.

Lemma pin_unmanaged_sessions_frame pid d :
  exists ms, pin_unmanaged_sessions pid d = d <| session_git_modes := ms |>.
Proof.
  unfold pin_unmanaged_sessions. repeat case_match; eauto.
  all: exists (session_git_modes d); apply db_same_modes.
Qed.

(** Replace every intermediate database by the one it was computed from. *)
Ltac use_footprints :=
  repeat match goal with
  | H : record_worker_run _ _ _ = Ok _ |- _ =>
      apply record_worker_run_frame in H as (? & ? & ->)
  | H : insert_worker_or_ignore _ _ _ = Ok _ |- _ =>
      apply insert_worker_or_ignore_frame in H as [? ->]
  | H : claim_dispatching _ _ _ _ = _ |- _ => apply claim_dispatching_frame in H as [? ->]
  | H : complete_finalizing _ _ _ = Commit _ _ |- _ =>
      apply complete_finalizing_frame in H as (? & ? & ? & ? & ->)
  | H : acknowledged_run _ _ _ _ _ = _ |- _ => apply acknowledged_run_frame in H as [? ->]
  | H : insert_control _ _ _ = Ok _ |- _ => apply insert_control_frame in H as [? ->]
  | H : claim_new_or_planning _ _ _ = Ok _ |- _ =>
      apply claim_new_or_planning_frame in H as [? ->]
  | H : attach_journal _ _ _ _ _ = Ok _ |- _ => apply attach_journal_frame in H as (? & ? & ->)
  | H : fix_git_mode _ _ _ _ = Ok _ |- _ => apply fix_git_mode_frame in H as [? ->]
  | H : hand_lease_over _ _ _ _ = Commit _ _ |- _ => apply hand_lease_over_frame in H as [? ->]
  | H : fence_project _ _ _ _ _ _ _ _ = Ok _ |- _ => apply fence_project_frame in H as [? ->]
  | |- context [update_project_after_run ?o ?d] =>
      destruct (update_project_after_run_frame o d) as [? ->]
  | |- context [pin_unmanaged_sessions ?p ?d] =>
      destruct (pin_unmanaged_sessions_frame p d) as [? ->]
  end.

(** The operations on models and the supervisor's records. *)
Ltac unfold_models :=
  unfold upsert_model_provider, delete_model_provider, upsert_model_target,
  set_model_provider_enabled, set_model_provider_api_key, set_model_target_flags,
  set_model_target_reasoning, set_model_default, set_supervisor_settings,
  save_supervisor_review, clear_supervisor_review, clear_default_provider,
  clear_provider_of_projects, update_provider, update_target, update_settings, transaction,
  autocommit.

Ltac unfold_command :=
  unfold_models; unfold try_acquire_lease, try_acquire_git_finalization_lease, renew_git_finalization_lease,
  renew_lease, release_lease, reserve_worker, claim_worker, renew_worker,
  supersede_abandoned_workers_for_lease, mark_worker_service_cleaned, abandon_worker,
  finalize_worker, record_run_outcome, record_daemon_checkin, clear_daemon_checkin,
  clean_agent_history, mark_session_running, request_session_interrupt,
  cancel_session_interrupt_handoff, request_session_stop, request_interactive_session_stop,
  request_stopped_session_resume, begin_stopped_session_interactive, complete_session_stop,
  register_planning_session, register_shared_planning_session,
  reserve_idle_session_interactive_for_state, reserve_shared_session_interactive,
  cancel_idle_session_interactive, adopt_interactive_guardian,
  register_interactive_guardian_child, finish_interactive_guardian,
  recover_stale_interactive_guardian, complete_session_interrupt_handoff,
  recover_stale_running, recover_stale_stopping, recover_stale_handoff,
  claim_orphaned_session_supervision, finalize_reattached_automated_session,
  finalize_reaped_automated_session, ensure_pending_git_finalization_resume_requested,
  retire_completed_resume_request, clear_orphaned_resume_requested_session,
  clear_autonomous_push_resume_request, clear_running_session_control,
  register_known_session_with_child, record_git_launch_state,
  reclaim_unchanged_git_launch_state, delete_git_launch_state, create_git_finalization,
  compare_and_set_git_finalization, acknowledge_completed_git_finalization_session,
  enable_session_git, recover_unmanaged_session_git_mode,
  cancel_orphaned_working_git_finalization, retire_abandoned_unbound_git_finalization,
  retire_superseded_working_git_finalization, cancel_idle_working_git_finalization,
  begin_missing_git_recovery, finish_missing_git_recovery, set_project_enabled,
  set_project_enabled_for_path, clear_project_failure_backoff_for_path, set_project_git_mode,
  set_project_git_mode_for_path, set_project_codex_settings, record_project_scan,
  record_project_daemon_scan, register_project, unregister_project,
  recover_stale_automated_session_control, recover_stale_interactive_session_control,
  finalize_automated_session_after_exit, settle_exited, settle_cancelled_session,
  delete_idle_control, retire_reviewed_journal, stop_recovered_session,
  clear_cancelled_attempt_failure, advance_fence, claim_requested_resume,
  supersede_other_abandoned, clear_expired_lease, repair_recovery_fences, transaction,
  autocommit, txn_try, res_bind, insert_lease_or_ignore, update_control, delete_control,
  delete_lease_of, transfer_lease, refresh_unexpired_lease, update_journal, update_project,
  update_project_at.

(** [frame] proves [table (command d).2 = table d] for a table the command does
    not write. *)
Ltac frame :=
  unfold_command; use_footprints;
  repeat (case_match; simplify_eq/=); use_footprints; done.
