(* ===== verification/ControlInv.v ===== *)
(** Session controls as a state machine: what every operation may do to one
    control, and the shape each state keeps. *)
From S2P Require Import Prelude Sql AgentTypes Store Footprint Leases Workers Runs Sessions.
From S2P Require Import Handoff Journals Retire Recovery Holders Projects Models Registry.
From S2P Require Import Footprint.

(** ** The shape of a control in each state *)

Definition control_ok (sc : control_row) : Prop :=
  match sc_state sc with
  | Running => sc_interactive_holder sc = None
  | StopRequested => True
  | Stopped | ResumeRequested =>
      sc_child_pid sc = None /\ sc_interactive_holder sc = None
  | InterruptRequested => is_Some (sc_interactive_holder sc)
  | ReadyInteractive => sc_child_pid sc = None /\ is_Some (sc_interactive_holder sc)
  | Interactive =>
      exists h, sc_interactive_holder sc = Some h /\ sc_interactive_launch_token sc = Some h
  end.

(** ** The transitions a single command can make *)

Definition control_may_become (from to : AgentSessionControlState) : bool :=
  (from == to) || (to == Running) ||
  match from with
  | Running => bool_decide (to ∈ [StopRequested; InterruptRequested; ResumeRequested])
  | StopRequested => to == Stopped
  | InterruptRequested => to == ReadyInteractive
  | ReadyInteractive => bool_decide (to ∈ [Interactive; ResumeRequested; Stopped])
  | Interactive => bool_decide (to ∈ [StopRequested; Stopped; ResumeRequested])
  | Stopped => bool_decide (to ∈ [ResumeRequested; ReadyInteractive])
  | ResumeRequested => bool_decide (to ∈ [Stopped; ReadyInteractive])
  end.

Definition control_may_start (to : AgentSessionControlState) : bool :=
  bool_decide (to ∈ [Running; Stopped; ReadyInteractive; ResumeRequested]).

Definition control_rel (_ : Z * string) (o o' : option control_row) : Prop :=
  from_option control_ok True o ->
  from_option control_ok True o' /\
  match o, o' with
  | _, None => True
  | None, Some sc' => control_may_start (sc_state sc') = true
  | Some sc, Some sc' => control_may_become (sc_state sc) (sc_state sc') = true
  end.

#[export] Instance control_rel_refl k : Reflexive (control_rel k).
Proof.
  intros [sc|] Hok; [|done]. split; [done|]. unfold control_may_become.
  by rewrite bool_decide_true.
Qed.

Lemma control_rel_delete k o : control_rel k o None.
Proof. intros _. by destruct o. Qed.

Notation controls_evolve d d' :=
  (pointwise control_rel (session_controls d) (session_controls d')).

(** One control changes under the guard of a statement. *)
Ltac control_row_goal :=
  let sc := fresh "sc" in let Hsc := fresh "Hsc" in let Hp := fresh "Hp" in
  let Hok := fresh "Hok" in
  intros sc Hsc Hp Hok; destruct sc as [[] ? ? ? ? ? ? ?];
  unfold control_ok in *; simpl in *; guards;
  repeat match goal with H : _ /\ _ |- _ => destruct H | H : exists _, _ |- _ => destruct H end;
  simplify_eq/=; eauto; try done.

Ltac control_op :=
  op_cases;
  first
    [ unchanged
    | eapply pointwise_sql_update; [apply _|eassumption|control_row_goal]
    | eapply pointwise_sql_delete; [apply _|eassumption|intros; apply control_rel_delete] ].

(** ** Requests *)

Lemma request_session_interrupt_controls pid sid child tok holder now d :
  controls_evolve d (request_session_interrupt pid sid child tok holder now d).2.
Proof. unfold request_session_interrupt, update_control, runs_generation. control_op. Qed.

Lemma cancel_session_interrupt_handoff_controls pid sid holder now d :
  controls_evolve d (cancel_session_interrupt_handoff pid sid holder now d).2.
Proof. unfold cancel_session_interrupt_handoff, update_control. control_op. Qed.

Lemma request_session_stop_controls pid sid child tok now d :
  controls_evolve d (request_session_stop pid sid child tok now d).2.
Proof. unfold request_session_stop, update_control, runs_generation. control_op. Qed.

Lemma request_interactive_session_stop_controls pid sid child holder now d :
  controls_evolve d (request_interactive_session_stop pid sid child holder now d).2.
Proof. unfold request_interactive_session_stop, update_control. control_op. Qed.

Lemma request_stopped_session_resume_controls pid sid tok now d :
  controls_evolve d (request_stopped_session_resume pid sid tok now d).2.
Proof. unfold request_stopped_session_resume, update_control, settle. control_op. Qed.

Lemma begin_stopped_session_interactive_controls pid sid holder tok now d :
  controls_evolve d (begin_stopped_session_interactive pid sid holder tok now d).2.
Proof. unfold begin_stopped_session_interactive, update_control, reserve_for. control_op. Qed.

Lemma complete_session_stop_controls pid sid tok now d :
  controls_evolve d (complete_session_stop pid sid tok now d).2.
Proof. unfold complete_session_stop, update_control, settle. control_op. Qed.

(** ** Registration of running sessions *)

Lemma registered_control_rel k child tok out err now (o : option control_row) :
  control_rel k o (Some (registered_control child tok out err now o)).
Proof.
  intros Hok. destruct o as [sc|]; [|done]. destruct sc as [[] ? ? ? ? ? ? ?];
    unfold control_ok, registered_control in *; simpl in *;
    destruct (sql_eq _ _); simpl in *; split; auto.
Qed.

Lemma fix_git_mode_controls k mode tok d d' :
  fix_git_mode k mode tok d = Ok d' -> session_controls d' = session_controls d.
Proof. unfold fix_git_mode. intros H. repeat (case_match; simplify_eq/=); done. Qed.

Lemma attach_journal_controls k mode tok at_ d d' :
  attach_journal k mode tok at_ d = Ok d' -> session_controls d' = session_controls d.
Proof. unfold attach_journal. intros H. repeat (case_match; simplify_eq/=); done. Qed.

Lemma mark_session_running_controls pid sid child tok out err mode now d :
  controls_evolve d (mark_session_running pid sid child tok out err mode now d).2.
Proof.
  unfold mark_session_running, transaction, txn_try.
  set (sc := registered_control _ _ _ _ _ _).
  assert (Hreg : pointwise control_rel (session_controls d)
                   (<[(pid, sid) := sc]> (session_controls d))).
  { apply pointwise_insert; [apply _|]. apply registered_control_rel. }
  repeat case_match; simplify_eq/=; try (unchanged); try done.
  all: repeat match goal with
       | H : attach_journal _ _ _ _ _ = Ok _ |- _ => apply attach_journal_controls in H as ->
       | H : fix_git_mode _ _ _ _ = Ok _ |- _ => apply fix_git_mode_controls in H as ->
       end; done.
Qed.

Lemma insert_control_controls k sc d n d' :
  insert_control k sc d = Ok (n, d') -> control_may_start (sc_state sc) = true ->
  control_ok sc -> controls_evolve d d'.
Proof.
  unfold insert_control. intros H Hs Hok. repeat (case_match; simplify_eq/=).
  - unchanged.
  - apply pointwise_insert; [apply _|]. by rewrite H0.
Qed.

Lemma register_planning_session_controls pid sid holder now d :
  controls_evolve d (register_planning_session pid sid holder now d).2.
Proof.
  unfold register_planning_session, autocommit, res_bind.
  repeat (case_match; simplify_eq/=); try (unchanged).
  all: by eapply insert_control_controls.
Qed.

Lemma register_shared_planning_session_controls pid sid now d :
  controls_evolve d (register_shared_planning_session pid sid now d).2.
Proof.
  unfold register_shared_planning_session, autocommit, res_bind.
  repeat (case_match; simplify_eq/=); try (unchanged).
  by eapply insert_control_controls.
Qed.

Lemma reserve_idle_controls pid sid holder tok expected now d :
  controls_evolve d
    (reserve_idle_session_interactive_for_state pid sid holder tok expected now d).2.
Proof.
  unfold reserve_idle_session_interactive_for_state, autocommit, update_control, reserve_for,
    res_bind.
  destruct (starts_with _ _).
  - op_cases. eapply pointwise_sql_update; [apply _|eassumption|].
    intros sc Hsc Hp Hok. repeat (apply andb_true_iff in Hp as [Hp _]).
    apply bool_decide_eq_true in Hp. destruct sc as [[] ? ? ? ? ? ? ?]; simpl in *;
      rewrite ?elem_of_cons in Hp; split; try done; set_solver.
  - repeat (case_match; simplify_eq/=); try (unchanged).
    eapply insert_control_controls; [done|done|]. split; [done|by eexists].
Qed.

Lemma reserve_shared_controls pid sid holder tok manual now d :
  controls_evolve d (reserve_shared_session_interactive pid sid holder tok manual now d).2.
Proof.
  unfold reserve_shared_session_interactive, transaction, update_control, reserve_for, txn_try.
  destruct (is_stopped_shared_interactive_holder _).
  - op_cases. eapply pointwise_sql_update; [apply _|eassumption|].
    intros sc Hsc Hp Hok. repeat (apply andb_true_iff in Hp as [Hp _]).
    apply orb_true_iff in Hp as [Hp|Hp]; unfold resume_is_unowned in *; guards;
      destruct sc as [[] ? ? ? ? ? ? ?]; simpl in *; split; eauto; done.
  - repeat (case_match; simplify_eq/=); try (unchanged).
    eapply insert_control_controls; [done|done|]. split; [done|by eexists].
Qed.

Lemma cancel_idle_controls pid sid holder now d :
  controls_evolve d (cancel_idle_session_interactive pid sid holder now d).2.
Proof.
  unfold cancel_idle_session_interactive, update_control, delete_control, settle. control_op.
Qed.

(** ** Guardians and handoffs *)

Lemma adopt_controls pid sid from guardian at_ exp now d :
  controls_evolve d (adopt_interactive_guardian pid sid from guardian at_ exp now d).2.
Proof.
  unfold adopt_interactive_guardian, transaction, transfer_lease, update_control. control_op.
Qed.

Lemma register_guardian_child_controls pid sid guardian child now exp d :
  controls_evolve d (register_interactive_guardian_child pid sid guardian child now exp d).2.
Proof.
  unfold register_interactive_guardian_child, transaction, refresh_unexpired_lease,
    update_control. control_op.
Qed.

Lemma finish_guardian_controls pid sid guardian disposition now d :
  controls_evolve d (finish_interactive_guardian pid sid guardian disposition now d).2.
Proof.
  unfold finish_interactive_guardian, transaction, update_control, settle, delete_lease_of,
    guardian_terminal_state.
  destruct disposition; control_op.
Qed.

Lemma recover_stale_guardian_controls pid sid guardian child disposition now d :
  controls_evolve d
    (recover_stale_interactive_guardian pid sid guardian child disposition now d).2.
Proof.
  unfold recover_stale_interactive_guardian, transaction, update_control, settle,
    delete_lease_of, guardian_terminal_state.
  destruct disposition; control_op.
Qed.

Lemma complete_interrupt_handoff_controls pid sid tok from at_ exp now d :
  controls_evolve d (complete_session_interrupt_handoff pid sid tok from at_ exp now d).2.
Proof.
  unfold complete_session_interrupt_handoff, transaction, transfer_lease, update_control,
    interrupted_generation. control_op.
Qed.

(** ** Recovery *)

Lemma recover_stale_running_controls pid sid child tok now d :
  controls_evolve d (recover_stale_running pid sid child tok now d).2.
Proof.
  unfold recover_stale_running, recover_stale_automated_session_control, update_control, settle.
  control_op.
Qed.

Lemma recover_stale_stopping_controls pid sid child tok now d :
  controls_evolve d (recover_stale_stopping pid sid child tok now d).2.
Proof.
  unfold recover_stale_stopping, recover_stale_automated_session_control, update_control,
    settle. control_op.
Qed.

Lemma recover_stale_handoff_controls pid sid launched holder now d :
  controls_evolve d (recover_stale_handoff pid sid launched holder now d).2.
Proof.
  unfold recover_stale_handoff, recover_stale_interactive_session_control, update_control,
    settle. destruct launched; control_op.
Qed.

Lemma settle_exited_controls pid sid state terminal child tok holder now d a d' :
  exit_terminal_state state = Some terminal ->
  settle_exited pid sid state terminal child tok holder now d = Commit a d' ->
  controls_evolve d d'.
Proof.
  unfold settle_exited, update_control, delete_lease_of, exit_terminal_state. intros Ht H.
  destruct state; simplify_eq/=; repeat (case_match; simplify_eq/=);
    (eapply pointwise_sql_update; [apply _|eassumption|control_row_goal]).
Qed.

Lemma hand_lease_over_controls pid holder l d a d' :
  hand_lease_over pid holder l d = Commit a d' -> session_controls d' = session_controls d.
Proof.
  unfold hand_lease_over, transfer_lease. intros H. by repeat (case_match; simplify_eq/=).
Qed.

Lemma finalize_exit_controls pid child tok holder re at_ exp now d :
  controls_evolve d
    (finalize_automated_session_after_exit pid child tok holder re at_ exp now d).2.
Proof.
  unfold finalize_automated_session_after_exit, transaction.
  repeat case_match; simplify_eq/=; try (unchanged).
  all: try match goal with
       | H : hand_lease_over _ _ _ _ = Commit _ _ |- _ =>
           apply hand_lease_over_controls in H; rewrite <- H
       end.
  all: by eapply settle_exited_controls.
Qed.

Lemma ensure_resume_controls pid sid now d :
  controls_evolve d (ensure_pending_git_finalization_resume_requested pid sid now d).2.
Proof.
  unfold ensure_pending_git_finalization_resume_requested, transaction, update_control, txn_try,
    insert_control.
  repeat case_match; simplify_eq/=; try (unchanged).
  all: match goal with
       | H : sql_update _ idle_resume _ _ = _ |- _ => rename H into Hu
       end.
  all: try (eapply pointwise_sql_update; [apply _|exact Hu|]; unfold idle_resume;
            control_row_goal).
  all: unfold sql_update in Hu;
    repeat (case_match; simplify_eq/=); rewrite ?lookup_insert_eq in *; try done;
    (apply pointwise_insert; [apply _|]);
    by match goal with H : _ !! _ = None |- _ => rewrite H end.
Qed.

Lemma retire_completed_resume_controls expected now d :
  controls_evolve d (retire_completed_resume_request expected now d).2.
Proof.
  unfold retire_completed_resume_request, update_control, control_is_unowned.
  destruct (_ || _); [unchanged|]. op_cases.
  eapply pointwise_sql_update; [apply _|eassumption|].
  intros sc Hsc Hp Hok. do 5 (apply andb_true_iff in Hp as [Hp _]). guards.
  destruct sc as [[] ? ? ? ? ? ? ?]; simpl in *; simplify_eq/=. by split.
Qed.

Lemma clear_orphaned_resume_controls pid sid now d :
  controls_evolve d (clear_orphaned_resume_requested_session pid sid now d).2.
Proof.
  unfold clear_orphaned_resume_requested_session, transaction, delete_control. control_op.
Qed.

Lemma clear_push_resume_controls pid sid d :
  controls_evolve d (clear_autonomous_push_resume_request pid sid d).2.
Proof. unfold clear_autonomous_push_resume_request, delete_control. control_op. Qed.

Lemma clear_running_controls pid sid tok d :
  controls_evolve d (clear_running_session_control pid sid tok d).2.
Proof. unfold clear_running_session_control, transaction, delete_control. control_op. Qed.

Lemma register_known_controls r now exp d :
  controls_evolve d (register_known_session_with_child r now exp d).2.
Proof.
  unfold register_known_session_with_child, transaction, refresh_unexpired_lease,
    claim_requested_resume, claim_new_or_planning, update_control, insert_control, txn_try.
  op_cases; try (unchanged).
  - eapply pointwise_sql_update; [apply _|eassumption|control_row_goal].
  - eapply pointwise_sql_update; [apply _|eassumption|]. unfold control_is_unowned.
    control_row_goal.
  - apply pointwise_insert; [apply _|].
    by match goal with H : _ !! _ = None |- _ => rewrite H end.
Qed.

(** ** Journals that touch the session's control *)

Lemma advance_fence_controls k generation u d :
  controls_evolve d (advance_fence k generation u d).
Proof.
  unfold advance_fence, update_control, delete_control, recovery_fence, control_is_unowned.
  control_op.
Qed.

Lemma compare_and_set_controls pid sid generation u d :
  controls_evolve d (compare_and_set_git_finalization pid sid generation u d).2.
Proof.
  unfold compare_and_set_git_finalization, transaction, update_journal, txn_try.
  repeat case_match; simplify_eq/=; try (unchanged).
  all: match goal with
  | |- context [advance_fence ?k ?g ?u ?d'] => apply (advance_fence_controls k g u d')
  end.
Qed.

Lemma acknowledge_controls pid sid at_ d :
  controls_evolve d (acknowledge_completed_git_finalization_session pid sid at_ d).2.
Proof.
  unfold acknowledge_completed_git_finalization_session, transaction, update_journal,
    delete_control, late_resume.
  repeat case_match; simplify_eq/=; try (unchanged).
  all: try match goal with
    | H : acknowledged_run _ _ _ _ _ = _ |- _ => apply acknowledged_run_frame in H as [? ->]
    end.
  all: try match goal with
    | |- context [update_project_after_run ?o ?d] =>
        destruct (update_project_after_run_frame o d) as [? ->]
    end.
  all: repeat op_split; simplify_eq/=.
  all: eapply pointwise_sql_delete; [apply _|eassumption|intros; apply control_rel_delete].
Qed.

(** ** Retirement and recovery *)

Lemma clear_cancelled_frame pid sid at_ d :
  exists ps, clear_cancelled_attempt_failure pid sid at_ d = d <| projects := ps |>.
Proof. unfold clear_cancelled_attempt_failure. eauto. Qed.

Lemma delete_control_controls k p d : controls_evolve d (delete_control k p d).1.
Proof. unfold delete_control. control_op. Qed.

Lemma enable_session_git_controls n holder now d :
  controls_evolve d (enable_session_git n holder now d).2.
Proof. unfold enable_session_git, transaction. control_op. Qed.

Lemma recover_unmanaged_controls pid sid err d :
  controls_evolve d (recover_unmanaged_session_git_mode pid sid err d).2.
Proof. unfold recover_unmanaged_session_git_mode. control_op. Qed.

Lemma cancel_orphaned_controls expected holder reason at_ now d :
  controls_evolve d (cancel_orphaned_working_git_finalization expected holder reason at_ now d).2.
Proof.
  unfold cancel_orphaned_working_git_finalization, transaction, update_journal.
  op_cases; try (unchanged).
  all: match goal with
       | |- context [delete_control ?k ?p ?d'] => apply (delete_control_controls k p d')
       end.
Qed.

Lemma retire_abandoned_controls pid sid generation completed reason at_ d :
  controls_evolve d
    (retire_abandoned_unbound_git_finalization pid sid generation completed reason at_ d).2.
Proof.
  unfold retire_abandoned_unbound_git_finalization, transaction, delete_idle_control,
    clear_cancelled_attempt_failure, update_journal, delete_control. control_op.
Qed.

Lemma retire_superseded_controls expected completed at_ d :
  controls_evolve d (retire_superseded_working_git_finalization expected completed at_ d).2.
Proof.
  unfold retire_superseded_working_git_finalization, transaction,
    clear_cancelled_attempt_failure, update_journal, delete_control.
  destruct (supersedes _ _); [|unchanged]. control_op.
Qed.

(** A control that blocks nothing is stopped or queued, and owned by nobody. *)
Lemma not_blocking_idle sc :
  control_blocks_planning sc = false ->
  (sc_state sc = Stopped \/ sc_state sc = ResumeRequested) /\ sc_child_pid sc = None /\
  sc_interactive_holder sc = None /\ sc_interactive_launch_token sc = None.
Proof.
  unfold control_blocks_planning, control_is_unowned. intros H. guards.
  set_solver.
Qed.

Lemma any_blocking_false pid d sid sc :
  any_blocking_control pid d = false -> session_controls d !! (pid, sid) = Some sc ->
  control_blocks_planning sc = false.
Proof.
  unfold any_blocking_control. rewrite sql_exists_false. intros H Hsc.
  specialize (H _ _ Hsc). simpl in H. by rewrite bool_decide_true in H.
Qed.

Lemma stop_idle_rel k sc sc' :
  control_blocks_planning sc = false -> sc_state sc' = Stopped ->
  sc_child_pid sc' = sc_child_pid sc -> sc_interactive_holder sc' = sc_interactive_holder sc ->
  control_rel k (Some sc) (Some sc').
Proof.
  intros (Hs & Hc & Hh & _)%not_blocking_idle Hs' Hc' Hh' _.
  simpl. unfold control_ok. rewrite Hs', Hc', Hh'. by destruct Hs as [-> | ->].
Qed.

Lemma settle_cancelled_controls k cancellation at_ d d0 :
  session_controls d = session_controls d0 ->
  (forall sc, session_controls d0 !! k = Some sc -> cancellation = Deletion ->
     control_blocks_planning sc = false) ->
  controls_evolve d0 (settle_cancelled_session k cancellation at_ d).
Proof.
  intros Hd Hidle. rewrite <- Hd in *.
  unfold settle_cancelled_session, update_control, delete_idle_control, delete_control.
  op_cases.
  - eapply pointwise_sql_delete; [apply _|eassumption|intros; apply control_rel_delete].
  - eapply pointwise_sql_update; [apply _|eassumption|]. intros sc Hsc _.
    apply stop_idle_rel; try done. simplify_eq. by apply Hidle.
  - apply pointwise_insert; [apply _|].
    by match goal with H : _ !! _ = None |- _ => rewrite H end.
Qed.

Lemma can_delete_idle d pid sid generation identity now :
  can_delete_idle_task pid sid generation identity now d = true ->
  forall sc, session_controls d !! (pid, sid) = Some sc -> control_blocks_planning sc = false.
Proof.
  unfold can_delete_idle_task, control_is_idle. intros H sc Hsc.
  rewrite Hsc in H. destruct (git_finalizations d !! (pid, sid)); [|done]. guards. done.
Qed.

Lemma fence_project_idle pid sid generation identity holder at_ exp d b d' :
  fence_project pid sid generation identity holder at_ exp d = Ok (b, d') ->
  session_controls d' = session_controls d /\ any_blocking_control pid d = false.
Proof. unfold fence_project. intros H. by repeat (case_match; simplify_eq/=). Qed.

Lemma cancel_idle_journal_controls pid sid generation identity holder at_ exp cancellation d :
  controls_evolve d
    (cancel_idle_working_git_finalization pid sid generation identity holder at_ exp
       cancellation d).2.
Proof.
  unfold cancel_idle_working_git_finalization, transaction, txn_try, update_journal.
  destruct (_ && _) eqn:Hscoped; [|destruct (fence_project _ _ _ _ _ _ _ _) as [[b d1]|e] eqn:Hf].
  - cbn -[settle_cancelled_session]. op_cases; try (unchanged).
    apply settle_cancelled_controls; [done|]. intros sc Hsc _. guards.
    by eapply can_delete_idle.
  - apply fence_project_idle in Hf as [Hsame Hf].
    destruct b; cbn -[settle_cancelled_session].
    + op_cases; try (unchanged).
      apply settle_cancelled_controls; [done|]. intros sc Hsc _. by eapply any_blocking_false.
    + rewrite Hsame. unchanged.
  - unchanged.
Qed.

Lemma recovery_not_blocked q d sc :
  recovery_blocked q d = false ->
  session_controls d !! (q_project_id q, q_session_id q) = Some sc ->
  control_blocks_planning sc = false.
Proof.
  unfold recovery_blocked. intros H Hsc. apply orb_false_iff in H as [_ H].
  rewrite sql_exists_false in H. specialize (H _ _ Hsc). simpl in H.
  rewrite bool_decide_true in H by done. simpl in H.
  apply orb_false_iff in H as [Hu H]. unfold control_blocks_planning. rewrite Hu, orb_false_r.
  apply negb_false_iff, bool_decide_eq_true. apply andb_false_iff in H as [H|H]; guards.
  - rewrite H. set_solver.
  - destruct (sc_state sc); try done; set_solver.
Qed.

Lemma begin_recovery_controls q d :
  controls_evolve d (begin_missing_git_recovery q d).2.
Proof.
  unfold begin_missing_git_recovery, transaction, recovery_refused.
  repeat case_match; simplify_eq/=; try (unchanged).
  match goal with H : recovery_blocked _ _ = false |- _ => rename H into Hb end.
  set (d1 := retire_reviewed_journal q d).
  assert (Hd1 : session_controls d1 = session_controls d).
  { unfold d1, retire_reviewed_journal, update_journal. by repeat op_split. }
  rewrite Hd1. apply pointwise_insert; [apply _|].
  destruct (session_controls d !! _) as [sc|] eqn:Hsc; [|done].
  apply stop_idle_rel; [by eapply recovery_not_blocked|done..].
Qed.

Lemma finish_recovery_controls pid holder now d :
  controls_evolve d (finish_missing_git_recovery pid holder now d).2.
Proof. unfold finish_missing_git_recovery. control_op. Qed.

(** ** The remaining commands leave controls alone, or only rename a fence *)

Lemma repair_recovery_fences_controls pid now d :
  controls_evolve d (repair_recovery_fences pid now d).
Proof.
  unfold repair_recovery_fences. intros k. cbn [session_controls].
  change (control_rel k (session_controls d !! k)
    ((sql_update_where (stale_recovery_fence d pid)
       (fun k sc => sc <| sc_run_token := recovery_token <$> pending_generation d k |>
                       <| sc_updated_at := now |>) (session_controls d)).1 !! k)).
  rewrite lookup_update_where. destruct (session_controls d !! k) as [sc|]; [|reflexivity].
  simpl. destruct (stale_recovery_fence _ _ _ _); [|reflexivity].
  destruct sc as [[] ? ? ? ? ? ? ?]; done.
Qed.

Lemma try_acquire_finalization_controls pid holder at_ exp reclaim d :
  controls_evolve d (try_acquire_git_finalization_lease pid holder at_ exp reclaim d).2.
Proof.
  unfold try_acquire_git_finalization_lease, transaction, insert_lease_or_ignore.
  pose proof (repair_recovery_fences_controls pid at_ d) as Hr.
  repeat case_match; simplify_eq/=; try done; unchanged.
Qed.

Ltac run_frame :=
  match goal with
  | H : record_worker_run _ _ _ = Ok _ |- _ =>
      apply record_worker_run_frame in H as (? & ? & ->)
  end.

Lemma worker_commands_controls :
  (forall r claim d, session_controls (reserve_worker r claim d).2 = session_controls d) /\
  (forall token p at_ d, session_controls (claim_worker token p at_ d).2 = session_controls d) /\
  (forall token p at_ e d, session_controls (renew_worker token p at_ e d).2 = session_controls d) /\
  (forall a d, session_controls (abandon_worker a d).2 = session_controls d) /\
  (forall f d, session_controls (finalize_worker f d).2 = session_controls d).
Proof.
  repeat split; intros.
  - unfold reserve_worker, transaction, insert_worker_or_ignore, txn_try,
      supersede_other_abandoned, claim_dispatching.
    repeat (case_match; simplify_eq/=); done.
  - unfold claim_worker, transaction, claim_dispatching. repeat (case_match; simplify_eq/=); done.
  - unfold renew_worker, transaction. repeat (case_match; simplify_eq/=); done.
  - unfold abandon_worker, transaction, txn_try.
    repeat (case_match; simplify_eq/=); try done; by run_frame.
  - unfold finalize_worker, complete_finalizing, transaction, txn_try.
    repeat (case_match; simplify_eq/=); try done; by run_frame.
Qed.

#[export] Hint Resolve
  try_acquire_finalization_controls mark_session_running_controls
  request_session_interrupt_controls cancel_session_interrupt_handoff_controls
  request_session_stop_controls request_interactive_session_stop_controls
  request_stopped_session_resume_controls begin_stopped_session_interactive_controls
  complete_session_stop_controls register_planning_session_controls
  register_shared_planning_session_controls reserve_idle_controls reserve_shared_controls
  cancel_idle_controls adopt_controls register_guardian_child_controls finish_guardian_controls
  recover_stale_guardian_controls complete_interrupt_handoff_controls
  recover_stale_running_controls recover_stale_stopping_controls recover_stale_handoff_controls
  ensure_resume_controls retire_completed_resume_controls clear_orphaned_resume_controls
  clear_push_resume_controls clear_running_controls register_known_controls
  compare_and_set_controls acknowledge_controls enable_session_git_controls
  recover_unmanaged_controls cancel_orphaned_controls retire_abandoned_controls
  retire_superseded_controls cancel_idle_journal_controls begin_recovery_controls
  finish_recovery_controls finalize_exit_controls : controls.

Lemma record_run_outcome_controls o d : controls_evolve d (record_run_outcome o d).2.
Proof.
  unfold record_run_outcome, autocommit.
  destruct (project_exists d _); [|unchanged].
  match goal with
  | |- context [update_project_after_run ?o ?d] =>
      destruct (update_project_after_run_frame o d) as [? ->]
  end. unchanged.
Qed.

Lemma finalize_reattached_controls expected holder at_ exp now d :
  controls_evolve d (finalize_reattached_automated_session expected holder at_ exp now d).2.
Proof.
  unfold finalize_reattached_automated_session.
  repeat case_match; auto with controls; unchanged.
Qed.

Lemma finalize_reaped_controls pid child tok holder at_ exp now d :
  controls_evolve d (finalize_reaped_automated_session pid child tok holder at_ exp now d).2.
Proof. unfold finalize_reaped_automated_session. auto with controls. Qed.

Lemma set_project_git_mode_controls pending pid mode now d :
  controls_evolve d (set_project_git_mode pending pid mode now d).2.
Proof.
  unfold set_project_git_mode, transaction, update_project.
  destruct (pin_unmanaged_sessions_frame pid d) as [ms ->].
  repeat (case_match; simplify_eq/=); unchanged.
Qed.

Lemma set_project_git_mode_at_controls pending path mode now d :
  controls_evolve d (set_project_git_mode_for_path pending path mode now d).2.
Proof.
  unfold set_project_git_mode_for_path, transaction, update_project_at.
  destruct (project_id_of_path path d) as [pid|];
    [destruct (pin_unmanaged_sessions_frame pid d) as [ms ->]|];
    repeat (case_match; simplify_eq/=); unchanged.
Qed.

Lemma unregister_project_controls own_pid running path now d :
  controls_evolve d (unregister_project own_pid running path now d).2.
Proof.
  unfold unregister_project, transaction.
  repeat case_match; simplify_eq/=; try (unchanged).
  all: apply pointwise_filter; [apply _|]; intros; apply control_rel_delete.
Qed.

#[export] Hint Resolve record_run_outcome_controls finalize_reattached_controls
  finalize_reaped_controls set_project_git_mode_controls set_project_git_mode_at_controls
  unregister_project_controls : controls.

(** Operations on the other tables. *)
Ltac other_table :=
  unfold_models; unfold try_acquire_lease, renew_git_finalization_lease, renew_lease, release_lease,
  supersede_abandoned_workers_for_lease, mark_worker_service_cleaned, record_run_outcome,
  record_daemon_checkin, clear_daemon_checkin, clean_agent_history,
  claim_orphaned_session_supervision, record_git_launch_state,
  reclaim_unchanged_git_launch_state, delete_git_launch_state, create_git_finalization,
  set_project_enabled, set_project_enabled_for_path, clear_project_failure_backoff_for_path,
  set_project_git_mode, set_project_git_mode_for_path, set_project_codex_settings,
  record_project_scan, record_project_daemon_scan, register_project, unregister_project,
  transaction, autocommit, insert_lease_or_ignore, update_project_at, update_project;
  repeat (case_match; simplify_eq/=); unchanged.

(** Every command moves every control along the state machine and keeps its
    shape. *)
Lemma exec_controls c d : controls_evolve d (exec c d).
Proof.
  pose proof worker_commands_controls as (Hw1 & Hw2 & Hw3 & Hw4 & Hw5).
  destruct c; cbn [exec]; rewrite ?Hw1, ?Hw2, ?Hw3, ?Hw4, ?Hw5; auto with controls;
    try (unchanged).
  all: other_table.
Qed.
