(* ===== verification/WorkerInv.v ===== *)
(** Workers: the shape a worker keeps in each state, the fields that never
    change, that at most one unfinished worker owns a project, and that a worker and
    the run recorded for it name each other. *)
From S2P Require Import Prelude Sql AgentTypes Store Footprint Leases Workers Runs Sessions.
From S2P Require Import Handoff Journals Retire Recovery Holders Projects Models Registry.
From S2P Require Import Footprint.

(** ** The shape of a worker in each state

    [finalizing] exists only inside the transaction that completes the worker. *)

Definition worker_ok (token : string) (w : worker_row) : Prop :=
  w_lease_holder w = worker_lease_holder token /\
  match w_state w with
  | Dispatching => w_worker_pid w = None /\ w_run_id w = None
  | WRunning => is_Some (w_worker_pid w) /\ w_run_id w = None
  | WFinalizing => False
  | WCompleted | Abandoned | Superseded => is_Some (w_run_id w) /\ is_Some (w_finished_at w)
  end.

(** What a reservation fixes for the life of the worker. *)
Definition worker_identity (w : worker_row) :=
  (w_project_id w, w_lease_holder w, w_service_label w, w_protocol_version w,
   (w_binary_path w, w_command_arguments w, w_path_env w, w_codex_path w),
   (w_task_selection w, w_resume_session_id w, w_created_at w)).

Section Rel.
(** The tokens under which the command may create a worker, and whether it
    may delete workers. *)
Context (creates : string -> Prop) (deletes : Prop).

Definition worker_rel (token : string) (o o' : option worker_row) : Prop :=
  (from_option (worker_ok token) True o -> from_option (worker_ok token) True o') /\
  match o, o' with
  | None, None => True
  | Some _, None => deletes
  | None, Some _ => creates token
  | Some w, Some w' =>
      (creates token /\ deletes) \/
      worker_identity w' = worker_identity w /\
      (worker_state_active (w_state w') = true -> worker_state_active (w_state w) = true)
  end.

#[export] Instance worker_rel_refl token : Reflexive (worker_rel token).
Proof. intros [w|]; split; auto. Qed.

#[export] Instance worker_rel_trans token : Transitive (worker_rel token).
Proof.
  intros o1 o2 o3 [H1 H1'] [H2 H2']. split; [auto|].
  destruct o1, o2, o3; try done; auto.
  destruct H1' as [?|[I1 A1]], H2' as [?|[I2 A2]]; auto.
  right. split; [congruence|auto].
Qed.
End Rel.

Notation workers_evolve creates deletes d d' :=
  (pointwise (worker_rel creates deletes) (agent_workers d) (agent_workers d')).

Ltac worker_row_goal :=
  let w := fresh "w" in let Hw := fresh "Hw" in let Hp := fresh "Hp" in
  intros w Hw Hp; destruct w as [? [] ? ? ? ? ? ? ? ? ? ? ? ? ? ? ? ? ?];
  unfold worker_rel, worker_ok, worker_identity in *; simpl in *; guards;
  repeat match goal with H : _ /\ _ |- _ => destruct H end; simplify_eq/=;
  (split; [intros; destruct_and?; repeat split; try done; eauto|right; split; done]).

Ltac worker_op :=
  op_cases;
  first
    [ unchanged
    | eapply pointwise_sql_update; [apply _|eassumption|worker_row_goal]
    | eapply pointwise_update_where; [apply _|eassumption|intros ?; worker_row_goal] ].

(** ** Claim, heartbeat and housekeeping *)

Lemma claim_dispatching_workers creates deletes token p at_ d d' n :
  claim_dispatching token p at_ d = (d', n) -> workers_evolve creates deletes d d'.
Proof.
  unfold claim_dispatching. intros H. case_match; simplify_eq/=.
  eapply pointwise_sql_update; [apply _|eassumption|worker_row_goal].
Qed.

Lemma claim_worker_workers creates deletes token p at_ d :
  workers_evolve creates deletes d (claim_worker token p at_ d).2.
Proof.
  unfold claim_worker, transaction. repeat (case_match; simplify_eq/=);
    by eapply claim_dispatching_workers.
Qed.

Lemma renew_worker_workers creates deletes token p at_ e d :
  workers_evolve creates deletes d (renew_worker token p at_ e d).2.
Proof. unfold renew_worker, transaction. worker_op. Qed.

Lemma supersede_for_lease_workers creates deletes pid holder d :
  workers_evolve creates deletes d (supersede_abandoned_workers_for_lease pid holder d).2.
Proof. unfold supersede_abandoned_workers_for_lease. worker_op. Qed.

Lemma mark_cleaned_workers creates deletes token at_ d :
  workers_evolve creates deletes d (mark_worker_service_cleaned token at_ d).2.
Proof. unfold mark_worker_service_cleaned. worker_op. Qed.

(** ** Reservation, abandonment, finalization *)

Lemma insert_worker_workers token r d n d' :
  insert_worker_or_ignore token (reserved_worker r) d = Ok (n, d') ->
  token = res_worker_token r -> workers_evolve (eq token) False d d'.
Proof.
  unfold insert_worker_or_ignore, worker_conflicts. intros H ->.
  repeat (case_match; simplify_eq/=); try unchanged.
  all: apply pointwise_insert; [apply _|].
  all: destruct (agent_workers d !! _); [done|]. by repeat split.
Qed.

Lemma supersede_other_workers creates deletes pid token d :
  workers_evolve creates deletes d (supersede_other_abandoned pid token d).
Proof.
  unfold supersede_other_abandoned. cbn [agent_workers].
  eapply pointwise_update_where; [apply _|apply surjective_pairing|]. intros ?.
  worker_row_goal.
Qed.

Lemma reserve_worker_workers r claim d :
  workers_evolve (eq (res_worker_token r)) False d (reserve_worker r claim d).2.
Proof.
  unfold reserve_worker, transaction, txn_try.
  repeat case_match; simplify_eq/=; try unchanged.
  all: match goal with
       | H : insert_worker_or_ignore _ _ _ = Ok (_, ?d1) |- _ =>
           apply insert_worker_workers in H as Hins; [|done]
       end.
  all: match goal with
       | H : sql_update _ _ _ (leases ?d1) = (?g, _) |- _ =>
           pose proof (supersede_other_workers (eq (res_worker_token r)) False
                         (res_project_id r) (res_worker_token r) (d1 <| leases := g |>)) as Hsup
       end.
  all: eapply pointwise_trans; [apply _|exact Hins|].
  - eapply pointwise_trans; [apply _|exact Hsup|]. by eapply claim_dispatching_workers.
  - exact Hsup.
Qed.

Lemma record_worker_run_workers token o d id d' :
  record_worker_run token o d = Ok (id, d') -> agent_workers d' = agent_workers d.
Proof. intros (? & ? & ->)%record_worker_run_frame. done. Qed.

Lemma abandon_worker_workers creates deletes a d :
  workers_evolve creates deletes d (abandon_worker a d).2.
Proof.
  unfold abandon_worker, transaction, txn_try.
  repeat case_match; simplify_eq/=; try unchanged.
  all: match goal with
       | H : record_worker_run _ _ _ = Ok _ |- _ =>
           apply record_worker_run_workers in H; rewrite <- H
       end.
  all: eapply pointwise_sql_update; [apply _|eassumption|].
  all: intros w' _ _; split; [|right; by split]; by intros [? _].
Qed.

Lemma finalize_worker_workers creates deletes f d :
  workers_evolve creates deletes d (finalize_worker f d).2.
Proof.
  unfold finalize_worker, complete_finalizing, transaction, txn_try.
  repeat case_match; simplify_eq/=; try unchanged.
  match goal with
  | H : record_worker_run _ _ _ = Ok _ |- _ =>
      apply record_worker_run_workers in H as Hr; simpl in Hr
  end.
  unfold sql_update in *. rewrite Hr in *.
  repeat (case_match; simplify_eq/=); guards; try done.
  match goal with
  | H : <[_ := _]> _ = agent_workers _ |- _ => rewrite <- H in *
  end.
  rewrite ?lookup_insert_eq, ?insert_insert_eq in *; simplify_eq/=.
  apply pointwise_insert; [apply _|].
  match goal with H : agent_workers d !! _ = Some _ |- _ => rewrite H end.
  split; [|right; split; [done|by intros]]. by intros [? _].
Qed.

(** ** Every command *)

Definition creates_worker (c : command) : string -> Prop :=
  match c with ReserveWorker r _ => eq (res_worker_token r) | _ => fun _ => False end.

Definition deletes_workers (c : command) : Prop :=
  match c with CleanAgentHistory _ | UnregisterProject _ _ _ _ => True | _ => False end.

Lemma clean_workers at_ d : workers_evolve (fun _ => False) True d (clean_agent_history at_ d).2.
Proof.
  unfold clean_agent_history, transaction.
  repeat (case_match; simplify_eq/=); try unchanged.
  apply pointwise_empty; [apply _|]. by intros.
Qed.

Lemma unregister_workers own_pid running path now d :
  workers_evolve (fun _ => False) True d (unregister_project own_pid running path now d).2.
Proof.
  unfold unregister_project, transaction.
  repeat (case_match; simplify_eq/=); try unchanged.
  all: apply pointwise_filter; [apply _|]; by intros.
Qed.

#[export] Hint Resolve claim_worker_workers renew_worker_workers supersede_for_lease_workers
  mark_cleaned_workers abandon_worker_workers finalize_worker_workers reserve_worker_workers
  clean_workers unregister_workers : workers.

Lemma exec_workers c d :
  workers_evolve (creates_worker c) (deletes_workers c) d (exec c d).
Proof.
  destruct c; cbn [exec creates_worker deletes_workers]; auto with workers.
  all: apply pointwise_same; [apply _|].
  all: frame.
Qed.

(** ** Invariants of the worker table *)

Definition workers_ok (d : db) : Prop := map_Forall worker_ok (agent_workers d).

Definition one_active_worker (d : db) : Prop :=
  forall t1 t2 w1 w2,
    agent_workers d !! t1 = Some w1 -> agent_workers d !! t2 = Some w2 ->
    worker_state_active (w_state w1) = true -> worker_state_active (w_state w2) = true ->
    w_project_id w1 = w_project_id w2 -> t1 = t2.

Lemma exec_workers_ok c d : workers_ok d -> workers_ok (exec c d).
Proof.
  intros Hd t w' Hw'. destruct (exec_workers c d t) as [Hok _].
  rewrite Hw' in Hok. apply Hok. destruct (agent_workers d !! t) eqn:Hw; [by apply Hd|done].
Qed.

Lemma has_active_worker_false d pid :
  has_active_worker d pid = false <->
  forall t w, agent_workers d !! t = Some w -> w_project_id w = pid ->
    worker_state_active (w_state w) = false.
Proof.
  unfold has_active_worker. rewrite sql_exists_false. split.
  - intros H t w Hw <-. specialize (H _ _ Hw). by rewrite bool_decide_true in H.
  - intros H t w Hw. case_bool_decide as Hp; [|done]. by apply (H t).
Qed.

Lemma supersede_other_lookup pid token d :
  agent_workers (supersede_other_abandoned pid token d) !! token = agent_workers d !! token.
Proof.
  change ((sql_update_where
       (fun t w => (w_project_id w == pid) && (w_state w == Abandoned) && (t =! token))
       (fun _ w => w <| w_state := Superseded |>) (agent_workers d)).1 !! token =
     agent_workers d !! token).
  rewrite lookup_update_where. destruct (agent_workers d !! token) as [w|]; [|done].
  simpl. by rewrite (bool_decide_true (token = token)), andb_false_r.
Qed.

(** A reservation that creates a worker found its project without one. *)
Lemma reserve_worker_new r claim d w' :
  agent_workers d !! res_worker_token r = None ->
  agent_workers (reserve_worker r claim d).2 !! res_worker_token r = Some w' ->
  has_active_worker d (res_project_id r) = false /\ w_project_id w' = res_project_id r.
Proof.
  intros Hnew. unfold reserve_worker, transaction, txn_try.
  destruct (i64_max <? _)%Z; [simpl; congruence|].
  destruct (negb _); [|simpl; congruence].
  destruct (insert_worker_or_ignore _ _ _) as [[n d1]|e] eqn:Hins; [|simpl; congruence].
  destruct (n == 1%Z) eqn:Hn; [|simpl; congruence]. guards.
  unfold insert_worker_or_ignore, worker_conflicts in Hins. rewrite Hnew in Hins.
  repeat (case_match; simplify_eq/=); intros; simplify_eq/=; try congruence; guards;
    (split; [done|]).
  all: match goal with
       | H : sql_update _ _ _ (leases ?d) = (?g, _) |- _ =>
           pose proof (supersede_other_lookup (res_project_id r) (res_worker_token r)
             (d <| agent_workers := <[res_worker_token r:=reserved_worker r]> (agent_workers d) |>
                <| leases := g |>)) as Hsup
       end; simpl in Hsup; rewrite lookup_insert_eq in Hsup.
  - match goal with
    | H : claim_dispatching _ _ _ _ = _ |- _ =>
        eapply (claim_dispatching_workers (fun _ => False) False) in H;
        destruct (H (res_worker_token r)) as [_ Hrel]
    end.
    simpl in Hrel. rewrite Hsup in Hrel. simplify_option_eq.
    destruct Hrel as [[[] _]|[Hid _]]. by injection Hid as ->.
  - by simplify_eq/=.
Qed.

(** An unfinished worker was already unfinished, or was just created. *)
Lemma exec_active_before c d t w' :
  agent_workers (exec c d) !! t = Some w' -> worker_state_active (w_state w') = true ->
  (exists w, agent_workers d !! t = Some w /\ worker_state_active (w_state w) = true
     /\ w_project_id w = w_project_id w') \/
  (agent_workers d !! t = None /\ creates_worker c t).
Proof.
  intros Hw' Ha. destruct (exec_workers c d t) as [_ Hrel]. rewrite Hw' in Hrel.
  destruct (agent_workers d !! t) as [w|]; [left|by right].
  destruct Hrel as [[Hc Hd]|[Hid Hact]]; [by destruct c|].
  exists w. split_and!; [done|auto|]. by injection Hid.
Qed.

Lemma exec_one_active c d : one_active_worker d -> one_active_worker (exec c d).
Proof.
  intros Hone.
  assert (Hnew : forall t1 t2 w1 w2,
    agent_workers (exec c d) !! t1 = Some w1 -> worker_state_active (w_state w1) = true ->
    agent_workers d !! t2 = Some w2 -> worker_state_active (w_state w2) = true ->
    agent_workers d !! t1 = None -> creates_worker c t1 -> w_project_id w1 = w_project_id w2 ->
    False).
  { intros t1 t2 w1 w2 H1 Ha1 H2 Ha2 Hn Hc Hp. destruct c; try done. simpl in Hc. subst t1.
    destruct (reserve_worker_new _ _ _ _ Hn H1) as [Hno Hpid].
    rewrite has_active_worker_false in Hno. rewrite (Hno _ _ H2) in Ha2; congruence. }
  intros t1 t2 w1 w2 H1 H2 Ha1 Ha2 Hp.
  destruct (exec_active_before _ _ _ _ H1 Ha1) as [(v1 & L1 & A1 & P1)|[N1 C1]];
    destruct (exec_active_before _ _ _ _ H2 Ha2) as [(v2 & L2 & A2 & P2)|[N2 C2]].
  - eapply Hone; eauto; congruence.
  - exfalso. eapply (Hnew t2 t1); eauto; congruence.
  - exfalso. eapply (Hnew t1 t2); eauto; congruence.
  - destruct c; try done. simpl in *. congruence.
Qed.

(** * Workers and runs

    A run recorded for a worker and that worker name each other, and only cleaning the
    history or unregistering its project deletes a run. *)

Record runs_linked (d : db) : Prop := {
  run_names_worker : forall id r t, runs d !! id = Some r -> r_worker_token r = Some t ->
    exists w, agent_workers d !! t = Some w /\ w_run_id w = Some id /\ w_project_id w = r_project_id r;
  worker_names_run : forall t w id, agent_workers d !! t = Some w -> w_run_id w = Some id ->
    exists r, runs d !! id = Some r /\ r_worker_token r = Some t /\ r_project_id r = w_project_id w
}.

(** ** What most commands do *)

(** The worker's run stays what it is; a new worker has none. *)
Definition same_run_id (_ : string) (o o' : option worker_row) : Prop :=
  match o, o' with
  | Some w, Some w' => w_run_id w' = w_run_id w /\ w_project_id w' = w_project_id w
  | None, Some w' => w_run_id w' = None
  | None, None => True
  | Some _, None => False
  end.
Notation keeps_run_ids d d' := (pointwise same_run_id (agent_workers d) (agent_workers d')).

#[export] Instance same_run_id_refl t : Reflexive (same_run_id t).
Proof. by intros []. Qed.
#[export] Instance same_run_id_trans t : Transitive (same_run_id t).
Proof. intros [] [] []; unfold same_run_id; intuition congruence. Qed.

(** Runs are added, if any, without a worker. *)
Definition adds_plain_runs (d d' : db) : Prop :=
  forall id, runs d' !! id = runs d !! id
             \/ runs d !! id = None /\ exists r, runs d' !! id = Some r /\ r_worker_token r = None.

Lemma plain_step d d' : runs_linked d -> keeps_run_ids d d' -> adds_plain_runs d d' -> runs_linked d'.
Proof.
  intros [Hrun Hworker] Hw Hr. split.
  - intros id r t Hid Ht. destruct (Hr id) as [Hsame|(_ & r' & Hr' & Hn)]; [|congruence].
    rewrite Hsame in Hid. destruct (Hrun id r t Hid Ht) as (w & Hwt & Hwr & Hp).
    specialize (Hw t). rewrite Hwt in Hw. destruct (agent_workers d' !! t) as [w'|]; [|done].
    destruct Hw as [Hi Hp']. exists w'. split_and!; congruence.
  - intros t w' id Ht Hi. specialize (Hw t). rewrite Ht in Hw. destruct (agent_workers d !! t) as [w|] eqn:Hwt.
    + destruct Hw as [Hi' Hp]. rewrite Hi' in Hi. destruct (Hworker t w id Hwt Hi) as (r & Hid & Hrt & Hrp).
      exists r. destruct (Hr id) as [Hsame|[Hnone _]]; [|congruence]. rewrite Hsame. split_and!; congruence.
    + cbn in Hw. congruence.
Qed.

(** ** What ends a worker *)

Lemma ending_step d d' token w w' id r :
  runs_linked d -> agent_workers d !! token = Some w -> w_run_id w = None ->
  agent_workers d' = <[token := w']> (agent_workers d) -> w_run_id w' = Some id ->
  w_project_id w' = w_project_id w ->
  runs d' = <[id := r]> (runs d) -> runs d !! id = None ->
  r_worker_token r = Some token -> r_project_id r = w_project_id w ->
  runs_linked d'.
Proof.
  intros [Hrun Hworker] Hw Hn Hws Hi Hp Hrs Hnew Ht Hrp. split.
  - intros id' r' t Hid' Ht'. rewrite Hrs in Hid'. rewrite Hws. destruct (decide (id' = id)) as [->|Hne].
    + rewrite lookup_insert_eq in Hid'. injection Hid' as <-. assert (t = token) as -> by congruence.
      exists w'. rewrite lookup_insert_eq. split_and!; congruence.
    + rewrite lookup_insert_ne in Hid' by done. destruct (Hrun _ _ _ Hid' Ht') as (v & Hv & Hvi & Hvp).
      exists v. rewrite lookup_insert_ne; [done|]. intros <-. congruence.
  - intros t v id' Hv Hvi. rewrite Hws in Hv. rewrite Hrs. destruct (decide (t = token)) as [->|Hne].
    + rewrite lookup_insert_eq in Hv. injection Hv as <-. assert (id' = id) as -> by congruence.
      exists r. rewrite lookup_insert_eq. split_and!; congruence.
    + rewrite lookup_insert_ne in Hv by done. destruct (Hworker _ _ _ Hv Hvi) as (r' & Hr' & Hrt' & Hrp').
      exists r'. rewrite lookup_insert_ne; [done|]. intros <-. congruence.
Qed.

(** The run is new, or the worker's own. *)
Lemma record_worker_run_id token o d id d' w :
  runs_linked d -> agent_workers d !! token = Some w -> record_worker_run token o d = Ok (id, d') ->
  agent_workers d' = agent_workers d
  /\ (w_run_id w = None /\ runs d !! id = None /\ runs d' = <[id := run_of_outcome o (Some token)]> (runs d)
      \/ w_run_id w = Some id /\ runs d' = runs d).
Proof.
  intros [Hrun Hworker] Hw. unfold record_worker_run, insert_run_or_ignore.
  assert (Hof : forall i r, runs d !! i = Some r -> run_of_token token i r = true -> w_run_id w = Some i).
  { intros i r Hi Hr%sql_eq_Some. destruct (Hrun i r token Hi Hr) as (w' & Hw' & Hi' & _). congruence. }
  destruct (sql_exists (run_of_token token) (runs d)) eqn:He; cbn [res_bind].
  - unfold run_id_of_token. destruct (List.find _ _) as [[i r]|] eqn:Hf; [|done]. intros [= <- <-].
    apply find_some in Hf as [Hin [Ht _]%andb_true_iff]. apply list_elem_of_In, elem_of_map_to_list in Hin.
    split; [done|]. right. split; [by eapply Hof|done].
  - destruct (project_exists d _); [|done]. cbn [res_bind]. intros [= <- <-].
    destruct (update_project_after_run_frame o
      (d <| runs := <[next_rowid (runs d) := run_of_outcome o (Some token)]> (runs d) |>)) as [ps ->].
    split; [done|]. left. split_and!; [|apply next_rowid_fresh|done].
    destruct (w_run_id w) as [i|] eqn:Hi; [|done]. destruct (Hworker token w i Hw Hi) as (r & Hr & Ht & _).
    rewrite sql_exists_false in He. specialize (He i r Hr). unfold run_of_token in He.
    assert (sql_eq (r_worker_token r) (Some token) = true) by (by apply sql_eq_Some). congruence.
Qed.

Lemma record_ends token o d id d1 d' w w' :
  runs_linked d -> agent_workers d !! token = Some w -> o_project_id o = w_project_id w ->
  record_worker_run token o d = Ok (id, d1) ->
  agent_workers d' = <[token := w']> (agent_workers d) -> runs d' = runs d1 ->
  w_run_id w' = Some id -> w_project_id w' = w_project_id w -> runs_linked d'.
Proof.
  intros Hd Hw Ho Hrec Hws Hrs Hi Hp.
  destruct (record_worker_run_id _ _ _ _ _ _ Hd Hw Hrec) as [_ [(Hn & Hnew & Hr)|[Hsame Hr]]]; rewrite Hr in Hrs.
  - by eapply ending_step.
  - eapply plain_step; [exact Hd| |intros i; left; by rewrite Hrs]. rewrite Hws. apply pointwise_insert; [apply _|].
    rewrite Hw. cbn. split; congruence.
Qed.

Lemma abandon_linked a d : runs_linked d -> runs_linked (abandon_worker a d).2.
Proof.
  intros Hd. unfold abandon_worker, transaction, txn_try. op_cases; try done.
  all: match goal with H : sql_select _ _ _ = Some _ |- _ => unfold sql_select in H; repeat (case_match; simplify_eq/=) end.
  all: match goal with Hr : record_worker_run _ _ _ = Ok _, Hu : sql_update _ _ _ _ = _ |- _ =>
         pose proof (record_worker_run_id _ _ _ _ _ _ Hd ltac:(eassumption) Hr) as [Hsame _];
         unfold sql_update in Hu; rewrite Hsame in Hu; repeat (case_match; simplify_eq/=); try done end.
  all: eapply record_ends; try eassumption; done.
Qed.

Lemma finalize_linked f d : runs_linked d -> runs_linked (finalize_worker f d).2.
Proof.
  intros Hd. unfold finalize_worker, complete_finalizing, transaction, txn_try. op_cases; try done.
  match goal with H : sql_update _ _ _ (agent_workers d) = (?ws, _) |- _ => set (d1 := d <| agent_workers := ws |>) in * end.
  assert (agent_workers d1 = <[fz_worker_token f := w <| w_state := WFinalizing |>]> (agent_workers d)) as Hws.
  { unfold d1, sql_update in *. repeat (case_match; simplify_eq/=); guards; done. }
  assert (Hd1 : runs_linked d1).
  { eapply plain_step; [exact Hd| |intros i; by left]. rewrite Hws. apply pointwise_insert; [apply _|].
    match goal with H : agent_workers d !! _ = Some _ |- _ => rewrite H end. done. }
  assert (Hw1 : agent_workers d1 !! fz_worker_token f = Some (w <| w_state := WFinalizing |>)).
  { by rewrite Hws, lookup_insert_eq. }
  match goal with Hr : record_worker_run _ _ _ = Ok _ |- _ =>
    pose proof (record_worker_run_id _ _ _ _ _ _ Hd1 Hw1 Hr) as [Hsame _] end.
  match goal with H : sql_update _ _ _ (agent_workers ?d0) = _ |- _ =>
    unfold sql_update in H; rewrite Hsame, Hw1 in H; repeat (case_match; simplify_eq/=); guards; try done end.
  eapply record_ends; try eassumption; done.
Qed.

Lemma clean_linked at_ d : runs_linked d -> runs_linked (clean_agent_history at_ d).2.
Proof.
  intros Hd. unfold clean_agent_history, transaction. op_cases; done.
Qed.

Lemma delete_linked pid d : runs_linked d -> runs_linked (delete_project pid d).
Proof.
  intros [Hrun Hworker]. split; cbn.
  - intros id r t [Hr Hp]%map_lookup_filter_Some Ht. destruct (Hrun id r t Hr Ht) as (w & Hw & Hi & Hwp).
    exists w. split; [|done]. apply map_lookup_filter_Some. cbn in *. split; [done|congruence].
  - intros t w id [Hw Hp]%map_lookup_filter_Some Hi. destruct (Hworker t w id Hw Hi) as (r & Hr & Ht & Hrp).
    exists r. split; [|done]. apply map_lookup_filter_Some. cbn in *. split; [done|congruence].
Qed.
Lemma unregister_linked own_pid running path now d :
  runs_linked d -> runs_linked (unregister_project own_pid running path now d).2.
Proof.
  intros Hd. unfold unregister_project, transaction. op_cases; try done; apply delete_linked; [|done].
  destruct Hd. by split.
Qed.

(** ** Every command *)

Definition keeps_history (c : command) : bool :=
  match c with CleanAgentHistory _ | UnregisterProject _ _ _ _ => false | _ => true end.

Lemma same_runs d d' : runs d' = runs d -> adds_plain_runs d d'.
Proof. intros Hr id. left. by rewrite Hr. Qed.
Lemma plain_run d r : r_worker_token r = None -> adds_plain_runs d (d <| runs := <[next_rowid (runs d) := r]> (runs d) |>).
Proof.
  intros Hr id. cbn. destruct (decide (id = next_rowid (runs d))) as [->|Hne].
  - right. split; [apply next_rowid_fresh|]. exists r. by rewrite lookup_insert_eq.
  - left. by rewrite lookup_insert_ne.
Qed.
Lemma recorded_plain o d : adds_plain_runs d (record_run_outcome o d).2.
Proof.
  unfold record_run_outcome, autocommit. destruct (project_exists d _); [|by apply same_runs]. cbn.
  destruct (update_project_after_run_frame o (d <| runs := <[next_rowid (runs d) := run_of_outcome o None]> (runs d) |>))
    as [ps ->]. by apply plain_run.
Qed.
Lemma adds_same d d1 d2 : runs d2 = runs d1 -> adds_plain_runs d d1 -> adds_plain_runs d d2.
Proof. unfold adds_plain_runs. by intros ->. Qed.
Lemma acknowledged_run_plain pid sid at_ summary d id d' :
  acknowledged_run pid sid at_ summary d = (id, d') -> adds_plain_runs d d'.
Proof.
  unfold acknowledged_run. intros H. repeat (case_match; simplify_eq/=); [by apply same_runs|by apply plain_run..].
Qed.
Lemma acknowledged_plain pid sid at_ d : adds_plain_runs d (acknowledge_completed_git_finalization_session pid sid at_ d).2.
Proof.
  unfold acknowledge_completed_git_finalization_session, transaction. op_cases; try by apply same_runs.
  - apply same_runs. unfold delete_control. by destruct (sql_delete _ _ _).
  - match goal with H : acknowledged_run _ _ _ _ _ = _ |- _ => apply acknowledged_run_plain in H; eapply adds_same, H end.
    unfold delete_control, update_journal, update_project_after_run in *.
    repeat (case_match; simplify_eq/=); done.
Qed.

(** The commands that change the run of a worker. *)
Definition ends_worker (c : command) : bool :=
  match c with AbandonWorker _ | FinalizeWorker _ => true | _ => false end.

Ltac run_ids :=
  first [ unchanged
        | eapply pointwise_sql_update; [apply _|eassumption|by intros]
        | eapply pointwise_update_where; [apply _|eassumption|by intros] ].

Lemma claim_dispatching_run_ids token p at_ d d' n :
  claim_dispatching token p at_ d = (d', n) -> keeps_run_ids d d'.
Proof. unfold claim_dispatching. intros H. case_match; simplify_eq/=. run_ids. Qed.
Lemma supersede_other_run_ids pid token d : keeps_run_ids d (supersede_other_abandoned pid token d).
Proof.
  unfold supersede_other_abandoned. cbn [agent_workers].
  eapply pointwise_update_where; [apply _|apply surjective_pairing|by intros].
Qed.
Lemma insert_worker_run_ids token r d n d' :
  insert_worker_or_ignore token (reserved_worker r) d = Ok (n, d') -> keeps_run_ids d d'.
Proof.
  unfold insert_worker_or_ignore, worker_conflicts. intros H. repeat (case_match; simplify_eq/=); try unchanged.
  all: apply pointwise_insert; [apply _|]; by destruct (agent_workers d !! _).
Qed.
Lemma reserve_run_ids r claim d : keeps_run_ids d (reserve_worker r claim d).2.
Proof.
  unfold reserve_worker, transaction, txn_try. repeat case_match; simplify_eq/=; try unchanged.
  all: match goal with H : insert_worker_or_ignore _ _ _ = Ok (_, ?d1) |- _ =>
         apply insert_worker_run_ids in H as Hins end.
  all: match goal with H : sql_update _ _ _ (leases ?d1) = (?g, _) |- _ =>
         pose proof (supersede_other_run_ids (res_project_id r) (res_worker_token r) (d1 <| leases := g |>)) as Hsup end.
  all: eapply pointwise_trans; [apply _|exact Hins|].
  - eapply pointwise_trans; [apply _|exact Hsup|]. by eapply claim_dispatching_run_ids.
  - exact Hsup.
Qed.

Lemma exec_adds_plain c d : keeps_history c = true -> ends_worker c = false -> adds_plain_runs d (exec c d).
Proof.
  intros Hk He. destruct c; try done; cbn [exec]; first [apply recorded_plain|apply acknowledged_plain|apply same_runs; frame].
Qed.
Lemma exec_run_ids c d : keeps_history c = true -> ends_worker c = false -> keeps_run_ids d (exec c d).
Proof.
  intros Hk He. destruct c; try done; cbn [exec]; try solve [apply pointwise_same; [apply _|]; frame].
  - apply reserve_run_ids.
  - unfold claim_worker, transaction. repeat (case_match; simplify_eq/=); by eapply claim_dispatching_run_ids.
  - unfold renew_worker, transaction. op_cases; run_ids.
  - unfold supersede_abandoned_workers_for_lease. op_cases; run_ids.
  - unfold mark_worker_service_cleaned. op_cases; run_ids.
Qed.

Lemma exec_runs_linked c d : runs_linked d -> runs_linked (exec c d).
Proof.
  intros Hd. destruct (keeps_history c) eqn:Hk; [|destruct c; try done; [apply clean_linked|apply unregister_linked]; done].
  destruct (ends_worker c) eqn:He; [destruct c; try done; [apply abandon_linked|apply finalize_linked]; done|].
  eapply plain_step; [exact Hd|by apply exec_run_ids|by apply exec_adds_plain].
Qed.
Lemma reachable_runs_linked d : reachable d -> runs_linked d.
Proof.
  revert d. apply reachable_ind; [|intros; by apply exec_runs_linked].
  split; cbn; intros ? ? ? H; by rewrite lookup_empty in H.
Qed.

(** ** Runs stay *)

Lemma plain_grows d d' : adds_plain_runs d d' -> runs d ⊆ runs d'.
Proof.
  intros Hadds. apply map_subseteq_spec. intros id r Hr. destruct (Hadds id) as [->|[Hn _]]; [done|congruence].
Qed.
Lemma record_worker_run_grows token o d id d' :
  record_worker_run token o d = Ok (id, d') -> runs d ⊆ runs d'.
Proof.
  unfold record_worker_run, insert_run_or_ignore, res_bind. intros H. repeat (case_match; simplify_eq/=; try done).
  unfold update_project_after_run. cbn. apply insert_subseteq, next_rowid_fresh.
Qed.
Lemma exec_runs_grow c d : keeps_history c = true -> runs d ⊆ runs (exec c d).
Proof.
  intros Hk. destruct (ends_worker c) eqn:He; [|by apply plain_grows, exec_adds_plain].
  destruct c; try done; cbn [exec]; unfold abandon_worker, finalize_worker, complete_finalizing, transaction, txn_try;
    op_cases; try done.
  all: match goal with H : record_worker_run _ _ _ = Ok _ |- _ => by apply record_worker_run_grows in H end.
Qed.
