(* ===== verification/JournalInv.v ===== *)
(** Git journals and launch boundaries: what a journal records in each state,
    the only ways it changes, and that a project finalizes one journal and holds
    one launch boundary at a time. *)
From S2P Require Import Prelude Sql AgentTypes Store Footprint Leases Workers Runs Sessions.
From S2P Require Import Handoff Journals Retire Recovery Holders Projects Models Registry.
From S2P Require Import Footprint.

(** ** The shape of a journal in each state *)

Definition journal_ok (g : journal_row) : Prop :=
  g_git_mode g <> GitOff /\ (0 <= g_generation g)%Z /\
  (Finalization.is_finalizing (g_state g) = true -> is_Some (g_task_identity g)) /\
  (g_state g = PushPending \/ g_state g = Completed -> is_Some (g_commit_oid g)) /\
  (g_state g = PushPending -> g_git_mode g = GitCommitAndPush) /\
  (is_Some (g_completed_at g) <-> Finalization.is_terminal (g_state g) = true) /\
  (is_Some (g_acknowledged_at g) -> g_state g = Completed).

(** The boundary a journal was created with. *)
Definition journal_boundary (g : journal_row) :=
  (g_git_mode g, g_starting_head g, g_branch_ref g, g_upstream_ref g, g_created_at g).

(** A recorded proof is never replaced. *)
Definition keeps_record (o o' : option string) : Prop := forall x, o = Some x -> o' = Some x.

(** One generation of the journal: a step of the finalization state machine, or
    the retirement of an attempt without a verified commit. *)
Definition journal_step (cas : Prop) (g g' : journal_row) : Prop :=
  g_generation g' = (g_generation g + 1)%Z /\
  journal_boundary g' = journal_boundary g /\
  keeps_record (g_task_identity g) (g_task_identity g') /\
  keeps_record (g_commit_oid g) (g_commit_oid g') /\
  ((cas /\ Finalization.can_transition_to (g_state g) (g_state g') = true) \/
   (g_state g' = Cancelled /\ g_commit_oid g = None
    /\ g_state g ∈ [Working; Tracking; CommitPending; Cancelled])).

Definition journal_acknowledged (g g' : journal_row) : Prop :=
  g_state g = Completed /\ g_acknowledged_at g = None /\
  exists at_ run, g' = g <| g_acknowledged_at := Some at_ |>
                         <| g_acknowledged_run_id := Some run |>.

Section Rel.
(** Whether the command is a compare-and-set of this journal, and whether it
    may delete journals. *)
Context (cas : Z * string -> Prop) (deletes : Prop).

Definition journal_rel (k : Z * string) (o o' : option journal_row) : Prop :=
  from_option journal_ok True o ->
  from_option journal_ok True o' /\
  match o, o' with
  | None, None => True
  | Some _, None => deletes
  | None, Some g' => g_state g' = Working /\ g_generation g' = 0%Z /\ g_commit_oid g' = None
  | Some g, Some g' => g' = g \/ journal_step (cas k) g g' \/ journal_acknowledged g g'
  end.

#[export] Instance journal_rel_refl k : Reflexive (journal_rel k).
Proof. intros [g|] Hok; split; auto. Qed.
End Rel.

Notation journals_evolve cas deletes d d' :=
  (pointwise (journal_rel cas deletes) (git_finalizations d) (git_finalizations d')).

(** ** Creation *)

Lemma fresh_journal_rel cas deletes k (mode : AgentGitMode) head branch upstream baseline
    identity owner at_ :
  mode <> GitOff ->
  journal_rel cas deletes k None
    (Some (mkJournal Working mode head branch upstream baseline identity owner None 0 None
             at_ at_ None None None)).
Proof.
  intros Hm _. split; [|done]. unfold journal_ok. simpl. split_and!; try done; try lia.
  by intros [].
Qed.

Lemma attach_journal_journals cas deletes k mode tok at_ d d' :
  mode <> GitOff ->
  attach_journal k mode tok at_ d = Ok d' -> journals_evolve cas deletes d d'.
Proof.
  unfold attach_journal, sql_select. intros Hm H. repeat (case_match; simplify_eq/=);
    try unchanged; guards.
  all: apply pointwise_insert; [apply _|];
    match goal with H : git_finalizations _ !! _ = None |- _ => rewrite H end;
    by apply fresh_journal_rel.
Qed.

Lemma mark_running_journals cas deletes pid sid child tok out err mode now d :
  journals_evolve cas deletes d (mark_session_running pid sid child tok out err mode now d).2.
Proof.
  unfold mark_session_running, transaction, txn_try.
  repeat case_match; simplify_eq/=; try unchanged; try by use_footprints; try unchanged.
  all: match goal with
       | Hf : fix_git_mode _ _ _ _ = Ok _, Ha : attach_journal _ _ _ _ _ = Ok _ |- _ =>
           apply fix_git_mode_frame in Hf as [ms ->];
           apply (attach_journal_journals cas deletes) in Ha; [exact Ha|by guards]
       end.
Qed.

Lemma create_journal_journals cas deletes n d :
  journals_evolve cas deletes d (create_git_finalization n d).2.
Proof.
  unfold create_git_finalization, transaction.
  repeat case_match; simplify_eq/=; try unchanged; guards.
  all: apply pointwise_insert; [apply _|];
    match goal with H : git_finalizations _ !! _ = None |- _ => rewrite H end;
    by apply fresh_journal_rel.
Qed.

Lemma enable_git_journals cas deletes n holder now d :
  journals_evolve cas deletes d (enable_session_git n holder now d).2.
Proof.
  unfold enable_session_git, transaction, session_can_enable_git.
  repeat case_match; simplify_eq/=; try unchanged; guards.
  apply pointwise_insert; [apply _|].
  match goal with H : git_finalizations _ !! _ = None |- _ => rewrite H end.
  by apply fresh_journal_rel.
Qed.

(** ** Compare and set *)

Lemma is_null_false {A} (o : option A) : is_null o = false <-> is_Some o.
Proof. destruct o; naive_solver. Qed.

Lemma changes_recorded_false a b :
  changes_recorded a b = false -> keeps_record a (coalesce b a).
Proof.
  unfold changes_recorded, keeps_record. destruct a, b; intros H x; guards; naive_solver.
Qed.

Lemma coalesce_some {A} (a b : option A) : is_Some (coalesce a b) <-> is_Some a \/ is_Some b.
Proof. destruct a, b; simpl; split; intros; destruct_or?; eauto. Qed.

(** The update that passes every check yields a well-formed next generation. *)
Lemma updated_journal_ok g u :
  update_rejected g u = None -> journal_ok g -> journal_ok (updated_journal u g).
Proof.
  unfold update_rejected. intros Hr (Hm & Hg & Hid & Hoid & Hpush & Hterm & Hack).
  repeat (case_match; simplify_eq/=).
  unfold journal_ok, updated_journal. simpl.
  repeat match goal with
  | H : negb (Finalization.can_transition_to _ _) = false |- _ => rename H into Htr; guards
  end.
  split_and!; [done|lia|..].
  - intros Hf. rewrite Hf in *. simpl in *.
    match goal with H : is_null (coalesce _ _) = false |- _ => apply is_null_false in H end.
    rewrite coalesce_some in *. naive_solver.
  - intros Hs. match goal with
    | H : bool_decide (_ ∈ [PushPending; Completed]) && _ = false |- _ =>
        rewrite bool_decide_true in H by set_solver; apply is_null_false in H; done
    end.
  - intros Hs. rewrite Hs in *. match goal with
    | H : (PushPending == PushPending) && _ = false |- _ =>
        rewrite bool_decide_true in H by done; simpl in H; by guards
    end.
  - destruct (Finalization.is_terminal (u_next_state u)); [split; eauto|split; [by intros [? ?]|done]].
  - intros [x Hx]. specialize (Hack (mk_is_Some _ _ Hx)). rewrite Hack in *. done.
Qed.

Lemma updated_journal_step (cas : Prop) g u :
  update_rejected g u = None -> cas -> journal_step cas g (updated_journal u g).
Proof.
  unfold update_rejected. intros Hr Hc.
  repeat (case_match; simplify_eq/=).
  unfold journal_step, updated_journal, journal_boundary. simpl.
  split_and!; try done.
  - intros x Hx. rewrite Hx. done.
  - apply changes_recorded_false. done.
  - left. split; [done|]. by guards.
Qed.

Lemma compare_and_set_journals deletes pid sid generation u d :
  journals_evolve (eq (pid, sid)) deletes d
    (compare_and_set_git_finalization pid sid generation u d).2.
Proof.
  unfold compare_and_set_git_finalization, transaction, txn_try, update_journal, advance_fence,
    update_control, delete_control.
  repeat case_match; simplify_eq/=; try unchanged.
  all: repeat (case_match; simplify_eq/=).
  all: eapply pointwise_sql_update; [apply _|eassumption|].
  all: intros ? Hg _ Hok; simplify_eq; simpl; split; [by apply updated_journal_ok|].
  all: right; left; by apply updated_journal_step.
Qed.

(** ** Acknowledgement *)

Lemma acknowledge_journals cas deletes pid sid at_ d :
  journals_evolve cas deletes d
    (acknowledge_completed_git_finalization_session pid sid at_ d).2.
Proof.
  unfold acknowledge_completed_git_finalization_session, transaction, update_journal,
    delete_control.
  repeat case_match; simplify_eq/=; try unchanged.
  all: repeat match goal with
    | H : acknowledged_run _ _ _ _ _ = _ |- _ => apply acknowledged_run_frame in H as [? ->]
    | H : context [update_project_after_run ?o ?d] |- _ =>
        destruct (update_project_after_run_frame o d) as [? Hps]; rewrite Hps in H; clear Hps
    end.
  all: repeat (case_match; simplify_eq/=); try unchanged.
  all: eapply pointwise_sql_update; [apply _|eassumption|].
  all: intros ? Hg Hp (Hm & Hgen & Hid & Hoid & Hpush & Hterm & Hack); guards.
  all: simpl; split; [unfold journal_ok; simpl; by split_and!|].
  all: right; right; split_and!; eauto.
Qed.

(** ** Retirement *)

Lemma cancel_journal_rel cas deletes k g reason at_ :
  g_commit_oid g = None -> g_state g ∈ [Working; Tracking; CommitPending; Cancelled] ->
  journal_rel cas deletes k (Some g) (Some (cancel_journal reason at_ g)).
Proof.
  intros Hoid Hs (Hm & Hgen & Hid & Hc & Hpush & Hterm & Hack). simpl. split.
  - unfold journal_ok, cancel_journal. simpl. split_and!; try done; try lia;
      try (by intros []); try (by eexists).
    all: intros Ha; rewrite (Hack Ha) in Hs; by decompose_list_elem_of.
  - right. left. unfold journal_step, cancel_journal. simpl.
    split_and!; [done|done|by intros ?|by intros ?|]. right. by split_and!.
Qed.

Lemma cancel_orphaned_journals cas deletes expected holder reason at_ now d :
  journals_evolve cas deletes d
    (cancel_orphaned_working_git_finalization expected holder reason at_ now d).2.
Proof.
  unfold cancel_orphaned_working_git_finalization, transaction, update_journal, delete_control.
  op_cases; try unchanged.
  eapply pointwise_sql_update; [apply _|eassumption|].
  intros g' Hg Hp. guards. apply cancel_journal_rel; set_solver.
Qed.

Lemma retire_abandoned_journals cas deletes pid sid generation completed reason at_ d :
  journals_evolve cas deletes d
    (retire_abandoned_unbound_git_finalization pid sid generation completed reason at_ d).2.
Proof.
  unfold retire_abandoned_unbound_git_finalization, transaction, delete_idle_control,
    clear_cancelled_attempt_failure, update_journal, delete_control.
  destruct (abandoned_journal_is_idle _ _ _ _ _ _) eqn:Hidle; [|unchanged].
  op_cases. eapply pointwise_sql_update; [apply _|eassumption|].
  unfold abandoned_journal_is_idle in Hidle.
  intros g' Hg Hp. rewrite Hg in Hidle. guards. apply cancel_journal_rel; set_solver.
Qed.

Lemma retire_superseded_journals cas deletes expected completed at_ d :
  journals_evolve cas deletes d
    (retire_superseded_working_git_finalization expected completed at_ d).2.
Proof.
  unfold retire_superseded_working_git_finalization, transaction,
    clear_cancelled_attempt_failure, update_journal, delete_control, supersedes, is_current.
  destruct (negb _) eqn:Hs; [unchanged|].
  op_cases; try unchanged. eapply pointwise_sql_update; [apply _|eassumption|].
  intros g' Hg _. guards. apply cancel_journal_rel; set_solver.
Qed.

Lemma can_delete_unsealed pid sid generation identity now d g :
  can_delete_idle_task pid sid generation identity now d = true ->
  git_finalizations d !! (pid, sid) = Some g -> g_commit_oid g = None.
Proof.
  unfold can_delete_idle_task, journal_is_unsealed. intros H Hg. rewrite Hg in H. by guards.
Qed.

Lemma fence_project_unsealed pid sid generation identity holder at_ exp d d' g :
  fence_project pid sid generation identity holder at_ exp d = Ok (true, d') ->
  git_finalizations d !! (pid, sid) = Some g -> g_commit_oid g = None.
Proof.
  unfold fence_project, journal_is_unsealed. intros H Hg.
  repeat (case_match; simplify_eq/=); by guards.
Qed.

Lemma cancel_idle_journals cas deletes pid sid generation identity holder at_ exp c d :
  journals_evolve cas deletes d
    (cancel_idle_working_git_finalization pid sid generation identity holder at_ exp c d).2.
Proof.
  unfold cancel_idle_working_git_finalization, transaction, txn_try, update_journal,
    settle_cancelled_session, delete_idle_control, update_control, delete_control.
  assert (Hcancel : forall t n, sql_update (pid, sid)
      (fun g => (g_state g == Working) && (g_generation g == generation)
                && sql_is (g_task_identity g) identity)
      (cancel_journal (cancellation_reason c) at_) (git_finalizations d) = (t, n) ->
      (forall g, git_finalizations d !! (pid, sid) = Some g -> g_commit_oid g = None) ->
      pointwise (journal_rel cas deletes) (git_finalizations d) t).
  { intros t n Hu Hoid. eapply pointwise_sql_update; [apply _|exact Hu|].
    intros g' Hg Hp. guards. apply cancel_journal_rel; [by apply Hoid|set_solver]. }
  repeat case_match; simplify_eq/=; try unchanged.
  all: repeat (case_match; simplify_eq/=); guards.
  all: try match goal with
    | H : fence_project _ _ _ _ _ _ _ _ = Ok (true, _) |- _ =>
        pose proof (fun g => fence_project_unsealed _ _ _ _ _ _ _ _ _ g H) as Hoid;
        apply fence_project_frame in H as [? ->]
    | H : fence_project _ _ _ _ _ _ _ _ = Ok _ |- _ => apply fence_project_frame in H as [? ->]
    end; try unchanged; eauto using can_delete_unsealed.
Qed.

Lemma begin_recovery_journals cas deletes q d :
  journals_evolve cas deletes d (begin_missing_git_recovery q d).2.
Proof.
  unfold begin_missing_git_recovery, transaction, recovery_refused, retire_reviewed_journal,
    stop_recovered_session, update_journal.
  repeat case_match; simplify_eq/=; try unchanged; try done.
  all: match goal with
       | H : negb (expected_journal_holds _ _) = false |- _ =>
           apply negb_false_iff in H; unfold expected_journal_holds, is_current in H
       end.
  all: match goal with H : q_expected_journal _ = Some _ |- _ => rewrite H in * end.
  all: guards; eapply pointwise_sql_update; [apply _|eassumption|].
  all: intros g' Hg _; guards; apply cancel_journal_rel; [done|].
  all: repeat case_match; guards; try set_solver.
  all: match goal with H : _ || _ = true |- _ => apply orb_true_iff in H as [H|H] end;
    guards; set_solver.
Qed.

(** ** Every command *)

Definition sets_journal (c : command) : Z * string -> Prop :=
  match c with CompareAndSetJournal pid sid _ _ => eq (pid, sid) | _ => fun _ => False end.

Definition deletes_journals (c : command) : Prop :=
  match c with CleanAgentHistory _ | UnregisterProject _ _ _ _ => True | _ => False end.

Lemma clean_journals cas at_ d : journals_evolve cas True d (clean_agent_history at_ d).2.
Proof.
  unfold clean_agent_history, transaction.
  repeat (case_match; simplify_eq/=); try unchanged.
  apply pointwise_empty; [apply _|]. by intros.
Qed.

Lemma unregister_journals cas own_pid running path now d :
  journals_evolve cas True d (unregister_project own_pid running path now d).2.
Proof.
  unfold unregister_project, transaction.
  repeat (case_match; simplify_eq/=); try unchanged.
  all: apply pointwise_filter; [apply _|]; by intros.
Qed.

#[export] Hint Resolve mark_running_journals create_journal_journals enable_git_journals
  compare_and_set_journals acknowledge_journals cancel_orphaned_journals
  retire_abandoned_journals retire_superseded_journals cancel_idle_journals
  begin_recovery_journals clean_journals unregister_journals : journals.

Lemma exec_journals c d :
  journals_evolve (sets_journal c) (deletes_journals c) d (exec c d).
Proof.
  destruct c; cbn [exec sets_journal deletes_journals]; auto with journals.
  all: apply pointwise_same; [apply _|].
  all: frame.
Qed.

Definition journals_ok (d : db) : Prop := map_Forall (fun _ => journal_ok) (git_finalizations d).

Lemma exec_journals_ok c d : journals_ok d -> journals_ok (exec c d).
Proof.
  intros Hd k g' Hg'. pose proof (exec_journals c d k) as Hrel. rewrite Hg' in Hrel.
  apply Hrel. destruct (git_finalizations d !! k) eqn:Hg; [by apply (Hd k)|done].
Qed.

(** ** One journal of a project is being finalized at a time *)

Definition one_finalizing_journal (d : db) : Prop :=
  forall pid s1 s2 g1 g2,
    git_finalizations d !! (pid, s1) = Some g1 -> git_finalizations d !! (pid, s2) = Some g2 ->
    Finalization.is_finalizing (g_state g1) = true ->
    Finalization.is_finalizing (g_state g2) = true -> s1 = s2.

Lemma compare_and_set_conflict pid sid generation u d g g' :
  git_finalizations d !! (pid, sid) = Some g ->
  git_finalizations (compare_and_set_git_finalization pid sid generation u d).2 !! (pid, sid)
    = Some g' ->
  g' = g \/ pending_index_conflict (pid, sid) (g_state g') d = false.
Proof.
  intros Hg. unfold compare_and_set_git_finalization, transaction, txn_try, update_journal,
    advance_fence, update_control, delete_control.
  rewrite Hg. repeat (case_match; simplify_eq/=); intros; simplify_option_eq; auto; right.
  all: match goal with
       | H : sql_update ?k ?p ?f ?m = (?t, _), H' : ?t !! _ = Some _ |- _ =>
           replace t with (sql_update k p f m).1 in H' by (by rewrite H);
           rewrite lookup_sql_update, Hg in H'; cbn in H';
           rewrite !bool_decide_true in H' by done; by simplify_eq/=
       end.
Qed.

(** A journal that is being finalized was already, or was just moved there by a
    compare-and-set that found no other. *)
Lemma exec_finalizing_before c d pid sid g' :
  journals_ok d ->
  git_finalizations (exec c d) !! (pid, sid) = Some g' ->
  Finalization.is_finalizing (g_state g') = true ->
  (exists g, git_finalizations d !! (pid, sid) = Some g
     /\ Finalization.is_finalizing (g_state g) = true) \/
  (sets_journal c (pid, sid) /\
   forall s g, git_finalizations d !! (pid, s) = Some g -> s <> sid ->
     Finalization.is_finalizing (g_state g) = false).
Proof.
  intros Hok Hg' Hf. pose proof (exec_journals c d (pid, sid)) as Hrel. rewrite Hg' in Hrel.
  destruct (git_finalizations d !! (pid, sid)) as [g|] eqn:Hg.
  2: { destruct (Hrel I) as (_ & Hs & _). by rewrite Hs in Hf. }
  destruct (Hrel (Hok _ _ Hg)) as (_ & [->|[Hstep|Hack]]); [by left; eauto| |].
  2: { destruct Hack as (Hs & _ & (? & ? & ->)). simpl in Hf. by rewrite Hs in Hf. }
  destruct Hstep as (_ & _ & _ & _ & [[Hc _]|[Hs _]]); [|by rewrite Hs in Hf].
  destruct c; try done. simpl in Hc, Hg'. simplify_eq.
  destruct (compare_and_set_conflict _ _ _ _ _ _ _ Hg Hg') as [->|Hno]; [by left; eauto|right].
  split; [done|].
  unfold pending_index_conflict in Hno. rewrite Hf in Hno. simpl in Hno.
  rewrite sql_exists_false in Hno. intros s g0 Hg0 Hne. specialize (Hno _ _ Hg0). simpl in Hno.
  rewrite bool_decide_true in Hno by done.
  rewrite bool_decide_false in Hno by congruence. done.
Qed.

Lemma exec_one_finalizing c d :
  journals_ok d -> one_finalizing_journal d -> one_finalizing_journal (exec c d).
Proof.
  intros Hok Hone pid s1 s2 g1 g2 H1 H2 F1 F2.
  destruct (decide (s1 = s2)) as [|Hne]; [done|exfalso].
  destruct (exec_finalizing_before _ _ _ _ _ Hok H1 F1) as [(v1 & L1 & A1)|[S1 N1]];
    destruct (exec_finalizing_before _ _ _ _ _ Hok H2 F2) as [(v2 & L2 & A2)|[S2 N2]].
  - by apply Hne, (Hone pid s1 s2 v1 v2).
  - by rewrite (N2 _ _ L1) in A1.
  - rewrite (N1 _ _ L2) in A2; [done|congruence].
  - destruct c; try done. simpl in S1, S2. congruence.
Qed.
