(* ===== verification/LeaseInv.v ===== *)
(** Leases: what may take a project away from its holder. A command either acts
    for the holder it names, or reclaims an expired lease that no unfinished
    worker owns; every other command leaves the project with its holder. *)
From S2P Require Import Prelude Sql AgentTypes Store Footprint Leases Workers Runs Sessions.
From S2P Require Import Handoff Journals Retire Recovery Holders Projects Models Registry.
From S2P Require Import Footprint.
From S2P Require Import WorkerInv.

(** The lease holders whose lease the command may give up or pass on. *)
Definition acts_for (c : command) (holder : string) : Prop :=
  match c with
  | ReleaseLease _ h => holder = h
  | ReserveWorker r _ => holder = res_expected_lease_holder r
  | AbandonWorker a => holder = worker_lease_holder (ab_worker_token a)
  | FinalizeWorker f => holder = worker_lease_holder (fz_worker_token f)
  | AdoptGuardian _ _ from _ _ _ _ => holder = from
  | FinishGuardian _ _ guardian _ _ => holder = guardian
  | RecoverStaleGuardian _ _ guardian _ _ _ => holder = guardian
  | CompleteInterruptHandoff _ _ _ from _ _ _ => holder = from
  | FinalizeReattached _ h _ _ _ => holder = h
  | FinalizeReaped _ _ _ h _ _ _ => holder = h
  | TryAcquireFinalizationLease _ _ _ _ (Some h) => holder = h
  | _ => False
  end.

(** The commands that reclaim, and the expiry test each of them makes. *)
Definition sees_expired (c : command) (l : lease_row) : Prop :=
  match c with
  | TryAcquireLease _ _ at_ _ =>
      text_leb (l_expires_at l) at_ = true /\ like_prefix "clt-reattached-" (l_holder l) = false
  | TryAcquireFinalizationLease _ _ at_ _ _ =>
      lease_live l at_ = false /\ like_prefix "clt-reattached-" (l_holder l) = false
  | CancelIdleJournal _ _ _ _ _ at_ _ _ => lease_live l at_ = false
  | CleanAgentHistory at_ => lease_live l at_ = false
  | UnregisterProject own running _ now => unregister_reclaimable own running l now = true
  | _ => False
  end.

(** No unfinished worker of the project was reserved under this holder. *)
Definition lease_unowned (d : db) (pid : Z) (holder : string) : Prop :=
  forall token w, agent_workers d !! token = Some w -> w_project_id w = pid ->
    worker_state_active (w_state w) = true -> w_lease_holder w <> holder.

Definition lease_rel (acts : string -> Prop) (reclaims : Z -> lease_row -> Prop)
    (pid : Z) (o o' : option lease_row) : Prop :=
  forall l, o = Some l ->
    (exists l', o' = Some l' /\ l_holder l' = l_holder l)
    \/ acts (l_holder l) \/ reclaims pid l.

#[export] Instance lease_rel_refl acts reclaims pid : Reflexive (lease_rel acts reclaims pid).
Proof. intros o l ->. eauto. Qed.

Notation leases_evolve acts reclaims d d' :=
  (pointwise (lease_rel acts reclaims) (leases d) (leases d')).

(** ** Single statements *)

Section Statements.
Context (acts : string -> Prop) (reclaims : Z -> lease_row -> Prop).
Implicit Types (t : gmap Z lease_row) (l : lease_row).

Lemma lease_update pid p f t t' n :
  sql_update pid p f t = (t', n) ->
  (forall l, p l = true -> l_holder (f l) = l_holder l \/ acts (l_holder l)) ->
  pointwise (lease_rel acts reclaims) t t'.
Proof.
  intros Hu Hf. eapply pointwise_sql_update; [apply _|exact Hu|].
  intros l _ Hp l0 [= <-]. destruct (Hf l Hp) as [?|?]; eauto.
Qed.

Lemma lease_delete pid p t t' n :
  sql_delete pid p t = (t', n) ->
  (forall l, t !! pid = Some l -> p l = true -> acts (l_holder l) \/ reclaims pid l) ->
  pointwise (lease_rel acts reclaims) t t'.
Proof.
  intros Hu Hf. eapply pointwise_sql_delete; [apply _|exact Hu|].
  intros l Hl Hp l0 [= <-]. right. by apply Hf.
Qed.

(** A statement that reclaims, then an insertion that finds the place free. *)
Lemma lease_free_insert pid v t t' :
  pointwise (lease_rel acts reclaims) t t' -> t' !! pid = None ->
  pointwise (lease_rel acts reclaims) t (<[pid := v]> t').
Proof.
  intros Ht Hfree k l Hl. destruct (decide (k = pid)) as [->|Hne].
  - destruct (Ht _ _ Hl) as [(l' & Hl' & _)|?]; [congruence|auto].
  - rewrite lookup_insert_ne by done. by apply Ht.
Qed.

Lemma lease_insert pid v t :
  t !! pid = None -> pointwise (lease_rel acts reclaims) t (<[pid := v]> t).
Proof. intros Hfree. apply lease_free_insert; [unchanged|done]. Qed.
End Statements.

(** ** Operations *)

Definition evolves (c : command) (d : db) : Prop :=
  leases_evolve (acts_for c)
    (fun pid l => sees_expired c l /\ lease_unowned d pid (l_holder l)) d (exec c d).

Lemma no_active_unowned d pid holder :
  has_active_worker d pid = false -> lease_unowned d pid holder.
Proof.
  unfold has_active_worker. rewrite sql_exists_false. intros Hn t w Hw <- Ha.
  specialize (Hn _ _ Hw). simpl in Hn. by rewrite bool_decide_true, Ha in Hn.
Qed.

Lemma try_acquire_lease_evolves pid holder at_ exp d :
  evolves (TryAcquireLease pid holder at_ exp) d.
Proof.
  unfold evolves. cbn [exec acts_for sees_expired]. unfold try_acquire_lease, insert_lease_or_ignore.
  assert (pointwise (lease_rel (fun _ => False) (fun pid l =>
      (text_leb (l_expires_at l) at_ = true /\ like_prefix "clt-reattached-" (l_holder l) = false)
      /\ lease_unowned d pid (l_holder l)))
    (leases d) (leases (clear_expired_lease pid at_ d))) as Hclear.
  { unfold clear_expired_lease. simpl.
    eapply (lease_delete _ _ pid (expired_lease_clearable d pid at_)); [apply surjective_pairing|].
    unfold expired_lease_clearable. intros l _ Hp. right. guards. split; [done|].
    rewrite sql_exists_false in H0. intros t w Hw Hpid Ha Hh. specialize (H0 _ _ Hw). simpl in H0.
    by rewrite !bool_decide_true, Ha in H0. }
  repeat (case_match; simplify_eq/=); try done. by apply lease_free_insert.
Qed.

Lemma finalization_lease_evolves pid holder at_ exp reclaim d :
  evolves (TryAcquireFinalizationLease pid holder at_ exp reclaim) d.
Proof.
  unfold evolves. cbn [exec sees_expired].
  unfold try_acquire_git_finalization_lease, transaction, insert_lease_or_ignore.
  set (d1 := repair_recovery_fences pid at_ d).
  set (ls := (sql_delete pid _ (leases d1)).1).
  assert (pointwise (lease_rel (acts_for (TryAcquireFinalizationLease pid holder at_ exp reclaim))
    (fun pid l => (lease_live l at_ = false
                   /\ like_prefix "clt-reattached-" (l_holder l) = false)
                  /\ lease_unowned d pid (l_holder l))) (leases d) ls) as Hclear.
  { eapply (lease_delete _ _ pid (finalizer_may_clear d1 pid at_ reclaim));
      [apply surjective_pairing|].
    unfold finalizer_may_clear. intros l _ Hp. guards.
    match goal with H : _ || _ = true |- _ => apply orb_true_iff in H as [He|Hr] end.
    - right. guards. split_and!; [|done|by apply no_active_unowned].
      apply Z.ltb_ge. by apply Z.leb_le.
    - left. destruct reclaim; guards. done. }
  repeat (case_match; simplify_eq/=); try done; try unchanged. by apply lease_free_insert.
Qed.

Lemma fence_project_evolves acts reclaims pid sid generation identity holder at_ exp d b d' :
  fence_project pid sid generation identity holder at_ exp d = Ok (b, d') ->
  (forall l, lease_live l at_ = false -> lease_unowned d pid (l_holder l) -> reclaims pid l) ->
  leases_evolve acts reclaims d d'.
Proof.
  unfold fence_project. intros H Hr.
  destruct (has_active_worker d pid) eqn:Hactive; [done|].
  repeat (case_match; simplify_eq/=); guards.
  all: assert (pointwise (lease_rel acts reclaims) (leases d)
    (sql_delete pid (fun l => (cast_integer (l_expires_at l) <=? cast_integer at_)%Z)
       (leases d)).1) as Hclear; [|by auto using lease_free_insert].
  all: eapply (lease_delete _ _ pid); [apply surjective_pairing|].
  all: intros l _ Hp; right; apply Hr; [apply Z.ltb_ge; by apply Z.leb_le|].
  all: by apply no_active_unowned.
Qed.

Lemma hand_lease_over_evolves pid from l d a d' :
  hand_lease_over pid from l d = Commit a d' ->
  leases_evolve (eq from) (fun _ _ => False) d d'.
Proof.
  unfold hand_lease_over, transfer_lease. intros H.
  destruct (sql_update pid _ _ (leases d)) as [ls n] eqn:Hu.
  assert (pointwise (lease_rel (eq from) (fun _ _ => False)) (leases d) ls) as Hls.
  { eapply lease_update; [exact Hu|]. intros l0 Hp. guards. auto. }
  repeat (case_match; simplify_eq/=); try done. by apply lease_free_insert.
Qed.

Lemma delete_lease_evolves pid holder d d' reclaims :
  d' = delete_lease_of pid holder d -> leases_evolve (eq holder) reclaims d d'.
Proof.
  intros ->. unfold delete_lease_of. simpl. eapply lease_delete; [apply surjective_pairing|].
  intros l _ Hp. guards. auto.
Qed.

#[export] Instance lease_rel_trans acts pid : Transitive (lease_rel acts (fun _ _ => False) pid).
Proof.
  intros o1 o2 o3 H1 H2 l Hl. destruct (H1 _ Hl) as [(l' & Hl' & He)|[?|[]]]; [|auto].
  destruct (H2 _ Hl') as [(l2 & Hl2 & He2)|[?|[]]]; [left|right; left; congruence].
  exists l2. split; [done|congruence].
Qed.

Lemma lease_rel_weaken (acts acts' : string -> Prop) reclaims reclaims' t t' :
  pointwise (lease_rel acts reclaims) t t' ->
  (forall h, acts h -> acts' h) -> (forall pid l, reclaims pid l -> reclaims' pid l) ->
  pointwise (lease_rel acts' reclaims') t t'.
Proof. intros Ht Ha Hr k l Hl. destruct (Ht _ _ Hl) as [?|[?|?]]; auto. Qed.

Lemma settle_exited_evolves pid sid s terminal child tok holder now d a d' :
  settle_exited pid sid s terminal child tok holder now d = Commit a d' ->
  leases_evolve (eq holder) (fun _ _ => False) d d'.
Proof.
  unfold settle_exited, update_control. intros H. repeat (case_match; simplify_eq/=); try unchanged.
  exact (delete_lease_evolves pid holder (d <| session_controls := g |>) _ _ eq_refl).
Qed.

Lemma finalize_after_exit_evolves pid child tok holder reattached at_ exp now d :
  leases_evolve (eq holder) (fun _ _ => False) d
    (finalize_automated_session_after_exit pid child tok holder reattached at_ exp now d).2.
Proof.
  unfold finalize_automated_session_after_exit, transaction.
  repeat (case_match; simplify_eq/=); try unchanged; eauto using settle_exited_evolves.
  eapply pointwise_trans; [apply _|by eapply hand_lease_over_evolves|].
  by eapply settle_exited_evolves.
Qed.

Lemma reserve_worker_evolves r claim d : evolves (ReserveWorker r claim) d.
Proof.
  unfold evolves. cbn [exec acts_for sees_expired]. unfold reserve_worker, transaction, txn_try,
    supersede_other_abandoned.
  repeat (case_match; simplify_eq/=); use_footprints; try unchanged.
  all: eapply lease_update; [eassumption|]; intros l Hp; guards; auto.
Qed.

Lemma finalize_worker_evolves f d : workers_ok d -> evolves (FinalizeWorker f) d.
Proof.
  intros Hok. unfold evolves. cbn [exec acts_for sees_expired].
  unfold finalize_worker, complete_finalizing, transaction, txn_try.
  destruct (agent_workers d !! fz_worker_token f) as [w|] eqn:Hw; [|unchanged].
  pose proof (Hok _ _ Hw) as [Hh _].
  repeat (case_match; simplify_eq/=); use_footprints; try unchanged.
  all: eapply lease_delete; [apply surjective_pairing|].
  all: intros l _ Hp; left; simpl in *; guards.
  match goal with H1 : sql_update _ _ _ (agent_workers d) = (?g1, _),
                  H2 : sql_update _ _ _ ?g1 = (?g2, _), Hp : sql_eq _ _ = true |- _ =>
    rewrite (sql_update_keeps w_lease_holder _ _ _ _ _ _ _ H2) in Hp by done;
    rewrite (sql_update_keeps w_lease_holder _ _ _ _ _ _ _ H1), Hw in Hp by done;
    apply sql_eq_Some in Hp; congruence
  end.
Qed.

Lemma abandon_worker_evolves a d : workers_ok d -> evolves (AbandonWorker a) d.
Proof.
  intros Hok. unfold evolves. cbn [exec acts_for sees_expired].
  unfold abandon_worker, transaction, txn_try, sql_select.
  destruct (agent_workers d !! ab_worker_token a) as [w|] eqn:Hw; [|unchanged].
  pose proof (Hok _ _ Hw) as [Hh _].
  repeat (case_match; simplify_eq/=); use_footprints; try unchanged.
  all: eapply lease_delete; [eassumption|].
  all: intros l _ Hp; guards; left; congruence.
Qed.

Ltac named_lease :=
  first [ unchanged
        | eapply lease_update; [eassumption|]; intros ? ?; guards; auto
        | eapply lease_delete; [first [eassumption|apply surjective_pairing]|];
          intros ? _ ?; guards; auto ].

Lemma guardian_evolves c d :
  match c with
  | AdoptGuardian _ _ _ _ _ _ _ | RegisterGuardianChild _ _ _ _ _ _
  | FinishGuardian _ _ _ _ _ | RecoverStaleGuardian _ _ _ _ _ _
  | CompleteInterruptHandoff _ _ _ _ _ _ _ | RegisterKnownSession _ _ _
  | ReleaseLease _ _ | RenewLease _ _ _ | RenewFinalizationLease _ _ _
  | RenewWorker _ _ _ _ => True
  | _ => False
  end -> evolves c d.
Proof.
  intros Hc. unfold evolves. destruct c; try done; cbn [exec acts_for sees_expired].
  all: unfold_command; unfold transaction, transfer_lease, refresh_unexpired_lease,
    delete_lease_of, update_control.
  all: repeat (case_match; simplify_eq/=); use_footprints; named_lease.
Qed.

Lemma housekeeping_evolves c d :
  match c with
  | ClaimOrphan _ _ _ _ | BeginRecovery _ | CleanAgentHistory _ | UnregisterProject _ _ _ _ => True
  | _ => False
  end -> evolves c d.
Proof.
  intros Hc. unfold evolves. destruct c; try done; cbn [exec acts_for sees_expired].
  - unfold clean_agent_history, transaction.
    destruct (clean_blocked at_ d) eqn:Hblocked; [unchanged|].
    unfold clean_blocked in Hblocked.
    repeat (case_match; simplify_eq/=).
    apply pointwise_empty; [apply _|]. intros k l Hl l0 [= <-]. right; right.
    repeat match goal with H : sql_exists _ _ = false |- _ => rewrite sql_exists_false in H end.
    unfold any_active_worker in *.
    repeat match goal with H : sql_exists _ _ = false |- _ => rewrite sql_exists_false in H end.
    split; [eauto|]. intros t w Hw _ Ha.
    match goal with H : forall k v, agent_workers d !! k = Some v -> _ |- _ =>
      specialize (H _ _ Hw); simpl in H; congruence end.
  - unfold claim_orphaned_session_supervision, transaction.
    repeat (case_match; simplify_eq/=); guards; try unchanged. by apply lease_insert.
  - unfold begin_missing_git_recovery, transaction.
    destruct (recovery_refused q d) as [e|] eqn:Hrefused; [unchanged|]. cbn [snd].
    assert (leases d !! q_project_id q = None) as Hfree.
    { unfold recovery_refused, recovery_blocked in Hrefused.
      repeat (case_match; simplify_eq/=). guards. done. }
    unfold stop_recovered_session, retire_reviewed_journal, update_journal.
    repeat (case_match; simplify_eq/=); by apply lease_insert.
  - unfold unregister_project, transaction.
    repeat (case_match; simplify_eq/=); try unchanged.
    intros k l0 Hl0. destruct (decide (k = z)) as [->|Hne].
    2: { rewrite lookup_delete_ne by done. eauto. }
    simplify_eq. right; right. split; [done|].
    apply no_active_unowned. unfold has_active_worker. by rewrite <- sql_count_exists.
Qed.

(** ** Every command *)

Lemma finalization_commands_evolve c d :
  match c with
  | FinalizeReattached _ _ _ _ _ | FinalizeReaped _ _ _ _ _ _ _
  | CancelIdleJournal _ _ _ _ _ _ _ _ => True
  | _ => False
  end -> evolves c d.
Proof.
  intros Hc. unfold evolves. destruct c; try done; cbn [exec acts_for sees_expired].
  - unfold finalize_reattached_automated_session.
    repeat (case_match; simplify_eq/=); try unchanged.
    eapply lease_rel_weaken; [apply finalize_after_exit_evolves|by intros h <-|done].
  - unfold finalize_reaped_automated_session.
    eapply lease_rel_weaken; [apply finalize_after_exit_evolves|by intros h <-|done].
  - unfold cancel_idle_working_git_finalization, transaction, txn_try.
    repeat (case_match; simplify_eq/=); try unchanged.
    all: unfold settle_cancelled_session, update_journal, delete_idle_control, delete_control,
      update_control, clear_cancelled_attempt_failure in *.
    all: repeat (case_match; simplify_eq/=); try unchanged.
    all: by eapply fence_project_evolves; [eassumption|auto].
Qed.

#[export] Hint Resolve try_acquire_lease_evolves finalization_lease_evolves
  reserve_worker_evolves finalize_worker_evolves abandon_worker_evolves : leases.

Lemma exec_leases c d : workers_ok d -> evolves c d.
Proof.
  intros Hok. destruct c; auto with leases;
    try (apply guardian_evolves; exact I); try (apply housekeeping_evolves; exact I);
    try (apply finalization_commands_evolve; exact I).
  all: unfold evolves; cbn [exec]; apply pointwise_same; [apply _|].
  all: frame.
Qed.

(** The holder of a lease keeps it against every command that neither acts for
    it nor sees it expired while no unfinished worker owns it. *)
Lemma exec_lease_kept c d pid l :
  workers_ok d -> leases d !! pid = Some l -> ~ acts_for c (l_holder l) ->
  ~ (sees_expired c l /\ lease_unowned d pid (l_holder l)) ->
  exists l', leases (exec c d) !! pid = Some l' /\ l_holder l' = l_holder l.
Proof.
  intros Hok Hl Ha Hr. destruct (exec_leases c d Hok pid l Hl) as [?|[?|?]]; by auto.
Qed.
