(* ===== verification/RegistryInv.v ===== *)
(** The boundaries of launches, the invariant of every reachable registry, and one
    project followed through a managed run. *)
From S2P Require Import Prelude Sql AgentTypes Store Leases Workers Runs Sessions Handoff.
From S2P Require Import Journals Retire Recovery Holders Projects Models Registry Footprint.
From S2P Require Import ControlInv WorkerInv JournalInv LeaseInv.

(** The boundary a command records. *)
Definition records_launch (c : command) (k : Z * string) (a : launch_row) : Prop :=
  match c with
  | RecordLaunchState pid token mode start now =>
      k = (pid, token) /\ a = launch_of mode start now /\ mode <> GitOff
  | _ => False
  end.

Definition launch_rel (records : Z * string -> launch_row -> Prop) (k : Z * string)
    (o o' : option launch_row) : Prop :=
  match o, o' with
  | Some a, Some a' => a' = a
  | Some _, None | None, None => True
  | None, Some a' => records k a'
  end.

#[export] Instance launch_rel_refl records k : Reflexive (launch_rel records k).
Proof. by intros []. Qed.

Notation launches_evolve records d d' :=
  (pointwise (launch_rel records) (agent_git_launch_states d) (agent_git_launch_states d')).

Lemma launch_delete records k p t t' n :
  sql_delete k p t = (t', n) -> pointwise (launch_rel records) t t'.
Proof. intros Hd. eapply pointwise_sql_delete; [apply _|exact Hd|by intros]. Qed.

Lemma record_launch_evolves pid token mode start now d :
  launches_evolve (records_launch (RecordLaunchState pid token mode start now)) d
    (record_git_launch_state pid token mode start now d).2.
Proof.
  unfold record_git_launch_state, transaction.
  repeat (case_match; simplify_eq/=); guards; try unchanged.
  apply pointwise_insert; [apply _|].
  match goal with H : _ !! _ = None |- _ => rewrite H end. by split.
Qed.

Lemma attach_journal_launches records k mode tok at_ d d' :
  attach_journal k mode tok at_ d = Ok d' -> launches_evolve records d d'.
Proof.
  unfold attach_journal. intros H. repeat (case_match; simplify_eq/=); try unchanged.
  all: by eapply launch_delete.
Qed.

Lemma mark_running_launches records pid sid child tok out err mode now d :
  launches_evolve records d (mark_session_running pid sid child tok out err mode now d).2.
Proof.
  unfold mark_session_running, transaction, txn_try.
  repeat (case_match; simplify_eq/=); try unchanged.
  all: repeat match goal with
    | H : fix_git_mode _ _ _ _ = Ok _ |- _ => apply fix_git_mode_frame in H as [? ->]
    | H : attach_journal _ _ _ _ _ = Ok _ |- _ =>
        exact (attach_journal_launches records _ _ _ _ _ _ H)
    end.
  all: unchanged.
Qed.

(** ** Every command *)

Lemma exec_launches c d : launches_evolve (records_launch c) d (exec c d).
Proof.
  destruct c; try (apply record_launch_evolves); try (apply mark_running_launches);
    cbn [exec].
  all: try (unfold reclaim_unchanged_git_launch_state, delete_git_launch_state, transaction;
            repeat (case_match; simplify_eq/=); first [unchanged|by eapply launch_delete]; fail).
  all: try (unfold clean_agent_history, unregister_project, delete_project, drop_project_rows,
              transaction; repeat (case_match; simplify_eq/=);
            first [unchanged | apply pointwise_empty; [apply _|by intros]
                  | apply pointwise_filter; [apply _|by intros]]; fail).
  all: apply pointwise_same; [apply _|].
  all: frame.
Qed.

Definition launches_ok (d : db) : Prop :=
  forall k a, agent_git_launch_states d !! k = Some a -> a_git_mode a <> GitOff.

Definition one_launch_boundary (d : db) : Prop :=
  forall pid t1 t2, is_Some (agent_git_launch_states d !! (pid, t1)) ->
    is_Some (agent_git_launch_states d !! (pid, t2)) -> t1 = t2.

Lemma exec_launch_before c d k a' :
  agent_git_launch_states (exec c d) !! k = Some a' ->
  agent_git_launch_states d !! k = Some a' \/
  (agent_git_launch_states d !! k = None /\ records_launch c k a').
Proof.
  intros Ha. pose proof (exec_launches c d k) as Hrel. rewrite Ha in Hrel.
  destruct (agent_git_launch_states d !! k); simpl in Hrel; [left; congruence|auto].
Qed.

Lemma exec_launches_ok c d : launches_ok d -> launches_ok (exec c d).
Proof.
  intros Hok k a Ha. destruct (exec_launch_before _ _ _ _ Ha) as [Ho|[_ Hr]]; [by eapply Hok|].
  destruct c; try done. by destruct Hr as (-> & -> & ?).
Qed.

(** Recording refuses while the project has another boundary. *)
Lemma record_launch_alone pid token mode start now d k a :
  agent_git_launch_states d !! (pid, token) = None ->
  agent_git_launch_states (record_git_launch_state pid token mode start now d).2
    !! (pid, token) = Some a ->
  k.1 <> pid \/ agent_git_launch_states d !! k = None.
Proof.
  unfold record_git_launch_state, transaction. intros Hn.
  destruct (mode == GitOff); [simpl; congruence|].
  destruct (has_other_git_launch_state pid token d) eqn:Hother; [simpl; congruence|].
  intros _. unfold has_other_git_launch_state in Hother. rewrite sql_exists_false in Hother.
  destruct (agent_git_launch_states d !! k) as [a0|] eqn:Hk; [|auto]. left. intros Hp.
  specialize (Hother _ _ Hk). simpl in Hother. rewrite bool_decide_true in Hother by done.
  simpl in Hother. guards. destruct k; simpl in *. congruence.
Qed.

Lemma exec_one_launch c d : one_launch_boundary d -> one_launch_boundary (exec c d).
Proof.
  intros Hone pid t1 t2 [a1 H1] [a2 H2].
  destruct (decide (t1 = t2)) as [|Hne]; [done|exfalso].
  destruct (exec_launch_before _ _ _ _ H1) as [O1|[N1 R1]];
    destruct (exec_launch_before _ _ _ _ H2) as [O2|[N2 R2]].
  - apply Hne. by eapply Hone.
  - destruct c; try done. destruct R2 as ([= -> ->] & _).
    destruct (record_launch_alone _ _ _ _ _ _ (pid0, t1) _ N2 H2) as [?|?];
      simpl in *; congruence.
  - destruct c; try done. destruct R1 as ([= -> ->] & _).
    destruct (record_launch_alone _ _ _ _ _ _ (pid0, t2) _ N1 H1) as [?|?];
      simpl in *; congruence.
  - destruct c; try done. destruct R1 as ([= -> ->] & _), R2 as ([= ?] & _). congruence.
Qed.

Definition controls_ok (d : db) : Prop := map_Forall (fun _ => control_ok) (session_controls d).

Lemma exec_controls_ok c d : controls_ok d -> controls_ok (exec c d).
Proof.
  intros Hd k sc' Hsc'. pose proof (exec_controls c d k) as Hrel. rewrite Hsc' in Hrel.
  destruct (session_controls d !! k) eqn:Hsc; (destruct Hrel as [Hok _]; [|exact Hok]).
  - by apply (Hd k).
  - done.
Qed.

(** ** Rows refer to registered projects *)

Record registry_ok (d : db) : Prop := {
  ok_controls : controls_ok d;
  ok_workers : workers_ok d;
  ok_active : one_active_worker d;
  ok_journals : journals_ok d;
  ok_finalizing : one_finalizing_journal d;
  ok_launches : launches_ok d;
  ok_boundary : one_launch_boundary d
}.

Lemma registry_ok_empty : registry_ok empty_db.
Proof.
  split; unfold controls_ok, workers_ok, journals_ok, launches_ok; simpl.
  1, 2, 4: apply map_Forall_empty.
  - by intros t1 t2 w1 w2 H1.
  - by intros pid s1 s2 g1 g2 H1.
  - by intros k a H.
  - by intros pid t1 t2 [a H].
Qed.

Lemma registry_ok_exec c d : registry_ok d -> registry_ok (exec c d).
Proof.
  intros []; split; auto using exec_controls_ok, exec_workers_ok, exec_one_active,
    exec_journals_ok, exec_one_finalizing, exec_launches_ok, exec_one_launch.
Qed.

Lemma reachable_ok d : reachable d -> registry_ok d.
Proof. revert d. apply reachable_ind; [apply registry_ok_empty|apply registry_ok_exec]. Qed.

Lemma exec_all_app cs1 cs2 d : exec_all (cs1 ++ cs2) d = exec_all cs2 (exec_all cs1 d).
Proof. apply foldl_app. Qed.

Lemma registry_ok_exec_all cs d : registry_ok d -> registry_ok (exec_all cs d).
Proof.
  revert d. induction cs as [|c cs IH]; intros d Hd; simpl; [done|].
  apply IH. by apply registry_ok_exec.
Qed.

(** ** Journals over a whole history *)

(** What one journal keeps from one database to a later one. *)
Definition journal_grows (g g' : journal_row) : Prop :=
  (g_generation g <= g_generation g')%Z /\
  Finalization.rank (g_state g) <= Finalization.rank (g_state g') /\
  journal_boundary g' = journal_boundary g /\
  keeps_record (g_task_identity g) (g_task_identity g') /\
  keeps_record (g_commit_oid g) (g_commit_oid g') /\
  (g_generation g' = g_generation g -> g_state g' = g_state g) /\
  (g_state g = Completed -> g_state g' = Completed).

#[export] Instance journal_grows_refl : Reflexive journal_grows.
Proof. intros g. unfold journal_grows, keeps_record. split_and!; auto; lia. Qed.

Lemma journal_rel_grows (cas : Prop) g g' :
  (g' = g \/ journal_step cas g g' \/ journal_acknowledged g g') -> journal_grows g g'.
Proof.
  intros [->|[Hs|Ha]]; [done| |].
  - destruct Hs as (Hg & Hb & Hi & Hc & Ht). unfold journal_grows. split_and!; auto.
    + lia.
    + destruct Ht as [[_ Ht]|(-> & _ & _)]; [by apply Finalization.can_transition_rank|].
      destruct (g_state g); simpl; lia.
    + intros He. rewrite Hg in He. lia.
    + intros Hs. rewrite Hs in Ht. destruct Ht as [[_ ?]|(_ & _ & Hin)]; [done|].
      by repeat (apply elem_of_cons in Hin as [?|Hin]; [done|]); apply elem_of_nil in Hin.
  - destruct Ha as (Hs & _ & (at_ & run & ->)). unfold journal_grows, keeps_record; simpl.
    rewrite Hs. split_and!; auto; lia.
Qed.

#[export] Instance journal_grows_trans : Transitive journal_grows.
Proof.
  intros g1 g2 g3 (G1 & R1 & B1 & I1 & C1 & E1 & D1) (G2 & R2 & B2 & I2 & C2 & E2 & D2).
  unfold journal_grows, keeps_record in *. split_and!; try lia; try congruence; auto.
  intros He. rewrite E2, E1 by lia. done.
Qed.

(** A journal present before and after a history that deletes no journal. *)
Lemma exec_all_journal cs d k g :
  registry_ok d -> Forall (fun c => ~ deletes_journals c) cs ->
  git_finalizations d !! k = Some g ->
  exists g', git_finalizations (exec_all cs d) !! k = Some g' /\ journal_grows g g'.
Proof.
  revert d g. induction cs as [|c cs IH]; intros d g Hok Hcs Hg; [by exists g|].
  inversion_clear Hcs as [|? ? Hc Hrest].
  pose proof (exec_journals c d k) as Hrel. rewrite Hg in Hrel.
  destruct (Hrel (ok_journals _ Hok _ _ Hg)) as [_ Hstep].
  destruct (git_finalizations (exec c d) !! k) as [g1|] eqn:Hg1; [|done].
  destruct (IH (exec c d) g1 (registry_ok_exec _ _ Hok) Hrest Hg1) as (g' & Hg' & Hgrow).
  exists g'. split; [done|]. transitivity g1; [by eapply journal_rel_grows|done].
Qed.

(** ** What a successful compare-and-set did *)

Lemma advance_fence_journals k generation u d :
  git_finalizations (advance_fence k generation u d) = git_finalizations d.
Proof. unfold advance_fence, update_control, delete_control. repeat case_match; done. Qed.

Lemma compare_and_set_true pid s generation u d d' :
  compare_and_set_git_finalization pid s generation u d = (Ok true, d') ->
  exists g, git_finalizations d !! (pid, s) = Some g /\ g_generation g = generation /\
    update_rejected g u = None /\
    git_finalizations d' !! (pid, s) = Some (updated_journal u g).
Proof.
  unfold compare_and_set_git_finalization, transaction, txn_try, update_journal. intros H.
  destruct (git_finalizations d !! (pid, s)) as [g|] eqn:Hg; [|by simplify_eq/=].
  repeat (case_match; simplify_eq/=); guards.
  all: exists g; split_and!; try done; rewrite advance_fence_journals; simpl.
  all: match goal with H : sql_update ?k ?p ?f ?t = _ |- _ =>
         pose proof (lookup_sql_update k p f t k) as Hl; rewrite H in Hl; simpl in Hl end.
  all: rewrite Hl, Hg; simpl; by rewrite !bool_decide_true by done.
Qed.

Definition holder : string := "clt-scheduler-7".
Definition token : string := "tok".
Definition sid : string := "session".

Definition reservation : AgentWorkerReservation :=
  mkReservation 1 token holder 4 1 "service" "/bin/clt" "worker" "/bin" None "next_todo" None
    "1000".

Definition start : AgentGitStartState := mkStart "abc" (Some "refs/heads/main") None "clean".

(** The project is registered and leased. *)
Definition leased : list command :=
  [RegisterProject "/p" "p" "900"; TryAcquireLease 1 holder "1000" "1300"].

(** Its worker was dispatched, claimed and recorded its launch boundary. *)
Definition launched : list command :=
  leased ++ [ReserveWorker reservation None; RecordLaunchState 1 token GitCommit start "1001";
             ClaimWorker token 42 "1002"].

(** The Codex session runs and owns the journal. *)
Definition running : list command :=
  launched ++ [MarkSessionRunning 1 sid 77 token "out" "err" (Some GitCommit) "1003"].

Definition tracked : list command :=
  running ++
  [CompareAndSetJournal 1 sid 0 (mkUpdate Tracking (Some "task") None true (Some token) None None
     "1004")].

Definition finalization : AgentWorkerFinalization :=
  mkFinalization token (Some 42%Z) (worker_lease_holder token) "success" "1010" (Some 0%Z) None None
    None None (Some sid) None.

(** The worker finished; its journal still waits for the commit. *)
Definition finished : list command :=
  tracked ++
  [CompareAndSetJournal 1 sid 1 (mkUpdate CommitPending None None true (Some token) None None
     "1005"); FinalizeWorker finalization; ClearRunningControl 1 sid (Some token)].

Definition at_stage (cs : list command) : db := exec_all cs empty_db.

Lemma at_stage_reachable cs : reachable (at_stage cs).
Proof. by exists cs. Qed.

(** Stages are evaluated by [vm_compute] only. *)
#[global] Opaque at_stage.
