(* ===== verification/Isolation.v ===== *)
(** What an operation on one project leaves of the others: the rows of a project,
    and the commands that write the rows of one project only. *)
From S2P Require Import Prelude Sql AgentTypes Leases Workers Runs Sessions Handoff Journals.
From S2P Require Import Retire Recovery.
From S2P Require Import Holders Projects Models Registry Footprint Store.

(** ** The rows of a project *)

Definition of_project {V} (q : Z) (t : gmap (Z * string) V) : gmap (Z * string) V :=
  filter (fun kv => kv.1.1 = q) t.

Record project_slice := mkSlice {
  sl_project : option project_row; sl_lease : option lease_row; sl_review : option SupervisorReview;
  sl_controls : gmap (Z * string) control_row; sl_journals : gmap (Z * string) journal_row;
  sl_launches : gmap (Z * string) launch_row; sl_modes : gmap (Z * string) AgentGitMode;
  sl_workers : gmap string worker_row; sl_runs : gmap Z run_row
}.

Definition slice (q : Z) (d : db) : project_slice :=
  mkSlice (projects d !! q) (leases d !! q) (supervisor_reviews d !! q)
    (of_project q (session_controls d)) (of_project q (git_finalizations d))
    (of_project q (agent_git_launch_states d)) (of_project q (session_git_modes d))
    (filter (fun kv => w_project_id kv.2 = q) (agent_workers d))
    (filter (fun kv => r_project_id kv.2 = q) (runs d)).

(** Only rows of project [pid] differ. *)
Definition only_project (pid : Z) (d d' : db) : Prop := forall q, q <> pid -> slice q d' = slice q d.

#[export] Instance only_project_preorder pid : PreOrder (only_project pid).
Proof. split; [done|]. intros d1 d2 d3 H12 H23 q Hq. by rewrite H23, H12. Qed.

(** ** Single statements *)

Section Tables.
Context {V : Type}.
Implicit Types (t : gmap (Z * string) V) (k : Z * string).

Lemma of_project_insert q k v t : k.1 <> q -> of_project q (<[k := v]> t) = of_project q t.
Proof. intros Hk. by apply map_filter_insert_not. Qed.
Lemma of_project_delete q k t : k.1 <> q -> of_project q (delete k t) = of_project q t.
Proof. intros Hk. by apply map_filter_delete_not. Qed.
Lemma of_project_update q k p f t : k.1 <> q -> of_project q (sql_update k p f t).1 = of_project q t.
Proof.
  intros Hk. unfold sql_update. destruct (t !! k) as [v|]; [|done]. destruct (p v); [|done].
  by apply of_project_insert.
Qed.
Lemma of_project_sql_delete q k p t : k.1 <> q -> of_project q (sql_delete k p t).1 = of_project q t.
Proof.
  intros Hk. unfold sql_delete. destruct (t !! k) as [v|]; [|done]. destruct (p v); [|done].
  by apply of_project_delete.
Qed.
Lemma of_project_where q p f t :
  (forall k v, p k v = true -> k.1 <> q) -> of_project q (sql_update_where p f t).1 = of_project q t.
Proof.
  intros Hp. unfold sql_update_where, of_project. cbn. apply map_eq. intros k.
  apply option_eq. intros v. rewrite !map_lookup_filter_Some, map_lookup_imap. split.
  - intros [(v0 & Hv0 & [= <-])%bind_Some Hk]. cbn in Hk. destruct (p k v0) eqn:Hpk; [by apply Hp in Hpk|done].
  - intros [Hv Hk]. cbn in Hk. split; [|done]. apply bind_Some. exists v. split; [done|].
    destruct (p k v) eqn:Hpk; [by apply Hp in Hpk|done].
Qed.
End Tables.

Section Keyed.
Context {V : Type}.
Implicit Types (t : gmap Z V).
Lemma keyed_update (q pid : Z) p f t : q <> pid -> (sql_update pid p f t).1 !! q = t !! q.
Proof.
  intros Hq. unfold sql_update. destruct (t !! pid) as [v|]; [|done]. destruct (p v); [|done].
  cbn. by rewrite lookup_insert_ne.
Qed.
Lemma keyed_delete (q pid : Z) p t : q <> pid -> (sql_delete pid p t).1 !! q = t !! q.
Proof.
  intros Hq. unfold sql_delete. destruct (t !! pid) as [v|]; [|done]. destruct (p v); [|done].
  cbn. by rewrite lookup_delete_ne.
Qed.
End Keyed.

Section Statements.
Context (pid : Z) (d : db).
Local Notation only := (only_project pid d).

Lemma only_leases t : (forall q, q <> pid -> t !! q = leases d !! q) -> only (d <| leases := t |>).
Proof. intros Ht q Hq. unfold slice. cbn. by rewrite Ht. Qed.
Lemma only_projects t : (forall q, q <> pid -> t !! q = projects d !! q) -> only (d <| projects := t |>).
Proof. intros Ht q Hq. unfold slice. cbn. by rewrite Ht. Qed.
Lemma only_reviews t :
  (forall q, q <> pid -> t !! q = supervisor_reviews d !! q) -> only (d <| supervisor_reviews := t |>).
Proof. intros Ht q Hq. unfold slice. cbn. by rewrite Ht. Qed.
Lemma only_controls t :
  (forall q, q <> pid -> of_project q t = of_project q (session_controls d)) ->
  only (d <| session_controls := t |>).
Proof. intros Ht q Hq. unfold slice. cbn. by rewrite Ht. Qed.
Lemma only_journals t :
  (forall q, q <> pid -> of_project q t = of_project q (git_finalizations d)) ->
  only (d <| git_finalizations := t |>).
Proof. intros Ht q Hq. unfold slice. cbn. by rewrite Ht. Qed.
Lemma only_new_run r :
  r_project_id r = pid -> only (d <| runs := <[next_rowid (runs d) := r]> (runs d) |>).
Proof.
  intros Hr q Hq. unfold slice. cbn. rewrite map_filter_insert_not'; [done|cbn; congruence|].
  intros y Hy. by rewrite next_rowid_fresh in Hy.
Qed.

(** A token names a worker of the project, if it names one. *)
Definition worker_of (token : string) (d : db) : Prop :=
  forall w, agent_workers d !! token = Some w -> w_project_id w = pid.

Lemma only_workers ws :
  (forall q, q <> pid -> filter (fun kv => w_project_id kv.2 = q) ws
                         = filter (fun kv => w_project_id kv.2 = q) (agent_workers d)) ->
  only (d <| agent_workers := ws |>).
Proof. intros Hws q Hq. unfold slice. cbn. by rewrite Hws. Qed.
Lemma only_update_worker token p f ws n :
  sql_update token p f (agent_workers d) = (ws, n) -> worker_of token d ->
  (forall w, w_project_id (f w) = w_project_id w) -> only (d <| agent_workers := ws |>).
Proof.
  intros H Hown Hf. apply only_workers. intros q Hq. unfold sql_update in H.
  destruct (agent_workers d !! token) as [w|] eqn:Hw; [|by injection H as <- _].
  pose proof (Hown w Hw) as Hpid. destruct (p w); [|by injection H as <- _]. injection H as <- _.
  rewrite map_filter_insert_not'; [done|cbn; rewrite Hf; congruence|].
  intros w' Hw'. cbn. rewrite Hw in Hw'. injection Hw' as <-. congruence.
Qed.
Lemma only_supersede p (f : string -> worker_row -> worker_row) ws n :
  sql_update_where p f (agent_workers d) = (ws, n) -> (forall t w, p t w = true -> w_project_id w = pid) ->
  (forall t w, w_project_id (f t w) = w_project_id w) -> only (d <| agent_workers := ws |>).
Proof.
  intros H Hp Hf. apply only_workers. intros q Hq. change ws with (ws, n).1. rewrite <- H.
  unfold sql_update_where. cbn. apply map_eq. intros k. apply option_eq. intros w.
  rewrite !map_lookup_filter_Some, map_lookup_imap. cbn. split.
  - intros [(w0 & Hw0 & [= <-])%bind_Some Hk]. destruct (p k w0) eqn:Hpk; [|done].
    rewrite Hf in Hk. apply Hp in Hpk. congruence.
  - intros [Hw Hk]. split; [|done]. apply bind_Some. exists w. split; [done|].
    destruct (p k w) eqn:Hpk; [apply Hp in Hpk; congruence|done].
Qed.
Lemma only_insert_worker token w n d' :
  insert_worker_or_ignore token w d = Ok (n, d') -> w_project_id w = pid -> only d'.
Proof.
  unfold insert_worker_or_ignore, worker_conflicts. intros H.
  repeat (case_match; simplify_eq/=; try done). intros Hw.
  apply only_workers. intros q Hq. rewrite map_filter_insert_not'; [done|cbn; congruence|].
  intros y Hy. congruence.
Qed.

Lemma only_update_control k p f d' n : update_control k p f d = (d', n) -> k.1 = pid -> only d'.
Proof.
  unfold update_control. intros H Hk. destruct (sql_update k p f (session_controls d)) as [t m] eqn:Ht.
  injection H as <- <-. apply only_controls. intros q Hq.
  change t with (t, m).1. rewrite <- Ht. apply of_project_update; congruence.
Qed.
Lemma only_delete_control k p d' n : delete_control k p d = (d', n) -> k.1 = pid -> only d'.
Proof.
  unfold delete_control. intros H Hk. destruct (sql_delete k p (session_controls d)) as [t m] eqn:Ht.
  injection H as <- <-. apply only_controls. intros q Hq.
  change t with (t, m).1. rewrite <- Ht. apply of_project_sql_delete; congruence.
Qed.
Lemma only_insert_control k sc n d' : insert_control k sc d = Ok (n, d') -> k.1 = pid -> only d'.
Proof.
  unfold insert_control. intros H. repeat (case_match; simplify_eq/=); intros Hk; [done|].
  apply only_controls. intros q Hq. apply of_project_insert; congruence.
Qed.
Lemma only_update_journal k p f d' n : update_journal k p f d = (d', n) -> k.1 = pid -> only d'.
Proof.
  unfold update_journal. intros H Hk. destruct (sql_update k p f (git_finalizations d)) as [t m] eqn:Ht.
  injection H as <- <-. apply only_journals. intros q Hq.
  change t with (t, m).1. rewrite <- Ht. apply of_project_update; congruence.
Qed.
Lemma only_update_project f d' n : update_project pid f d = (d', n) -> only d'.
Proof.
  unfold update_project. intros H. destruct (sql_update pid _ f (projects d)) as [t m] eqn:Ht.
  injection H as <- <-. apply only_projects. intros q Hq.
  change t with (t, m).1. rewrite <- Ht. by apply keyed_update.
Qed.
Lemma only_after_run o : o_project_id o = pid -> only (update_project_after_run o d).
Proof. intros Ho. apply only_projects. intros q Hq. apply keyed_update; congruence. Qed.
Lemma only_delete_lease holder : only (delete_lease_of pid holder d).
Proof. apply only_leases. intros q Hq. by apply keyed_delete. Qed.
Lemma only_transfer_lease holder l d' n : transfer_lease pid holder l d = (d', n) -> only d'.
Proof.
  unfold transfer_lease. intros H. destruct (sql_update pid _ _ (leases d)) as [t m] eqn:Ht.
  injection H as <- <-. apply only_leases. intros q Hq.
  change t with (t, m).1. rewrite <- Ht. by apply keyed_update.
Qed.
Lemma only_insert_lease l n d' : insert_lease_or_ignore pid l d = Ok (n, d') -> only d'.
Proof.
  unfold insert_lease_or_ignore. intros H. repeat (case_match; simplify_eq/=); [done|].
  apply only_leases. intros q Hq. by rewrite lookup_insert_ne.
Qed.
End Statements.

(** Follows a computation statement by statement. *)
Ltac only_steps :=
  repeat match goal with
  | H : update_control ?k ?p ?f ?d = (?d', ?n) |- only_project ?pid _ ?d' =>
      transitivity d; [|by apply (only_update_control pid d k p f d' n)]; clear H
  | H : delete_control ?k ?p ?d = (?d', ?n) |- only_project ?pid _ ?d' =>
      transitivity d; [|by apply (only_delete_control pid d k p d' n)]; clear H
  | H : insert_control ?k ?sc ?d = Ok (?n, ?d') |- only_project ?pid _ ?d' =>
      transitivity d; [|by apply (only_insert_control pid d k sc n d')]; clear H
  | H : update_journal ?k ?p ?f ?d = (?d', ?n) |- only_project ?pid _ ?d' =>
      transitivity d; [|by apply (only_update_journal pid d k p f d' n)]; clear H
  | H : update_project ?pid ?f ?d = (?d', ?n) |- only_project ?pid _ ?d' =>
      transitivity d; [|by apply (only_update_project pid d f d' n)]; clear H
  | H : transfer_lease ?pid ?h ?l ?d = (?d', ?n) |- only_project ?pid _ ?d' =>
      transitivity d; [|by apply (only_transfer_lease pid d h l d' n)]; clear H
  | H : insert_lease_or_ignore ?pid ?l ?d = Ok (?n, ?d') |- only_project ?pid _ ?d' =>
      transitivity d; [|by apply (only_insert_lease pid d l n d')]; clear H
  | |- only_project ?pid _ (delete_control ?k ?p ?d).1 =>
      destruct (delete_control k p d) eqn:?; cbn [fst]
  | |- only_project ?pid _ (update_journal ?k ?p ?f ?d).1 =>
      destruct (update_journal k p f d) eqn:?; cbn [fst]
  | |- only_project ?pid _ (delete_lease_of ?pid ?h ?d) =>
      transitivity d; [|by apply only_delete_lease]
  | |- only_project ?pid _ (update_project_after_run ?o ?d) =>
      transitivity d; [|by apply only_after_run]
  | |- only_project ?pid _ (?d <| leases := _ |>) =>
      transitivity d; [|apply only_leases; intros; first
        [by apply keyed_delete|by apply keyed_update|by rewrite lookup_insert_ne|by rewrite lookup_delete_ne]]
  | |- only_project ?pid _ (?d <| projects := _ |>) =>
      transitivity d; [|apply only_projects; intros; by apply keyed_update]
  | |- only_project ?pid _ (?d <| session_controls := <[_ := _]> _ |>) =>
      transitivity d; [|apply only_controls; intros; by apply of_project_insert]
  | |- only_project ?pid _ (?d <| runs := _ |>) =>
      transitivity d; [|by apply only_new_run]
  | |- only_project ?pid ?d ?d => reflexivity
  end.
(** The result of an operation, branch by branch. *)
Ltac only_branches := repeat (case_match; simplify_eq/=; try reflexivity); only_steps.

(** ** Commands about one project *)

(** The project whose rows a command writes, for the commands that write the rows of
    one project. *)
Definition subject (c : command) : option Z :=
  match c with
  | TryAcquireLease p _ _ _ | TryAcquireFinalizationLease p _ _ _ _ | ReleaseLease p _
  | CancelIdleInteractive p _ _ _ | RecoverStaleGuardian p _ _ _ _ _ | RecoverStaleRunning p _ _ _ _
  | RecoverStaleStopping p _ _ _ _ | RecoverStaleHandoff p _ _ _ _ | FinalizeReaped p _ _ _ _ _ _
  | EnsureFinalizationResume p _ _ | ClearOrphanedResume p _ _ | ClearPushResume p _
  | CompareAndSetJournal p _ _ _ | AcknowledgeJournal p _ _ | RetireAbandonedJournal p _ _ _ _ _
  | FinishRecovery p _ _ | RecordDaemonScan p _ _ _ | SaveReview p _ | ClearReview _ p
  | SupersedeAbandoned p _ | CompleteStop p _ _ _ | CompleteInterruptHandoff p _ _ _ _ _ _
  | ClearRunningControl p _ _ | RecoverUnmanagedMode p _ _ => Some p
  | ReserveWorker r _ => Some (res_project_id r)
  | RetireCompletedResume expected _ => Some (ob_project_id expected)
  | RecordRunOutcome o => Some (o_project_id o)
  | CancelOrphanedJournal expected _ _ _ _ | RetireSupersededJournal expected _ _ => Some expected.1.1
  | BeginRecovery q => Some (q_project_id q)
  | _ => None
  end.

Definition about (pid : Z) (c : command) : bool := subject c == Some pid.

Lemma only_repair_fences pid now d : only_project pid d (repair_recovery_fences pid now d).
Proof.
  unfold repair_recovery_fences. apply only_controls. intros q Hq. apply of_project_where.
  intros k sc Hp. unfold stale_recovery_fence in Hp. rewrite !andb_true_iff in Hp.
  destruct Hp as [[[[[[Hk%bool_decide_eq_true _] _] _] _] _] _]. congruence.
Qed.

Lemma only_try_acquire pid holder at_ exp d : only_project pid d (try_acquire_lease pid holder at_ exp d).2.
Proof. unfold try_acquire_lease, clear_expired_lease. only_branches. Qed.

Lemma only_finalization_lease pid holder at_ exp reclaim d :
  only_project pid d (try_acquire_git_finalization_lease pid holder at_ exp reclaim d).2.
Proof.
  unfold try_acquire_git_finalization_lease, transaction.
  repeat (case_match; simplify_eq/=; try reflexivity); only_steps.
  all: apply only_repair_fences.
Qed.
Lemma only_release pid holder d : only_project pid d (release_lease pid holder d).2.
Proof.
  unfold release_lease. destruct (sql_delete pid _ (leases d)) as [t n] eqn:Ht. cbn.
  apply only_leases. intros q Hq. change t with (t, n).1. rewrite <- Ht. by apply keyed_delete.
Qed.

(** *** Workers *)

Lemma only_lease_of pid p f d ls n :
  sql_update pid p f (leases d) = (ls, n) -> only_project pid d (d <| leases := ls |>).
Proof. intros H. apply only_leases. intros q Hq. change ls with (ls, n).1. rewrite <- H. by apply keyed_update. Qed.
Lemma only_lease_gone pid p d ls n :
  sql_delete pid p (leases d) = (ls, n) -> only_project pid d (d <| leases := ls |>).
Proof. intros H. apply only_leases. intros q Hq. change ls with (ls, n).1. rewrite <- H. by apply keyed_delete. Qed.

Lemma only_claim pid token p at_ d d' n :
  claim_dispatching token p at_ d = (d', n) -> worker_of pid token d -> only_project pid d d'.
Proof.
  unfold claim_dispatching. destruct (sql_update token _ _ (agent_workers d)) as [ws m] eqn:Hws.
  intros [= <- <-] Hown. by eapply only_update_worker.
Qed.
Lemma only_worker_run pid token o d id d' :
  record_worker_run token o d = Ok (id, d') -> o_project_id o = pid -> only_project pid d d'.
Proof.
  unfold record_worker_run, insert_run_or_ignore. intros H.
  repeat (case_match; simplify_eq/=; try done); intros Ho.
  - unfold res_bind in *. case_match; by simplify_eq.
  - etrans; [|by apply only_after_run]. by apply only_new_run.
Qed.

(** A token stays with its project as long as other projects' rows stay. *)
Lemma worker_of_only pid token d d' : only_project pid d d' -> worker_of pid token d -> worker_of pid token d'.
Proof.
  intros Hd Hown w Hw. destruct (decide (w_project_id w = pid)) as [|Hne]; [done|].
  specialize (Hd _ Hne). unfold slice in Hd. injection Hd as _ _ _ _ _ _ _ Hws _.
  assert (filter (fun kv => w_project_id kv.2 = w_project_id w) (agent_workers d') !! token = Some w) as Hf.
  { by apply map_lookup_filter_Some. }
  rewrite Hws in Hf. apply map_lookup_filter_Some in Hf as [Hf _]. by apply Hown.
Qed.

Lemma only_transaction {A} pid (body : db -> txn A) d :
  (forall a d', body d = Commit a d' -> only_project pid d d') -> only_project pid d (transaction body d).2.
Proof. intros Hb. unfold transaction. destruct (body d); [by eapply Hb|done]. Qed.

Lemma only_supersede_other pid token d : only_project pid d (supersede_other_abandoned pid token d).
Proof.
  unfold supersede_other_abandoned. destruct (sql_update_where _ _ _) as [ws n] eqn:Hws.
  eapply only_supersede; [done| |].
  - cbv beta. intros t w Hp. rewrite !andb_true_iff, !bool_decide_eq_true in Hp. apply Hp.
  - done.
Qed.
Lemma insert_fresh pid token w n d d1 :
  insert_worker_or_ignore token w d = Ok (n, d1) -> (n == 1%Z) = true -> worker_of pid token d.
Proof.
  unfold insert_worker_or_ignore, worker_conflicts. intros H Hn. repeat (case_match; simplify_eq/=; try done).
  intros y Hy. congruence.
Qed.

(** Follows the statements on workers and leases from the first. *)
Ltac worker_steps :=
  repeat match goal with
  | H : insert_worker_or_ignore ?t ?w ?d = Ok (?n, ?d1) |- only_project ?pid ?d _ =>
      transitivity d1; [by apply (only_insert_worker pid d t w n d1)|]; clear H
  | H : record_worker_run ?t ?o ?d = Ok (?id, ?d1) |- only_project ?pid ?d _ =>
      transitivity d1; [by apply (only_worker_run pid t o d id d1)|]; clear H
  | H : sql_update _ _ _ (leases ?d) = (?ls, _) |- only_project ?pid ?d _ =>
      transitivity (d <| leases := ls |>); [by eapply only_lease_of|]; clear H
  | H : sql_delete _ _ (leases ?d) = (?ls, _) |- only_project ?pid ?d _ =>
      transitivity (d <| leases := ls |>); [by eapply only_lease_gone|]; clear H
  | |- only_project ?pid ?d (supersede_other_abandoned ?pid ?t ?d) => apply only_supersede_other
  | |- only_project ?pid ?d ?d => reflexivity
  end.

Lemma only_reserve r claim d : only_project (res_project_id r) d (reserve_worker r claim d).2.
Proof.
  unfold reserve_worker. apply only_transaction. intros a d'. unfold txn_try. intros H.
  repeat (case_match; simplify_eq/=; try done); [|worker_steps].
  match goal with H : claim_dispatching _ _ _ ?d1 = _ |- _ =>
    assert (only_project (res_project_id r) d d1) as Hd1 by worker_steps;
    transitivity d1; [done|eapply only_claim; [exact H|apply (worker_of_only _ _ d d1 Hd1)]] end.
  by eapply insert_fresh.
Qed.
Lemma only_supersede_abandoned pid holder d :
  only_project pid d (supersede_abandoned_workers_for_lease pid holder d).2.
Proof.
  unfold supersede_abandoned_workers_for_lease. destruct (sql_update_where _ _ _) as [ws n] eqn:Hws.
  eapply only_supersede; [done| |].
  - cbv beta. intros t w Hp. rewrite !andb_true_iff, !bool_decide_eq_true in Hp. apply Hp.
  - done.
Qed.

(** The commands of a worker, for a worker of the project. *)
Lemma only_claim_worker pid token p at_ d :
  worker_of pid token d -> only_project pid d (claim_worker token p at_ d).2.
Proof.
  intros Hown. unfold claim_worker. apply only_transaction. intros a d'.
  destruct (claim_dispatching token p at_ d) as [d1 n] eqn:Hc. intros H.
  apply only_claim with (pid := pid) in Hc; [|done]. repeat (case_match; simplify_eq/=); exact Hc.
Qed.
Lemma only_renew_worker pid token p at_ exp d :
  worker_of pid token d -> only_project pid d (renew_worker token p at_ exp d).2.
Proof.
  intros Hown. unfold renew_worker. apply only_transaction. intros a d' H.
  destruct (agent_workers d !! token) as [w|] eqn:Hw; [|done]. apply Hown in Hw as <-.
  destruct (_ && _); [|done]. destruct (sql_update token _ _ (agent_workers d)) as [ws n] eqn:Hws.
  eapply only_update_worker in Hws; [|exact Hown|done]. case_match; [|done].
  destruct (sql_update _ _ _ (leases _)) as [ls m] eqn:Hls. case_match; [|done]. simplify_eq.
  etrans; [exact Hws|]. by eapply only_lease_of.
Qed.
Lemma only_abandon_worker pid a d :
  worker_of pid (ab_worker_token a) d -> only_project pid d (abandon_worker a d).2.
Proof.
  intros Hown. unfold abandon_worker, sql_select. apply only_transaction. intros b d' H. unfold txn_try in H.
  destruct (agent_workers d !! ab_worker_token a) as [w|] eqn:Hw; [|done]. pose proof (Hown w Hw) as Hpid.
  repeat (case_match; simplify_eq/=; try done).
  all: match goal with H : record_worker_run ?t ?o ?d = Ok (?id, ?d1) |- _ =>
      apply (only_worker_run (w_project_id w0)) in H as Hd1; [|done] end.
  all: match goal with H : sql_update _ _ _ (agent_workers ?d1) = _ |- _ =>
      eapply (only_update_worker (w_project_id w0)) in H; [|by eapply worker_of_only|done];
      transitivity d1; [done|]; etrans; [exact H|] end; first [reflexivity|by eapply only_lease_gone].
Qed.
Lemma only_complete_finalizing pid f w d id d' :
  complete_finalizing f w d = Commit id d' -> worker_of pid (fz_worker_token f) d -> w_project_id w = pid ->
  only_project pid d d'.
Proof.
  unfold complete_finalizing, txn_try. intros H Hown Hpid.
  destruct (record_worker_run _ _ d) as [[n d1]|] eqn:Hr; [|done]. apply only_worker_run with (pid := pid) in Hr; [|done].
  destruct (sql_update _ _ _ (agent_workers d1)) as [ws m] eqn:Hws.
  eapply only_update_worker in Hws; [|by eapply worker_of_only|done]. case_match; [|done]. simplify_eq.
  etrans; [exact Hr|]. etrans; [exact Hws|]. eapply only_lease_gone. apply surjective_pairing.
Qed.
Lemma only_finalize_worker pid f d :
  worker_of pid (fz_worker_token f) d -> only_project pid d (finalize_worker f d).2.
Proof.
  intros Hown. unfold finalize_worker. apply only_transaction. intros a d' H.
  destruct (agent_workers d !! fz_worker_token f) as [w|] eqn:Hw; [|done]. pose proof (Hown w Hw) as Hpid.
  destruct (w_state w == WCompleted); [by case_match; simplify_eq|]. case_match; [|done]. case_match; [|done].
  destruct (sql_update _ _ _ (agent_workers d)) as [ws m] eqn:Hws.
  eapply only_update_worker in Hws; [|exact Hown|done]. case_match; [|done].
  etrans; [exact Hws|]. by eapply only_complete_finalizing; [exact H|eapply worker_of_only|].
Qed.

Lemma only_cancel_interactive pid sid holder now d :
  only_project pid d (cancel_idle_session_interactive pid sid holder now d).2.
Proof. unfold cancel_idle_session_interactive. only_branches. Qed.
Lemma only_recover_guardian pid sid guardian child disposition now d :
  only_project pid d (recover_stale_interactive_guardian pid sid guardian child disposition now d).2.
Proof. unfold recover_stale_interactive_guardian, transaction. only_branches. Qed.
Lemma only_recover_automated pid sid from to child token now d :
  only_project pid d (recover_stale_automated_session_control pid sid from to child token now d).2.
Proof. unfold recover_stale_automated_session_control. only_branches. Qed.
Lemma only_recover_interactive pid sid from to holder now d :
  only_project pid d (recover_stale_interactive_session_control pid sid from to holder now d).2.
Proof. unfold recover_stale_interactive_session_control. only_branches. Qed.
Lemma only_settle_exited pid sid state terminal child token holder now d b d' :
  settle_exited pid sid state terminal child token holder now d = Commit b d' -> only_project pid d d'.
Proof. unfold settle_exited. intros H. only_branches. Qed.
Lemma only_hand_over pid holder l d b d' : hand_lease_over pid holder l d = Commit b d' -> only_project pid d d'.
Proof. unfold hand_lease_over. intros H. only_branches. Qed.
Lemma only_reaped pid child token holder at_ exp now d :
  only_project pid d (finalize_reaped_automated_session pid child token holder at_ exp now d).2.
Proof.
  unfold finalize_reaped_automated_session, finalize_automated_session_after_exit, transaction.
  repeat (case_match; simplify_eq/=; try reflexivity).
  all: repeat match goal with
    | H : settle_exited _ _ _ _ _ _ _ _ ?d1 = Commit _ ?d2 |- only_project _ _ ?d2 =>
        transitivity d1; [|by eapply only_settle_exited]
    | H : hand_lease_over _ _ _ ?d1 = Commit _ ?d2 |- only_project _ _ ?d2 =>
        transitivity d1; [|by eapply only_hand_over]
    end; reflexivity.
Qed.
Lemma only_ensure_resume pid sid now d :
  only_project pid d (ensure_pending_git_finalization_resume_requested pid sid now d).2.
Proof. unfold ensure_pending_git_finalization_resume_requested, transaction, txn_try. only_branches. Qed.
Lemma only_clear_orphaned pid sid now d :
  only_project pid d (clear_orphaned_resume_requested_session pid sid now d).2.
Proof. unfold clear_orphaned_resume_requested_session, transaction. only_branches. Qed.
Lemma only_clear_push pid sid d : only_project pid d (clear_autonomous_push_resume_request pid sid d).2.
Proof. unfold clear_autonomous_push_resume_request. only_branches. Qed.
Lemma only_retire_completed expected now d :
  only_project (ob_project_id expected) d (retire_completed_resume_request expected now d).2.
Proof. unfold retire_completed_resume_request. only_branches. Qed.

Lemma only_complete_stop pid sid token now d : only_project pid d (complete_session_stop pid sid token now d).2.
Proof. unfold complete_session_stop. only_branches. Qed.
Lemma only_complete_handoff pid sid token from at_ exp now d :
  only_project pid d (complete_session_interrupt_handoff pid sid token from at_ exp now d).2.
Proof. unfold complete_session_interrupt_handoff, transaction, sql_select. only_branches. Qed.
Lemma only_clear_running pid sid token d : only_project pid d (clear_running_session_control pid sid token d).2.
Proof. unfold clear_running_session_control, transaction. only_branches. Qed.
Lemma only_recover_mode pid sid err d : only_project pid d (recover_unmanaged_session_git_mode pid sid err d).2.
Proof.
  unfold recover_unmanaged_session_git_mode. case_match; [|done]. intros q Hq. unfold slice. cbn.
  by rewrite of_project_insert.
Qed.

Lemma only_advance_fence k generation u d : only_project k.1 d (advance_fence k generation u d).
Proof.
  unfold advance_fence. destruct (Finalization.is_terminal _).
  - destruct (delete_control _ _ _) eqn:?. only_steps.
  - destruct (update_control _ _ _ _) eqn:?. only_steps.
Qed.
Lemma only_compare_and_set pid sid generation u d :
  only_project pid d (compare_and_set_git_finalization pid sid generation u d).2.
Proof.
  unfold compare_and_set_git_finalization, transaction, txn_try.
  repeat (case_match; simplify_eq/=; try reflexivity).
  all: try match goal with |- only_project _ _ (advance_fence ?k ?g ?u ?d1) =>
      transitivity d1; [|exact (only_advance_fence k g u d1)] end; only_steps.
Qed.
Lemma only_acknowledged_run pid sid at_ summary d id d' :
  acknowledged_run pid sid at_ summary d = (id, d') -> only_project pid d d'.
Proof. unfold acknowledged_run. intros H. only_branches. Qed.
Lemma only_acknowledge pid sid now d :
  only_project pid d (acknowledge_completed_git_finalization_session pid sid now d).2.
Proof.
  unfold acknowledge_completed_git_finalization_session, transaction.
  repeat (case_match; simplify_eq/=; try reflexivity); only_steps.
  all: by eapply only_acknowledged_run.
Qed.
Lemma only_clear_failure pid sid at_ d : only_project pid d (clear_cancelled_attempt_failure pid sid at_ d).
Proof. unfold clear_cancelled_attempt_failure. only_steps. Qed.
Lemma only_retire_abandoned pid sid generation completed reason at_ d :
  only_project pid d (retire_abandoned_unbound_git_finalization pid sid generation completed reason at_ d).2.
Proof.
  unfold retire_abandoned_unbound_git_finalization, delete_idle_control, transaction. only_branches.
  apply only_clear_failure.
Qed.
Lemma only_cancel_orphaned expected holder reason at_ now d :
  only_project expected.1.1 d (cancel_orphaned_working_git_finalization expected holder reason at_ now d).2.
Proof. unfold cancel_orphaned_working_git_finalization, transaction. only_branches. Qed.
Lemma only_retire_superseded expected completed at_ d :
  only_project expected.1.1 d (retire_superseded_working_git_finalization expected completed at_ d).2.
Proof.
  unfold retire_superseded_working_git_finalization, transaction. only_branches. apply only_clear_failure.
Qed.
Lemma only_begin_recovery q d : only_project (q_project_id q) d (begin_missing_git_recovery q d).2.
Proof.
  unfold begin_missing_git_recovery, stop_recovered_session, retire_reviewed_journal, transaction. only_branches.
Qed.
Lemma only_finish_recovery pid holder now d :
  only_project pid d (finish_missing_git_recovery pid holder now d).2.
Proof.
  unfold finish_missing_git_recovery. destruct (sql_update pid _ _ (projects d)) as [t n] eqn:Ht.
  assert (only_project pid d (d <| projects := t |>)) as Hd.
  { apply only_projects. intros q Hq. change t with (t, n).1. rewrite <- Ht. by apply keyed_update. }
  by destruct (n == 1%Z).
Qed.
Lemma only_record_run o d : only_project (o_project_id o) d (record_run_outcome o d).2.
Proof. unfold record_run_outcome, autocommit. only_branches. Qed.
Lemma only_daemon_scan pid status error now d :
  only_project pid d (record_project_daemon_scan pid status error now d).2.
Proof. unfold record_project_daemon_scan. cbn. destruct (update_project _ _ _) eqn:?. only_steps. Qed.
Lemma only_save_review pid r d : only_project pid d (save_supervisor_review pid r d).2.
Proof.
  unfold save_supervisor_review, autocommit. only_branches. apply only_reviews. intros q Hq.
  by rewrite lookup_insert_ne.
Qed.
Lemma only_clear_review pending pid d : only_project pid d (clear_supervisor_review pending pid d).2.
Proof.
  unfold clear_supervisor_review. only_branches. apply only_reviews. intros q Hq. by rewrite lookup_delete_ne.
Qed.

(** A command about a project changes rows of that project only. *)
Lemma exec_isolated pid c d : about pid c = true -> only_project pid d (exec c d).
Proof.
  unfold about. rewrite bool_decide_eq_true.
  destruct c; try done; cbn [subject exec]; intros [= <-];
    eauto using only_try_acquire, only_finalization_lease, only_release, only_cancel_interactive,
      only_recover_guardian, only_reaped, only_ensure_resume, only_clear_orphaned, only_clear_push,
      only_retire_completed, only_compare_and_set, only_acknowledge, only_retire_abandoned, only_cancel_orphaned,
      only_retire_superseded, only_begin_recovery, only_finish_recovery, only_record_run, only_daemon_scan,
      only_save_review, only_clear_review, only_supersede_abandoned, only_complete_stop, only_complete_handoff,
      only_clear_running, only_recover_mode, only_reserve.
  - apply only_recover_automated.
  - apply only_recover_automated.
  - apply only_recover_interactive.
Qed.

Lemma exec_all_isolated pid cs d : Forall (fun c => about pid c = true) cs -> only_project pid d (exec_all cs d).
Proof.
  intros Hcs. revert d. induction Hcs as [|c cs Hc Hcs IH]; intros d; [reflexivity|].
  etrans; [by apply exec_isolated|]. apply IH.
Qed.
