(* ===== verification/RegistryProps.v ===== *)
(** What the registry promises: the properties of its tables over every history
    of operations. Each is stated of [reachable] databases, so it covers every
    interleaving of the processes that share the registry. *)
From S2P Require Import Prelude Sql AgentTypes Store Footprint Leases Workers Runs Sessions.
From S2P Require Import Handoff Journals Retire Recovery Holders Projects Registry Footprint.
From S2P Require Import ControlInv WorkerInv JournalInv LeaseInv RegistryInv.

(** ** Sessions *)

(** C26: in every reachable registry each session control has the shape of its
    state: a running session has no interactive holder, a stopped or queued one
    has neither a child process nor a holder, a requested interrupt and a
    reserved handoff name their holder, and an interactive session is owned by
    the guardian whose launch token it carries. *)
Theorem session_control_shapes d :
  reachable d -> forall k sc, session_controls d !! k = Some sc -> control_ok sc.
Proof. intros Hd k sc Hsc. exact (ok_controls _ (reachable_ok _ Hd) k sc Hsc). Qed.

Lemma session_control_shapes_witness :
  reachable (at_stage running) /\
  exists sc, session_controls (at_stage running) !! (1%Z, sid) = Some sc /\ control_ok sc.
Proof.
  split; [apply at_stage_reachable|]. eexists. split; [vm_compute; reflexivity|].
  apply (session_control_shapes _ (at_stage_reachable running) (1%Z, sid)).
  vm_compute; reflexivity.
Defined.

(** C27: one operation moves a session control only along the session state
    machine: it starts running, stopped, reserved or queued, and changes state
    only to a state reachable from the previous one in one request. *)
Theorem session_control_transitions d c k :
  reachable d ->
  match session_controls d !! k, session_controls (exec c d) !! k with
  | None, Some sc' => control_may_start (sc_state sc') = true
  | Some sc, Some sc' => control_may_become (sc_state sc) (sc_state sc') = true
  | _, None => True
  end.
Proof.
  intros Hd. pose proof (exec_controls c d k) as Hrel. unfold control_rel in Hrel.
  destruct (session_controls d !! k) as [sc|] eqn:Hsc; simpl in Hrel.
  - destruct Hrel as [_ Hstep]; [exact (ok_controls _ (reachable_ok _ Hd) _ _ Hsc)|].
    exact Hstep.
  - destruct Hrel as [_ Hstep]; [done|]. exact Hstep.
Qed.

Definition interrupt : command := RequestInterrupt 1 sid 77 token "clt-interactive-9" "1004".

Lemma session_control_transitions_witness :
  control_may_become Running InterruptRequested = true /\
  match session_controls (at_stage running) !! (1%Z, sid),
        session_controls (exec interrupt (at_stage running)) !! (1%Z, sid) with
  | Some sc, Some sc' => control_may_become (sc_state sc) (sc_state sc') = true
  | _, _ => False
  end.
Proof.
  split; [reflexivity|].
  pose proof (session_control_transitions (at_stage running) interrupt (1%Z, sid)
    (at_stage_reachable running)) as H.
  revert H. vm_compute. exact id.
Defined.

(** ** Workers *)

(** C28: a project has at most one unfinished worker, and every worker has the
    shape of its state: its row names the lease holder derived from its token, a running
    worker has recorded its process, and a finished one its run. *)
Theorem one_worker_per_project d :
  reachable d ->
  (forall token w, agent_workers d !! token = Some w -> worker_ok token w) /\
  forall t1 t2 w1 w2,
    agent_workers d !! t1 = Some w1 -> agent_workers d !! t2 = Some w2 ->
    worker_state_active (w_state w1) = true -> worker_state_active (w_state w2) = true ->
    w_project_id w1 = w_project_id w2 -> t1 = t2.
Proof.
  intros Hd. split; [|exact (ok_active _ (reachable_ok _ Hd))].
  intros t w Hw. exact (ok_workers _ (reachable_ok _ Hd) t w Hw).
Qed.

Lemma one_worker_per_project_witness :
  exists w, agent_workers (at_stage launched) !! token = Some w
    /\ worker_state_active (w_state w) = true /\ worker_ok token w.
Proof.
  eexists. split; [vm_compute; reflexivity|]. split; [reflexivity|].
  apply (proj1 (one_worker_per_project _ (at_stage_reachable launched)) token).
  vm_compute; reflexivity.
Defined.

(** ** Leases *)

(** a project's lease changes holder or disappears only when the operation
    acts for that holder, or when the operation sees the lease expired and no
    unfinished worker of the project was reserved under it. *)
Theorem lease_not_stolen d c pid l :
  reachable d -> leases d !! pid = Some l ->
  (exists l', leases (exec c d) !! pid = Some l' /\ l_holder l' = l_holder l)
  \/ acts_for c (l_holder l)
  \/ (sees_expired c l /\ lease_unowned d pid (l_holder l)).
Proof.
  intros Hd Hl. exact (exec_leases c d (ok_workers _ (reachable_ok _ Hd)) pid l Hl).
Qed.

Lemma lease_not_stolen_witness :
  exists l', leases (exec (TryAcquireLease 1 "clt-scheduler-8" "1200" "1500") (at_stage leased))
    !! 1%Z = Some l' /\ l_holder l' = holder.
Proof.
  destruct (lease_not_stolen (at_stage leased)
    (TryAcquireLease 1 "clt-scheduler-8" "1200" "1500") 1 (mkLease holder "1000" "1300")
    (at_stage_reachable leased)) as [H|[[]|[[H _] _]]].
  - vm_compute; reflexivity.
  - exact H.
  - vm_compute in H. discriminate H.
Defined.

(** C29: an unfinished worker that owns its project's lease keeps it, expired or
    not, against every operation that does not act for that worker. *)
Theorem worker_lease_fenced d c token w :
  reachable d -> agent_workers d !! token = Some w ->
  worker_state_active (w_state w) = true -> worker_owns_lease d w = true ->
  ~ acts_for c (w_lease_holder w) ->
  lease_held_by (exec c d) (w_project_id w) (w_lease_holder w) = true.
Proof.
  intros Hd Hw Ha Ho Hc. unfold worker_owns_lease, lease_held_by in *.
  destruct (leases d !! w_project_id w) as [l|] eqn:Hl; [|done]. guards.
  destruct (exec_lease_kept c d (w_project_id w) l) as (l' & -> & He); auto.
  - by apply ok_workers, reachable_ok.
  - congruence.
  - intros [_ Hno]. by eapply (Hno token w).
  - by apply bool_decide_eq_true, (eq_trans He).
Qed.

Definition claimed_worker : worker_row :=
  (reserved_worker reservation) <| w_state := WRunning |> <| w_worker_pid := Some 42%Z |>
    <| w_started_at := Some "1002" |> <| w_heartbeat_at := Some "1002" |>.

Lemma worker_lease_fenced_witness :
  lease_held_by (exec (TryAcquireLease 1 "clt-scheduler-8" "9999" "9999") (at_stage launched))
    1 (worker_lease_holder token) = true.
Proof.
  refine (worker_lease_fenced (at_stage launched)
    (TryAcquireLease 1 "clt-scheduler-8" "9999" "9999") token claimed_worker (at_stage_reachable launched)
    _ _ _ _); [vm_compute; reflexivity..|exact id].
Defined.

(** ** Managed Git journals *)

(** C30: every journal of a reachable registry is well formed: it is managed, a
    journal being finalized names its task, a pushed or completed one its
    commit, only commit-and-push journals wait for a push, exactly the terminal
    ones have a completion time, and only completed ones are acknowledged. *)
Theorem journal_well_formed d :
  reachable d -> forall k g, git_finalizations d !! k = Some g -> journal_ok g.
Proof. intros Hd k g Hg. exact (ok_journals _ (reachable_ok _ Hd) k g Hg). Qed.

Lemma journal_well_formed_witness :
  exists g, git_finalizations (at_stage finished) !! (1%Z, sid) = Some g
    /\ g_state g = CommitPending /\ journal_ok g.
Proof.
  eexists. split; [vm_compute; reflexivity|]. split; [reflexivity|].
  apply (journal_well_formed _ (at_stage_reachable finished) (1%Z, sid)).
  vm_compute; reflexivity.
Defined.

(** C31: a project works on one thing at a time: at most one of its journals is
    being finalized, and it has at most one launch boundary, which never records
    an unmanaged launch. *)
Theorem one_finalization_per_project d :
  reachable d ->
  (forall pid s1 s2 g1 g2,
     git_finalizations d !! (pid, s1) = Some g1 -> git_finalizations d !! (pid, s2) = Some g2 ->
     Finalization.is_finalizing (g_state g1) = true ->
     Finalization.is_finalizing (g_state g2) = true -> s1 = s2)
  /\ (forall k a, agent_git_launch_states d !! k = Some a -> a_git_mode a <> GitOff)
  /\ (forall pid t1 t2, is_Some (agent_git_launch_states d !! (pid, t1)) ->
        is_Some (agent_git_launch_states d !! (pid, t2)) -> t1 = t2).
Proof.
  intros Hd. pose proof (reachable_ok _ Hd) as Hok.
  exact (conj (ok_finalizing _ Hok) (conj (ok_launches _ Hok) (ok_boundary _ Hok))).
Qed.

Lemma one_finalization_per_project_witness :
  ((g_state <$> git_finalizations (at_stage tracked) !! (1%Z, sid)) = Some Tracking /\
   forall s2 g2, git_finalizations (at_stage tracked) !! (1%Z, s2) = Some g2 ->
     Finalization.is_finalizing (g_state g2) = true -> s2 = sid)
  /\ forall t, is_Some (agent_git_launch_states (at_stage launched) !! (1%Z, t)) -> t = token.
Proof.
  split; [split; [vm_compute; reflexivity|]|].
  - intros s2 g2 H2 F2.
    refine (proj1 (one_finalization_per_project (at_stage tracked) (at_stage_reachable tracked)) 1%Z s2
      sid g2 _ H2 _ F2 _); vm_compute; reflexivity.
  - intros t Ht.
    refine (proj2 (proj2 (one_finalization_per_project _ (at_stage_reachable launched))) 1%Z t token
      Ht _).
    eexists; vm_compute; reflexivity.
Defined.

(** C32: a history that keeps the journals never loses what a journal records.
    From any reachable registry on, a journal keeps its Git boundary, its task
    identity and its commit, its generation and its position on the
    finalization path never decrease, its state is fixed by its generation, and
    a completed journal stays completed. *)
Theorem journal_history d cs k g :
  reachable d -> Forall (fun c => ~ deletes_journals c) cs ->
  git_finalizations d !! k = Some g ->
  exists g', git_finalizations (exec_all cs d) !! k = Some g' /\ journal_grows g g'.
Proof. intros Hd. apply exec_all_journal. by apply reachable_ok. Qed.

Lemma journal_history_witness :
  exists g g', git_finalizations (at_stage tracked) !! (1%Z, sid) = Some g /\
    git_finalizations (exec_all (drop 7 finished) (at_stage tracked)) !! (1%Z, sid) = Some g' /\
    journal_grows g g'.
Proof.
  eexists. assert (Hcs : Forall (fun c => ~ deletes_journals c) (drop 7 finished)).
  { repeat constructor; exact id. }
  destruct (journal_history (at_stage tracked) (drop 7 finished) (1%Z, sid) _
    (at_stage_reachable tracked) Hcs ltac:(vm_compute; reflexivity)) as (g' & Hg' & Hgrow).
  exists g'. split; [|split; [exact Hg'|exact Hgrow]]. vm_compute; reflexivity.
Defined.

(** A compare-and-set has one winner: after it succeeds at a generation,
    every compare-and-set at that generation is refused without effect. *)
Theorem compare_and_set_one_winner pid s generation u u' d d' :
  compare_and_set_git_finalization pid s generation u d = (Ok true, d') ->
  compare_and_set_git_finalization pid s generation u' d' = (Ok false, d').
Proof.
  intros H. destruct (compare_and_set_true _ _ _ _ _ _ H) as (g & _ & Hgen & _ & Hg').
  unfold compare_and_set_git_finalization, transaction. rewrite Hg'. simpl.
  rewrite (bool_decide_false (g_generation g + 1 = generation)%Z) by lia. done.
Qed.

Lemma compare_and_set_one_winner_witness :
  let u := mkUpdate CommitPending None None true (Some token) None None "1005" in
  let d' := (compare_and_set_git_finalization 1 sid 1 u (at_stage tracked)).2 in
  compare_and_set_git_finalization 1 sid 1 u d' = (Ok false, d').
Proof.
  intros u d'. apply (compare_and_set_one_winner 1 sid 1 u u (at_stage tracked) d').
  subst d' u. apply result_is. vm_compute; reflexivity.
Defined.

