(* ===== verification/OperationProps.v ===== *)
(** What the operations of the registry do, branch by branch: workers and leases,
    sessions, journals and projects; and the decisions taken on the rows: encodings,
    holders, timestamps, board scans and cooldowns. *)
From S2P Require Import Prelude Sql AgentTypes Store Leases Workers Runs Sessions Handoff.
From S2P Require Import Journals Retire Recovery Holders Projects Scheduling Registry.
From S2P Require Import Footprint WorkerInv RegistryInv.

(** ** Lemmas *)

Lemma db_leases_same d ls : ls = leases d -> d <| leases := ls |> = d.
Proof. intros ->. by destruct d. Qed.

Lemma db_workers_same d ws : ws = agent_workers d -> d <| agent_workers := ws |> = d.
Proof. intros ->. by destruct d. Qed.

Lemma finalize_worker_completed f d id d' :
  finalize_worker f d = (Ok (Some id), d') ->
  exists w, agent_workers d' !! fz_worker_token f = Some w
    /\ w_state w = WCompleted /\ w_run_id w = Some id.
Proof.
  unfold finalize_worker, complete_finalizing, transaction, txn_try. intros H.
  repeat (case_match; simplify_eq/=); use_footprints; simplify_eq/=; guards; eauto.
  match goal with H : sql_update _ _ _ _ = (?g, 1%Z) |- context [?g !! _] =>
    apply sql_update_one in H as (v & _ & _ & ->) end.
  rewrite lookup_insert_eq. by eexists.
Qed.

Lemma claim_dispatching_one t p at_ d d' :
  claim_dispatching t p at_ d = (d', 1%Z) ->
  exists w, agent_workers d !! t = Some w /\ leases d' = leases d /\
    agent_workers d' !! t =
      Some (w <| w_state := WRunning |> <| w_worker_pid := Some p |> <| w_started_at := Some at_ |>
              <| w_heartbeat_at := Some at_ |> <| w_error := None |>).
Proof.
  unfold claim_dispatching. intros H. case_match. simplify_eq/=.
  match goal with H : sql_update _ _ _ _ = _ |- _ =>
    apply sql_update_one in H as (w & Hw & _ & ->) end.
  exists w. by rewrite lookup_insert_eq.
Qed.

(** ** Workers *)

(** Finalization is idempotent and final. Once a worker was finalized with
    a run, every later finalization of it returns that run and changes nothing,
    and the worker can neither renew its heartbeat nor be claimed again. *)
Theorem finalized_worker_is_final f f' d d' id p at_ exp :
  finalize_worker f d = (Ok (Some id), d') -> fz_worker_token f' = fz_worker_token f ->
  finalize_worker f' d' = (Ok (Some id), d') /\
  renew_worker (fz_worker_token f) p at_ exp d' = (Ok false, d') /\
  claim_worker (fz_worker_token f) p at_ d' = (Ok false, d').
Proof.
  intros Hf Ht. destruct (finalize_worker_completed _ _ _ _ Hf) as (w & Hw & Hs & Hr).
  split_and!.
  - unfold finalize_worker, transaction. rewrite Ht, Hw, Hs, Hr. done.
  - unfold renew_worker, transaction. rewrite Hw, Hs. simpl.
    by rewrite andb_false_r.
  - unfold claim_worker, claim_dispatching, transaction, already_claimed.
    rewrite sql_update_none; [|intros v Hv; simplify_eq; by rewrite Hs].
    simpl. rewrite Hw, Hs. simpl. rewrite andb_false_r. by rewrite db_workers_same.
Qed.

Lemma finalized_worker_is_final_witness :
  let d := at_stage tracked in
  let d' := (finalize_worker finalization d).2 in
  renew_worker token 42 "1011" "1400" d' = (Ok false, d').
Proof.
  intros d d'. refine (proj1 (proj2 (finalized_worker_is_final finalization finalization d d' 1
    42 "1011" "1400" _ eq_refl))).
  subst d d'. apply result_is. vm_compute; reflexivity.
Defined.

(** A successful reservation hands the project's lease from the dispatcher
    that held it to the new worker, while no other worker was unfinished in the
    project and the limit on active workers was not reached. *)
Theorem reservation_fences_project r claim d d' :
  reserve_worker r claim d = (Ok true, d') ->
  has_active_worker d (res_project_id r) = false /\
  (active_worker_count d < res_max_active_workers r)%Z /\
  lease_held_by d (res_project_id r) (res_expected_lease_holder r) = true /\
  lease_held_by d' (res_project_id r) (worker_lease_holder (res_worker_token r)) = true /\
  exists w, agent_workers d' !! res_worker_token r = Some w
    /\ worker_identity w = worker_identity (reserved_worker r)
    /\ match claim with
       | Some (p, _) => w_state w = WRunning /\ w_worker_pid w = Some p
       | None => w_state w = Dispatching
       end.
Proof.
  unfold reserve_worker, transaction, txn_try, insert_worker_or_ignore, worker_conflicts. intros H.
  repeat (case_match; simplify_eq); guards.
  all: repeat match goal with
    | H : sql_update _ _ _ (leases _) = _ |- _ => apply sql_update_one in H as (l & Hl & Hp & ->)
    | H : claim_dispatching _ _ _ _ = _ |- _ =>
        apply claim_dispatching_one in H as (w & Hw & Hls & Hw')
    end; guards.
  all: (split_and!; [done|by apply Z.leb_gt|by unfold lease_held_by; rewrite Hl; apply bool_decide_true| |]).
  1, 3: unfold lease_held_by, supersede_other_abandoned in *; rewrite ?Hls; simpl; rewrite lookup_insert_eq; by apply bool_decide_true.
  all: rewrite map_lookup_imap, lookup_insert_eq in *; simpl in *; rewrite andb_false_r in *.
  - simplify_eq. eexists. split; [exact Hw'|done].
  - by eexists.
Qed.

Lemma reservation_fences_project_witness :
  let d := at_stage leased in
  let d' := (reserve_worker reservation (Some (42%Z, "1001")) d).2 in
  exists w, agent_workers d' !! token = Some w /\ w_state w = WRunning.
Proof.
  intros d d'.
  destruct (reservation_fences_project reservation (Some (42%Z, "1001")) d d')
    as (_ & _ & _ & _ & w & Hw & _ & Hs & _).
  - subst d d'. apply result_is. vm_compute; reflexivity.
  - exists w. exact (conj Hw Hs).
Defined.

(** ** Leases *)

(** [try_acquire_lease] on a registered project succeeds exactly when the
    project is free or its lease is expired, not a replacement supervisor's and
    not an unfinished worker's; it then holds the lease as asked, and otherwise
    nothing changed. *)
Theorem try_acquire_lease_spec pid h at_ exp d :
  project_exists d pid = true ->
  let free := match leases d !! pid with
              | Some l => expired_lease_clearable d pid at_ l
              | None => true
              end in
  try_acquire_lease pid h at_ exp d =
    (Ok free,
     if free then d <| leases := <[pid := mkLease h at_ exp]> (leases d) |> else d).
Proof.
  intros Hp free. subst free. unfold try_acquire_lease, insert_lease_or_ignore,
    clear_expired_lease, sql_delete. simpl.
  destruct (leases d !! pid) as [l|] eqn:Hl.
  - destruct (expired_lease_clearable d pid at_ l) eqn:He; simpl.
    + rewrite lookup_delete_eq. unfold project_exists in *. simpl. rewrite Hp.
      by rewrite insert_delete_eq.
    + rewrite Hl. by rewrite db_leases_same.
  - simpl. rewrite Hl. unfold project_exists in *. simpl. by rewrite Hp.
Qed.

Lemma try_acquire_lease_spec_witness :
  fst (try_acquire_lease 1 "clt-scheduler-8" "1200" "1500" (at_stage leased)) = Ok false /\
  fst (try_acquire_lease 1 "clt-scheduler-8" "1301" "1500" (at_stage leased)) = Ok true.
Proof.
  split.
  - rewrite (try_acquire_lease_spec 1 "clt-scheduler-8" "1200" "1500" (at_stage leased)
      ltac:(vm_compute; reflexivity)). vm_compute; reflexivity.
  - rewrite (try_acquire_lease_spec 1 "clt-scheduler-8" "1301" "1500" (at_stage leased)
      ltac:(vm_compute; reflexivity)). vm_compute; reflexivity.
Defined.

(** The finalizer obtains a project's lease only for a project with a
    pending journal, without unfinished workers, all of whose session controls
    are stopped, queued for their own recovery or shared; afterwards it owns a
    lease that passes the ownership test as long as it has not expired. *)
Theorem finalization_lease_sound pid h at_ exp reclaim d d' :
  try_acquire_git_finalization_lease pid h at_ exp reclaim d = (Ok true, d') ->
  project_has_pending_journal d pid = true /\ has_active_worker d pid = false /\
  leases d' !! pid = Some (mkLease h at_ exp) /\
  (forall s sc, session_controls d' !! (pid, s) = Some sc ->
     GIT_FINALIZATION_NONBLOCKING_CONTROL d' (pid, s) sc = Some true) /\
  (forall now, (cast_integer now < cast_integer exp)%Z ->
     git_finalization_lease_is_owned pid h now d' = true).
Proof.
  unfold try_acquire_git_finalization_lease, transaction, insert_lease_or_ignore. intros H.
  set (d1 := repair_recovery_fences pid at_ d) in *.
  match goal with H : context [sql_delete pid ?p (leases d1)] |- _ =>
    set (ls := (sql_delete pid p (leases d1)).1) in H end.
  repeat (case_match; simplify_eq/=); guards.
  set (d' := d1 <| leases := _ |> <| leases := _ |>).
  assert (controls_allow_finalization d' pid = true) as Hallow by done.
  split_and!; try done.
  - simpl. by rewrite lookup_insert_eq.
  - exact (proj1 (controls_allow_spec d' pid) Hallow).
  - intros now Hnow. unfold git_finalization_lease_is_owned. simpl. rewrite lookup_insert_eq.
    simpl. unfold lease_live. simpl. rewrite Hallow.
    rewrite bool_decide_true by done. apply Z.ltb_lt in Hnow. rewrite Hnow. simpl.
    change (has_active_worker d' pid) with (has_active_worker d pid).
    match goal with H : has_active_worker _ pid = false |- _ =>
      change (has_active_worker d pid = false) in H; by rewrite H end.
Qed.

Lemma finalization_lease_sound_witness :
  let d := at_stage (finished ++
    [RecoverStaleRunning 1 sid 77 (Some token) "1011"; EnsureFinalizationResume 1 sid "1012"]) in
  let d' := (try_acquire_git_finalization_lease 1 "clt-git-1" "1100" "1200" None d).2 in
  git_finalization_lease_is_owned 1 "clt-git-1" "1150" d' = true.
Proof.
  intros d d'.
  refine (proj2 (proj2 (proj2 (proj2 (finalization_lease_sound 1 "clt-git-1" "1100" "1200" None d d'
    _)))) "1150" _); [|vm_compute; reflexivity].
  subst d d'. apply result_is. vm_compute; reflexivity.
Defined.

(** ** Registration and requests *)

(** Registering the same run again keeps a stop or an interrupt that was
    requested meanwhile, with the holder the interrupt names; a registration
    under another run token starts the session running without a holder. *)
Theorem registration_keeps_requests pid s child tok out err mode now d d' sc :
  mark_session_running pid s child tok out err mode now d = (Ok tt, d') ->
  session_controls d !! (pid, s) = Some sc ->
  exists sc', session_controls d' !! (pid, s) = Some sc' /\
    sc_run_token sc' = Some tok /\ sc_child_pid sc' = Some child /\
    (sc_run_token sc = Some tok -> sc_state sc = StopRequested -> sc_state sc' = StopRequested) /\
    (sc_run_token sc = Some tok -> sc_state sc = InterruptRequested ->
       sc_state sc' = InterruptRequested /\
       sc_interactive_holder sc' = sc_interactive_holder sc) /\
    (sc_run_token sc <> Some tok ->
       sc_state sc' = Running /\ sc_interactive_holder sc' = None).
Proof.
  intros H Hsc. exists (registered_control child tok out err now (Some sc)).
  assert (session_controls d' !! (pid, s) = Some (registered_control child tok out err now (Some sc)))
    as ->.
  { revert H. unfold mark_session_running, transaction, txn_try. rewrite Hsc.
    generalize (registered_control child tok out err now (Some sc)). intros rc H.
    repeat (case_match; simplify_eq); use_footprints; simpl; by rewrite lookup_insert_eq. }
  unfold registered_control. simpl. split_and!; try done.
  - intros Ht ->. by rewrite (proj2 (sql_eq_Some _ _) Ht).
  - intros Ht ->. by rewrite (proj2 (sql_eq_Some _ _) Ht).
  - intros Hne. destruct (sql_eq _ _) eqn:Ht; [|done]. by apply sql_eq_Some in Ht.
Qed.

Lemma registration_keeps_requests_witness :
  let d := exec (RequestStop 1 sid 77 token "1004") (at_stage running) in
  let d' := (mark_session_running 1 sid 78 token "out" "err" None "1005" d).2 in
  exists sc', session_controls d' !! (1%Z, sid) = Some sc' /\ sc_state sc' = StopRequested.
Proof.
  intros d d'.
  destruct (registration_keeps_requests 1 sid 78 token "out" "err" None "1005" d d'
    (mkControl StopRequested (Some 77%Z) (Some token) None None (Some "out") (Some "err") "1004"))
    as (sc' & Hsc' & _ & _ & Hs & _).
  - subst d d'. apply result_is. vm_compute; reflexivity.
  - vm_compute; reflexivity.
  - exists sc'. exact (conj Hsc' (Hs eq_refl eq_refl)).
Defined.

(** ** Handoffs *)

(** Handing an interrupted run over to its interactive holder is atomic.
    When it returns a holder, the run was interrupted for that holder, its lease
    moved from the named holder to it and the session waits for it; otherwise
    nothing changed. *)
Theorem interrupt_handoff_atomic pid s tok from at_ exp now d r d' :
  complete_session_interrupt_handoff pid s tok from at_ exp now d = (r, d') ->
  match r with
  | Ok (Some h) =>
      (exists sc, session_controls d !! (pid, s) = Some sc /\ sc_state sc = InterruptRequested
         /\ sc_run_token sc = Some tok /\ sc_interactive_holder sc = Some h) /\
      lease_held_by d pid from = true /\
      leases d' !! pid = Some (mkLease h at_ exp) /\
      exists sc', session_controls d' !! (pid, s) = Some sc' /\ sc_state sc' = ReadyInteractive
        /\ sc_child_pid sc' = None /\ sc_interactive_holder sc' = Some h
  | _ => d' = d
  end.
Proof.
  unfold complete_session_interrupt_handoff, transaction, transfer_lease, update_control,
    sql_select, interrupted_generation. intros H.
  destruct (session_controls d !! (pid, s)) as [sc|] eqn:Hsc; [|by simplify_eq/=].
  destruct (leases d !! pid) as [l|] eqn:Hl.
  - unfold lease_held_by, sql_update in *. rewrite ?Hl in *.
    repeat (case_match; simplify_eq/=); guards; try done.
    all: split_and!; eauto; rewrite ?lookup_insert_eq; try done; try by apply bool_decide_true.
    all: by eexists.
  - unfold sql_update in *. repeat (case_match; simplify_eq/=); try done.
Qed.

Lemma interrupt_handoff_atomic_witness :
  let d := exec (RequestInterrupt 1 sid 77 token "clt-interactive-9" "1004") (at_stage running) in
  let d' := (complete_session_interrupt_handoff 1 sid token (worker_lease_holder token)
               "1005" "1400" "1005" d).2 in
  leases d' !! 1%Z = Some (mkLease "clt-interactive-9" "1005" "1400").
Proof.
  intros d d'.
  refine (proj1 (proj2 (proj2 (interrupt_handoff_atomic 1 sid token (worker_lease_holder token)
    "1005" "1400" "1005" d (Ok (Some "clt-interactive-9")) d' _)))).
  subst d d'. apply result_is. vm_compute; reflexivity.
Defined.

Lemma settle_exited_true pid s st terminal child tok h now d d' :
  settle_exited pid s st terminal child tok h now d = Commit true d' ->
  exists sc sc', session_controls d !! (pid, s) = Some sc /\
    session_controls d' !! (pid, s) = Some sc' /\ sc_state sc' = terminal /\
    sc_child_pid sc' = None /\
    sc_interactive_holder sc' =
      (if terminal == ReadyInteractive then sc_interactive_holder sc else None) /\
    leases d' = if terminal == ReadyInteractive then leases d
                else (sql_delete pid (fun l => l_holder l == h) (leases d)).1.
Proof.
  unfold settle_exited, update_control. intros H.
  destruct (sql_update _ _ _ _) as [cs n] eqn:Hu.
  destruct (n == 1%Z) eqn:Hn; [|done]. guards.
  apply sql_update_one in Hu as (sc & Hsc & _ & ->).
  exists sc. destruct (terminal == ReadyInteractive); simplify_eq/=;
    rewrite lookup_insert_eq; by eexists.
Qed.

Lemma hand_lease_over_true pid from l d d' :
  hand_lease_over pid from l d = Commit true d' ->
  lease_held_by d' pid (l_holder l) = true /\ session_controls d' = session_controls d.
Proof.
  unfold hand_lease_over, transfer_lease, lease_held_by, sql_update. intros H.
  repeat (case_match; simplify_eq/=); rewrite ?lookup_insert_eq in *; simplify_eq/=; guards;
    split; try done; by apply bool_decide_true.
Qed.

Lemma settle_exited_refused pid s st terminal child tok h now d r :
  settle_exited pid s st terminal child tok h now d = Rollback r -> r = Ok false.
Proof.
  unfold settle_exited, update_control. intros H. repeat (case_match; simplify_eq/=); done.
Qed.

Lemma hand_lease_over_refused pid from l d r :
  hand_lease_over pid from l d = Rollback r -> r <> Ok true.
Proof.
  unfold hand_lease_over, transfer_lease. intros H. repeat (case_match; simplify_eq/=); done.
Qed.

Lemma hand_lease_over_commit pid from l d a d' :
  hand_lease_over pid from l d = Commit a d' -> a = true.
Proof.
  unfold hand_lease_over, transfer_lease. intros H. repeat (case_match; simplify_eq/=); done.
Qed.

Lemma lease_deleted pid h (ls : gmap Z lease_row) d :
  leases d = (sql_delete pid (fun l => l_holder l == h) ls).1 -> lease_held_by d pid h = false.
Proof.
  intros Hl. unfold lease_held_by. rewrite Hl, lookup_sql_delete.
  destruct (ls !! pid) as [l|]; [|done]. rewrite (bool_decide_true (pid = pid)) by done. simpl.
  by destruct (l_holder l == h) eqn:He.
Qed.

(** When the process group of an automated run has exited, finalization
    settles exactly that generation. A run queues its resume, a requested stop
    stops the session, and either releases the lease of the supervisor; a
    requested interrupt reserves the session for its holder, to whom the lease
    then belongs. *)
Theorem exited_run_settled pid child tok h reattached at_ exp now d d' :
  finalize_automated_session_after_exit pid child tok h reattached at_ exp now d = (Ok true, d') ->
  exists s sc sc', session_controls d !! (pid, s) = Some sc /\
    sc_child_pid sc = Some child /\ sc_run_token sc = Some tok /\
    session_controls d' !! (pid, s) = Some sc' /\ sc_child_pid sc' = None /\
    exit_terminal_state (sc_state sc) = Some (sc_state sc') /\
    match sc_state sc with
    | InterruptRequested =>
        exists ih, sc_interactive_holder sc = Some ih /\ sc_interactive_holder sc' = Some ih /\
          lease_held_by d' pid ih = true
    | _ => sc_interactive_holder sc' = None /\ lease_held_by d' pid h = false
    end.
Proof.
  unfold finalize_automated_session_after_exit, transaction. intros H.
  destruct (is_null reattached || _); [|by simplify_eq/=].
  destruct (List.find _ _) as [[[p s] sc]|] eqn:Hfind; [|by simplify_eq/=].
  apply find_some in Hfind as [Hin Hgen]. apply list_elem_of_In, elem_of_map_to_list in Hin.
  unfold exited_generation in Hgen. simpl in Hgen. guards.
  destruct (exit_terminal_state (sc_state sc)) as [terminal|] eqn:Hterm; [|by simplify_eq/=].
  destruct (terminal == ReadyInteractive) eqn:Hready; guards.
  - destruct (sc_state sc) eqn:Hst; simplify_eq/=.
    destruct (sc_interactive_holder sc) as [ih|] eqn:Hih; [|by simplify_eq/=].
    destruct (hand_lease_over _ _ _ _) as [a1 d1|r] eqn:Hhand.
    2: { by apply hand_lease_over_refused in Hhand; simplify_eq. }
    pose proof (hand_lease_over_commit _ _ _ _ _ _ Hhand) as ->.
    destruct (hand_lease_over_true _ _ _ _ _ Hhand) as [Hheld Hcontrols].
    destruct (settle_exited _ _ _ _ _ _ _ _ _) as [a2 d2|r] eqn:Hsettle; simplify_eq/=.
    2: { by apply settle_exited_refused in Hsettle. }
    destruct (settle_exited_true _ _ _ _ _ _ _ _ _ _ Hsettle)
      as (sc0 & sc' & L & L' & Hs & Hc & Hi & Hl).
    rewrite Hcontrols in L. simplify_eq/=. exists s, sc, sc'. rewrite Hst, Hs. split_and!; try done.
    exists ih. split_and!; [done|congruence|]. unfold lease_held_by in *. by rewrite Hl.
  - destruct (settle_exited _ _ _ _ _ _ _ _ _) as [a d1|r] eqn:Hsettle; simplify_eq/=.
    2: { by apply settle_exited_refused in Hsettle. }
    destruct (settle_exited_true _ _ _ _ _ _ _ _ _ _ Hsettle)
      as (sc0 & sc' & L & L' & Hs & Hc & Hi & Hl).
    exists s, sc, sc'. rewrite bool_decide_false in Hi, Hl by done.
    split_and!; try done; [by rewrite Hs|].
    destruct (sc_state sc); simplify_eq/=; (split; [done|by eapply lease_deleted]).
Qed.

Lemma exited_run_settled_witness :
  let d := at_stage running in
  let d' := (finalize_automated_session_after_exit 1 77 token (worker_lease_holder token) None
               "1005" "1400" "1005" d).2 in
  exists s sc', session_controls d' !! (1%Z, s) = Some sc' /\ sc_child_pid sc' = None.
Proof.
  intros d d'.
  destruct (exited_run_settled 1 77 token (worker_lease_holder token) None "1005" "1400" "1005"
    d d') as (s & _ & sc' & _ & _ & _ & Hsc' & Hc & _).
  - subst d d'. apply result_is. vm_compute; reflexivity.
  - exists s, sc'. exact (conj Hsc' Hc).
Defined.

(** ** Recovery, acknowledgement, removal *)

Lemma recovery_accepted q d :
  recovery_refused q d = None ->
  expected_journal_holds q d = true /\ leases d !! q_project_id q = None /\
  has_active_worker d (q_project_id q) = false /\ has_launch_state (q_project_id q) d = false /\
  (forall k sc, session_controls d !! k = Some sc -> k.1 = q_project_id q ->
     control_is_unowned sc = true).
Proof.
  unfold recovery_refused, recovery_blocked. intros H.
  repeat (case_match; simplify_eq/=). guards. split_and!; try done.
  match goal with H : sql_exists _ (session_controls d) = false |- _ =>
    rewrite sql_exists_false in H; rename H into Hcontrols end.
  intros k sc Hsc Hk. specialize (Hcontrols _ _ Hsc). simpl in Hcontrols.
  rewrite bool_decide_true in Hcontrols by done. guards.
  by destruct (control_is_unowned sc).
Qed.

Lemma retire_reviewed_lookup q d k g :
  q_expected_journal q = Some (k, g) -> expected_journal_holds q d = true ->
  git_finalizations d !! (q_project_id q, q_session_id q) = Some g /\ g_commit_oid g = None /\
  exists g', git_finalizations (retire_reviewed_journal q d) !! (q_project_id q, q_session_id q)
             = Some g' /\ g_state g' = Cancelled /\
             (g' = g \/ g_generation g' = (g_generation g + 1)%Z).
Proof.
  unfold expected_journal_holds, is_current, retire_reviewed_journal. intros -> H. simpl in H.
  guards. split_and!; [congruence|done|].
  destruct (negb (q_restart q) || _) eqn:Hretire.
  - exists (cancel_journal (recovery_reason q) (q_acquired_at q) g). split_and!; [|done|by right].
    unfold update_journal, sql_update.
    match goal with H : git_finalizations d !! _ = Some g |- _ => rewrite H end.
    simpl. by rewrite lookup_insert_eq.
  - guards. exists g. split_and!; [congruence| |by left].
    destruct (q_restart q); simpl in *; guards; done.
Qed.

(** A confirmed recovery reserves an idle project: it had no lease, no
    unfinished worker, no launch boundary and no owned session, now its lease
    is the recovery's, and the journal that was reviewed carries no commit and
    is cancelled, in its next generation unless it already was. *)
Theorem recovery_reserves_idle_project q d d' :
  begin_missing_git_recovery q d = (Ok tt, d') ->
  leases d !! q_project_id q = None /\ has_active_worker d (q_project_id q) = false /\
  has_launch_state (q_project_id q) d = false /\
  lease_held_by d' (q_project_id q) (q_holder q) = true /\
  (forall k sc, session_controls d !! k = Some sc -> k.1 = q_project_id q ->
     control_is_unowned sc = true) /\
  match q_expected_journal q with
  | Some (_, g) =>
      git_finalizations d !! (q_project_id q, q_session_id q) = Some g /\
      g_commit_oid g = None /\
      exists g', git_finalizations d' !! (q_project_id q, q_session_id q) = Some g' /\
        g_state g' = Cancelled /\
        (g' = g \/ g_generation g' = (g_generation g + 1)%Z)
  | None => git_finalizations d' = git_finalizations d
  end.
Proof.
  unfold begin_missing_git_recovery, transaction. intros H.
  destruct (recovery_refused q d) eqn:Hrefused; [done|].
  injection H as <-.
  destruct (recovery_accepted _ _ Hrefused) as (Hexp & Hlease & Hworker & Hlaunch & Hcontrols).
  split_and!; try done.
  - unfold lease_held_by. simpl. rewrite lookup_insert_eq. by apply bool_decide_true.
  - destruct (q_expected_journal q) as [[k g]|] eqn:Hq.
    + exact (retire_reviewed_lookup _ _ _ _ Hq Hexp).
    + simpl. unfold retire_reviewed_journal. by rewrite Hq.
Qed.

Definition failed_attempt : list command :=
  [RegisterProject "/p" "p" "900";
   CreateJournal (mkNewJournal 1 sid GitCommit (Some "abc") None None "clean" None None "901");
   RecordRunOutcome (mkOutcome 1 "failure" "902" (Some "903") (Some 1%Z) None None None None
     (Some sid))].

Definition failed_journal : journal_row :=
  mkJournal Working GitCommit (Some "abc") None None "clean" None None None 0 None "901" "901"
    None None None.

Definition reviewed_request : RecoveryRequest :=
  mkRecovery 1 "/p" sid 1 (Some ((1%Z, sid), failed_journal)) false false false None
    "clt-git-recovery-1" "1000" "1100".

Lemma recovery_reserves_idle_project_witness :
  let d := at_stage failed_attempt in
  let d' := (begin_missing_git_recovery reviewed_request d).2 in
  lease_held_by d' 1 "clt-git-recovery-1" = true.
Proof.
  intros d d'.
  refine (proj1 (proj2 (proj2 (proj2 (recovery_reserves_idle_project reviewed_request d d' _))))).
  subst d d'. apply result_is. vm_compute; reflexivity.
Defined.

(** Acknowledging a completed journal records one acknowledgement. After it
    succeeded the journal is completed and acknowledged, and acknowledging it
    again succeeds without touching any journal, run or project. *)
Theorem acknowledgement_idempotent pid s at_ at_' d d' :
  acknowledge_completed_git_finalization_session pid s at_ d = (Ok true, d') ->
  (exists g, git_finalizations d' !! (pid, s) = Some g /\ g_state g = Completed
     /\ is_Some (g_acknowledged_at g)) /\
  exists d2, acknowledge_completed_git_finalization_session pid s at_' d' = (Ok true, d2) /\
    git_finalizations d2 = git_finalizations d' /\ runs d2 = runs d' /\
    projects d2 = projects d'.
Proof.
  intros H.
  assert (exists g, git_finalizations d' !! (pid, s) = Some g /\ g_state g = Completed
    /\ is_Some (g_acknowledged_at g) /\ is_Some (g_completed_at g)) as (g & Hg & Hs & Ha & Hc).
  { revert H. unfold acknowledge_completed_git_finalization_session, transaction, sql_select,
      delete_control, update_journal. intros H.
    repeat (case_match; simplify_eq/=); use_footprints; simplify_eq/=; guards; eauto.
    all: match goal with H : sql_update _ _ _ _ = (_, 1%Z) |- _ =>
      apply sql_update_one in H as (? & ? & _ & ->) end.
    all: simplify_eq; eexists; rewrite lookup_insert_eq; split_and!; eauto. }
  split; [eauto|].
  unfold acknowledge_completed_git_finalization_session, transaction, sql_select. rewrite Hg.
  destruct Ha as [a Ha], Hc as [c Hc]. rewrite (bool_decide_true (g_state g = Completed)) by done.
  rewrite Ha, Hc. unfold delete_control. case_match. by eexists.
Qed.

(** Finalized up to the commit; the worker and its session are gone. *)
Definition committed : list command :=
  finished ++
  [RecoverStaleRunning 1 sid 77 (Some token) "1011"; EnsureFinalizationResume 1 sid "1012";
   CompareAndSetJournal 1 sid 2 (mkUpdate Completed None None false None (Some "def") None "1013")].

Lemma acknowledgement_idempotent_witness :
  let d := at_stage committed in
  let d' := (acknowledge_completed_git_finalization_session 1 sid "1014" d).2 in
  exists d2, acknowledge_completed_git_finalization_session 1 sid "1015" d' = (Ok true, d2)
    /\ runs d2 = runs d'.
Proof.
  intros d d'.
  destruct (acknowledgement_idempotent 1 sid "1014" "1015" d d') as (_ & d2 & H & _ & Hr & _).
  - subst d d'. apply result_is. vm_compute; reflexivity.
  - exists d2. exact (conj H Hr).
Defined.

(** No row of project [pid] is left. *)
Definition project_gone (pid : Z) (d : db) : Prop :=
  projects d !! pid = None /\ leases d !! pid = None /\
  (forall t w, agent_workers d !! t = Some w -> w_project_id w <> pid) /\
  (forall i r, runs d !! i = Some r -> r_project_id r <> pid) /\
  (forall k, k.1 = pid -> session_controls d !! k = None /\
     git_finalizations d !! k = None /\ agent_git_launch_states d !! k = None /\
     session_git_modes d !! k = None).

Lemma drop_project_rows_gone {V} (pid : Z) (t : gmap (Z * string) V) (k : Z * string) :
  k.1 = pid -> drop_project_rows pid t !! k = None.
Proof.
  intros Hk. unfold drop_project_rows. apply map_lookup_filter_None. right.
  intros v _ Hn. by apply Hn.
Qed.

Lemma delete_project_gone pid d : leases d !! pid = None -> project_gone pid (delete_project pid d).
Proof.
  intros Hl. unfold project_gone. simpl. split_and!; auto using drop_project_rows_gone.
  - by rewrite lookup_delete_eq.
  - intros t w [_ Hw]%map_lookup_filter_Some. done.
  - intros i r [_ Hr]%map_lookup_filter_Some. done.
Qed.

(** Unregistering a project leaves none of its rows in any table, and is
    refused while the project has an unfinished worker or a lease that is
    neither expired nor held by a dead process. *)
Theorem unregister_removes_project own running path now d pid p :
  projects d !! pid = Some p -> p_path p = path ->
  (forall k q, projects d !! k = Some q -> p_path q = path -> k = pid) ->
  match unregister_project own running path now d with
  | (Ok true, d') =>
      has_active_worker d pid = false /\
      (forall l, leases d !! pid = Some l -> unregister_reclaimable own running l now = true) /\
      project_gone pid d'
  | (Ok false, _) => False
  | (Err _, d') => d' = d
  end.
Proof.
  intros Hp Hpath Huniq.
  assert (project_id_of_path path d = Some pid) as Hid.
  { unfold project_id_of_path.
    destruct (List.find _ _) as [[k q]|] eqn:Hfind.
    - apply find_some in Hfind as [Hin Hq]. apply list_elem_of_In, elem_of_map_to_list in Hin.
      unfold project_with_path in Hq. simpl in *. guards. f_equal. by eapply Huniq.
    - apply elem_of_map_to_list, list_elem_of_In in Hp.
      pose proof (find_none _ _ Hfind _ Hp) as Hn. unfold project_with_path in Hn. simpl in Hn.
      by rewrite bool_decide_true in Hn by done. }
  unfold unregister_project, transaction. rewrite Hid.
  destruct (0 <? active_workers_of pid d)%Z eqn:Hactive; [done|].
  assert (has_active_worker d pid = false) as Hno.
  { exact (eq_trans (eq_sym (sql_count_exists _ _)) Hactive). }
  destruct (leases d !! pid) as [l|] eqn:Hl.
  - destruct (unregister_reclaimable own running l now) eqn:Hr; [|done].
    split_and!; [done|by intros ? [= <-]|]. apply delete_project_gone. simpl.
    by rewrite lookup_delete_eq.
  - split_and!; [done|done|]. by apply delete_project_gone.
Qed.

Lemma unregister_removes_project_witness :
  project_gone 1 (unregister_project 9 (fun _ => None) "/p" 2000 (at_stage failed_attempt)).2.
Proof.
  pose proof (unregister_removes_project 9 (fun _ => None) "/p" 2000 (at_stage failed_attempt) 1)
    as H.
  assert (projects (at_stage failed_attempt) = {[ 1%Z := (new_project "/p" "p" "900")
    <| p_failure_count := 1%Z |> <| p_last_run_at := Some "903" |>
    <| p_last_failure_at := Some "903" |> <| p_updated_at := "903" |> ]}) as Hps
    by (vm_compute; reflexivity).
  specialize (H _ ltac:(rewrite Hps; apply lookup_singleton_eq) eq_refl).
  rewrite Hps in H.
  assert (Hr : (unregister_project 9 (fun _ => None) "/p" 2000 (at_stage failed_attempt)).1
    = Ok true) by (vm_compute; reflexivity).
  rewrite (result_is _ _ Hr) in H.
  refine (proj2 (proj2 (H _))). intros k q [<- _]%lookup_singleton_Some _. reflexivity.
Defined.

(** ** Encodings *)

(** Every closed vocabulary of the registry decodes exactly what it
    encodes: a stored value decodes to a constant if and only if it is that
    constant's database value. *)
Theorem database_values_decode v :
  (forall m, GitMode.from_database v = Some m <-> v = GitMode.database_value m) /\
  (forall s, Finalization.from_database v = Some s <-> v = Finalization.database_value s) /\
  (forall s, Control.from_database v = Some s <-> v = Control.database_value s) /\
  (forall s, TaskSelection.from_label v = Some s <-> v = TaskSelection.label s).
Proof.
  unfold GitMode.from_database, Finalization.from_database, Control.from_database,
    TaskSelection.from_label.
  split_and!; intros x; (split; [|by intros ->; destruct x]).
  all: repeat case_bool_decide; intros; simplify_eq/=; done.
Qed.

(** ** Holders *)

Lemma starts_with_before_dash n rest :
  (0 <= n)%Z -> before_dash (dec n +:+ "-" +:+ rest) = dec n.
Proof. intros Hn. destruct (before_dash_dec n rest) as [?|?]; [done|lia]. Qed.

(** A guardian's holder identifies its process. The name a guardian of any
    disposition runs under decodes to that disposition and, until the generation
    suffix, to the process that created it, for both readers of the name. *)
Theorem guardian_holder_names_process disposition pid rest :
  (0 <= pid <= u32_max)%Z ->
  let holder := Guardian.guardian_holder_prefix disposition +:+ "-" +:+ dec pid +:+ "-" +:+ rest in
  Guardian.from_guardian_holder holder = Some disposition /\
  Guardian.guardian_process_id holder = Some pid /\
  interactive_lease_holder_pid holder = Some pid.
Proof.
  intros Hp holder.
  assert (Guardian.guardian_process_id holder = Some pid) as Hid.
  { unfold Guardian.guardian_process_id. subst holder. rewrite Guardian.from_guardian_holder_prefix.
    rewrite (proj2 (strip_prefix_Some _ _ _) eq_refl).
    rewrite (proj2 (strip_prefix_Some "-" _ _) eq_refl).
    rewrite starts_with_before_dash by lia. by apply parse_unsigned_dec. }
  split_and!; [apply Guardian.from_guardian_holder_prefix|done|].
  unfold interactive_lease_holder_pid. by rewrite Hid.
Qed.

Lemma guardian_holder_names_process_witness :
  Guardian.guardian_process_id "clt-interactive-worker-4321-99-1" = Some 4321%Z.
Proof.
  exact (proj1 (proj2 (guardian_holder_names_process ResumeExec 4321 "99-1" ltac:(vm_compute; split; discriminate)))).
Defined.

(** An observed lease may be taken over exactly in three ways: the lease of
    a replacement supervisor only once its process is proven dead, whatever its
    expiry; any other lease once it has expired, or once its process is proven
    dead, or when it belongs to this process and the caller reclaims its own. *)
Theorem lease_reclaimable_iff own running l reclaim_own now :
  agent_lease_is_reclaimable own running l reclaim_own now = true <->
  match recovered_supervisor_pid (l_holder l) with
  | Some pid => pid <> own /\ running pid = Some false
  | None =>
      (exists t, parse_u64 (l_expires_at l) = Some t /\ (t <= now)%Z) \/
      exists pid, agent_lease_holder_pid (l_holder l) = Some pid /\
        ((pid <> own /\ running pid = Some false) \/ (pid = own /\ reclaim_own = true))
  end.
Proof.
  assert (forall pid, agent_pid_liveness own running pid = Dead <->
    pid <> own /\ running pid = Some false) as Hdead.
  { intros pid. unfold agent_pid_liveness. case_bool_decide; [naive_solver|].
    destruct (running pid) as [[]|]; naive_solver. }
  unfold agent_lease_is_reclaimable, agent_lease_holder_liveness.
  destruct (recovered_supervisor_pid (l_holder l)) as [pid|] eqn:Hrec; simpl.
  - unfold agent_lease_holder_pid. rewrite Hrec, <- Hdead. apply bool_decide_eq_true.
  - destruct (agent_lease_holder_pid (l_holder l)) as [pid|] eqn:Hpid.
    2: { destruct (parse_u64 (l_expires_at l)) as [t|]; [|naive_solver].
         destruct (Z.leb_spec t now); naive_solver lia. }
    assert ((match agent_pid_liveness own running pid with
             | Dead => true | CurrentProcess => reclaim_own | _ => false end = true) <->
      (pid <> own /\ running pid = Some false) \/ (pid = own /\ reclaim_own = true)) as Hlive.
    { rewrite <- Hdead. unfold agent_pid_liveness. case_bool_decide; [naive_solver|].
      destruct (running pid) as [[]|]; naive_solver. }
    destruct (parse_u64 (l_expires_at l)) as [t|]; [|naive_solver].
    destruct (Z.leb_spec t now); [naive_solver|]. rewrite Hlive. naive_solver lia.
Qed.

(** ** Timestamps *)

(** For Unix times in seconds from 2001-09-09 to 2286-11-20, the TEXT
    comparison with which [try_acquire_lease] expires a lease agrees with the
    integer comparison of every other statement. *)
Theorem timestamp_orders_agree expires now holder acquired :
  (10 ^ 9 <= expires < 10 ^ 10)%Z -> (10 ^ 9 <= now < 10 ^ 10)%Z ->
  let l := mkLease holder acquired (dec expires) in
  text_leb (l_expires_at l) (dec now) = negb (lease_live l (dec now)) /\
  lease_live l (dec now) = (now <? expires)%Z.
Proof.
  intros He Hn. simpl. unfold lease_live. simpl.
  assert (10 ^ 10 <= i64_max)%Z by by vm_compute.
  rewrite !cast_integer_dec by lia. split; [|done].
  rewrite text_leb_dec by (rewrite ?(dec_magnitude _ 9) by (simpl; lia); done || lia).
  destruct (Z.leb_spec expires now), (Z.ltb_spec now expires); lia || done.
Qed.

Lemma timestamp_orders_agree_witness :
  lease_live (mkLease "h" "1" (dec 1700000300)) (dec 1700000299) = true /\
  text_leb (dec 1700000300) (dec 1700000299) = false.
Proof.
  destruct (timestamp_orders_agree 1700000300 1700000299 "h" "1") as [Ht Hl].
  1, 2: vm_compute; split; [discriminate|reflexivity].
  split; [exact Hl|exact (eq_trans Ht (f_equal negb Hl))].
Defined.

(** The window assumption is needed: across a change of length the two differ. *)
Lemma timestamp_orders_differ :
  text_leb (dec 1000000000) (dec 999999999) = true /\ ~ (1000000000 <= 999999999)%Z.
Proof. split; [reflexivity|lia]. Qed.

(** ** Board scans *)

Lemma count_of_length {A} (p : A -> bool) l : (0 <= count_of p l <= Z.of_nat (length l))%Z.
Proof. unfold count_of. induction l as [|x l IH]; simpl; [lia|]. destruct (p x); simpl; lia. Qed.

Lemma count_of_pos {A} (p : A -> bool) l : (0 < count_of p l)%Z <-> exists x, x ∈ l /\ p x = true.
Proof.
  unfold count_of. split.
  - destruct (List.filter p l) as [|x r] eqn:Hf; simpl; [lia|]. intros _. exists x.
    assert (In x (List.filter p l)) as Hin by (rewrite Hf; by left).
    apply filter_In in Hin as [Hin Hp]. by rewrite list_elem_of_In.
  - intros (x & Hin & Hp). apply list_elem_of_In in Hin.
    assert (In x (List.filter p l)) as Hf by by apply filter_In.
    destruct (List.filter p l); simpl in *; [done|lia].
Qed.

Lemma count_of_filter {A} (p q : A -> bool) l :
  count_of p (List.filter q l) = count_of (fun x => q x && p x) l.
Proof.
  unfold count_of. induction l as [|x l IH]; [done|]. simpl.
  destruct (q x); simpl; [destruct (p x); simpl; lia|done].
Qed.

Lemma count_of_app {A} (p : A -> bool) l1 l2 :
  count_of p (l1 ++ l2) = (count_of p l1 + count_of p l2)%Z.
Proof. unfold count_of. rewrite List.filter_app, length_app. lia. Qed.

Lemma count_of_ext {A} (p q : A -> bool) l : (forall x, p x = q x) -> count_of p l = count_of q l.
Proof. intros H. unfold count_of. by rewrite (List.filter_ext _ _ H). Qed.

(** Every todo task is counted once: manual, blocked, stopped, waiting for
    coordination, or available. *)
Definition task_available (t : ScannedTask) : bool := st_ready t && st_coordinated t.

Lemma todo_partition l :
  let auto := List.filter (fun t => negb (st_manual t)) l in
  (Z.of_nat (length auto) - count_of (fun t => st_blocked t && negb (st_stopped t)) auto
   - count_of st_stopped auto - count_of (fun t => st_ready t && negb (st_coordinated t)) l
   = count_of task_available l)%Z.
Proof.
  unfold count_of, task_available, st_ready.
  induction l as [|[m b s c] l IH]; [done|]. simpl in *.
  destruct m, b, s, c; simpl; lia.
Qed.

Lemma pending_after_waits n b st m bd w :
  (0 <= n)%Z -> (0 <= b)%Z -> (0 <= st)%Z -> (0 <= w)%Z ->
  let scan := (Scan.from_counts n b st m bd) <| coordination_wait_count := w |> in
  scan_status (if (Scan.available_todo_count scan =? 0)%Z && (scan_status scan == ScanPending)
               then scan <| scan_status := ScanEmpty |> else scan) = ScanPending
  <-> (0 < n - b - st - w)%Z.
Proof.
  intros Hn Hb Hst Hw. cbv zeta.
  replace (Scan.available_todo_count _) with (Z.max 0 (Z.max 0 (Z.max 0 (n - b) - st) - w))
    by (unfold Scan.available_todo_count, saturating_sub; simpl; lia).
  unfold Scan.from_counts, saturating_sub. simpl.
  destruct (Z.ltb_spec 0 (Z.max 0 (Z.max 0 (n - b) - st))).
  - rewrite (bool_decide_true (ScanPending = ScanPending)) by done. rewrite andb_true_r.
    destruct (Z.eqb_spec (Z.max 0 (Z.max 0 (Z.max 0 (n - b) - st) - w)) 0); simpl;
      (split; [done || lia|done || lia]).
  - repeat case_match; simpl in *; (split; [intros; simplify_eq; guards; done|lia]).
Qed.

(** A scan counts what can be scheduled. The available count is the number
    of todo tasks that are neither stopped, blocked nor manual and wait for no
    other task; a project is pending exactly when there is one, and it has
    schedulable work exactly when there is one or some task that is not manual
    is blocked without being stopped. *)
Theorem scan_counts_schedulable todo doing :
  let s := scan_entries todo doing in
  let blocked t := negb (st_manual t) && st_blocked t && negb (st_stopped t) in
  Scan.available_todo_count s = count_of task_available todo /\
  (Scan.has_pending_task s = true <-> exists t, t ∈ todo /\ task_available t = true) /\
  (Scan.has_schedulable_work s = true <->
     (exists t, t ∈ todo /\ task_available t = true) \/
     exists t, t ∈ todo ++ doing /\ blocked t = true).
Proof.
  intros s blocked. pose proof (todo_partition todo) as Hpart. cbv zeta in Hpart.
  set (auto := List.filter (fun t => negb (st_manual t)) todo) in *.
  pose proof (count_of_length (fun t => st_blocked t && negb (st_stopped t)) auto).
  pose proof (count_of_length st_stopped auto).
  pose proof (count_of_length (fun t => st_ready t && negb (st_coordinated t)) todo).
  pose proof (count_of_length task_available todo).
  pose proof (count_of_length (fun t => negb (st_manual t)) todo) as Hauto.
  change (count_of (fun t => negb (st_manual t)) todo) with (Z.of_nat (length auto)) in Hauto.
  assert (Scan.available_todo_count s = count_of task_available todo) as Havail.
  { subst s. unfold scan_entries, Scan.available_todo_count. fold auto.
    case_match; simpl; unfold saturating_sub; lia. }
  assert (Scan.has_pending_task s = true <-> (0 < count_of task_available todo)%Z) as Hpend.
  { rewrite <- Hpart. unfold Scan.has_pending_task. rewrite bool_decide_eq_true.
    rewrite <- pending_after_waits with (m := Z.of_nat (length (List.filter
      (fun t => negb (st_manual t)) doing))) (bd := count_of (fun t => st_blocked t &&
      negb (st_stopped t)) (List.filter (fun t => negb (st_manual t)) doing)) by lia.
    done. }
  split; [done|]. split; [by rewrite Hpend, count_of_pos|].
  unfold Scan.has_schedulable_work. rewrite orb_true_iff, Hpend, count_of_pos.
  assert (Scan.has_blocked_task s = true <-> exists t, t ∈ todo ++ doing /\ blocked t = true)
    as Hblock; [|by rewrite Hblock].
  rewrite <- count_of_pos, count_of_app.
  assert (Scan.has_blocked_task s = (0 <? Z.min u64_max (count_of blocked todo
    + count_of blocked doing))%Z) as ->.
  { subst s. unfold scan_entries, Scan.has_blocked_task, Scan.blocked_task_count, blocked.
    case_match; simpl; rewrite !count_of_filter; unfold saturating_add;
      by rewrite !(count_of_ext _ _ _ (fun t => andb_assoc _ _ _)). }
  pose proof (count_of_length blocked todo). pose proof (count_of_length blocked doing).
  rewrite Z.ltb_lt. assert (0 < u64_max)%Z by done. lia.
Qed.

(** ** Renewal and cooldowns *)

(** The renewal interval is at least a quarter second and at most fifteen
    seconds, grows with the lease timeout, and for every timeout of a second or
    more leaves room for three renewals before the lease expires. *)
Theorem renew_interval_bounds timeout :
  (0 <= timeout)%Z ->
  (250 <= agent_lease_renew_interval timeout <= AGENT_LEASE_RENEW_MAX_INTERVAL_MILLIS)%Z /\
  (forall t', (timeout <= t')%Z ->
     (agent_lease_renew_interval timeout <= agent_lease_renew_interval t')%Z) /\
  ((1000 <= timeout)%Z -> (3 * agent_lease_renew_interval timeout <= timeout)%Z).
Proof.
  intros Ht. unfold agent_lease_renew_interval, AGENT_LEASE_RENEW_MAX_INTERVAL_MILLIS.
  split_and!; [lia|lia| |].
  - intros t' Ht'. pose proof (Z.div_le_mono timeout t' 3 ltac:(lia) Ht'). lia.
  - intros H1000. pose proof (Z.mul_div_le timeout 3 ltac:(lia)). lia.
Qed.

Lemma renew_interval_bounds_witness : (3 * agent_lease_renew_interval 1000 <= 1000)%Z.
Proof.
  exact (proj2 (proj2 (renew_interval_bounds 1000 ltac:(discriminate))) ltac:(discriminate)).
Defined.

Definition until (t delay now : Z) (what : string) : option string :=
  let ready_at := saturating_add u64_max t delay in
  if (now <? ready_at)%Z then Some (reason_for what (ready_at - now)) else None.

Lemma remaining_until t delay now what :
  (0 <= t <= u64_max)%Z ->
  reason_for what <$> remaining_agent_delay (Some (dec t)) now delay = until t delay now what.
Proof.
  intros Ht. unfold remaining_agent_delay, until, parse_u64. simpl.
  rewrite parse_unsigned_dec by lia. by destruct (_ <? _)%Z.
Qed.

(** The cooldowns after a run. A failed or timed out run holds every
    selection of the project back until its backoff has passed since the run
    finished, and no longer than that for interrupted work; a successful or idle
    run holds back only new work, for the success cooldown. *)
Theorem cooldown_windows o d id d' p t now cooldown backoff :
  record_run_outcome o d = (Ok id, d') ->
  projects d !! o_project_id o = Some p -> (0 <= p_failure_count p)%Z ->
  o_finished_at o = Some (dec t) -> (0 <= t <= u64_max)%Z ->
  exists p', projects d' !! o_project_id o = Some p' /\
    (o_status o = "failure" \/ o_status o = "timeout" ->
       (forall s, is_Some (until t backoff now "failure backoff") ->
          agent_task_cooldown_reason p' s now cooldown backoff
          = until t backoff now "failure backoff") /\
       (forall s, s = ResumeDoing \/ s = ResumeSession ->
          agent_task_cooldown_reason p' s now cooldown backoff
          = until t backoff now "failure backoff")) /\
    (o_status o = "success" \/ o_status o = "idle" ->
       agent_task_cooldown_reason p' ResumeDoing now cooldown backoff = None /\
       agent_task_cooldown_reason p' NextTodo now cooldown backoff
       = until t cooldown now "success cooldown").
Proof.
  unfold record_run_outcome, autocommit. intros H Hp Hc Hf Ht.
  destruct (project_exists d _); [|done]. injection H as <- <-.
  exists (project_after_run o p). split.
  { change ((sql_update (o_project_id o) (fun _ => true) (project_after_run o) (projects d)).1
      !! o_project_id o = Some (project_after_run o p)).
    rewrite lookup_sql_update, Hp. simpl.
    by rewrite (bool_decide_true (o_project_id o = o_project_id o)) by done. }
  unfold project_after_run. rewrite Hf. split.
  - intros Hs.
    replace ((o_status o == "success") || (o_status o == "idle")) with false
      by by destruct Hs as [-> | ->].
    replace (o_status o == "blocked") with false by by destruct Hs as [-> | ->].
    replace ((o_status o == "failure") || (o_status o == "timeout")) with true
      by by destruct Hs as [-> | ->].
    assert (forall q, (0 < p_failure_count q)%Z -> p_last_failure_at q = Some (dec t) ->
      failure_backoff_reason q now backoff = until t backoff now "failure backoff") as Hreason.
    { intros q Hq Hl. unfold failure_backoff_reason. rewrite Hl, remaining_until by done.
      by rewrite (proj2 (Z.ltb_lt _ _) Hq). }
    unfold agent_task_cooldown_reason, agent_project_cooldown_reason. simpl.
    rewrite !Hreason by (simpl; done || lia).
    split; [|by intros s [-> | ->]]. intros s [r Hr]. rewrite Hr. by destruct s.
  - intros Hs.
    replace ((o_status o == "success") || (o_status o == "idle")) with true
      by by destruct Hs as [-> | ->].
    unfold agent_task_cooldown_reason, agent_project_cooldown_reason, failure_backoff_reason.
    simpl. rewrite remaining_until by done. split; [done|]. by destruct (until _ _ _ _).
Qed.

Lemma cooldown_windows_witness :
  let o := mkOutcome 1 "failure" "1690000000" (Some (dec 1700000000)) None None None None None
             None in
  let d := empty_db <| projects := {[ 1%Z := mkProject "/p" "p" true GitOff None None None false
             None None None None None None None 0 "1" "1" ]} |> in
  exists p', projects (record_run_outcome o d).2 !! 1%Z = Some p' /\
    agent_task_cooldown_reason p' NextTodo 1700000100 60 300
    = Some "failure backoff active for 200s".
Proof.
  intros o d.
  destruct (cooldown_windows o d 1 (record_run_outcome o d).2 _ 1700000000 1700000100 60 300
    (result_is _ _ eq_refl) eq_refl) as (p' & Hp' & Hfail & _).
  1: vm_compute; discriminate.
  1: reflexivity.
  1: vm_compute; split; discriminate.
  exists p'. split; [exact Hp'|].
  destruct (Hfail (or_introl eq_refl)) as [Hall _].
  rewrite (Hall NextTodo); [vm_compute; reflexivity|eexists; vm_compute; reflexivity].
Defined.
