(* ===== verification/WorldScenario.v ===== *)
(** Lemmas on the operations of board and registry, and worlds for witnesses. *)
From S2P Require Import Prelude Sql AgentTypes Store Footprint Leases Workers Sessions.
From S2P Require Import Journals Retire Projects Text Markers TaskNotes Metadata TaskEntry.
From S2P Require Import Files Board BoardTree Coordination World Surroundings Git Manifest.
From S2P Require Import Projection GitStart SnapshotLoad Guards Workflow Completion GitRepair.
From S2P Require Import GitQuiet Registry Footprint JournalInv RegistryInv.

Section World.
Context (E : Surroundings).

Lemma reconcile_keeps_tree pid now : keeps_tree (reconcile_exited_project_workers_with E pid now).
Proof. unfold reconcile_exited_project_workers_with, abandon_exited_worker. keep_tree. Qed.

Lemma intent_keeps_tree pid root session g identity token now :
  keeps_tree (record_completion_intent E pid root session g identity token now).
Proof.
  unfold record_completion_intent. keep_tree.
Qed.

Lemma bind_identity_keeps_tree pid session g identity token now :
  keeps_tree (bind_task_identity pid session g identity token now).
Proof. unfold bind_task_identity. keep_tree. Qed.

(** The guard of a task's journal reads only. *)
Lemma mutation_guard_inv board entry allow proposed w r w' :
  ensure_managed_git_task_mutation_allowed E board entry allow proposed w = (r, w') -> w' = w.
Proof.
  unfold ensure_managed_git_task_mutation_allowed. destruct (_ || _); [by intros [= _ <-]|].
  intros H. wstep H e found w1 Hc; [by apply query_inv in Hc as [-> _]|].
  apply query_inv in Hc as [-> _]. destruct found as [[[pid sid] g]|]; [|by injection H].
  destruct (Finalization.is_terminal _); [by injection H|]. destruct (_ && _); [|by injection H].
  destruct proposed as [c|]; [|by injection H].
  wstep H e bound w2 Hc; [by apply need_inv in Hc as [-> _]|].
  apply need_inv in Hc as [-> _]. by apply ensure_inv in H as [-> _].
Qed.
End World.

(** ** Compare and set *)

Lemma compare_and_set_unchanged pid sid generation u d :
  (compare_and_set_git_finalization pid sid generation u d).1 <> Ok true ->
  (compare_and_set_git_finalization pid sid generation u d).2 = d.
Proof.
  unfold compare_and_set_git_finalization, transaction, txn_try, update_journal.
  destruct (git_finalizations d !! (pid, sid)) as [g|] eqn:Hg; [|done].
  repeat (case_match; simplify_eq/=; try done).
  all: intros _; exfalso.
  all: match goal with H : sql_update _ _ _ _ = _ |- _ => revert H end.
  all: unfold sql_update; rewrite Hg; guards; rewrite bool_decide_true by done; congruence.
Qed.

(** The two outcomes of a compare-and-set of the world: the journal is updated,
    or nothing changed. *)
Lemma compare_and_set_inv pid sid generation u w r w' :
  on_registry (compare_and_set_git_finalization pid sid generation u) w = (r, w') ->
  tree w' = tree w
  /\ ((r = Ok true /\ exists g, git_finalization pid sid (registry w) = Some g
         /\ g_generation g = generation
         /\ git_finalization pid sid (registry w') = Some (updated_journal u g))
      \/ (r <> Ok true /\ registry w' = registry w)).
Proof.
  intros H. apply on_registry_inv in H as (Ht & Hd & Hr). split; [done|].
  destruct (compare_and_set_git_finalization pid sid generation u (registry w)) as [[b|e] d] eqn:Hc;
    cbn [fst snd] in *.
  - destruct Hr as [(a & [= <-] & ->)|(e & ? & _)]; [|done]. destruct b.
    + left. split; [done|]. apply compare_and_set_true in Hc as (g & Hg & Hgen & _ & Hg').
      exists g. unfold git_finalization. rewrite Hd. done.
    + right. split; [done|].
      pose proof (compare_and_set_unchanged pid sid generation u (registry w)) as Hu.
      rewrite Hc in Hu. rewrite Hd. by apply Hu.
  - right. destruct Hr as [(a & ? & _)|(e' & _ & ->)]; [done|]. split; [done|].
    pose proof (compare_and_set_unchanged pid sid generation u (registry w)) as Hu.
    rewrite Hc in Hu. rewrite Hd. by apply Hu.
Qed.

(** ** Recording the intent *)

(** The journal of a task that is being completed: the running owner recorded
    the intent, bound to the task's identity. *)
Definition intent_recorded (state : GitFinalizationState) (pid : Z) (session identity run_token : string)
    (d : db) : Prop :=
  exists g, git_finalization pid session d = Some g /\ g_state g = state
            /\ g_task_identity g = Some identity /\ g_owner_run_token g = Some run_token.

Lemma intent_ok E pid root session g identity run_token now w g' w' :
  record_completion_intent E pid root session g identity run_token now w = (Ok g', w') ->
  g_state g' = Tracking ->
  git_finalization pid session (registry w') = Some g' /\ g_owner_run_token g' = Some run_token.
Proof.
  unfold record_completion_intent. intros H Hst. destruct (decide (g_state g = Working)) as [Hw|Hw].
  - rewrite bool_decide_true in H by done.
    wok H branch w1 Hc. wstill Hc.
    wok H u1 w2 Hc1. apply ensure_inv in Hc1 as [-> _].
    wok H starting w2 Hc2. apply need_inv in Hc2 as [-> _].
    wok H tip w2 Hc3. wstill Hc3.
    wok H ancestor w2 Hc4. wstill Hc4.
    wok H u2 w2 Hc5. apply ensure_inv in Hc5 as [-> _].
    wok H manifest w2 Hc6. wstill Hc6.
    wok H intended w2 Hc7.
    wok H u3 w3 Hc8. apply ensure_inv in Hc8 as [-> [[-> _]|[_ ?]]]; [|done].
    apply compare_and_set_inv in Hc7 as (_ & [(_ & g0 & _ & _ & Hg0)|(? & _)]); [|done].
    wok H found w4 Hc9. apply query_inv in Hc9 as [-> [= ->]].
    apply need_inv in H as [-> [(g1 & Hg1 & [= ->])|[_ ?]]]; [|done].
    rewrite Hg0 in Hg1. injection Hg1 as <-. done.
  - rewrite (bool_decide_false (g_state g = Working)) in H by done.
    destruct (decide (g_state g = Tracking)) as [Ht|Ht].
    + rewrite bool_decide_true in H by done.
      wok H owned w2 Hc7.
      wok H u3 w3 Hc8. apply ensure_inv in Hc8 as [-> [[-> _]|[_ ?]]]; [|done].
      apply compare_and_set_inv in Hc7 as (_ & [(_ & g0 & _ & _ & Hg0)|(? & _)]); [|done].
      wok H found w4 Hc9. apply query_inv in Hc9 as [-> [= ->]].
      apply need_inv in H as [-> [(g1 & Hg1 & [= ->])|[_ ?]]]; [|done].
      rewrite Hg0 in Hg1. injection Hg1 as <-. done.
    + rewrite bool_decide_false in H by done. injection H as <- <-. done.
Qed.

(** A decoder that reads one encoding, of a task named [u] after [pre]. *)
Definition sample_json (t : text) : option Metadata :=
  if t == str "u" then Some (mkMetadata (str "u") [str "pre"] default_scope [])
  else if t == str "pre" then Some (mkMetadata (str "pre") [] default_scope []) else None.

Definition markdown (title : string) (tasks : list text) : node :=
  File (str title ++ [10%N; 10%N] ++ mjoin ((fun t => str "- " ++ t ++ [10%N]) <$> tasks)) false.

Definition offered : text := str "Fix the parser".
(** The task bound, linked and noted as completed. *)
Definition noted : text := str "Fix the parser COMPLETED 2026-01-02: works codex:session".

(** ** A repository

    The commit [abc] offers the task; it is noted in the staged tree and done in
    the sealed one. *)

Definition board_file (name title : string) (tasks : list text) : string * node :=
  (name, markdown title tasks).
Definition sample_files (reference : text) : string * node :=
  if reference == str "sealed" then board_file "done.md" "# Done" [noted]
  else if reference == str "index" then board_file "doing.md" "# Doing" [noted]
  else board_file "todo.md" "# Todo" [offered].

Definition bytes_of (n : node) : text := match n with File c _ => c | Dir _ => [] end.
Definition tasks_path (name : string) : text := str "tasks/" ++ str name.

(** The files of the listed board, in a private worktree. *)
Definition sample_checkout (listed : text) : node :=
  let reference := if bool_decide (listed = tasks_path "done.md" ++ [0%N]) then str "sealed"
                   else if bool_decide (listed = tasks_path "doing.md" ++ [0%N]) then str "index"
                   else str "abc" in
  let '(name, file) := sample_files reference in
  Dir {[ str "tasks" := Dir {[ str name := file ]} ]}.

(** The tree written from a private worktree: sealed when a task is done. *)
Definition sample_written (files : option node) : text :=
  match files with
  | None => str "index"
  | Some files =>
      match get [str "tasks"; str "done.md"] files with
      | Some (File c _) => if bool_decide (67%N ∈ c) then str "sealed" else str "sanitized"
      | _ => str "sanitized"
      end
  end.

Definition sample_lists (reference : text) (name_only : bool) : text :=
  let p := tasks_path (sample_files reference).1 in
  (if name_only then p else str "100644 blob 1" ++ [9%N] ++ p) ++ [0%N].

Definition argument (n : nat) (c : git_command) : text := default [] (g_args c !! n).

Definition sample_stdout (c : git_command) : option text :=
  let command word := argument 0 c == str word in
  if command "symbolic-ref" then Some (str "refs/heads/main")
  else if command "rev-parse" then
    if argument 1 c == str "--verify" then Some (str "abc") else None
  else if command "write-tree" then Some (sample_written (g_worktree c))
  else if command "ls-tree" then
    if argument 1 c == str "-r" then
      let name_only := argument 3 c == str "--name-only" in
      Some (sample_lists (argument (if name_only then 4 else 3) c) name_only)
    else Some (str "scope")
  else if command "cat-file" then
    Some (bytes_of (sample_files (default [] (fst <$> split_once (str ":") (argument 2 c)))).2)
  else if command "diff" then
    if argument 2 c == str "--name-only" then Some (str "src/a" ++ [0%N]) else Some (str "+b")
  else Some (str "id").

Definition sample_git : git_oracle := fun _ c =>
  Some match sample_stdout c with
       | Some out => mkOutput (Some 0%Z) (Some out) (sample_checkout (default [] (g_input c)))
       | None => mkOutput (Some 128%Z) (Some []) (Dir ∅)
       end.

(** Two baselines, before and after sealing. *)
Definition clean_baseline : AgentGitWorktreeBaseline :=
  default_baseline <| initial_index_tree := Some (str "index") |>.
Definition sealed : AgentGitWorktreeBaseline :=
  clean_baseline <| staged_non_task_patch_ids := Some {[ str "src/a" := str "id" ]} |>
    <| staged_index_tree := Some (str "sealed") |> <| manifest_parent_head := Some (str "abc") |>.
Definition sample_print (j : json) : text :=
  if negb (is_null (json_get (str "staged_index_tree") j ≫= as_text)) then str "sealed" else str "clean".
Definition sample_parse (t : text) : option json :=
  if t == str "clean" then Some (baseline_json clean_baseline)
  else if t == str "sealed" then Some (baseline_json sealed) else None.

Definition sample_surroundings : Surroundings :=
  mkSurroundings (mkUnicodeCase (fun c => [c]) (fun _ => false) (fun _ => false))
    Metadata.id sample_json sample_print sample_parse (fun _ => true) (fun _ _ _ _ => [])
    (fun t => t) (fun _ _ => None) sample_git true None (fun _ => false) (fun _ => 1010%Z) 1
    (fun _ => Some false) (fun _ => Some true) (fun _ _ _ => true).

Definition sample_tree (todo doing done : list text) : node :=
  Dir {[ str "p" := Dir {[ str "tasks" := Dir
    (list_to_map [(Status.filename Todo, markdown "# Todo" todo);
                  (Status.filename Doing, markdown "# Doing" doing);
                  (Status.filename Done, markdown "# Done" done);
                  (Status.filename Backlog, markdown "# Backlog" [])]) ]} ]}.

Definition sample_root : path := [str "p"].
Definition sample_tasks_dir : path := get_tasks_dir sample_root.
Definition sample_context : AutomatedAgentChildContext := mkChild 1 token.
Definition sample_clock : CancellationClock := mkClock "2000" "2000" "2300" "clt-task-cancellation-1-1".

(** The run's conversation is live and owns its Working journal; the task waits
    in Todo. *)
Definition before_start : world := mkWorld (sample_tree [offered] [] []) (at_stage running) 0.

Definition offered_identity : string := utf8 (default [] (durable_task_identity offered)).

Definition bound : list command :=
  running ++ [CompareAndSetJournal 1 sid 0
    (Journals.mkUpdate Working (Some offered_identity) None true (Some token) None None "1004")].
Definition before_done : world := mkWorld (sample_tree [] [noted] []) (at_stage bound) 0.

(** The task is provisionally done. *)
Definition committing : list command :=
  bound ++ [CompareAndSetJournal 1 sid 1 (Journals.mkUpdate Tracking None None true (Some token) None None "1005");
            CompareAndSetJournal 1 sid 2
              (Journals.mkUpdate CommitPending None None true (Some token) None None "1006")].
Definition provisional : world := mkWorld (sample_tree [] [] [noted]) (at_stage committing) 0.

(** The worker finished before the task was completed. *)
Definition orphaned : list command :=
  bound ++ [ClearRunningControl 1 sid (Some token); FinalizeWorker finalization].
Definition abandoned_task : world := mkWorld (sample_tree [] [noted] []) (at_stage orphaned) 0.

(** A task that depends on a completed one. *)
Definition linked (name : string) (words : string) : text :=
  str words ++ str " " ++ PREFIX ++ str name ++ SUFFIX.
Definition dependent : text := linked "u" "Then this".
Definition prerequisite : text := linked "pre" "First this COMPLETED 2026-01-02: works" ++ str " codex:session".
Definition chained (cs : list command) : world :=
  mkWorld (sample_tree [dependent] [] [prerequisite]) (at_stage cs) 0.

(** ** A finalization

    The agent committed the sealed tree as [c1] on the frozen parent; the journal
    waits for it. *)
Definition sealing : list command :=
  bound ++ [CompareAndSetJournal 1 sid 1
              (Journals.mkUpdate Tracking None (Some "sealed") true (Some token) None None "1005");
            CompareAndSetJournal 1 sid 2
              (Journals.mkUpdate CommitPending None None true (Some token) None None "1006")].
Definition sealed_world : world := mkWorld (sample_tree [] [] [noted]) (at_stage sealing) 0.

Definition agent_line (separator : N) (fields : list string) : text := join [separator] (str <$> fields).

Definition committed_show (c : git_command) : text :=
  if argument 2 c == str "--format=%P" then str "abc"
  else if argument 2 c == str "--format=%(trailers:key=CLT-Task,valueonly)" then str "codex:session"
  else agent_line 0 ["CLT Agent"; "clt-agent@localhost"; "CLT Agent"; "clt-agent@localhost"].

(** The board of the commit is the sealed one. *)
Definition committed_reference (t : text) : text := if t == str "c1" then str "sealed" else t.

Definition committed_stdout (c : git_command) : option text :=
  let command word := argument 0 c == str word in
  if command "symbolic-ref" then Some (str "refs/heads/main")
  else if command "rev-parse" then
    Some (if ends_with (str "^{tree}") (argument 2 c) then str "sealed" else str "c1")
  else if command "rev-list" then
    Some (if argument 2 c == str "--reverse" then str "c1" else agent_line 10 ["c1"; "abc"])
  else if command "show" then Some (committed_show c)
  else if command "ls-tree" then Some (sample_lists (committed_reference (argument 3 c)) false)
  else if command "cat-file" then
    Some (bytes_of (sample_files (committed_reference
            (default [] (fst <$> split_once (str ":") (argument 2 c))))).2)
  else Some [].

Definition committed_git : git_oracle := fun _ c =>
  Some (mkOutput (Some 0%Z) (committed_stdout c) (Dir ∅)).

Definition committed_surroundings : Surroundings :=
  mkSurroundings (mkUnicodeCase (fun c => [c]) (fun _ => false) (fun _ => false))
    Metadata.id sample_json sample_print sample_parse (fun _ => true) (fun _ _ _ _ => [])
    (fun t => t) (fun _ _ => None) committed_git true None (fun _ => false) (fun _ => 1010%Z) 1
    (fun _ => Some false) (fun _ => Some true) (fun _ _ _ => true).

Definition sample_repair : RepairSurroundings :=
  mkRepair false (fun _ => true) (fun _ => true) [str "checkout"] (fun _ => true).
