(* ===== verification/SupervisorProps.v ===== *)
(** Properties of the supervisor: what it may change, how often it reviews and
    retries, and whom a retry may be given to. *)
From S2P Require Import Prelude Sql AgentTypes Runs Sessions Journals Retire Projects.
From S2P Require Import Text Models Markers TaskNotes Metadata TaskEntry Files Board BoardTree.
From S2P Require Import World Surroundings Git Manifest Scheduling SnapshotLoad Guards Workflow.
From S2P Require Import GitRetire GitFinalize Supervisor GitQuiet.
From S2P Require Import Registry RegistryInv WorldScenario Store.

(** ** What only reads *)

Lemma quiet_wconcat {A B} (f : A -> wio (list B)) l :
  (forall a, keeps_registry (f a)) -> keeps_registry (wconcat f l).
Proof.
  intros Hf. induction l as [|a l IH]; [by intros w|]. cbn [wconcat].
  apply keeps_registry_bind; [done|]. intros ?. by apply keeps_registry_bind.
Qed.
#[local] Hint Resolve quiet_wconcat : registry_db.

Section Quiet.
Context (E : Surroundings).
Local Notation pending := (pending_migration_version E).

Lemma quiet_admission U fj up p e gs board : keeps_registry (admission U fj up p e gs board).
Proof. unfold admission, load_with_context, load_runtime, load_runtime_from_store. keep_registry. Qed.
#[local] Hint Resolve quiet_admission : registry_db.
Lemma quiet_ready U fj up p e gs ej u5 root :
  keeps_registry (ready_tasks U fj up p e gs ej u5 root).
Proof. unfold ready_tasks. keep_registry. Qed.
#[local] Hint Resolve quiet_ready : registry_db.

Lemma quiet_can_wait p : keeps_registry (queued_blockers_can_wait E p).
Proof. unfold queued_blockers_can_wait. keep_registry. Qed.
Lemma quiet_repeated p : keeps_registry (repeated_failure_candidates E p).
Proof. unfold repeated_failure_candidates. keep_registry. Qed.
#[local] Hint Resolve quiet_repeated : registry_db.
Lemma quiet_sealed_candidate p j : keeps_registry (sealed_candidate E p j).
Proof. unfold sealed_candidate. keep_registry. Qed.
#[local] Hint Resolve quiet_sealed_candidate : registry_db.
Lemma quiet_candidates p : keeps_registry (review_candidates E p).
Proof. unfold review_candidates. keep_registry. Qed.
#[local] Hint Resolve quiet_candidates : registry_db.
Lemma quiet_idle pid session : keeps_registry (retry_session_is_idle pid session).
Proof. unfold retry_session_is_idle. keep_registry. Qed.
#[local] Hint Resolve quiet_idle : registry_db.
Lemma quiet_seal_evidence p j : keeps_registry (seal_evidence E p j).
Proof. unfold seal_evidence. keep_registry. Qed.
#[local] Hint Resolve quiet_seal_evidence : registry_db.
Lemma quiet_eligibility pid session : keeps_registry (eligibility_json pid session).
Proof. unfold eligibility_json. keep_registry. Qed.
#[local] Hint Resolve quiet_eligibility : registry_db.
Lemma quiet_evidence p : keeps_registry (review_evidence E p).
Proof. unfold review_evidence. keep_registry. Qed.
#[local] Hint Resolve quiet_evidence : registry_db.
Lemma quiet_approved p sealed r session : keeps_registry (approved_retry E p sealed r session).
Proof. unfold approved_retry. keep_registry. Qed.
Lemma quiet_waits p r : keeps_registry (waits_in_doing E p r).
Proof. unfold waits_in_doing. keep_registry. Qed.
Lemma quiet_owned pid previous : keeps_registry (retry_is_owned pid previous).
Proof. unfold retry_is_owned. keep_registry. Qed.
Lemma quiet_free pid session : keeps_registry (conversation_is_free pid session).
Proof. unfold conversation_is_free. keep_registry. Qed.
Lemma quiet_note task session note error : keeps_registry (with_note task session note error).
Proof. unfold with_note. keep_registry. Qed.
#[local] Hint Resolve quiet_note : registry_db.
Lemma quiet_date today : keeps_registry (local_date today).
Proof. done. Qed.
#[local] Hint Resolve quiet_date : registry_db.
Lemma quiet_block today p session status : keeps_registry (block_failed_retry E today p session status).
Proof. unfold block_failed_retry. keep_registry. Qed.
End Quiet.
#[export] Hint Resolve quiet_ready quiet_can_wait quiet_repeated quiet_candidates quiet_idle quiet_evidence
  quiet_approved quiet_waits quiet_owned quiet_free quiet_note quiet_date quiet_block : registry_db.

(** ** What the supervisor may change *)

(** Only the reviews differ. *)
Definition only_reviews_differ (d d' : db) : Prop :=
  d' = d <| supervisor_reviews := supervisor_reviews d' |>.

Definition within_retries (d : db) : Prop :=
  forall pid r, supervisor_reviews d !! pid = Some r -> (rv_retries r <= MAX_RETRIES)%N.

(** The invariant of one operation: it started from [d0], possibly with the retries
    of its reviews within their bound. *)
Definition supervised (bounded : Prop) (d0 d : db) : Prop :=
  only_reviews_differ d0 d /\ (bounded -> within_retries d).

Section Budget.
Context (E : Surroundings) (decision_from_json : text -> option Decision) (today : nat -> text).
Context (bounded : Prop) (d0 : db).
Local Notation keeps := (maintains (supervised bounded d0)).
Local Notation any := (fun _ => True).

Definition few_retries (r : SupervisorReview) : Prop := bounded -> (rv_retries r <= MAX_RETRIES)%N.

Lemma save_keeps pid r : few_retries r -> keeps any (save_review pid r).
Proof.
  intros Hr. unfold save_review. apply maintains_registry. intros d [Hd Hb].
  unfold save_supervisor_review, autocommit. destruct (project_exists d pid); [|done]. cbn. split.
  - unfold only_reviews_differ in *. rewrite Hd. done.
  - intros Hbounded pid' r'. cbn. destruct (decide (pid' = pid)) as [->|Hne].
    + rewrite lookup_insert_eq. intros [= <-]. by apply Hr.
    + rewrite lookup_insert_ne by done. by apply Hb.
Qed.

Lemma clear_keeps pid : keeps any (clear_review E pid).
Proof.
  unfold clear_review. apply maintains_registry. intros d [Hd Hb]. unfold clear_supervisor_review.
  destruct (supervisor_tables_missing _); [done|]. cbn. split.
  - unfold only_reviews_differ in *. rewrite Hd. done.
  - intros Hbounded pid' r' H. cbn in H. apply lookup_delete_Some in H as [_ H]. by apply (Hb Hbounded pid').
Qed.

Definition affordable (o : option SupervisorReview) : Prop :=
  forall r, o = Some r -> few_retries r.

Lemma review_of_keeps pid : keeps affordable (review_of E pid).
Proof.
  eapply maintains_weaken; [apply maintains_query|]. intros o (d & [_ Hb] & ->) r.
  unfold supervisor_review. destruct (supervisor_tables_missing _); [done|]. intros Hr Hbounded.
  by apply (Hb Hbounded pid).
Qed.
#[local] Hint Resolve save_keeps clear_keeps review_of_keeps : maintains_db.
#[local] Hint Extern 1 (few_retries _) => solve [unfold affordable, few_retries in *; cbn in *; eauto] : maintains_db.

Lemma pass_keeps pid previous : keeps any (pass_gate E pid previous).
Proof. unfold pass_gate. maintain. Qed.
#[local] Hint Resolve pass_keeps : maintains_db.

Lemma gate_review_keeps p r : few_retries r -> keeps any (gate_on_review E p r).
Proof. intros Hr. unfold gate_on_review. maintain. Qed.
#[local] Hint Resolve gate_review_keeps : maintains_db.
Lemma gate_evidence_keeps p previous : affordable previous -> keeps any (gate_on_evidence E p previous).
Proof. intros Hp. unfold gate_on_evidence. maintain. Qed.
#[local] Hint Resolve gate_evidence_keeps : maintains_db.
Lemma gate_retry_keeps p sealed blocked previous :
  affordable previous -> keeps any (gate_retry E p sealed blocked previous).
Proof. intros Hp. unfold gate_retry. maintain. Qed.
#[local] Hint Resolve gate_retry_keeps : maintains_db.
Lemma gate_keeps p blocked : keeps any (gate E p blocked).
Proof. unfold gate. maintain. Qed.

Lemma begin_keeps p : keeps any (begin_review E p).
Proof.
  unfold begin_review. eapply maintains_bind; [maintain_first|cbv beta; intros current _].
  eapply maintains_bind; [apply review_of_keeps|cbv beta; intros old Hold].
  assert (few_retries (new_review current old)).
  { destruct old as [r|]; [by apply (Hold r)|done]. }
  maintain.
Qed.

Lemma defer_keeps p task d r :
  few_retries r -> keeps any (defer_wait E today p task d r).
Proof. intros Hr. unfold defer_wait. maintain. Qed.
#[local] Hint Resolve defer_keeps : maintains_db.

Lemma approve_keeps p task r :
  keeps few_retries (approve_retry E p task r).
Proof.
  unfold approve_retry. eapply maintains_bind; [apply maintains_ensure|cbv beta]. intros [] Hlt.
  apply N.ltb_lt in Hlt. maintain. apply maintains_ret. intros _. cbn. lia.
Qed.

Lemma prepare_keeps p : keeps any (prepare_retry E today p).
Proof. unfold prepare_retry. maintain. Qed.
Lemma hold_keeps pid error : keeps any (hold_error E pid error).
Proof. unfold hold_error. maintain. Qed.
Lemma queue_keeps p old : affordable old -> keeps any (queue_review E p old).
Proof.
  intros Hold. unfold queue_review.
  assert (forall evidence, few_retries (pending_review evidence old)).
  { intros ?. destruct old as [r|]; [by apply (Hold r)|done]. }
  maintain.
Qed.
#[local] Hint Resolve queue_keeps : maintains_db.
Lemma after_keeps p selection status : keeps any (after_task_run E today p selection status).
Proof. unfold after_task_run. maintain. Qed.
Lemma chosen_keeps (b : bool) p task r :
  few_retries r ->
  keeps few_retries (if b then approve_retry E p task r else wret r).
Proof. intros Hr. destruct b; [apply approve_keeps|by apply maintains_ret]. Qed.
#[local] Hint Resolve chosen_keeps : maintains_db.
Lemma finish_keeps p answer : keeps any (finish_review E decision_from_json today p answer).
Proof. unfold finish_review. maintain. Qed.
End Budget.

(** ** Sequences of operations *)

Inductive supervisor_operation :=
| AskGate (p : Z * project_row) (has_blocked : bool)
| Begin (p : Z * project_row)
| Finish (p : Z * project_row) (answer : option text)
| Prepare (p : Z * project_row)
| HoldFor (pid : Z) (error : string)
| AfterRun (p : Z * project_row) (selection : AgentTaskSelection) (status : string).

Section Operations.
Context (E : Surroundings) (decision_from_json : text -> option Decision) (today : nat -> text).

Definition perform (w : world) (op : supervisor_operation) : world :=
  match op with
  | AskGate p has_blocked => (gate E p has_blocked w).2
  | Begin p => (begin_review E p w).2
  | Finish p answer => (finish_review E decision_from_json today p answer w).2
  | Prepare p => (prepare_retry E today p w).2
  | HoldFor pid error => (hold_error E pid error w).2
  | AfterRun p selection status => (after_task_run E today p selection status w).2
  end.

Lemma perform_supervised bounded d0 w op :
  supervised bounded d0 (registry w) -> supervised bounded d0 (registry (perform w op)).
Proof.
  intros Hw.
  destruct op; cbn [perform];
    [apply (gate_keeps E bounded d0)|apply (begin_keeps E bounded d0)|apply (finish_keeps E decision_from_json today bounded d0)
    |apply (prepare_keeps E today bounded d0)|apply (hold_keeps E bounded d0)|apply (after_keeps E today bounded d0)]; done.
Qed.

Lemma all_supervised bounded d0 ops w :
  supervised bounded d0 (registry w) -> supervised bounded d0 (registry (foldl perform w ops)).
Proof. revert w. induction ops as [|op ops IH]; intros w Hw; [done|]. by apply IH, perform_supervised. Qed.
End Operations.

(** ** Whom a retry is given to *)

(** Nobody runs, stops or has taken over the conversation. *)
Definition conversation_idle (pid : Z) (session : text) (d : db) : Prop :=
  session_control pid (utf8 session) d = Ok None
  \/ exists c, session_control pid (utf8 session) d = Ok (Some c) /\ sc_state c = ResumeRequested
       /\ sc_child_pid c = None /\ sc_interactive_holder c = None /\ sc_interactive_launch_token c = None.

Lemma idle_inv pid session w b w' :
  retry_session_is_idle pid session w = (Ok b, w') ->
  w' = w /\ (b = true -> conversation_idle pid session (registry w)).
Proof.
  unfold retry_session_is_idle. intros H. wok H control w1 Hc.
  apply query_res_inv in Hc as [-> [(a & Ha & [= ->])|(e & _ & [=])]]. injection H as <- <-. split; [done|].
  destruct a as [c|]; [|by left]. rewrite !andb_true_iff. intros [[[Hst Hpid] Hholder] Hlaunch].
  right. exists c. apply bool_decide_eq_true in Hst.
  destruct (sc_child_pid c), (sc_interactive_holder c), (sc_interactive_launch_token c); done.
Qed.

Section Gate.
Context (E : Surroundings).

(** The decision that a retry rests on. *)
Definition retry_approved (p : Z * project_row) (session : text) (d : db) : Prop :=
  exists r, supervisor_review (pending_migration_version E) p.1 d = Some r /\ rv_state r = RETRY
    /\ of_utf8 <$> rv_retry_session r = Some session /\ conversation_idle p.1 session d.

Lemma approved_inv p sealed r s w g w' :
  approved_retry E p sealed r s w = (Ok (Some g), w') -> forall session, g = RetryGate session -> session = s.
Proof.
  unfold approved_retry. intros H session ->. wok H links w1 Hl.
  destruct links as [|[status task] [|? ?]]; [done| |done].
  wok H available w2 Ha. destruct (negb available || _); [done|]. destruct (negb (can_be_reviewed task)); [done|].
  destruct sealed; [|injection H as H _; by simplify_eq]. wok H current w3 Hc.
  injection H as H _. destruct (_ =! _); by simplify_eq.
Qed.

Lemma gate_on_evidence_inv p previous session w w' :
  gate_on_evidence E p previous w = (Ok (RetryGate session), w') ->
  exists r, previous = Some r /\ rv_state r = RETRY /\ of_utf8 <$> rv_retry_session r = Some session.
Proof.
  unfold gate_on_evidence. intros H. wok H current w1 Hc. destruct previous as [r|]; [|done].
  destruct (_ == _); [|done]. unfold gate_on_review in H. destruct (rv_state r == RETRY) eqn:Hst.
  - apply bool_decide_eq_true in Hst. exists r. split_and!; [done..|].
    destruct (rv_retry_session r); injection H as H _; by simplify_eq.
  - wok H upgrade w2 Hu. destruct upgrade; [by wok H u w3 Hs|]. destruct (_ || _); [done|].
    by destruct (_ && _).
Qed.

Lemma gate_retry_inv p sealed blocked previous session w w' :
  gate_retry E p sealed blocked previous w = (Ok (RetryGate session), w') ->
  exists r, previous = Some r /\ rv_state r = RETRY /\ of_utf8 <$> rv_retry_session r = Some session.
Proof.
  unfold gate_retry. intros H. destruct previous as [r|]; [|by eapply gate_on_evidence_inv].
  destruct (rv_state r == RETRY) eqn:Hst; cbn [negb] in H; [|by eapply gate_on_evidence_inv].
  apply bool_decide_eq_true in Hst. wok H approved w1 Ha. destruct approved as [g|].
  - injection H as Hg <-. subst g. exists r. split_and!; [done..|]. destruct (rv_retry_session r) as [s|]; [|done].
    by rewrite (approved_inv _ _ _ _ _ _ _ Ha session eq_refl).
  - destruct blocked; [by eapply gate_on_evidence_inv|]. by wok H u w2 Hc.
Qed.
End Gate.

(** Whatever the supervisor does, in any order and whether an operation succeeds or fails, the registry differs only in the reviews: leases, workers, conversations, stop requests and managed Git journals are as they were. *)
Theorem supervisor_only_writes_reviews E decision_from_json today ops w :
  exists reviews, registry (foldl (perform E decision_from_json today) w ops)
                  = (registry w) <| supervisor_reviews := reviews |>.
Proof.
  destruct (all_supervised E decision_from_json today False (registry w) ops w) as [Hd _]; [|by eexists].
  split; [|done]. unfold only_reviews_differ. by destruct (registry w).
Qed.

(** C25: The supervisor's retries are bounded: starting from reviews that used at most two retries, no sequence of its operations leaves a review that used more. *)
Theorem supervisor_retries_bounded E decision_from_json today ops w :
  within_retries (registry w) ->
  within_retries (registry (foldl (perform E decision_from_json today) w ops)).
Proof.
  intros Hw. apply (all_supervised E decision_from_json today True (registry w) ops w); [|done]. split; [|done].
  unfold only_reviews_differ. by destruct (registry w).
Qed.

(** The gate lets a retry through only for a supervisor that is on, for the conversation that a saved decision approved, and only while nobody runs that conversation, has stopped it or has taken it over. *)
Theorem gate_retries_idle_approved E p has_blocked w session w' :
  gate E p has_blocked w = (Ok (RetryGate session), w') ->
  ss_enabled (supervisor_settings (pending_migration_version E) (registry w)) = true
  /\ retry_approved E p session (registry w).
Proof.
  unfold gate. intros H. wok H settings w1 Hs. apply query_inv in Hs as [-> [= ->]].
  destruct (ss_enabled _) eqn:Hon; cbn [negb] in H; [|done]. split; [done|].
  wok H is_sealed w1 Hs. apply query_inv in Hs as [-> _].
  wok H failing w1 Hf. wquiet Hf Hr1. cbv zeta in H.
  wok H blocked w2 Hb. wquiet Hb Hr2.
  wok H previous w3 Hp. apply query_inv in Hp as [-> [= Hprev]].
  wok H can_wait w3 Hc. wquiet Hc Hr3. destruct can_wait.
  { unfold pass_gate in H. by wok H u w4 Hu. }
  wok H owned w4 Ho. destruct owned; [done|].
  destruct (negb blocked && _).
  { unfold pass_gate in H. by wok H u w5 Hu. }
  apply gate_retry_inv in H as (r & Hr & Hst & Hsession). exists r. rewrite Hr2, Hr1 in Hprev.
  split_and!; [by rewrite <- Hprev|done|done|].
  unfold retry_is_owned in Ho. subst previous. rewrite Hr in Ho. rewrite Hst in Ho. cbn in Ho.
  destruct (rv_retry_session r) as [s|]; [|done]. injection Hsession as <-.
  wok Ho idle w5 Hi. apply idle_inv in Hi as [-> Hi]. injection Ho as Ho <-. destruct idle; [|done].
  specialize (Hi eq_refl). by rewrite Hr3, Hr2, Hr1 in Hi.
Qed.

(** ** Witnesses *)

Definition review_approved : SupervisorReview :=
  mkReview "evidence" RETRY 1 1 (Some (mkDecision Retry 1 "reason" "action")) (Some sid) None.
Definition supervisor_on : SupervisorSettings := mkSupervisorSettings true None None (Some "high") false.
Definition retried_task : text := str "Fix the parser codex:session".

Definition reviewed : list command :=
  leased ++ [SetSupervisorSettings None supervisor_on; SaveReview 1 review_approved].
Definition reviewed_world : world := mkWorld (sample_tree [retried_task] [] []) (at_stage reviewed) 0.
Definition reviewed_project : Z * project_row :=
  (1%Z, new_project "/p" "p" "900").

Definition sample_decision (t : text) : option Decision := Some (mkDecision Wait 1 "reason" "action").
Definition sample_day (n : nat) : text := str "2026-01-02".

Definition gated : res refusal Gate * world :=
  gate sample_surroundings reviewed_project true reviewed_world.

Lemma gate_retries_idle_approved_witness :
  ss_enabled (supervisor_settings None (registry reviewed_world)) = true
  /\ retry_approved sample_surroundings reviewed_project (str "session") (registry reviewed_world).
Proof.
  assert (H : gated = (Ok (RetryGate (str "session")), gated.2)) by (vm_compute; reflexivity).
  exact (gate_retries_idle_approved sample_surroundings reviewed_project true reviewed_world
           (str "session") gated.2 H).
Defined.

Lemma supervisor_retries_bounded_witness :
  within_retries (registry (foldl (perform sample_surroundings sample_decision sample_day)
    reviewed_world [Begin reviewed_project; HoldFor 1 "stalled"])).
Proof.
  apply (supervisor_retries_bounded sample_surroundings sample_decision sample_day
           [Begin reviewed_project; HoldFor 1 "stalled"] reviewed_world).
  assert (Hrows : supervisor_reviews (registry reviewed_world) = {[ 1%Z := review_approved ]})
    by (vm_compute; reflexivity).
  intros pid r. rewrite Hrows. intros [_ <-]%lookup_singleton_Some. done.
Defined.
