(* ===== verification/SnapshotProps.v ===== *)
(** Descending through nested boards ends, and what a task's admission says
    about its prerequisites' proof. *)
From S2P Require Import Prelude Sql AgentTypes Store Sessions Journals Retire Projects.
From S2P Require Import Text TextLemmas Markers TaskNotes Metadata TaskEntry Files.
From S2P Require Import Files.
From S2P Require Import Board BoardTree TreeLemmas World Coordination CoordGraph.
From S2P Require Import CoordinationProps.
From S2P Require Import World Surroundings SnapshotLoad Guards Workflow Completion WorldScenario.
From S2P Require Import WorldScenario.
From S2P Require Import RegistryInv.

(** ** Descents end *)

Lemma ends_concat_io {A B} (f : A -> io (list B)) (l : list A) s :
  (forall a s', a ∈ l -> grows s s' -> ends (f a) s') -> ends (concat_io f l) s.
Proof.
  revert s. induction l as [|a l IH]; intros s Hf; [apply ends_ret|]. cbn [concat_io].
  destruct (Hf a s) as [H1 H2]; [by left|done|]. apply ends_bind; [done|].
  intros bs s' Hs'. rewrite Hs' in H2. apply ends_bind; [|intros; apply ends_ret].
  apply IH. intros a' s'' Ha' Hg. apply Hf; [by right|]. by etrans.
Qed.

Lemma ends_entries {B} U board st D s (k : list TaskEntry -> io B) :
  bounded D s -> board_has_any_status_store board s = true ->
  (forall entries s', bounded D s' ->
     (forall task q, task ∈ entries -> subtask_board task = Some q ->
        board_has_any_status_store q s' = true /\ length board < length q) -> ends (k entries) s') ->
  ends (do! entries := read_task_entries U board st in k entries) s.
Proof.
  intros HD Hb Hk. apply ends_bind.
  { split; [apply no_depth_read_task_entries|]. by apply read_task_entries_keeps. }
  intros entries s1 Hread. pose proof (read_task_entries_keeps U board st s Hb) as Hg.
  unfold only_grows in Hg. rewrite Hread in Hg. cbn [snd] in Hg.
  apply Hk; [by apply (grows_bounded _ _ Hg)|]. intros task q Hin Hq.
  by eapply read_task_entries_below.
Qed.

Lemma read_archived_ends U board s : ends (read_archived_task_entries U board) s.
Proof.
  assert (Hr : reads (read_archived_task_entries U board)).
  { apply reads_bind; [apply reads_look|]. intros [[p|p]|];
      [apply reads_markdown|apply reads_directory|apply reads_ret]. }
  split; [|by rewrite Hr].
  apply no_depth_bind; [done|]. intros [[p|p]|].
  - unfold read_markdown_entries. eauto with io_db.
  - apply no_depth_bind; [apply no_depth_directory_task_paths|]. intros ps.
    apply no_depth_map_io, no_depth_directory_entry.
  - apply no_depth_ret.
Qed.

Lemma collect_ends U fj up fuel board D s :
  bounded D s -> board_has_any_status_store board s = true -> D < fuel + length board ->
  ends (collect U fj up fuel board) s.
Proof.
  revert board s. induction fuel as [|fuel IH]; intros board s HD Hb Hfuel.
  { pose proof (board_in_bounds board D s HD Hb). lia. }
  cbn [collect]. apply ends_bind.
  - apply ends_concat_io. intros st s1 _ Hg.
    apply (ends_entries U board st D);
      [by apply (grows_bounded _ _ Hg)|exact (any_store_grows board s s1 Hg Hb)|].
    intros entries s2 HD2 Hq. apply ends_concat_io. intros [offset task] s3 Hin Hg3.
    apply ends_bind; [|intros; apply ends_ret].
    destruct (subtask_board task) as [q|] eqn:Htask; [|apply ends_ret].
    destruct (Hq task q) as [H1 H2]; [|done|].
    { apply elem_of_lookup_imap in Hin as (i & y & [= _ <-] & Hy). by eapply list_elem_of_lookup_2. }
    apply IH; [by apply (grows_bounded _ _ Hg3)|exact (any_store_grows q s2 s3 Hg3 H1)|lia].
  - intros ts s1 _. apply ends_bind; [apply read_archived_ends|]. intros; apply ends_ret.
Qed.

Lemma session_tasks_ends E fuel board session D s :
  bounded D s -> board_has_any_status_store board s = true -> D < fuel + length board ->
  ends (collect_codex_session_tasks_in_board E fuel board session) s.
Proof.
  revert board s. induction fuel as [|fuel IH]; intros board s HD Hb Hfuel.
  { pose proof (board_in_bounds board D s HD Hb). lia. }
  cbn [collect_codex_session_tasks_in_board]. apply ends_concat_io. intros st s1 _ Hg.
  apply (ends_entries _ board st D);
    [by apply (grows_bounded _ _ Hg)|exact (any_store_grows board s s1 Hg Hb)|].
  intros entries s2 HD2 Hq. apply ends_concat_io. intros task s3 Hin Hg3.
  apply ends_bind; [|intros; apply ends_ret].
  destruct (subtask_board task) as [q|] eqn:Htask; [|apply ends_ret].
  destruct (Hq task q Hin Htask) as [H1 H2].
  apply IH; [by apply (grows_bounded _ _ Hg3)|exact (any_store_grows q s2 s3 Hg3 H1)|lia].
Qed.

(** C7: The searches that descend through boards inside boards (for a conversation's task, for work a manual session claims, for all tasks of a snapshot and for all tasks of a conversation) end on every board that has a store: the depth of the tree bounds the recursion, and on the way the tree only gains missing stores. *)
Theorem nested_boards_are_searched_to_the_end E board session s :
  board_has_any_status_store board s = true ->
  ends (task_for_codex_session_in_board (unicode E) board session) s
  /\ ends (terminal_task_for_codex_session_in_board (unicode E) board session) s
  /\ ends (board_has_manual_task (unicode E) board) s
  /\ ends (board_has_manual_session (unicode E) board session) s
  /\ ends (collect_all (unicode E) (from_json E) (uuid_parses E) board) s
  /\ ends (session_tasks E board session) s.
Proof.
  intros Hb. pose proof (bounded_depth s) as HD.
  assert (Hfuel : depth s < search_fuel s + length board) by (unfold search_fuel; lia).
  split_and!.
  - by apply (session_search_ends _ _ _ _ _ (depth s)).
  - by apply (session_search_ends _ _ _ _ _ (depth s)).
  - apply ends_bind; [by apply (manual_search_ends _ _ _ _ (depth s))|]. intros; apply ends_ret.
  - apply ends_bind; [by apply (manual_search_ends _ _ _ _ (depth s))|]. intros; apply ends_ret.
  - by apply (collect_ends _ _ _ _ _ (depth s)).
  - by apply (session_tasks_ends _ _ _ _ (depth s)).
Qed.

(** ** Prerequisites are proven *)

(** The proof of a conversation's completed task: its journal ended, or no
    managed Git mode was fixed for it. *)
Definition proven (pending : option Z) (pid : Z) (session : text) (d : db) : Prop :=
  match git_finalization pid (utf8 session) d with
  | Some g => Finalization.is_terminal (g_state g) = true
  | None => forall mode, session_git_mode pending pid (utf8 session) d = Some mode -> mode = GitOff
  end.

Lemma proof_wait_none pending pid session d :
  proof_wait pending pid session d = None <-> proven pending pid session d.
Proof.
  unfold proof_wait, proven, journal_wait.
  destruct (git_finalization pid (utf8 session) d) as [g|]; [by destruct (Finalization.is_terminal _)|].
  destruct (session_git_mode pending pid (utf8 session) d) as [mode|]; [|naive_solver].
  destruct (decide (mode = GitOff)) as [->|Hm].
  - rewrite bool_decide_true by done. naive_solver.
  - rewrite bool_decide_false by done. naive_solver.
Qed.

Section Admission.
Context (E : Surroundings).
Let U := unicode E.
Let fj := from_json E.
Let up := uuid_parses E.
Let pending := pending_migration_version E.

Lemma with_runtime_same pid controls gs d t :
  let t' := with_runtime pending pid controls gs d t in
  t_meta t' = t_meta t /\ t_status t' = t_status t /\ t_entry t' = t_entry t.
Proof.
  unfold with_runtime. destruct (recoverable_codex_session_id_from_task_content _); [|done].
  destruct (List.find _ _); destruct (_ && _); try done; destruct (proof_wait _ _ _ _); done.
Qed.

Lemma complete_task_proven pid controls gs d t session :
  t_completion_wait t = None -> task_id t <> [] ->
  recoverable_codex_session_id_from_task_content (content (t_entry t)) = Some session ->
  complete (with_runtime pending pid controls gs d t) = true ->
  t_status t = Done /\ proven pending pid session d.
Proof.
  intros Hwait Hid Hs. unfold with_runtime. rewrite Hs.
  set (t1 := match List.find _ _ with Some c => _ | None => t end).
  assert (H1 : t_status t1 = t_status t /\ task_id t1 = task_id t /\ t_completion_wait t1 = None)
    by (unfold t1; by destruct (List.find _ _)).
  destruct H1 as (Hst & Htid & Hw). rewrite Hst, Htid.
  destruct (decide (t_status t = Done)) as [Hd|Hd].
  - rewrite (bool_decide_true (t_status t = Done)) by done.
    rewrite (bool_decide_false (task_id t = [])) by done. cbn [negb orb andb].
    rewrite <- proof_wait_none. unfold complete.
    destruct (proof_wait pending pid session d); cbn; [|done]. by rewrite andb_false_r.
  - rewrite (bool_decide_false (t_status t = Done)) by done. cbn [andb]. unfold complete.
    rewrite Hst. by rewrite bool_decide_false.
Qed.

Lemma concat_io_forall {A B} (P : B -> Prop) (f : A -> io (list B)) (l : list A) s bs s' :
  (forall a s bs s', f a s = (Ok bs, s') -> Forall P bs) ->
  concat_io f l s = (Ok bs, s') -> Forall P bs.
Proof.
  intros Hf. revert s bs s'. induction l as [|a l IH]; intros s bs s'; [by intros [= <- _]|].
  cbn [concat_io]. intros (b1 & s1 & H1 & H)%bind_ok. apply bind_ok in H as (b2 & s2 & H2 & H).
  injection H as <- _. apply Forall_app. split; [by eapply Hf|by eapply IH].
Qed.

Definition no_wait (t : Task) : Prop := t_completion_wait t = None.

Lemma collect_no_wait fuel board s ts s' :
  collect U fj up fuel board s = (Ok ts, s') -> Forall no_wait ts.
Proof.
  revert board s ts s'. induction fuel as [|fuel IH]; intros board s ts s'; [done|]. cbn [collect].
  intros (b1 & s1 & H1 & H)%bind_ok. apply bind_ok in H as (entries & s2 & _ & H). injection H as <- _.
  apply Forall_app. split.
  - eapply concat_io_forall; [|exact H1]. clear - IH. intros st s bs s' (entries & s1 & _ & H)%bind_ok.
    eapply concat_io_forall; [|exact H]. clear - IH. intros [offset entry] s bs s' H.
    apply bind_ok in H as (below & s1 & Hb & H). injection H as <- _. apply Forall_app.
    split; [|by repeat constructor]. destruct (subtask_board entry); [by eapply IH|].
    injection Hb as <- _. constructor.
  - apply Forall_forall. intros t (e & _ & He)%list_elem_of_omap. unfold archived_task in He.
    case_match; [done|]. by injection He as <-.
Qed.

(** What the tasks of a snapshot say about the registry at that moment. *)
Lemma admission_tasks (board : path) w sn w' :
  admission U fj up pending (registry_exists E) (git_status E) board w = (Ok sn, w') ->
  forall t session pid p, t ∈ tasks sn -> complete t = true -> task_id t <> [] ->
  recoverable_codex_session_id_from_task_content (content (t_entry t)) = Some session ->
  registry_exists E = true -> project_above board (registry w') = Some (pid, p) ->
  t_status t = Done /\ proven pending pid session (registry w').
Proof.
  unfold admission, load_with_context. intros H t session pid p Hin Hc Hid Hs Hexists Hp.
  wok H present w1 Hp1. apply on_board_inv in Hp1 as (Hr1 & _).
  destruct (negb present); [injection H as <- <-; by apply elem_of_nil in Hin|].
  wok H outer w2 Ho. apply on_board_inv in Ho as (Hr2 & _).
  wok H ts w3 Hts. pose proof Hts as Hnw.
  apply on_board_inv in Hts as (Hr3 & _ & [(ts' & Hcol & [= <-])|(? & ?)]); [|done]. clear Hnw.
  assert (Hnw : Forall no_wait ts).
  { unfold collect_all in Hcol. destruct (collect _ _ _ _ _ _) as [r s] eqn:Hcs. cbn in Hcol. subst r.
    by eapply collect_no_wait. }
  wok H ts2 w4 Hrt. wok H output w5 Hg. apply on_board_inv in Hg as (Hr5 & _).
  injection H as <- <-. cbn [tasks] in Hin.
  assert (Hknown : needs_proof false ts2 && existsb has_conversation ts2 = true).
  { apply andb_true_iff. split; apply existsb_elem_of; exists t; split; try done.
    - by rewrite bool_decide_false.
    - unfold has_conversation. by rewrite Hs. }
  destruct (needs_proof false ts && existsb has_conversation ts) eqn:Hneed.
  2: { injection Hrt as <- <-. congruence. }
  unfold load_runtime in Hrt. rewrite Hexists in Hrt. unfold load_runtime_from_store in Hrt.
  wok Hrt project w6 Hq. apply query_inv in Hq as [-> [= ->]].
  assert (Hreg : registry w4 = registry w3 -> registry w5 = registry w3) by congruence.
  destruct (project_above board (registry w3)) as [[pid' p']|] eqn:Hp'.
  2: { injection Hrt as _ <-. rewrite Hreg, Hp' in Hp by done. done. }
  wok Hrt controls w6 Hq. apply query_res_inv in Hq as [-> _].
  wok Hrt gs w6 Hq. apply query_inv in Hq as [-> _].
  apply query_inv in Hrt as [-> Hts2]. injection Hts2 as ->.
  rewrite (Hreg eq_refl) in Hp |- *. rewrite Hp' in Hp. injection Hp as -> ->.
  apply list_elem_of_fmap in Hin as (t0 & -> & Hin0).
  rewrite Forall_forall in Hnw. specialize (Hnw t0 Hin0).
  destruct (with_runtime_same pid controls gs (registry w3) t0) as (Hm & Hst & He).
  unfold task_id in Hid. rewrite Hm in Hid. rewrite He in Hs. rewrite Hst.
  by eapply complete_task_proven.
Qed.

Lemma ensure_admitted_prerequisites ej uv sn board status index :
  ensure_admitted ej uv sn board status index = Ok tt ->
  exists t, selected sn board status index = Ok t
    /\ (complete t = true \/ t_error t = None /\ prerequisites_complete sn t).
Proof.
  unfold ensure_admitted. destruct (selected sn board status index) as [t|e] eqn:Hsel; [|done].
  destruct (waits ej uv sn t) eqn:Hw; [|done]. intros _. exists t. split; [done|].
  apply waits_nil in Hw as [?|(? & _ & _ & ? & _)]; [by left|by right|by eapply selected_in].
Qed.
End Admission.

(** C5: A task may start only when its prerequisites are proven: when admission succeeds against a fresh snapshot, the selected task is complete, or every id it depends on names exactly one task of the snapshot, that task is in Done, and if a conversation worked on it in a project of the registry, its managed Git journal has ended or no managed Git mode was fixed for it. *)
Theorem admission_needs_proven_prerequisites E board status task_index w w' :
  ensure_admitted_in E board status task_index w = (Ok tt, w') -> registry_exists E = true ->
  exists sn t,
    admission (unicode E) (from_json E) (uuid_parses E) (pending_migration_version E)
      (registry_exists E) (git_status E) board w = (Ok sn, w')
    /\ selected sn board status (N.of_nat task_index) = Ok t
    /\ (complete t = true
        \/ forall i, i ∈ depends_on (t_meta t) ->
           exists other, referenced sn i = Ok other /\ t_status other = Done
             /\ forall session pid p,
                  recoverable_codex_session_id_from_task_content (content (t_entry other)) = Some session ->
                  project_above board (registry w') = Some (pid, p) ->
                  proven (pending_migration_version E) pid session (registry w')).
Proof.
  unfold ensure_admitted_in, ensure_admitted_at. intros H Hexists.
  wok H snap w1 Hsn. destruct (ensure_admitted _ _ snap board status _) as [[]|] eqn:Hadm; [|done].
  injection H as <-. apply ensure_admitted_prerequisites in Hadm as (t & Hsel & Ht).
  exists snap, t. split_and!; [done|done|]. destruct Ht as [Ht|[_ Ht]]; [by left|]. right. intros i Hi.
  destruct (Ht i Hi) as (other & Href & Hc). exists other. split; [done|].
  destruct (resolves_id snap i other Href) as (Hid & Hne & Hin). split.
  - unfold complete in Hc. by apply andb_true_iff in Hc as [Hc%bool_decide_eq_true _].
  - intros session pid p Hs Hp. subst i.
    by destruct (admission_tasks E board w snap w1 Hsn other session pid p Hin Hc Hne Hs Hexists Hp).
Qed.

(** ** Witnesses *)

Lemma nested_boards_are_searched_to_the_end_witness :
  ends (collect_all (unicode sample_surroundings) sample_json (fun _ => true) sample_tasks_dir)
    (tree before_start).
Proof.
  destruct (nested_boards_are_searched_to_the_end sample_surroundings sample_tasks_dir [] (tree before_start))
    as (_ & _ & _ & _ & H & _); [by vm_compute|exact H].
Defined.

(** The dependent starts on a machine whose registry does not know the
    prerequisite's conversation. *)
Lemma admission_needs_proven_prerequisites_witness :
  exists w' sn t,
    ensure_admitted_in sample_surroundings sample_tasks_dir Todo 1 (chained []) = (Ok tt, w')
    /\ selected sn sample_tasks_dir Todo 1 = Ok t.
Proof.
  pose (w' := (ensure_admitted_in sample_surroundings sample_tasks_dir Todo 1 (chained [])).2).
  assert (H : ensure_admitted_in sample_surroundings sample_tasks_dir Todo 1 (chained []) = (Ok tt, w'))
    by (vm_compute; reflexivity).
  destruct (admission_needs_proven_prerequisites sample_surroundings sample_tasks_dir Todo 1
              (chained []) w' H eq_refl) as (sn & t & _ & Hsel & _).
  exists w', sn, t. split; [exact H|exact Hsel].
Defined.
