(* ===== verification/WorkflowProps.v ===== *)
(** The board and the registry together: what a change of a task promises about
    its journal. *)
From S2P Require Import Prelude Sql AgentTypes Store Leases Workers Sessions Journals Retire.
From S2P Require Import Projects.
From S2P Require Import Footprint JournalInv RegistryInv.
From S2P Require Import Text Markers TaskNotes Metadata TaskEntry Files Board BoardTree.
From S2P Require Import World Surroundings Git Manifest Projection GitStart GitQuiet.
From S2P Require Import Coordination SnapshotLoad Guards Workflow Completion WorldScenario.
From S2P Require Import WorldScenario RegistryInv.

(** ** Completing a task *)

Lemma complete_managed_outcome E pid root from task_index entry session g run_token now w r w' :
  complete_managed_task E pid root from task_index entry session g run_token now w = (r, w') ->
  (tree w' = tree w /\ exists e, r = Err e)
  \/ exists identity, durable_task_identity (content entry) = Some identity
     /\ tree w' = (move_task_without_reordering_after_lock (unicode E) (get_tasks_dir root) from Done
                     task_index (tree w)).2
     /\ (intent_recorded Tracking pid session (utf8 identity) run_token (registry w')
         /\ (exists e, r = Err e)
         \/ intent_recorded CommitPending pid session (utf8 identity) run_token (registry w')
            /\ r = Ok true).
Proof.
  unfold complete_managed_task. intros H.
  wstep H e u1 w1 Hc; apply ensure_inv in Hc as [-> _]; [by left; eauto|].
  wstep H e idt w1 Hc; apply need_inv in Hc as [-> _]; [by left; eauto|].
  wstep H e sel w1 Hc; apply need_inv in Hc as [-> Hsel]; [by left; eauto|].
  wstep H e u2 w1 Hc; apply ensure_inv in Hc as [-> Hid]; [by left; eauto|].
  destruct Hsel as [(? & Hsel & [= <-])|[_ ?]]; [|done].
  destruct Hid as [[Hid _]|[_ ?]]; [|done]. apply bool_decide_eq_true in Hid as <-.
  pose proof (intent_keeps_tree E pid root session g (utf8 sel) run_token now w) as Ht.
  wstep H e g1 w1 Hintent; rewrite Hintent in Ht; cbn [snd] in Ht; [by left; eauto|].
  wstep H e u3 w2 Hc; apply ensure_inv in Hc as [-> Hg1]; [by left; eauto|].
  destruct Hg1 as [[Hg1 _]|[_ ?]]; [|done]. guards.
  match goal with H1 : g_state g1 = Tracking, H2 : g_task_identity g1 = _ |- _ =>
    destruct (intent_ok _ _ _ _ _ _ _ _ _ _ _ Hintent H1) as [Hfound Howner];
    rename H1 into Hst; rename H2 into Hident end.
  right. exists sel. split; [done|].
  wstep H e u4 w2 Hc; apply on_board_inv in Hc as (Hreg & Htree & _); rewrite Ht in Htree.
  { split; [done|]. left. split; [|by eauto]. exists g1. by rewrite Hreg. }
  wstep H e updated w3 Hc; apply compare_and_set_inv in Hc as (Htree' & Hcas).
  { split; [congruence|]. left. split; [|by eauto]. exists g1.
    destruct Hcas as [[? _]|[_ Hsame]]; [done|]. by rewrite Hsame, Hreg. }
  wstep H e u5 w4 Hc; apply ensure_inv in Hc as [-> Hup].
  - split; [congruence|]. left. split; [|by eauto]. exists g1.
    destruct Hcas as [[[= ->] _]|[_ Hsame]]; [by destruct Hup as [[_ ?]|[? _]]|].
    by rewrite Hsame, Hreg.
  - destruct Hup as [[-> _]|[_ ?]]; [|done]. injection H as <- <-. split; [congruence|]. right.
    destruct Hcas as [(_ & g2 & Hg2 & _ & Hg3)|[? _]]; [|done]. split; [|done].
    rewrite Hreg, Hfound in Hg2. injection Hg2 as <-. eexists. split; [exact Hg3|].
    cbn. rewrite Hident. done.
Qed.

Lemma effective_mode_keeps_tree E project session :
  keeps_tree (effective_agent_git_mode (pending_migration_version E) (log_proves_git_off E) project session).
Proof. unfold effective_agent_git_mode. keep_tree. Qed.

(** C1: An automated run that completes a task whose conversation has a journal leaves the board as it found it, or has recorded its intent first: a task that reached Done belongs to that journal, which the run token owns, is bound to the task's durable identity, and is Tracking when the operation failed and CommitPending when it reported a provisional completion. Without a journal the board stays as it was, unless the conversation's effective Git mode is off: then the task is moved as any unmanaged task and the completion is not reported as provisional. *)
Theorem completion_intent_before_done E root from task_index_str context others now w
    project task_index entry session_id w1 r w' :
  completion_selection E root from task_index_str context others w
    = (Ok (project, task_index, (entry, session_id)), w1) ->
  move_task_to_done_with_agent_store E root from task_index_str context others now w = (r, w') ->
  (tree w' = tree w1 /\ exists e, r = Err e)
  \/ match git_finalization project.1 (utf8 session_id) (registry w1) with
     | Some _ =>
         exists identity, durable_task_identity (content entry) = Some identity
         /\ tree w' = (move_task_without_reordering_after_lock (unicode E) (get_tasks_dir root) from Done
                         task_index (tree w1)).2
         /\ (intent_recorded Tracking project.1 (utf8 session_id) (utf8 identity) (ch_run_token context)
               (registry w')
             /\ (exists e, r = Err e)
             \/ intent_recorded CommitPending project.1 (utf8 session_id) (utf8 identity)
                  (ch_run_token context) (registry w')
                /\ r = Ok true)
     | None =>
         exists unmanaged moved, tree unmanaged = tree w1
         /\ effective_agent_git_mode (pending_migration_version E) (log_proves_git_off E) project
              (Some (utf8 session_id)) w1 = (Ok GitOff, unmanaged)
         /\ Workflow.move_task_in_board_after_lock E (get_tasks_dir root) from Done task_index unmanaged
              = (moved, w')
         /\ r = match moved with Ok _ => Ok false | Err e => Err e end
     end.
Proof.
  intros Hsel H. unfold move_task_to_done_with_agent_store in H.
  unfold wbind at 1 in H. rewrite Hsel in H. unfold wbind at 1 in H. unfold query at 1 in H.
  destruct (git_finalization _ _ _) as [g|]; [by eapply complete_managed_outcome|].
  pose proof (effective_mode_keeps_tree E project (Some (utf8 session_id)) w1) as Ht.
  wstep H e mode unmanaged Hm; rewrite Hm in Ht; cbn [snd] in Ht; [by left; eauto|].
  destruct (mode == GitOff) eqn:Hoff; [|injection H as <- <-; by left; eauto].
  apply bool_decide_eq_true in Hoff as ->. right. exists unmanaged.
  apply wbind_inv in H as [(e & Hmove & ->)|([] & w2 & Hmove & H)]; [by exists (Err e)|].
  injection H as <- <-. by exists (Ok tt).
Qed.

(** ** Taking a task *)

Lemma start_managed_outcome E pid root task_index entry session git_mode run_token now w r w' :
  start_managed_task E pid root task_index entry session git_mode run_token now w = (r, w') ->
  (tree w' = tree w /\ exists e, r = Err e)
  \/ exists identity, durable_task_identity (content entry) = Some identity
     /\ intent_recorded Working pid session (utf8 identity) run_token (registry w').
Proof.
  unfold start_managed_task. intros H.
  wstep H e idt w1 Hc; apply need_inv in Hc as [-> Hid]; [by left; eauto|].
  destruct Hid as [(? & Hid & [= <-])|[_ ?]]; [|done].
  wstep H e found w1 Hc; apply query_inv in Hc as [-> Hfound]; [by left; eauto|].
  injection Hfound as ->.
  wstep H e g w1 Hc; apply need_inv in Hc as [-> Hg]; [by left; eauto|].
  destruct Hg as [(? & Hg & [= <-])|[_ ?]]; [|done].
  wstep H e u1 w1 Hc; apply ensure_inv in Hc as [-> Hst]; [by left; eauto|].
  destruct Hst as [[Hst _]|[_ ?]]; [|done]. guards.
  wstep H e u2 w1 Hc; apply ensure_inv in Hc as [-> _]; [by left; eauto|].
  wstep H e starting w1 Hc; apply need_inv in Hc as [-> _]; [by left; eauto|].
  wstep H e u3 w1 Hc; wstill Hc; [by left; eauto|].
  wstep H e u4 w1 Hc; wstill Hc; [by left; eauto|].
  match type of H with wbind _ _ ?w0 = _ =>
    pose proof (bind_identity_keeps_tree pid session g (utf8 idt) run_token now w0) as Ht end.
  wstep H e u5 w1 Hbind; rewrite Hbind in Ht; cbn [snd] in Ht; [by left; eauto|].
  right. exists idt. split; [done|].
  assert (Hrec : intent_recorded Working pid session (utf8 idt) run_token (registry w1)).
  { unfold bind_task_identity in Hbind. wok Hbind u6 w2 Hc. apply ensure_inv in Hc as [-> Hm].
    destruct Hm as [[Hm _]|[_ ?]]; [|done].
    destruct (g_task_identity g) as [bound|] eqn:Hb; cbn [is_null] in Hbind.
    - injection Hbind as <-. guards. by exists g.
    - wok Hbind b w2 Hc. apply ensure_inv in Hbind as [-> Hb']. destruct Hb' as [[-> _]|[_ ?]]; [|done].
      apply compare_and_set_inv in Hc as (_ & [(_ & g0 & Hg0 & _ & Hg1)|[? _]]); [|done].
      assert (Some g = Some g0) as [= <-] by (rewrite <- Hg; exact Hg0). eexists. split; [exact Hg1|]. cbn. rewrite Hb. done. }
  wstep H e u6 w2 Hc; apply on_board_inv in Hc as (Hreg & _); [by rewrite Hreg|].
  apply on_board_inv in H as (Hreg' & _). by rewrite Hreg', Hreg.
Qed.

(** C6: An automated run under managed Git moves a task to Doing only after its conversation's Working journal, owned by its run token, is bound to the task's durable identity; when the binding is refused the board stays as it was read. *)
Theorem journal_bound_before_doing E root task_index_str context project git_mode others now w
    session task_index entry w1 r w' :
  start_selection E root task_index_str context project others w
    = (Ok (session, task_index, entry), w1) ->
  move_task_to_doing_with_agent_git_journal E root task_index_str context project git_mode others now w
    = (r, w') ->
  (tree w' = tree w1 /\ exists e, r = Err e)
  \/ exists identity, durable_task_identity (content entry) = Some identity
     /\ intent_recorded Working project.1 session (utf8 identity) (ch_run_token context) (registry w').
Proof.
  intros Hsel H. unfold move_task_to_doing_with_agent_git_journal in H.
  unfold wbind at 1 in H. rewrite Hsel in H. by eapply start_managed_outcome.
Qed.

(** ** Changing a task by hand *)

Lemma settle_cancelled_frame k c at_ d :
  git_finalizations (settle_cancelled_session k c at_ d) = git_finalizations d
  /\ leases (settle_cancelled_session k c at_ d) = leases d.
Proof.
  unfold settle_cancelled_session, delete_idle_control, delete_control, update_control.
  repeat case_match; done.
Qed.

Lemma fence_project_holds pid sid generation idt holder at_ exp d d' :
  fence_project pid sid generation idt holder at_ exp d = Ok (true, d') ->
  l_holder <$> leases d' !! pid = Some holder.
Proof.
  unfold fence_project. intros H. repeat (case_match; simplify_eq/=). by rewrite lookup_insert_eq.
Qed.

Lemma cancel_idle_true pid sid generation idt holder at_ exp c d d' :
  cancel_idle_working_git_finalization pid sid generation idt holder at_ exp c d = (Ok true, d') ->
  (exists g, git_finalizations d' !! (pid, sid) = Some g /\ g_state g = Cancelled)
  /\ (c = ExternalCompletion -> l_holder <$> leases d' !! pid = Some holder).
Proof.
  unfold cancel_idle_working_git_finalization, transaction, txn_try, update_journal.
  match goal with |- context [if ?scoped then Ok (true, d) else ?fence] =>
    destruct (if scoped then Ok (true, d) else fence) as [[fenced d1]|e] eqn:Hf end; [|done].
  assert (Hl : c = ExternalCompletion -> fenced = true -> l_holder <$> leases d1 !! pid = Some holder).
  { intros -> ->. rewrite bool_decide_false in Hf by done. cbn [andb] in Hf. exact (fence_project_holds _ _ _ _ _ _ _ _ _ Hf). }
  destruct fenced; cbn [negb]; [|done]. unfold sql_update at 1.
  set (d2 := clear_cancelled_attempt_failure pid sid at_ d1).
  assert (Hl2 : leases d2 = leases d1) by done.
  destruct (git_finalizations d2 !! (pid, sid)) as [g|] eqn:Hg; [|done].
  destruct (_ && _ && _) eqn:Hg'; [|done]. intros H. injection H as H.
  match type of H with settle_cancelled_session _ _ _ ?d3 = _ =>
    destruct (settle_cancelled_frame (pid, sid) c at_ d3) as [Hgs Hls] end.
  rewrite H in Hgs, Hls. rewrite Hgs, Hls. split.
  - eexists. split; [apply lookup_insert_eq|done].
  - intros Hc. exact (Hl Hc eq_refl).
Qed.

Lemma release_lease_gone pid holder d :
  l_holder <$> leases (release_lease pid holder d).2 !! pid <> Some holder.
Proof.
  unfold release_lease, sql_delete. destruct (leases d !! pid) as [l|] eqn:Hl.
  - destruct (l_holder l == holder) eqn:Hh; cbn.
    + by rewrite lookup_delete_eq.
    + rewrite Hl. guards. cbn. congruence.
  - cbn. by rewrite Hl.
Qed.

Lemma release_lease_ok pid holder d : exists b, (release_lease pid holder d).1 = Ok b.
Proof. unfold release_lease. destruct (sql_delete _ _ _). by eexists. Qed.

(** The change itself, its result reported with the conversation it was made for. *)
Definition change_ran (mutate : wio unit) (session : option text) (w : world) (r : res refusal (option text))
    (w' : world) : Prop :=
  exists m, mutate w = (m, w') /\ r = match m with Ok _ => Ok session | Err e => Err e end.

Lemma unfenced_change mutate w r w' :
  (run! _ := mutate in wret None) w = (r, w') -> change_ran mutate None w r w'.
Proof.
  unfold change_ran. intros [(e & Hm & ->)|([] & w2 & Hm & H)]%wbind_inv; [by exists (Err e)|].
  injection H as <- <-. by exists (Ok tt).
Qed.

Lemma fenced_change pid holder mutate session w r w' :
  (run! _ := mutate_fenced pid holder mutate in wret (Some session)) w = (r, w') ->
  exists w2, change_ran mutate (Some session) w r w2 /\ tree w' = tree w2
    /\ l_holder <$> leases (registry w') !! pid <> Some holder.
Proof.
  unfold change_ran, wbind, mutate_fenced, on_registry. intros H.
  destruct (mutate w) as [m w2]. exists w2.
  pose proof (release_lease_gone pid holder (registry w2)) as Hgone.
  destruct (release_lease_ok pid holder (registry w2)) as [b Hb].
  destruct (release_lease pid _ (registry w2)) as [rr dd]. cbn [fst snd] in *. subst rr.
  destruct m as [u|e]; injection H as <- <-; eauto.
Qed.

(** A Working journal is cancelled, then the change runs; the project's lease, which a
    completion holds meanwhile, is given back. *)
Definition cancelled_then_ran (pid : Z) (session : text) (holder : string)
    (cancellation : GitTaskCancellation) (mutate : wio unit) (w : world) (r : res refusal (option text))
    (w' : world) : Prop :=
  exists w1 w2 g1, tree w1 = tree w
  /\ git_finalization pid (utf8 session) (registry w1) = Some g1 /\ g_state g1 = Cancelled
  /\ (cancellation = ExternalCompletion -> l_holder <$> leases (registry w1) !! pid = Some holder)
  /\ change_ran mutate (Some session) w1 r w2 /\ tree w' = tree w2
  /\ l_holder <$> leases (registry w') !! pid <> Some holder.

(** C3: What a change of a task made by hand does depends on the task's managed Git journal. Without one, or when it has ended, the change runs as it is. A journal that is unfinished and past Working refuses it and nothing changes. A Working one is cancelled first, or else the board stays as it was: the change runs only with the journal cancelled, a completion holds the project's lease meanwhile, and however the change ends the lease is given back and its result is reported. *)
Theorem change_by_hand_settles_journal E board entry clock cancellation mutate w r w' :
  mutate_user_managed_task_with_store_after_lock E board entry clock cancellation mutate w = (r, w') ->
  match journal_of_task board entry (registry w) with
  | None => change_ran mutate None w r w'
  | Some (pid, session, g) =>
      if Finalization.is_terminal (g_state g) then change_ran mutate None w r w'
      else if g_state g =! Working then r = Err (SealedJournal (g_state g)) /\ w' = w
      else (tree w' = tree w /\ exists e, r = Err e)
           \/ cancelled_then_ran pid session (task_cancellation_lease_holder clock) cancellation mutate w r w'
  end.
Proof.
  unfold mutate_user_managed_task_with_store_after_lock. intros H.
  apply wbind_inv in H as [(e & [=] & _)|(found & w1 & Hc & H)].
  apply query_inv in Hc as [-> [= ->]].
  destruct (journal_of_task board entry (registry w)) as [[[pid session] g]|]; [|by apply unfenced_change].
  destruct (Finalization.is_terminal (g_state g)); [by apply unfenced_change|].
  destruct (g_state g =! Working); [by injection H as <- <-|cbn [orb] in H].
  destruct (negb _); [by left; injection H as <- <-; eauto|].
  pose proof (reconcile_keeps_tree E pid (observed_at clock) w) as Ht.
  wstep H e u w1 Hc; rewrite Hc in Ht; cbn [snd] in Ht; [by left; eauto|].
  wstep H e cancelled w2 Hcancel; apply on_registry_inv in Hcancel as (Ht2 & Hd2 & Hr2).
  { left. split; [congruence|by eauto]. }
  wstep H e u1 w3 Hc1; apply ensure_inv in Hc1 as [-> Hok]; [left; split; [congruence|by eauto]|].
  destruct Hok as [[-> _]|[_ ?]]; [|done].
  destruct Hr2 as [(? & Hr2 & [= <-])|(? & _ & ?)]; [|done].
  destruct (cancel_idle_working_git_finalization _ _ _ _ _ _ _ _ _) as [r2 d2] eqn:Hcd.
  cbn [fst snd] in *. subst r2. apply cancel_idle_true in Hcd as [(g1 & Hg1 & Hs1) Hlease].
  apply fenced_change in H as (w3 & Hran & Hend1 & Hend2). rewrite <- Hd2 in *.
  right. exists w2, w3, g1. split_and!; try done; congruence.
Qed.

(** ** A journal that is no longer Working protects its task *)

Section Protected.
Context (E : Surroundings) (board : path) (status : TaskStatus) (entry : TaskEntry).
Context (pid : Z) (session : text) (g : journal_row) (d : db) (s : node) (k : nat).
Context (Hexists : registry_exists E = true) (Hmigrated : pending_migration_version E = None).
Context (Hjournal : journal_of_task board entry d = Some (pid, session, g)).
Context (Hopen : Finalization.is_terminal (g_state g) = false) (Hsealed : g_state g <> Working).

Let w1 := mkWorld s d k.


End Protected.


(** ** Witnesses *)

Definition completed : res refusal bool * world :=
  move_task_to_done_with_agent_store sample_surroundings sample_root Doing (str "1") sample_context []
    "1005" before_done.

Lemma completion_intent_before_done_witness :
  (tree completed.2 = tree before_done /\ exists e, completed.1 = Err e)
  \/ exists identity, tree completed.2
       = (move_task_without_reordering_after_lock (unicode sample_surroundings) sample_tasks_dir Doing Done
            1 (tree before_done)).2
     /\ (intent_recorded Tracking 1 sid (utf8 identity) token (registry completed.2)
           /\ (exists e, completed.1 = Err e)
         \/ intent_recorded CommitPending 1 sid (utf8 identity) token (registry completed.2)
            /\ completed.1 = Ok true).
Proof.
  pose (selection := completion_selection sample_surroundings sample_root Doing (str "1") sample_context []
                       before_done).
  pose (project := (1%Z, default (new_project "" "" "") (projects (registry before_done) !! 1%Z))).
  pose (entry := match selection.1 with Ok (_, _, (entry, _)) => entry
                 | Err _ => mkEntry (MarkdownLine 0) [] [] None false end).
  assert (Hsel : selection = (Ok (project, 1, (entry, str "session")), before_done))
    by (vm_compute; reflexivity).
  destruct (completion_intent_before_done sample_surroundings sample_root Doing (str "1") sample_context []
              "1005" before_done project 1 entry (str "session") before_done completed.1 completed.2)
    as [H|H]; [exact Hsel|exact (surjective_pairing completed)|by left|].
  right. assert (Hg : is_null (git_finalization project.1 (utf8 (str "session")) (registry before_done)) = false)
    by (vm_compute; reflexivity).
  destruct (git_finalization _ _ _) as [g|]; [|discriminate Hg].
  destruct H as (identity & _ & H). exists identity. exact H.
Defined.

Lemma journal_bound_before_doing_witness :
  exists w', (tree w' = tree before_start \/ exists identity,
    intent_recorded Working 1 sid (utf8 identity) token (registry w')).
Proof.
  pose (project := (1%Z, default (new_project "" "" "") (projects (registry before_start) !! 1%Z))).
  pose (selection := start_selection sample_surroundings sample_root (str "1") sample_context project []
                       before_start).
  pose (entry := match selection.1 with Ok (_, _, entry) => entry
                 | Err _ => mkEntry (MarkdownLine 0) [] [] None false end).
  pose (started := move_task_to_doing_with_agent_git_journal sample_surroundings sample_root (str "1")
                     sample_context project GitCommit [] "1004" before_start).
  assert (Hsel : selection = (Ok (sid, 1, entry), before_start)) by (vm_compute; reflexivity).
  exists started.2.
  destruct (journal_bound_before_doing sample_surroundings sample_root (str "1") sample_context project
              GitCommit [] "1004" before_start sid 1 entry before_start started.1 started.2)
    as [[H _]|(identity & _ & H)]; [exact Hsel|exact (surjective_pairing started)|by left|].
  right. by exists identity.
Defined.

Definition removed_by_hand : res refusal (option text) * world :=
  mutate_user_managed_task_with_store_after_lock sample_surroundings sample_tasks_dir
    (mkEntry (MarkdownLine 2) noted noted None false) sample_clock ExternalCompletion (wret tt)
    abandoned_task.

Lemma change_by_hand_settles_journal_witness :
  cancelled_then_ran 1 (str "session") (task_cancellation_lease_holder sample_clock) ExternalCompletion
    (wret tt) abandoned_task removed_by_hand.1 removed_by_hand.2.
Proof.
  pose proof (change_by_hand_settles_journal sample_surroundings sample_tasks_dir
                (mkEntry (MarkdownLine 2) noted noted None false) sample_clock ExternalCompletion (wret tt)
                abandoned_task removed_by_hand.1 removed_by_hand.2 (surjective_pairing removed_by_hand)) as H.
  pose (found := journal_of_task sample_tasks_dir (mkEntry (MarkdownLine 2) noted noted None false)
                   (registry abandoned_task)).
  assert (Hf : (fun f => (f.1, g_state f.2)) <$> found = Some (1%Z, str "session", Working))
    by (vm_compute; reflexivity).
  change (journal_of_task _ _ _) with found in H.
  destruct found as [[[pid session] g]|]; [|discriminate Hf]. cbn in Hf. injection Hf as -> -> Hs.
  rewrite Hs in H. destruct H as [[_ [e He]]|H]; [|exact H].
  assert (Hok : match removed_by_hand.1 with Ok _ => true | Err _ => false end = true)
    by (vm_compute; reflexivity).
  rewrite He in Hok. discriminate Hok.
Defined.

