(* ===== verification/GitFinalizeProps.v ===== *)
(** What a finalization does to the registry: steps of an abstract finalizer,
    each under the fence and on Git's proof, and no others. *)
From S2P Require Import Prelude Sql AgentTypes Store Leases Sessions Journals Retire Projects.
From S2P Require Import Text Markers TaskNotes Metadata TaskEntry Files Board BoardTree.
From S2P Require Import World Surroundings Git Manifest Projection GitStart GitQuiet.
From S2P Require Import SnapshotLoad Guards Workflow GitRetire GitPublish GitRepair.
From S2P Require Import GitFinalize.
From S2P Require Import GitQuiet Footprint JournalInv RegistryInv WorldScenario.
From S2P Require Import RegistryInv WorldScenario.

(** A question was asked at some moment and answered with yes. *)
Definition answered (c : wio bool) : Prop := exists w w', c w = (Ok true, w').

Lemma wand_true a b w w' : wand a b w = (Ok true, w') -> answered a /\ answered b.
Proof.
  unfold wand, wbind. destruct (a w) as [[[]|] w1] eqn:Ha; try done. intros Hb.
  split; [by exists w, w1|by exists w1, w'].
Qed.

(** ** Compare and set, and cancellation, alone in the registry *)

Lemma compare_and_set_not_false pid sid u d g :
  git_finalization pid sid d = Some g -> u_require_running_owner u = false ->
  (compare_and_set_git_finalization pid sid (g_generation g) u d).1 <> Ok false.
Proof.
  unfold git_finalization, compare_and_set_git_finalization, transaction, txn_try, update_journal.
  intros Hg Hu. rewrite Hg, Hu. rewrite bool_decide_true by done. cbn [negb].
  destruct (update_rejected g u); [done|]. destruct (pending_index_conflict _ _ _); [done|].
  unfold sql_update. rewrite Hg. rewrite bool_decide_true by done. cbn.
  by destruct (i64_max <? _)%Z.
Qed.

Lemma cancel_orphaned_unchanged j holder reason at_ now d :
  (cancel_orphaned_working_git_finalization j holder reason at_ now d).1 <> Ok true ->
  (cancel_orphaned_working_git_finalization j holder reason at_ now d).2 = d.
Proof.
  unfold cancel_orphaned_working_git_finalization, transaction, update_journal.
  destruct (is_current j d && journal_is_unbound j.2) eqn:Hj; [|done]. cbn [negb].
  destruct (owns_idle_project _ _ _ _ _ _); [|done]. destruct (i64_max <? _)%Z; [done|].
  unfold is_current, journal_is_unbound in Hj. guards. unfold sql_update.
  match goal with H : git_finalizations d !! j.1 = Some j.2 |- _ => rewrite H end.
  repeat match goal with
         | H : g_state j.2 = _ |- _ => rewrite H
         | H : _ j.2 = None |- _ => rewrite H
         end.
  rewrite !bool_decide_true by done. done.
Qed.

(** What a journal froze when its run began. *)
Definition frozen_part (g : journal_row) :=
  (g_git_mode g, g_starting_head g, g_branch_ref g, g_upstream_ref g, g_worktree_baseline g,
   g_task_identity g).

Lemma cancel_orphaned_row k g holder reason at_ now d d' :
  git_finalizations d !! k = Some g ->
  cancel_orphaned_working_git_finalization (k, g) holder reason at_ now d = (Ok true, d') ->
  g_state g = Working
  /\ exists g', git_finalizations d' !! k = Some g' /\ g_state g' = Cancelled /\ frozen_part g' = frozen_part g.
Proof.
  unfold cancel_orphaned_working_git_finalization, transaction, update_journal. intros Hg Hc.
  destruct (is_current _ d && journal_is_unbound _) eqn:Hj; [|done]. cbn [negb] in Hc.
  destruct (owns_idle_project _ _ _ _ _ _); [|done]. destruct (i64_max <? _)%Z; [done|].
  unfold is_current, journal_is_unbound in Hj. guards. unfold sql_update in Hc. cbn [fst snd] in *.
  rewrite Hg in Hc. split; [done|].
  destruct (_ && _ && _ && _ && _) in Hc; cbn in Hc; [|done]. injection Hc as <-. eexists. split.
  - unfold delete_control. destruct (sql_delete _ _ _). apply lookup_insert_eq.
  - done.
Qed.

(** ** The abstract finalizer *)

Section Finalizer.
Context (E : Surroundings) (R : RepairSurroundings) (root : path).
Context (lease : option AgentGitFinalizationLease) (pid : Z) (sid : string).

(** The finalizer's lease is owned and live in the registry. *)
Definition fence_held (d : db) : Prop :=
  match lease with
  | Some l => exists now, git_finalization_lease_is_owned (fl_project_id l) (fl_holder l) now d = true
  | None => True
  end.

(** The commit is the sealed tree on the frozen parent, and still on the branch
    and in the work tree. *)
Definition sealed_commit (g : journal_row) (commit identity : text) : Prop :=
  answered (git_commit_matches_agent_staged_manifest E root commit (of_utf8 sid) identity
              (g_worktree_baseline g) true)
  /\ answered (local_agent_git_task_commit_is_retained E root (of_utf8 <$> g_branch_ref g) commit
                 (of_utf8 sid) identity).

Definition published_at (g : journal_row) (tip commit identity : text) : Prop :=
  exists baseline, baseline_from_json E (g_worktree_baseline g) = Some baseline
  /\ answered (agent_git_upstream_tip_proves_task_commit E root tip commit (of_utf8 sid) identity
                 (b_version baseline =? 1)%N)
  /\ exists w w', fetch_agent_git_upstream_tip E root (of_utf8 <$> g_branch_ref g)
       (of_utf8 <$> g_upstream_ref g) baseline lease w = (Ok (Some tip), w').

Inductive finalizer_step (d d' : db) : Prop :=
| intent_recovered g identity owner now :
    git_finalization pid sid d = Some g -> g_state g = Working -> g_task_identity g = Some identity ->
    fence_held d -> answered (worktree_contains_completed_done_task E root (of_utf8 sid)) ->
    answered (agent_git_manifest_parent_is_current E root g) ->
    recover_git_finalization_intent pid sid (g_generation g) identity owner now d = (Ok true, d') ->
    finalizer_step d d'
| task_moved g owner now :
    git_finalization pid sid d = Some g -> g_state g = Tracking ->
    fence_held d -> answered (agent_git_manifest_parent_is_current E root g) ->
    answered (worktree_contains_completed_done_task E root (of_utf8 sid)) ->
    compare_and_set_plain pid sid (g_generation g) CommitPending owner None None now d = (Ok true, d') ->
    finalizer_step d d'
| commit_accepted g identity commit next owner now :
    git_finalization pid sid d = Some g -> g_state g = CommitPending ->
    g_task_identity g = Some identity -> sealed_commit g commit (of_utf8 identity) ->
    after_commit (g_git_mode g) = Some next -> fence_held d ->
    compare_and_set_plain pid sid (g_generation g) next owner (Some (utf8 commit)) None now d
      = (Ok true, d') ->
    finalizer_step d d'
| commit_published g identity oid tip owner now :
    git_finalization pid sid d = Some g -> g_state g = PushPending ->
    g_task_identity g = Some identity -> g_commit_oid g = Some oid ->
    sealed_commit g (of_utf8 oid) (of_utf8 identity) ->
    published_at g tip (of_utf8 oid) (of_utf8 identity) -> fence_held d ->
    compare_and_set_plain pid sid (g_generation g) Completed owner (Some oid) None now d
      = (Ok true, d') ->
    finalizer_step d d'
| orphan_cancelled g l now :
    git_finalization pid sid d = Some g -> lease = Some l ->
    cancel_orphaned_working_git_finalization ((pid, sid), g) (fl_holder l) ORPHANED_JOURNAL_REASON
      now now d = (Ok true, d') ->
    finalizer_step d d'.

(** How far a journal has come. *)
Definition rank (s : GitFinalizationState) : nat :=
  match s with
  | Working => 0
  | Tracking => 1
  | CommitPending => 2
  | PushPending => 3
  | Completed | Cancelled => 4
  end.
(** ** A round takes one step or none *)

Section Round.
Context (g : journal_row).
Local Notation j := ((pid, sid, g) : journal_snapshot).

Definition round_outcome (d : db) (r : res refusal RoundEnd) (d' : db) : Prop :=
  (d' = d /\ ((exists e, r = Err e) \/ r = Ok (Return j) \/ r = Ok SameAgain))
  \/ (finalizer_step d d'
      /\ ((exists e, r = Err e) \/ r = Ok ReadAgain
          \/ exists j', r = Ok (Return j') /\ snapshot pid sid d' = Some j')).

Lemma fence_inv w r w' :
  ensure_agent_git_finalization_fence E lease w = (r, w') ->
  registry w' = registry w /\ (r = Ok tt -> fence_held (registry w)).
Proof.
  intros H. assert (Hq := still_keeps_registry _ (still_fence E lease) w). rewrite H in Hq.
  split; [done|]. unfold ensure_agent_git_finalization_fence, fence_held in *.
  destruct lease as [l|]; [|done]. unfold ensure_owned in H. intros ->.
  wok H u1 w1 Hc. apply ensure_inv in Hc as [-> _].
  wok H now w2 Hc. injection Hc as <- <-.
  wok H owned w3 Hc. apply query_inv in Hc as [-> [= ->]].
  apply ensure_inv in H as [_ [[Ho _]|[_ ?]]]; [|done]. by eexists.
Qed.

Lemma cas_inv u w r w' :
  git_finalization pid sid (registry w) = Some g -> u_require_running_owner u = false ->
  on_registry (compare_and_set_git_finalization pid sid (g_generation g) u) w = (r, w') ->
  (r = Ok true
   /\ compare_and_set_git_finalization pid sid (g_generation g) u (registry w) = (Ok true, registry w'))
  \/ ((exists e, r = Err e) /\ registry w' = registry w).
Proof.
  intros Hg Hu H. apply on_registry_inv in H as (_ & Hd & Hr).
  pose proof (compare_and_set_not_false pid sid u _ g Hg Hu) as Hf.
  pose proof (compare_and_set_unchanged pid sid (g_generation g) u (registry w)) as Hun.
  destruct (compare_and_set_git_finalization _ _ _ u (registry w)) as [[[]|e] d] eqn:Hc;
    cbn [fst snd] in *; subst.
  - left. destruct Hr as [(? & [= <-] & ->)|(? & ? & _)]; done.
  - done.
  - right. split; [|by apply Hun]. destruct Hr as [(? & ? & _)|(? & _ & ->)]; [done|]. eauto.
Qed.
(** Takes a step that leaves the registry alone; its failure ends the round. *)
Ltac qstep H a w1 Hc :=
  let e := fresh "e" in let Hr := fresh "Hr" in
  wstep H e a w1 Hc; wquiet Hc Hr; [left; split; [congruence|by eauto]|].
(** The round ends here with the journal as it was. *)
Ltac qend H := injection H as <- <-; left; split; [congruence|by eauto].
(** The fence, passed. *)
Ltac qfence H Hf :=
  let e := fresh "e" in let u := fresh "u" in let w1 := fresh "w" in let Hc := fresh "Hc" in
  let Hr := fresh "Hr" in
  wstep H e u w1 Hc; apply fence_inv in Hc as [Hr Hf];
  [left; split; [congruence|by eauto]|destruct u; specialize (Hf eq_refl)].

(** The compare-and-set at the end of a round. *)
Lemma cas_outcome (u : JournalUpdate) w w0 r w' :
  git_finalization pid sid (registry w) = Some g -> registry w0 = registry w ->
  u_require_running_owner u = false ->
  (run! _ := on_registry (compare_and_set_git_finalization pid sid (g_generation g) u) in
   wret ReadAgain) w0 = (r, w') ->
  (forall d', compare_and_set_git_finalization pid sid (g_generation g) u (registry w) = (Ok true, d') ->
              finalizer_step (registry w) d') ->
  round_outcome (registry w) r (registry w').
Proof.
  intros Hg Hw Hu H Hstep. rewrite <- Hw in Hg.
  wstep H e ok w1 Hc; apply cas_inv in Hc as [[Hok Hc]|[He Hc]]; try done.
  - left. split; [congruence|by eauto].
  - injection H as <- <-. right. split; [|by eauto]. apply Hstep. by rewrite <- Hw.
  - by destruct He.
Qed.

Lemma recover_intent_outcome owner w r w' :
  git_finalization pid sid (registry w) = Some g -> g_state g = Working ->
  recover_intent E root lease j owner w = (r, w') -> round_outcome (registry w) r (registry w').
Proof.
  intros Hg Hst H. unfold recover_intent in H. cbv beta iota in H.
  destruct (g_task_identity g) as [identity|] eqn:Hid; [|qend H].
  qstep H baseline w1 Hb. destruct (_ && _); [qend H|].
  qstep H proven w2 Hp. destruct proven; [|qend H]. cbn [negb] in H.
  apply wand_true in Hp as [Hdone Hparent]. qfence H Hf. qstep H now w3 Hn.
  unfold recover_git_finalization_intent, compare_and_set_plain in H.
  refine (cas_outcome _ _ _ _ _ Hg _ _ H _); [congruence|done|]. intros d' Hc.
  eapply intent_recovered; try done. by replace (registry w) with (registry w2) by congruence.
Qed.
Lemma diagnosed_inv {A} w (r : res refusal A) w' :
  diagnosed E root j w = (r, w') -> registry w' = registry w /\ exists e, r = Err e.
Proof.
  intros H. wquiet H Hr. split; [done|]. unfold diagnosed in H.
  apply wbind_inv in H as [(e & _ & ->)|(a & w2 & _ & [= <- _])]; by eexists.
Qed.

Lemma tracking_outcome owner w r w' :
  git_finalization pid sid (registry w) = Some g -> g_state g = Tracking ->
  tracking_round E root lease j owner w = (r, w') -> round_outcome (registry w) r (registry w').
Proof.
  intros Hg Hst H. unfold tracking_round in H. cbv beta iota in H.
  destruct (g_task_identity g) as [identity|] eqn:Hid; [|qend H].
  qstep H current w1 Hb. destruct current; [|qend H]. cbn [negb] in H. qfence H Hf1.
  qstep H repaired w2 Hrep. destruct repaired; [|qend H]. cbn [negb] in H. qfence H Hf2.
  qstep H completed w4 Hdone. destruct completed; [|qend H]. cbn [negb] in H. qfence H Hf3.
  qstep H now w6 Hn.
  unfold recover_git_finalization_intent, compare_and_set_plain in H.
  refine (cas_outcome _ _ _ _ _ Hg _ _ H _); [congruence|done|]. intros d' Hc.
  eapply task_moved; try done; try by eexists _, _.
  by replace (registry w) with (registry w4) by congruence.
Qed.

Lemma accept_outcome owner commit identity w0 w r w' :
  git_finalization pid sid (registry w) = Some g -> registry w0 = registry w ->
  g_state g = CommitPending -> g_task_identity g = Some identity ->
  answered (git_commit_matches_agent_staged_manifest E root commit (of_utf8 sid) (of_utf8 identity)
              (g_worktree_baseline g) true) ->
  accept_commit E root lease j owner commit (of_utf8 identity) w0 = (r, w') ->
  round_outcome (registry w) r (registry w').
Proof.
  intros Hg Hw Hst Hid Hm H. unfold accept_commit in H. cbv beta iota in H.
  qstep H retained w1 Hb. destruct retained; cbn [negb] in H; cycle 1.
  { apply diagnosed_inv in H as [Hr1 He]. left. split; [congruence|by left]. }
  qfence H Hf. qstep H next w3 Hn. apply need_inv in Hn as [-> [(a & Hnext & [= ->])|[_ ?]]]; [|done].
  qstep H now w4 Hnow. unfold recover_git_finalization_intent, compare_and_set_plain in H.
  refine (cas_outcome _ _ _ _ _ Hg _ _ H _); [congruence|done|]. intros d' Hc.
  eapply commit_accepted; try done; [by split; [|eexists _, _]|].
  by replace (registry w) with (registry w1) by congruence.
Qed.

Lemma commit_outcome owner w r w' :
  git_finalization pid sid (registry w) = Some g -> g_state g = CommitPending ->
  commit_round E R root lease j owner w = (r, w') -> round_outcome (registry w) r (registry w').
Proof.
  intros Hg Hst H. unfold commit_round in H. cbv beta iota in H.
  destruct (g_starting_head g) as [starting|]; [|qend H].
  destruct (g_task_identity g) as [identity|] eqn:Hid; [|qend H]. cbv zeta in H.
  qstep H baseline w1 Hb. qstep H found w2 Hfind. destruct found as [commit|]; [|qend H].
  qstep H matches w3 Hm. destruct matches; cbn [negb] in H.
  - eapply accept_outcome; [exact Hg| |exact Hst|exact Hid| |exact H]; [congruence|by eexists _, _].
  - qstep H repaired w4 Hrep. destruct repaired; [qend H|].
    apply diagnosed_inv in H as [Hd He]. left. split; [congruence|by left].
Qed.
Lemma publish_proves baseline oid identity w tip w' :
  publish_commit E root lease g baseline oid (of_utf8 sid) identity w = (Ok (Some tip), w') ->
  exists w1 w1', fetch_agent_git_upstream_tip E root (of_utf8 <$> g_branch_ref g)
    (of_utf8 <$> g_upstream_ref g) baseline lease w1 = (Ok (Some tip), w1').
Proof.
  unfold publish_commit. intros H. wok H tip0 w1 Hf. wok H published w2 Hp.
  destruct published.
  - injection H as -> <-. by eexists _, _.
  - wok H u w3 Hpush. by eexists _, _.
Qed.

Lemma push_outcome owner w r w' :
  git_finalization pid sid (registry w) = Some g -> g_state g = PushPending ->
  push_round E root lease j owner w = (r, w') -> round_outcome (registry w) r (registry w').
Proof.
  intros Hg Hst H. unfold push_round in H. cbv beta iota zeta in H.
  destruct (g_task_identity g) as [identity|] eqn:Hid; [|qend H].
  qstep H baseline w1 Hb.
  assert (Hbase : baseline_from_json E (g_worktree_baseline g) = Some baseline).
  { apply need_inv in Hb as [_ [(b & ? & [= ->])|[_ ?]]]; done. }
  destruct (g_commit_oid g) as [oid|] eqn:Hoid; [|qend H].
  qstep H proven w2 Hp. destruct proven; [|qend H]. cbn [negb] in H.
  apply wand_true in Hp as [Hm Hret].
  qstep H found w3 Hpub. destruct found as [tip|]; [|qend H]. apply publish_proves in Hpub.
  qstep H published w4 Htip. destruct published; [|qend H]. cbn [negb] in H.
  apply wand_true in Htip as [Htip _]. qfence H Hf. qstep H now w6 Hnow.
  unfold compare_and_set_plain in H. refine (cas_outcome _ _ _ _ _ Hg _ _ H _); [congruence|done|].
  intros d' Hc. eapply (commit_published _ _ g identity oid tip); try done.
  - by exists baseline.
  - by replace (registry w) with (registry w4) by congruence.
Qed.

Lemma cancel_orphan_outcome l w r w' :
  git_finalization pid sid (registry w) = Some g -> lease = Some l ->
  cancel_orphaned_working_git_journal E root j l w = (r, w') ->
  (registry w' = registry w /\ r <> Ok true)
  \/ (finalizer_step (registry w) (registry w') /\ r = Ok true).
Proof.
  intros Hg Hl H. unfold cancel_orphaned_working_git_journal in H. cbv zeta in H.
  destruct (_ || _ || _ || _); [injection H as <- <-; by left|].
  destruct (negb _); [injection H as <- <-; by left|].
  wstep H e u1 w1 Hc; apply ensure_inv in Hc as [-> _]; [by left|].
  unfold registered_root_is in H.
  wstep H e u2 w1 Hc; wquiet Hc Hr1; [by left|].
  wstep H e u3 w2 Hc1; wquiet Hc1 Hr2; [left; split; [congruence|done]|].
  wstep H e claimed w3 Hc2; wquiet Hc2 Hr3; [left; split; [congruence|done]|].
  destruct claimed; [injection H as <- <-; left; split; [congruence|done]|].
  wstep H e u4 w4 Hc3; wquiet Hc3 Hr4; [left; split; [congruence|done]|].
  wstep H e now w5 Hc4; [discriminate Hc4|]. injection Hc4 as <- <-.
  apply on_registry_inv in H as (_ & Hd & Hr). cbn [fst snd] in *.
  replace (registry w4) with (registry w) in * by congruence.
  match type of Hd with _ = (?c ?d).2 =>
    pose proof (cancel_orphaned_unchanged j (fl_holder l) ORPHANED_JOURNAL_REASON
                  (dec (clock E (git_runs w4))) (dec (clock E (git_runs w4))) d) as Hun;
    destruct (c d) as [[[]|e] d1] eqn:Hcd end; cbn [fst snd] in *.
  - right. destruct Hr as [(? & [= <-] & ->)|(? & ? & _)]; [|done]. split; [|done]. subst d1.
    by eapply orphan_cancelled.
  - left. rewrite Hd. destruct Hr as [(? & [= <-] & ->)|(? & ? & _)]; [|done]. split; [by apply Hun|done].
  - left. rewrite Hd. destruct Hr as [(? & ? & _)|(? & _ & ->)]; [done|]. split; [by apply Hun|done].
Qed.

Lemma cancelled_outcome w r w' :
  git_finalization pid sid (registry w) = Some g ->
  (match lease with
   | Some l => cancel_orphaned_working_git_journal E root j l
   | None => wret false
   end) w = (r, w') ->
  (registry w' = registry w /\ r <> Ok true)
  \/ (finalizer_step (registry w) (registry w') /\ r = Ok true).
Proof.
  intros Hg H. destruct lease as [l|] eqn:Hl; [by apply (cancel_orphan_outcome l)|].
  injection H as <- <-. by left.
Qed.

Lemma working_outcome owner w r w' :
  git_finalization pid sid (registry w) = Some g -> g_state g = Working ->
  working_round E root lease j owner w = (r, w') -> round_outcome (registry w) r (registry w').
Proof.
  intros Hg Hst H. unfold working_round in H. cbv beta iota in H.
  apply wbind_inv in H as [(e & Hc & ->)|(cancelled & w1 & Hc & H)];
    apply cancelled_outcome in Hc as [[Hr Hok]|[Hstep Hok]]; try done; [by left; eauto| |].
  - destruct cancelled; [done|]. rewrite <- Hr in Hg |- *. by apply recover_intent_outcome in H.
  - injection Hok as ->.
    wstep H e found w2 Hq; apply query_inv in Hq as [-> Hq]; [right; split; [done|by left; eauto]|].
    wstep H e retired w2 Hn; apply need_inv in Hn as [-> Hn]; [right; split; [done|by left; eauto]|].
    injection H as <- <-. right. split; [done|]. right. right. exists retired. split; [done|].
    injection Hq as ->. by destruct Hn as [(? & Hn & [= <-])|[_ ?]].
Qed.

Lemma reconcile_round_outcome owner_run_token w r w' :
  git_finalization pid sid (registry w) = Some g ->
  reconcile_round E R root lease j owner_run_token w = (r, w') ->
  round_outcome (registry w) r (registry w').
Proof.
  intros Hg H. unfold reconcile_round in H.
  wstep H e u w1 Hc; apply fence_inv in Hc as [Hr _]; [by left; eauto|]. rewrite <- Hr in Hg |- *.
  cbv zeta in H. cbn [snd] in H. destruct (g_state g) eqn:Hst.
  - by eapply working_outcome.
  - by eapply tracking_outcome.
  - by eapply commit_outcome.
  - by eapply push_outcome.
  - injection H as <- <-. left. eauto.
  - injection H as <- <-. left. eauto.
Qed.
End Round.
Lemma step_advances d d' g :
  git_finalization pid sid d = Some g -> finalizer_step d d' ->
  exists g', git_finalization pid sid d' = Some g' /\ rank (g_state g) < rank (g_state g')
    /\ frozen_part g' = frozen_part g.
Proof.
  assert (Hcas : forall u g0 d1, git_finalization pid sid d = Some g0 ->
    rank (g_state g0) < rank (u_next_state u) -> u_worktree_baseline u = None ->
    coalesce (g_task_identity g0) (u_task_identity u) = g_task_identity g0 ->
    compare_and_set_git_finalization pid sid (g_generation g0) u d = (Ok true, d1) ->
    exists g', git_finalization pid sid d1 = Some g' /\ rank (g_state g0) < rank (g_state g')
      /\ frozen_part g' = frozen_part g0).
  { intros u g0 d1 Hg0 Hlt Hb Hi Hc. apply compare_and_set_true in Hc as (g1 & Hg1 & _ & _ & Hg').
    eexists. split; [exact Hg'|]. split; [done|].
    assert (g1 = g0) as -> by (unfold git_finalization in *; congruence).
    unfold frozen_part, updated_journal. cbn. by rewrite Hb, Hi. }
  assert (Hkept : forall o : option string, coalesce o None = o) by by intros [].
  intros Hg Hstep.
  destruct Hstep as [g0 ? ? ? Hg0 Hst Hid _ _ _ Hc|g0 ? ? Hg0 Hst _ _ _ Hc
                    |g0 ? ? next ? ? Hg0 Hst _ _ Hnext _ Hc|g0 ? ? ? ? ? Hg0 Hst _ _ _ _ _ Hc
                    |g0 l now Hg0 _ Hc];
    rewrite Hg in Hg0; injection Hg0 as <-.
  1-4: unfold recover_git_finalization_intent, compare_and_set_plain in Hc;
    eapply Hcas; [exact Hg| | | |exact Hc]; rewrite ?Hst; cbn; try done; try lia.
  - by rewrite Hid.
  - destruct (g_git_mode g); simplify_eq/=; lia.
  - destruct (cancel_orphaned_row _ _ _ _ _ _ _ _ Hg Hc) as (Hst & g' & Hg' & Hst' & Hf).
    exists g'. split; [exact Hg'|]. split; [|done]. rewrite Hst, Hst'. cbn. lia.
Qed.


Lemma reconcile_rounds_outcome n held g owner w r w' :
  git_finalization pid sid (registry w) = Some g ->
  reconcile_rounds E R root lease n held ((pid, sid), g) owner w = (r, w') ->
  rtc finalizer_step (registry w) (registry w')
  /\ (forall j, r = Ok j -> snapshot pid sid (registry w') = Some j).
Proof.
  revert held g w. induction n as [|n IH]; intros held g w Hg H; cbn [reconcile_rounds] in H.
  { injection H as <- <-. by split. }
  wstep H e held' w1 Hc; unfold coordination_guard in Hc; wquiet Hc Hr; rewrite <- Hr in Hg |- *.
  { by split. }
  wstep H e ended w2 Hround; apply reconcile_round_outcome in Hround; try exact Hg.
  { destruct Hround as [[-> _]|[Hstep _]]; [by split|]. split; [by apply rtc_once|done]. }
  destruct Hround as [[Hsame Hend]|[Hstep Hend]].
  - rewrite <- Hsame in Hg |- *. destruct Hend as [[? [=]]|[[= ->]|[= ->]]].
    + injection H as <- <-. split; [done|]. intros ? [= <-]. unfold snapshot. by rewrite Hg.
    + by eapply IH.
  - destruct Hend as [[? [=]]|[[= ->]|(j' & [= ->] & Hj)]].
    + wstep H e found w3 Hq; apply query_inv in Hq as [-> Hq]; [split; [by apply rtc_once|done]|].
      injection Hq as ->. cbn [fst snd] in H.
      destruct (step_advances _ _ _ Hg Hstep) as (g2 & Hg2 & _ & _).
      unfold snapshot in H. rewrite Hg2 in H.
      wstep H e journal w3 Hn; apply need_inv in Hn as [-> [(? & [= <-] & Hn)|[? _]]]; try done.
      injection Hn as ->. apply IH in H as [Hrtc Hres]; [|done]. split; [|done]. by eapply rtc_l.
    + injection H as <- <-. split; [by apply rtc_once|]. by intros ? [= <-].
Qed.

Lemma same_again_repairs g owner w w' :
  reconcile_round E R root lease ((pid, sid), g) owner w = (Ok SameAgain, w') ->
  exists commit w1 w2, repair_board_order E R root ((pid, sid), g) commit lease w1 = (Ok true, w2).
Proof.
  unfold reconcile_round. intros H. wok H u w1 Hf. cbv zeta in H. cbn [snd] in H.
  destruct (g_state g); try done.
  - unfold working_round, recover_intent in H. cbv beta iota in H. wok H cancelled w2 Hc.
    destruct cancelled; [by wok H a2 w3 H2; wok H a3 w4 H3|].
    destruct (g_task_identity g); [|done]. wok H a2 w3 H2. destruct (_ && _); [done|].
    wok H a3 w4 H3. destruct (negb a3); [done|]. wok H a4 w5 H4. wok H a5 w6 H5. by wok H a6 w7 H6.
  - unfold tracking_round in H. cbv beta iota in H. destruct (g_task_identity g); [|done].
    wok H a2 w3 H2. destruct (negb a2); [done|]. wok H a3 w4 H3. wok H a4 w5 H4.
    destruct (negb a4); [done|]. wok H a5 w6 H5. wok H a6 w7 H6. destruct (negb a6); [done|].
    wok H a7 w8 H7. wok H a8 w9 H8. by wok H a9 w10 H9.
  - unfold commit_round in H. cbv beta iota in H. destruct (g_starting_head g); [|done].
    destruct (g_task_identity g); [|done]. cbv zeta in H. wok H a2 w3 H2. wok H a3 w4 H3.
    destruct a3 as [commit|]; [|done]. wok H a4 w5 H4. destruct a4; cbn [negb] in H.
    + unfold accept_commit, diagnosed in H. cbv beta iota in H. wok H a5 w6 H5.
      destruct (negb a5); [by wok H a6 w7 H6|]. wok H a6 w7 H6. wok H a7 w8 H7. wok H a8 w9 H8.
      by wok H a9 w10 H9.
    + wok H a5 w6 H5. destruct a5; [by exists commit, w5, w6|]. unfold diagnosed in H. by wok H a6 w7 H6.
  - unfold push_round in H. cbv beta iota zeta in H. destruct (g_task_identity g); [|done].
    wok H a2 w3 H2. destruct (g_commit_oid g); [|done]. wok H a3 w4 H3. destruct (negb a3); [done|].
    wok H a4 w5 H4. destruct a4; [|done]. wok H a5 w6 H5. destruct (negb a5); [done|].
    wok H a6 w7 H6. wok H a7 w8 H7. by wok H a8 w9 H8.
Qed.

(** More rounds than the journal can take change nothing. *)
Lemma more_rounds_change_nothing n k held g owner w :
  (forall g commit w1, (repair_board_order E R root ((pid, sid), g) commit lease w1).1 <> Ok true) ->
  git_finalization pid sid (registry w) = Some g -> 4 - rank (g_state g) < n ->
  reconcile_rounds E R root lease (n + k) held ((pid, sid), g) owner w
  = reconcile_rounds E R root lease n held ((pid, sid), g) owner w.
Proof.
  intros Hrepair. revert held g w. induction n as [|n IH]; intros held g w Hg Hn; [lia|].
  cbn [Nat.add reconcile_rounds]. apply wbind_ext. intros held' w1 Hc.
  unfold coordination_guard in Hc. wquiet Hc Hr. rewrite <- Hr in Hg.
  apply wbind_ext. intros ended w2 Hround.
  pose proof (reconcile_round_outcome g owner _ _ _ Hg Hround) as Hout. destruct ended as [j'| |]; [done| |].
  - destruct Hout as [[_ [[? [=]]|[[=]|[=]]]]|[Hstep _]]. cbn [fst snd].
    destruct (step_advances _ _ _ Hg Hstep) as (g2 & Hg2 & Hlt & _).
    apply wbind_ext. intros found w3 Hq. apply query_inv in Hq as [-> [= ->]].
    assert (rank (g_state g2) <= 4) by (destruct (g_state g2); cbn; lia).
    unfold snapshot. rewrite Hg2. cbn. apply IH; [done|lia].
  - exfalso. eapply same_again_repairs in Hround as (commit & w3 & w4 & Hrep).
    apply (Hrepair g commit w3). by rewrite Hrep.
Qed.
End Finalizer.

(** C8: Whatever a finalization returns, it changed the registry only by steps of the abstract finalizer: each of them found the journal in the right state, held the project's lease when the finalization has one, and had Git's proof of what it recorded; the journal it returns is the one the registry has. *)
Theorem finalization_refines_finalizer E R root lease pid sid g owner w r w' :
  git_finalization pid sid (registry w) = Some g ->
  reconcile_agent_git_finalization E R root lease ((pid, sid), g) owner w = (r, w') ->
  rtc (finalizer_step E root lease pid sid) (registry w) (registry w')
  /\ (forall j, r = Ok j -> snapshot pid sid (registry w') = Some j).
Proof. apply reconcile_rounds_outcome. Qed.





(** C9: Six rounds are enough: as long as no other process changes the registry meanwhile and the order of the board is not repaired, a loop with more rounds ends with the same result. *)
Theorem six_rounds_are_enough E R root lease pid sid g owner w k :
  git_finalization pid sid (registry w) = Some g ->
  (forall g commit w1, (repair_board_order E R root ((pid, sid), g) commit lease w1).1 <> Ok true) ->
  reconcile_rounds E R root lease (6 + k) false ((pid, sid), g) owner w
  = reconcile_agent_git_finalization E R root lease ((pid, sid), g) owner w.
Proof. intros Hg Hrepair. apply more_rounds_change_nothing; [done|done|lia]. Qed.

(** ** Witnesses *)

Definition awaiting : journal_row :=
  default (new_journal (mkNewJournal 1 "" GitCommit None None None "" None None ""))
    (git_finalization 1 sid (registry sealed_world)).

Definition finalized : res refusal journal_snapshot * world :=
  reconcile_agent_git_finalization committed_surroundings sample_repair sample_root None
    ((1%Z, sid), awaiting) None sealed_world.

Lemma finalization_refines_finalizer_witness :
  rtc (finalizer_step committed_surroundings sample_root None 1 sid) (registry sealed_world)
    (registry finalized.2).
Proof.
  assert (Hg : git_finalization 1 sid (registry sealed_world) = Some awaiting)
    by (vm_compute; reflexivity).
  exact (proj1 (finalization_refines_finalizer committed_surroundings sample_repair sample_root None 1 sid
    awaiting None sealed_world finalized.1 finalized.2 Hg (surjective_pairing finalized))).
Defined.


Lemma six_rounds_are_enough_witness :
  reconcile_rounds committed_surroundings sample_repair sample_root None 60 false ((1%Z, sid), awaiting)
    None sealed_world = finalized.
Proof.
  apply (six_rounds_are_enough committed_surroundings sample_repair sample_root None 1 sid awaiting None
           sealed_world 54); [vm_compute; reflexivity|discriminate].
Defined.
