(* ===== verification/History.v ===== *)
(** What a run of the scheduler leaves in the registry: the result of a sequence of
    commands of the transition system, for the visit of a project of commands about
    that project only. *)
From S2P Require Import Prelude Sql AgentTypes Leases Workers Runs Sessions Handoff Journals.
From S2P Require Import Retire Recovery Holders.
From S2P Require Import Projects Text Models Markers TaskNotes Metadata TaskEntry Files Board.
From S2P Require Import BoardTree.
From S2P Require Import World Surroundings Git Manifest Scheduling SnapshotLoad Guards Workflow.
From S2P Require Import GitRetire GitPublish GitRepair GitFinalize Supervisor Completed Reattach.
From S2P Require Import GitRecovery.
From S2P Require Import Dispatch Scheduler GitQuiet Registry Footprint Isolation SupervisorProps.
From S2P Require Import Store.

(** ** Histories *)

Definition follows (allowed : command -> bool) (d d' : db) : Prop :=
  exists cs, Forall (fun c => allowed c = true) cs /\ d' = exec_all cs d.

#[export] Instance follows_preorder allowed : PreOrder (follows allowed).
Proof.
  split; [by exists []|]. intros d1 d2 d3 (cs & Hcs & ->) (cs' & Hcs' & ->).
  exists (cs ++ cs'). split; [by apply Forall_app|]. unfold exec_all. by rewrite foldl_app.
Qed.

Lemma follows_exec allowed c d d' : follows allowed d d' -> allowed c = true -> follows allowed d (exec c d').
Proof. intros Hd Hc. etrans; [done|]. exists [c]. by split; [constructor|]. Qed.
Lemma follows_mono (few many : command -> bool) d d' :
  (forall c, few c = true -> many c = true) -> follows few d d' -> follows many d d'.
Proof. intros Hmore (cs & Hcs & ->). exists cs. split; [|done]. by eapply Forall_impl. Qed.
Lemma follows_isolated pid d d' : follows (about pid) d d' -> only_project pid d d'.
Proof. intros (cs & Hcs & ->). by apply exec_all_isolated. Qed.
Lemma follows_reachable allowed d d' : follows allowed d d' -> reachable d -> reachable d'.
Proof.
  intros (cs & _ & ->) [before ->]. exists (before ++ cs). unfold exec_all. by rewrite foldl_app.
Qed.

(** The command an operation is. *)
Ltac command_of op :=
  lazymatch op with
  | try_acquire_lease ?p ?h ?a ?e => constr:(TryAcquireLease p h a e)
  | try_acquire_git_finalization_lease ?p ?h ?a ?e ?r => constr:(TryAcquireFinalizationLease p h a e r)
  | release_lease ?p ?h => constr:(ReleaseLease p h)
  | cancel_idle_session_interactive ?p ?s ?h ?n => constr:(CancelIdleInteractive p s h n)
  | recover_stale_interactive_guardian ?p ?s ?g ?c ?i ?n => constr:(RecoverStaleGuardian p s g c i n)
  | recover_stale_automated_session_control ?p ?s Running ResumeRequested ?c ?t ?n =>
      constr:(RecoverStaleRunning p s c t n)
  | recover_stale_automated_session_control ?p ?s StopRequested Stopped ?c ?t ?n =>
      constr:(RecoverStaleStopping p s c t n)
  | recover_stale_interactive_session_control ?p ?s ReadyInteractive ResumeRequested ?h ?n =>
      constr:(RecoverStaleHandoff p s false h n)
  | recover_stale_interactive_session_control ?p ?s Interactive ResumeRequested ?h ?n =>
      constr:(RecoverStaleHandoff p s true h n)
  | finalize_reaped_automated_session ?p ?c ?t ?h ?a ?e ?n => constr:(FinalizeReaped p c t h a e n)
  | ensure_pending_git_finalization_resume_requested ?p ?s ?n => constr:(EnsureFinalizationResume p s n)
  | Handoff.retire_completed_resume_request ?o ?n => constr:(RetireCompletedResume o n)
  | clear_orphaned_resume_requested_session ?p ?s ?n => constr:(ClearOrphanedResume p s n)
  | clear_autonomous_push_resume_request ?p ?s => constr:(ClearPushResume p s)
  | compare_and_set_plain ?p ?s ?g ?x ?o ?c ?l ?u =>
      constr:(CompareAndSetJournal p s g (Journals.mkUpdate x None None false o c l u))
  | recover_git_finalization_intent ?p ?s ?g ?i ?o ?u =>
      constr:(CompareAndSetJournal p s g (Journals.mkUpdate Tracking (Some i) None false o None None u))
  | acknowledge_completed_git_finalization_session ?p ?s ?n => constr:(AcknowledgeJournal p s n)
  | cancel_orphaned_working_git_finalization ?x ?h ?r ?a ?n => constr:(CancelOrphanedJournal x h r a n)
  | retire_abandoned_unbound_git_finalization ?p ?s ?g ?c ?r ?a => constr:(RetireAbandonedJournal p s g c r a)
  | retire_superseded_working_git_finalization ?x ?c ?a => constr:(RetireSupersededJournal x c a)
  | begin_missing_git_recovery ?q => constr:(BeginRecovery q)
  | finish_missing_git_recovery ?p ?h ?n => constr:(FinishRecovery p h n)
  | record_run_outcome ?o => constr:(RecordRunOutcome o)
  | record_project_daemon_scan ?p ?s ?e ?n => constr:(RecordDaemonScan p s e n)
  | save_supervisor_review ?p ?r => constr:(SaveReview p r)
  | clear_supervisor_review ?pending ?p => constr:(ClearReview pending p)
  | abandon_worker ?a => constr:(AbandonWorker a)
  | mark_worker_service_cleaned ?t ?a => constr:(MarkServiceCleaned t a)
  | record_daemon_checkin ?h ?m ?s ?a ?e => constr:(RecordDaemonCheckin h m s a e)
  | reserve_worker ?r ?c => constr:(ReserveWorker r c)
  | claim_worker ?t ?p ?a => constr:(ClaimWorker t p a)
  | renew_worker ?t ?p ?a ?e => constr:(RenewWorker t p a e)
  | finalize_worker ?f => constr:(FinalizeWorker f)
  | supersede_abandoned_workers_for_lease ?p ?h => constr:(SupersedeAbandoned p h)
  | complete_session_stop ?p ?s ?t ?n => constr:(CompleteStop p s t n)
  | complete_session_interrupt_handoff ?p ?s ?t ?f ?a ?e ?n => constr:(CompleteInterruptHandoff p s t f a e n)
  | clear_running_session_control ?p ?s ?t => constr:(ClearRunningControl p s t)
  | recover_unmanaged_session_git_mode ?p ?s ?e => constr:(RecoverUnmanagedMode p s e)
  | compare_and_set_owned_git_finalization ?p ?s ?g ?x ?o ?c ?l ?u =>
      constr:(CompareAndSetJournal p s g (Journals.mkUpdate x None None true (Some o) c l u))
  end.

(** ** Computations that issue commands *)

(** A tried computation keeps what it keeps, and its result what its value satisfies. *)
Lemma maintains_wtry {A} (I : db -> Prop) (c : wio A) :
  maintains I (fun _ => True) c -> maintains I (fun _ => True) (wtry c).
Proof.
  intros Hc w Hw. specialize (Hc w Hw) as [Hw' _]. unfold wtry. destruct (c w) as [r w1]. by split.
Qed.
Lemma maintains_wtry_result {A} (I : db -> Prop) (P : A -> Prop) (c : wio A) :
  maintains I P c -> maintains I (fun r => forall a, r = Ok a -> P a) (wtry c).
Proof.
  intros Hc w Hw. specialize (Hc w Hw) as [Hw' Ha]. unfold wtry. destruct (c w) as [r w1]. split; [done|].
  by intros ? [= <-].
Qed.

Lemma maintains_each {A} (I : db -> Prop) (P : A -> Prop) (f : A -> wio unit) (l : list A) :
  Forall P l -> (forall a, P a -> maintains I (fun _ => True) (f a)) ->
  maintains I (fun _ => True) (wfor_each f l).
Proof.
  intros Hl Hf. induction Hl as [|a l Ha Hl IH]; [by apply maintains_ret|].
  cbn [wfor_each]. eapply maintains_bind; [by apply Hf|]. by intros ? _.
Qed.

Section Issue.
Context (allowed : command -> bool) (d0 : db).
Local Notation keeps := (maintains (follows allowed d0)).
Local Notation any := (fun _ => True).

Lemma issue_keeps {A} (c : command) (op : store_op A) :
  allowed c = true -> (forall d, exec c d = (op d).2) -> keeps any (on_registry op).
Proof. intros Hc Hop. apply maintains_registry. intros d Hd. rewrite <- Hop. by apply follows_exec. Qed.

Lemma wand_keeps a b : keeps any a -> keeps any b -> keeps any (wand a b).
Proof. intros Ha Hb. unfold wand. eapply maintains_bind; [exact Ha|]. intros [] _; [done|]. by apply maintains_ret. Qed.
Lemma count_keeps {A} (P : A -> Prop) (f : A -> wio bool) (l : list A) :
  Forall P l -> (forall a, P a -> keeps any (f a)) -> keeps any (wcount f l).
Proof.
  intros Hl Hf. induction Hl as [|a l Ha Hl IH]; [by apply maintains_ret|]. cbn [wcount].
  eapply maintains_bind; [by apply Hf|]. intros ? _. eapply maintains_bind; [exact IH|]. intros ? _.
  by apply maintains_ret.
Qed.
Lemma first_keeps {A B} (P : A -> Prop) (f : A -> wio (option B)) (l : list A) :
  Forall P l -> (forall a, P a -> keeps any (f a)) -> keeps any (first_some f l).
Proof.
  intros Hl Hf. induction Hl as [|a l Ha Hl IH]; [by apply maintains_ret|]. cbn [first_some].
  eapply maintains_bind; [by apply Hf|]. intros [b|] _; [by apply maintains_ret|exact IH].
Qed.
Lemma recovery_keeps {A} (P : A -> Prop) (f : A -> wio (option text)) (l : list A) :
  Forall P l -> (forall a, P a -> keeps any (f a)) -> keeps any (first_recovery f l).
Proof.
  intros Hl Hf. induction Hl as [|a l Ha Hl IH]; [by apply maintains_ret|]. cbn [first_recovery].
  eapply maintains_bind; [by apply Hf|]. intros [b|] _; [by apply maintains_ret|exact IH].
Qed.
Lemma plain_each {A} (P : A -> Prop) (l : list A) : (forall a, P a) -> Forall P l.
Proof. intros HP. by apply Forall_true. Qed.
End Issue.

Lemma keeps_mono {A} (few many : command -> bool) d0 (Q : A -> Prop) (c : wio A) :
  (forall c, few c = true -> many c = true) ->
  (forall d, maintains (follows few d) Q c) -> maintains (follows many d0) Q c.
Proof.
  intros Hmore Hc w Hw. destruct (Hc (registry w) w (reflexivity _)) as [Hfew HQ]. split; [|done].
  etrans; [exact Hw|]. by apply (follows_mono few).
Qed.

Lemma about_self pid c : subject c = Some pid -> about pid c = true.
Proof. intros H. unfold about. by apply bool_decide_eq_true. Qed.

(** The commands of a visit: about its project, and not about its workers. *)
Definition writes_workers (c : command) : bool :=
  match c with ReserveWorker _ _ | SupersedeAbandoned _ _ => true | _ => false end.
Definition visiting (pid : Z) (c : command) : bool := about pid c && negb (writes_workers c).

Lemma visiting_self pid c : subject c = Some pid -> writes_workers c = false -> visiting pid c = true.
Proof. intros H Hw. unfold visiting. by rewrite about_self, Hw. Qed.
Lemma visiting_about pid c : visiting pid c = true -> about pid c = true.
Proof. by intros [? _]%andb_true_iff. Qed.
Lemma visits_about {A} pid d0 (Q : A -> Prop) (c : wio A) :
  (forall d, maintains (follows (visiting pid) d) Q c) -> maintains (follows (about pid) d0) Q c.
Proof. by apply keeps_mono, visiting_about. Qed.

Definition journal_of (pid : Z) (j : journal_snapshot) : Prop := j.1.1 = pid.
Definition project_of (pid : Z) (p : Z * project_row) : Prop := p.1 = pid.

Create HintDb own_db.
(** Proves that something is of the project. *)
Ltac own :=
  cbn in *; subst;
  repeat match goal with H : forall j, Some ?x = Some j -> _ |- _ => specialize (H _ eq_refl) end;
  unfold journal_of, project_of in *; cbn in *; subst;
  first [done | congruence | eauto with own_db].
#[export] Hint Constants Opaque : maintains_db registry_db still_db.
#[export] Hint Extern 3 (maintains _ _ (wret _)) => (apply maintains_ret; solve [own]) : maintains_db.
#[export] Hint Extern 1 (maintains _ _ (on_registry ?op)) =>
  (let c := command_of op in
   apply (issue_keeps _ _ c); [first [apply visiting_self; [solve [own]|reflexivity] | apply about_self; solve [own] | solve [own]]
                               |intros ?; reflexivity]) : maintains_db.
#[export] Hint Extern 2 (@eq Z _ _) => solve [own] : maintains_db.
#[export] Hint Resolve maintains_wtry wand_keeps : maintains_db.
#[export] Hint Extern 3 (keeps_registry (fun _ => (Ok _, _))) => (intros ?; reflexivity) : registry_db.

(** ** What only reads *)

Section Reading.
Context (E : Surroundings).

Lemma still_seconds : still (agent_timestamp_seconds E).
Proof. intros w. apply still_here. Qed.
Lemma still_after seconds : still (agent_timestamp_after E seconds).
Proof. intros w. apply still_here. Qed.
Lemma quiet_waiting_at U fj up p e gs ej u5 root session :
  keeps_registry (session_waiting_at U fj up p e gs ej u5 root session).
Proof.
  unfold session_waiting_at, admission, load_with_context, load_runtime, load_runtime_from_store. keep_registry.
Qed.
Lemma quiet_project_board pid : keeps_registry (lock_project_board pid).
Proof. unfold lock_project_board. keep_registry. Qed.
Lemma quiet_repair_move status tasks : keeps_registry (repair_move status tasks).
Proof. unfold repair_move. keep_registry. Qed.
#[local] Hint Resolve quiet_project_board quiet_repair_move : registry_db.
Lemma quiet_linked_task board session status : keeps_registry (linked_task E board session status).
Proof. unfold linked_task. keep_registry. Qed.
Lemma quiet_conversion board status : keeps_registry (ensure_status_conversion_allowed E board status).
Proof.
  unfold ensure_status_conversion_allowed, ensure_entries_allowed, ensure_managed_git_task_mutation_allowed,
    ensure_working_task_content_preserves_identity. keep_registry.
Qed.
#[local] Hint Resolve quiet_linked_task quiet_conversion : registry_db.
Lemma quiet_destination board task status : keeps_registry (prepare_destination E board task status).
Proof. unfold prepare_destination. keep_registry. Qed.
#[local] Hint Resolve quiet_destination : registry_db.
Lemma quiet_restore board session : keeps_registry (restore_completed_task_after_lock E board session).
Proof. unfold restore_completed_task_after_lock. keep_registry. Qed.
#[local] Hint Resolve quiet_restore : registry_db.
Lemma quiet_restore_idle pid : keeps_registry (restore_idle_completed_tasks E pid).
Proof. unfold restore_idle_completed_tasks, restore_idle_task. keep_registry. Qed.
Lemma quiet_orphaned_lease pid l : keeps_registry (orphaned_interactive_lease E pid l).
Proof. unfold orphaned_interactive_lease. keep_registry. Qed.
Lemma quiet_root pid root : keeps_registry (registered_root_is pid root).
Proof. unfold registered_root_is. keep_registry. Qed.
Lemma quiet_superseding pid board j i : keeps_registry (superseding_journal E pid board j i).
Proof. unfold superseding_journal. keep_registry. Qed.
Lemma quiet_superseding_commit root base start j commit start' i :
  keeps_registry (superseding_commit_is_proven E root base start j commit start' i).
Proof. unfold superseding_commit_is_proven. keep_registry; repeat apply quiet_wand; keep_registry. Qed.
Lemma quiet_history root j start : keeps_registry (working_git_history_is_safe E root j start).
Proof. unfold working_git_history_is_safe. keep_registry. Qed.
#[local] Hint Resolve quiet_history : registry_db.
Lemma quiet_relink root session i stopped : keeps_registry (relink_working_task E root session i stopped).
Proof. unfold relink_working_task. keep_registry. Qed.
#[local] Hint Resolve quiet_relink : registry_db.
Lemma quiet_link_repair root j : keeps_registry (repair_working_git_task_link E root j).
Proof. unfold repair_working_git_task_link. keep_registry. Qed.
Lemma quiet_guard root held j : keeps_registry (coordination_guard E root held j).
Proof. unfold coordination_guard. keep_registry. Qed.
End Reading.
#[export] Hint Resolve still_seconds still_after : still_db.
#[export] Hint Resolve quiet_waiting_at quiet_project_board quiet_restore quiet_restore_idle
  quiet_orphaned_lease quiet_root quiet_superseding quiet_superseding_commit quiet_link_repair quiet_guard
  : registry_db.

(** ** The visit of a project, operation by operation *)

Section Visit.
Context (E : Surroundings) (pid : Z) (d0 : db).
Local Notation keeps := (maintains (follows (visiting pid) d0)).
Local Notation any := (fun _ => True).

(** *** Completed tasks and sessions without a worker *)

Lemma retire_completed_keeps p session now :
  p = pid -> keeps any (Completed.retire_completed_resume_request E p session now).
Proof. intros ->. unfold Completed.retire_completed_resume_request. maintain. Qed.
Lemma guardian_task_keeps p session guardian child disposition :
  p = pid -> keeps any (recover_stale_interactive_guardian_with_task E p session guardian child disposition).
Proof. intros ->. unfold recover_stale_interactive_guardian_with_task. maintain. Qed.
Lemma reclaim_lease_keeps p l own :
  p = pid -> keeps any (try_reclaim_inactive_agent_lease E p l own).
Proof. intros ->. unfold try_reclaim_inactive_agent_lease. maintain. Qed.
#[local] Hint Resolve reclaim_lease_keeps : maintains_db.
Lemma supervision_keeps P p sid :
  p = pid -> keeps any (ensure_orphaned_session_supervision E P p sid).
Proof. intros ->. unfold ensure_orphaned_session_supervision, reattach. maintain. Qed.
#[local] Hint Resolve retire_completed_keeps guardian_task_keeps supervision_keeps : maintains_db.

(** *** Journals *)

Lemma pending_own d : Forall (journal_of pid) (list_pending_git_finalizations (Some pid) d).
Proof.
  unfold list_pending_git_finalizations, list_journals. rewrite sort_by_perm. apply Forall_forall.
  intros j [Hj _]%list_elem_of_filter. apply andb_true_iff in Hj as [_ Hj].
  exact (proj1 (bool_decide_eq_true _) Hj).
Qed.
Lemma found_own (f : journal_snapshot -> bool) l j : Forall (journal_of pid) l -> List.find f l = Some j -> journal_of pid j.
Proof. intros Hl [Hj _]%find_some. apply list_elem_of_In in Hj. rewrite Forall_forall in Hl. by apply Hl. Qed.
Lemma filter_own (f : journal_snapshot -> bool) l : Forall (journal_of pid) l -> Forall (journal_of pid) (List.filter f l).
Proof.
  rewrite !Forall_forall. intros Hl j Hj. apply list_elem_of_In, filter_In in Hj as [Hj _].
  apply Hl. by apply list_elem_of_In.
Qed.
Lemma pending_keeps : keeps (Forall (journal_of pid)) (query (list_pending_git_finalizations (Some pid))).
Proof. eapply maintains_weaken; [apply maintains_query|]. intros l (d & _ & ->). apply pending_own. Qed.
Lemma first_push_keeps :
  keeps (fun o => forall j, o = Some j -> journal_of pid j) (query (first_push_pending pid)).
Proof.
  eapply maintains_weaken; [apply maintains_query|]. intros o (d & _ & ->) j. apply found_own, pending_own.
Qed.
Lemma snapshot_keeps p sid :
  p = pid -> keeps (fun o => forall j, o = Some j -> journal_of pid j) (query (snapshot p sid)).
Proof.
  intros ->. eapply maintains_weaken; [apply maintains_query|]. intros o (d & _ & ->) j.
  unfold snapshot. destruct (git_finalization _ _ _); [|done]. by intros [= <-].
Qed.
#[local] Hint Resolve pending_own filter_own : own_db.
#[local] Hint Resolve pending_keeps first_push_keeps snapshot_keeps : maintains_db.
Lemma release_interactive_keeps n p holder :
  p = pid -> keeps any (release_interactive_lease n p holder).
Proof. intros ->. induction n as [|n IH]; cbn [release_interactive_lease]; maintain. Qed.
#[local] Hint Resolve release_interactive_keeps : maintains_db.
Lemma release_finalization_keeps lease :
  fl_project_id lease = pid -> keeps any (release_finalization_lease E lease).
Proof. intros Hl. unfold release_finalization_lease. maintain. Qed.
Lemma finalization_lease_keeps p holder heartbeat reclaim :
  p = pid ->
  keeps (fun o => forall lease, o = Some lease -> fl_project_id lease = pid)
    (try_acquire_agent_git_finalization_lease E p holder heartbeat reclaim).
Proof.
  intros ->. unfold try_acquire_agent_git_finalization_lease. maintain. apply maintains_ret.
  intros lease. case_match; [|done]. by intros [= <-].
Qed.
Lemma push_retry_keeps n p error lease :
  p = pid -> keeps any (record_push_retry E n p error lease).
Proof.
  intros ->. induction n as [|n IH]; cbn [record_push_retry]; maintain.
Qed.
#[local] Hint Resolve release_finalization_keeps finalization_lease_keeps push_retry_keeps : maintains_db.

Lemma cancel_orphaned_keeps root j lease :
  journal_of pid j -> keeps any (cancel_orphaned_working_git_journal E root j lease).
Proof. intros Hj. unfold cancel_orphaned_working_git_journal. maintain. Qed.
Lemma retire_journal_keeps p board j :
  p = pid -> keeps any (retire_abandoned_journal E p board j).
Proof. intros ->. unfold retire_abandoned_journal. maintain. Qed.
Lemma retire_abandoned_keeps p : project_of pid p -> keeps any (retire_abandoned_unbound_git_journals E p).
Proof.
  intros Hp. unfold retire_abandoned_unbound_git_journals. rewrite Hp.
  eapply maintains_bind; [apply pending_keeps|cbv beta; intros l Hl].
  apply (count_keeps _ _ (journal_of pid)); [by apply filter_own|]. intros j _. by apply retire_journal_keeps.
Qed.
Lemma retire_superseded_journal_keeps p root j :
  p = pid -> journal_of pid j -> keeps any (retire_superseded_journal E p root j).
Proof. intros -> Hj. unfold retire_superseded_journal. maintain. Qed.
Lemma retire_superseded_keeps p : project_of pid p -> keeps any (retire_superseded_working_git_journals E p).
Proof.
  intros Hp. unfold retire_superseded_working_git_journals. rewrite Hp.
  eapply maintains_bind; [apply pending_keeps|cbv beta; intros l Hl].
  apply (count_keeps _ _ (journal_of pid)); [done|]. intros j Hj. by apply retire_superseded_journal_keeps.
Qed.

Section Finalize.
Context (R : RepairSurroundings) (root : path) (error_text : refusal -> string).
Definition round_of (r : RoundEnd) : Prop := match r with Return j => journal_of pid j | _ => True end.

Lemma recover_intent_keeps lease j owner :
  journal_of pid j -> keeps round_of (recover_intent E root lease j owner).
Proof. intros Hj. unfold recover_intent. maintain. Qed.
Lemma tracking_keeps lease j owner :
  journal_of pid j -> keeps round_of (tracking_round E root lease j owner).
Proof. intros Hj. unfold tracking_round. maintain. Qed.
Lemma diagnosed_keeps {A} (Q : A -> Prop) j : keeps Q (diagnosed E root j).
Proof.
  unfold diagnosed. eapply maintains_bind; [apply maintains_quiet; keep_registry|].
  intros ? _. apply maintains_refuse.
Qed.
#[local] Hint Resolve @diagnosed_keeps : maintains_db.
Lemma accept_keeps lease j owner oid i :
  journal_of pid j -> keeps round_of (accept_commit E root lease j owner oid i).
Proof. intros Hj. unfold accept_commit. maintain. Qed.
#[local] Hint Resolve cancel_orphaned_keeps recover_intent_keeps tracking_keeps accept_keeps : maintains_db.
Lemma working_keeps lease j owner :
  journal_of pid j -> keeps round_of (working_round E root lease j owner).
Proof. intros Hj. unfold working_round. maintain. Qed.
Lemma commit_keeps lease j owner :
  journal_of pid j -> keeps round_of (commit_round E R root lease j owner).
Proof. intros Hj. unfold commit_round. maintain. Qed.
Lemma push_keeps lease j owner :
  journal_of pid j -> keeps round_of (push_round E root lease j owner).
Proof. intros Hj. unfold push_round. maintain. Qed.
#[local] Hint Resolve working_keeps commit_keeps push_keeps : maintains_db.
Lemma round_keeps lease j owner :
  journal_of pid j -> keeps round_of (reconcile_round E R root lease j owner).
Proof. intros Hj. unfold reconcile_round. maintain. Qed.
#[local] Hint Resolve round_keeps : maintains_db.
Lemma rounds_keep n held lease j owner :
  journal_of pid j -> keeps (journal_of pid) (reconcile_rounds E R root lease n held j owner).
Proof.
  revert held j. induction n as [|n IH]; intros held j Hj; cbn [reconcile_rounds]; maintain.
Qed.
Lemma record_error_keeps lease j e :
  journal_of pid j -> keeps any (record_reconcile_error E lease error_text j e).
Proof. intros Hj. unfold record_reconcile_error. maintain. Qed.
#[local] Hint Resolve record_error_keeps : maintains_db.
Lemma attempt_keeps lease j :
  journal_of pid j ->
  keeps (fun r => forall j, r = Ok j -> journal_of pid j)
    (wtry (reconcile_rounds E R root lease 6 false j None)).
Proof.
  intros Hj w Hw. destruct (rounds_keep 6 false lease j None Hj w Hw) as [Hw' Hr].
  unfold wtry. destruct (reconcile_rounds _ _ _ _ _ _ _ _ w) as [r w1]. cbn in *. split; [done|].
  by intros ? [= ->].
Qed.
Lemma reconcile_journal_keeps lease j :
  journal_of pid j -> keeps (journal_of pid) (reconcile_pending_journal E R root lease error_text j).
Proof.
  intros Hj. unfold reconcile_pending_journal, reconcile_agent_git_finalization.
  eapply maintains_bind; [by apply attempt_keeps|cbv beta; intros r Hr]. maintain.
  intros w Hw. split; [done|]. by apply Hr.
Qed.
Lemma reconcile_each_keeps lease l :
  Forall (journal_of pid) l -> keeps (Forall (journal_of pid)) (reconcile_each E R root lease error_text l).
Proof.
  intros Hl. induction Hl as [|j l Hj Hl IH]; cbn [reconcile_each]; [by apply maintains_ret|].
  eapply maintains_bind; [by apply reconcile_journal_keeps|cbv beta; intros j' Hj'].
  eapply maintains_bind; [exact IH|cbv beta; intros l' Hl']. apply maintains_ret. by constructor.
Qed.
Lemma reconcile_pending_keeps lease p :
  p = pid ->
  keeps (Forall (journal_of pid)) (reconcile_pending_agent_git_finalizations E R root lease error_text p).
Proof.
  intros ->. unfold reconcile_pending_agent_git_finalizations.
  eapply maintains_bind; [apply pending_keeps|cbv beta]. apply reconcile_each_keeps.
Qed.
End Finalize.

(** *** Explicit recovery *)

Section Recovery.
Context (read_small_log : string -> option text) (automated_child : bool).
Context (holder_for_current_process : nat -> string) (today : nat -> text).
Local Notation finish := (finish_recovery E today).

Lemma quiet_requeue plan linked index : keeps_registry (requeue_task E today plan linked index).
Proof. unfold requeue_task, prioritized. keep_registry. Qed.
#[local] Hint Resolve quiet_requeue : registry_db.
Definition plan_of (plan : GitRecoveryPlan) : Prop := project_of pid (pl_project plan).

Lemma finish_recovery_keeps plan holder chosen : plan_of plan -> keeps any (finish plan holder chosen).
Proof. intros Hp. unfold finish_recovery. maintain. Qed.
#[local] Hint Resolve finish_recovery_keeps : maintains_db.
Lemma quiet_position linked : keeps_registry (position_of_task E linked).
Proof. unfold position_of_task. keep_registry. Qed.
#[local] Hint Resolve quiet_position : registry_db.
Lemma quiet_chosen plan : keeps_registry (chosen_task E plan).
Proof. unfold chosen_task. keep_registry. Qed.
Lemma quiet_checkout plan : keeps_registry (verify_checkout E plan).
Proof. unfold verify_checkout. keep_registry. Qed.
Lemma quiet_conflict plan : keeps_registry (verify_writer_conflict E read_small_log plan).
Proof. unfold verify_writer_conflict. keep_registry. Qed.
#[local] Hint Resolve quiet_chosen quiet_checkout quiet_conflict : registry_db.
Lemma execute_keeps plan resume :
  plan_of plan ->
  keeps any (execute_git_recovery E read_small_log automated_child holder_for_current_process today plan resume).
Proof. intros Hp. unfold execute_git_recovery. maintain. Qed.
#[local] Hint Resolve execute_keeps : maintains_db.

Lemma plan_restart_keeps p session :
  project_of pid p -> keeps plan_of (plan_task_restart E p session).
Proof. intros Hp. unfold plan_task_restart. maintain. Qed.
#[local] Hint Resolve plan_restart_keeps : maintains_db.
Lemma executed_keeps plan :
  plan_of plan ->
  keeps any (executed E read_small_log automated_child holder_for_current_process today plan).
Proof. intros Hp. unfold executed. maintain. Qed.
#[local] Hint Resolve executed_keeps : maintains_db.
#[local] Hint Extern 2 (plan_of _) => solve [unfold plan_of in *; own] : maintains_db.

Lemma writer_conflict_keeps p c :
  project_of pid p ->
  keeps any (recover_writer_conflict E read_small_log automated_child holder_for_current_process today p c).
Proof. intros Hp. unfold recover_writer_conflict. maintain. Qed.
Lemma writer_conflicts_keep p :
  project_of pid p ->
  keeps any (recover_writer_conflict_automatically E read_small_log automated_child
               holder_for_current_process today p).
Proof.
  intros Hp. unfold recover_writer_conflict_automatically. maintain.
  apply (recovery_keeps _ _ (fun _ => True)); [by apply plain_each|]. intros c _. by apply writer_conflict_keeps.
Qed.
Lemma quiet_absent p head task : keeps_registry (task_absent_from_start E p head task).
Proof. unfold task_absent_from_start. keep_registry. Qed.
#[local] Hint Resolve quiet_absent : registry_db.
Lemma restart_activation_keeps p j run plan linked :
  plan_of plan ->
  keeps any (restart_failed_activation E read_small_log automated_child holder_for_current_process today
               p j run plan linked).
Proof. intros Hp. unfold restart_failed_activation. maintain. Qed.
#[local] Hint Resolve restart_activation_keeps : maintains_db.
Lemma activation_keeps p j :
  project_of pid p ->
  keeps any (recover_failed_activation E read_small_log automated_child holder_for_current_process today p j).
Proof. intros Hp. unfold recover_failed_activation. maintain. Qed.
Lemma activations_keep p :
  project_of pid p ->
  keeps any (recover_failed_activation_automatically E read_small_log automated_child
               holder_for_current_process today p).
Proof.
  intros Hp. unfold recover_failed_activation_automatically. maintain.
  apply (recovery_keeps _ _ (fun _ => True)); [by apply plain_each|]. intros j _. by apply activation_keeps.
Qed.

Lemma quiet_candidate p controls run requested branch t :
  keeps_registry (recovery_candidate E p controls run requested branch t).
Proof. unfold recovery_candidate. keep_registry. Qed.
#[local] Hint Resolve quiet_candidate : registry_db.
Lemma quiet_recovery_candidates p controls run requested branch tasks :
  keeps_registry (recovery_candidates E p controls run requested branch tasks).
Proof.
  revert branch. induction tasks as [|t tasks IH]; intros branch; cbn [recovery_candidates]; keep_registry; apply IH.
Qed.
#[local] Hint Resolve quiet_recovery_candidates : registry_db.
Lemma orphan_keeps p controls run requested tasks :
  project_of pid p ->
  keeps (fun o => forall plan, o = Some plan -> plan_of plan) (orphaned_attempt E p controls run requested tasks).
Proof.
  intros Hp. unfold orphaned_attempt. maintain; apply maintains_ret; intros plan; repeat case_match; try done.
  all: by intros [= <-].
Qed.
Lemma orphan_if_keeps (b : bool) p controls run requested tasks :
  project_of pid p ->
  keeps (fun o => forall plan, o = Some plan -> plan_of plan)
    (if b then orphaned_attempt E p controls run requested tasks else wret None).
Proof. intros Hp. destruct b; [by apply orphan_keeps|by apply maintains_ret]. Qed.
#[local] Hint Extern 0 (maintains _ _ (if _ then orphaned_attempt _ _ _ _ _ _ else _)) =>
  (apply orphan_if_keeps; assumption) : maintains_db.
Lemma plan_keeps p session :
  project_of pid p -> keeps plan_of (plan_git_recovery E p session).
Proof. intros Hp. unfold plan_git_recovery, plan_of_candidate. maintain. Qed.
#[local] Hint Resolve plan_keeps : maintains_db.
Lemma changed_branch_keeps p session :
  project_of pid p ->
  keeps any (recover_changed_branch_automatically E read_small_log automated_child
               holder_for_current_process today p session).
Proof. intros Hp. unfold recover_changed_branch_automatically. maintain. Qed.
End Recovery.

(** *** The supervisor's gate *)

Lemma save_review_keeps p r : p = pid -> keeps any (save_review p r).
Proof. intros ->. unfold save_review. maintain. Qed.
Lemma clear_review_keeps p : p = pid -> keeps any (clear_review E p).
Proof. intros ->. unfold clear_review. maintain. Qed.
#[local] Hint Resolve save_review_keeps clear_review_keeps : maintains_db.
Lemma pass_gate_keeps p previous : p = pid -> keeps any (pass_gate E p previous).
Proof. intros ->. unfold pass_gate. maintain. Qed.
Lemma gate_on_review_keeps p r : project_of pid p -> keeps any (gate_on_review E p r).
Proof. intros Hp. unfold gate_on_review. maintain. Qed.
#[local] Hint Resolve pass_gate_keeps gate_on_review_keeps : maintains_db.
Lemma gate_on_evidence_keeps p previous : project_of pid p -> keeps any (gate_on_evidence E p previous).
Proof. intros Hp. unfold gate_on_evidence. maintain. Qed.
#[local] Hint Resolve gate_on_evidence_keeps : maintains_db.
Lemma gate_on_retry_keeps p sealed blocked previous :
  project_of pid p -> keeps any (gate_retry E p sealed blocked previous).
Proof. intros Hp. unfold gate_retry. maintain. Qed.
#[local] Hint Resolve gate_on_retry_keeps : maintains_db.
Lemma gate_is_kept p blocked : project_of pid p -> keeps any (gate E p blocked).
Proof. intros Hp. unfold gate. maintain. Qed.
#[local] Hint Resolve gate_is_kept : maintains_db.

(** *** Stale controls *)

Section Scheduling.
Context (X : SchedulerSurroundings).

Lemma supervise_again_keeps lease own now p sid c :
  p = pid -> keeps any (supervise_again E X lease own now p sid c).
Proof. intros ->. unfold supervise_again. maintain. Qed.
Lemma recover_guardian_keeps lease own now p sid holder disposition c :
  p = pid -> keeps any (recover_guardian E X lease own now p sid holder disposition c).
Proof. intros ->. unfold recover_guardian. maintain. Qed.
Lemma recovery_state_inv lease own now c to :
  recovery_state E X lease own now c = Some to ->
  match sc_state c with
  | Running | ReadyInteractive | Interactive => to = ResumeRequested
  | StopRequested => to = Stopped
  | InterruptRequested => True
  | _ => False
  end.
Proof. unfold recovery_state. destruct (sc_state c); intros H; repeat (case_match; simplify_eq/=); done. Qed.
Lemma apply_recovery_keeps lease own now p sid c to :
  p = pid -> recovery_state E X lease own now c = Some to ->
  keeps any (apply_recovery E X lease p sid c to).
Proof.
  intros ->. intros Hto%recovery_state_inv. unfold apply_recovery.
  destruct (sc_state c); subst; try done; maintain.
Qed.
#[local] Hint Resolve supervise_again_keeps recover_guardian_keeps apply_recovery_keeps : maintains_db.
Lemma reconcile_control_keeps lease own now p kc :
  p = pid -> keeps any (reconcile_control E X lease own now p kc).
Proof. intros ->. unfold reconcile_control. maintain. Qed.
Lemma reconcile_stale_keeps lease own now p :
  p = pid -> keeps any (reconcile_stale_agent_session_controls E X lease own now p).
Proof.
  intros ->. unfold reconcile_stale_agent_session_controls. maintain.
  apply (maintains_each _ (fun _ => True)); [by apply plain_each|]. intros kc _. by apply reconcile_control_keeps.
Qed.
#[local] Hint Resolve reconcile_stale_keeps : maintains_db.

(** *** Which conversation resumes *)

Lemma quiet_coordination root session : keeps_registry (coordination_waits E root session).
Proof. unfold coordination_waits. apply quiet_waiting_at. Qed.
Lemma quiet_ready_work root : keeps_registry (ready_work E root).
Proof. unfold ready_work. apply quiet_ready. Qed.
Lemma quiet_first {A B} (f : A -> wio (option B)) l :
  (forall a, keeps_registry (f a)) -> keeps_registry (first_some f l).
Proof. intros Hf. induction l as [|a l IH]; cbn [first_some]; keep_registry; auto. Qed.
#[local] Hint Resolve quiet_coordination quiet_ready_work quiet_first : registry_db.
Lemma quiet_may_resume p session : keeps_registry (may_resume E p session).
Proof. unfold may_resume. keep_registry. Qed.
#[local] Hint Resolve quiet_may_resume : registry_db.
Lemma quiet_resumable_doing p : keeps_registry (project_has_resumable_doing_task E p).
Proof. unfold project_has_resumable_doing_task, resumable_task. keep_registry. apply quiet_first. keep_registry. Qed.
Lemma quiet_interrupted p : keeps_registry (interrupted_codex_session_in_doing E p).
Proof. unfold interrupted_codex_session_in_doing, interrupted_task. keep_registry. apply quiet_first. keep_registry. Qed.
Lemma quiet_queued p kc : keeps_registry (queued_resume_can_wait E p kc).
Proof. unfold queued_resume_can_wait. keep_registry. Qed.
#[local] Hint Resolve quiet_queued : registry_db.
Lemma quiet_suspended p controls : keeps_registry (controls_suspend_ready_work E p controls).
Proof.
  unfold controls_suspend_ready_work, suspends_ready_work. keep_registry. apply quiet_first. keep_registry.
Qed.
Lemma quiet_scan p : keeps_registry (scan_agent_project E X p).
Proof.
  unfold scan_agent_project. keep_registry. apply quiet_wtry.
  unfold scan_existing_board, scan_board, admission, load_with_context, load_runtime, load_runtime_from_store.
  keep_registry.
Qed.
#[local] Hint Resolve quiet_resumable_doing quiet_interrupted quiet_suspended quiet_scan : registry_db.

Lemma orphaned_resume_keeps p session now :
  project_of pid p -> keeps any (clear_orphaned_resume E p session now).
Proof. intros Hp. unfold clear_orphaned_resume. maintain. Qed.
Lemma resume_completed_keeps p session :
  project_of pid p -> keeps any (resume_completed E p session).
Proof. intros Hp. unfold resume_completed. maintain. Qed.
#[local] Hint Resolve orphaned_resume_keeps resume_completed_keeps : maintains_db.
Lemma resumable_control_keeps p now kc :
  project_of pid p -> keeps any (resumable_control E p now kc).
Proof. intros Hp. unfold resumable_control, resume_unfinished. maintain. Qed.
Lemma resumable_session_keeps p now :
  project_of pid p -> keeps any (resumable_codex_session_for_project E p now).
Proof.
  intros Hp. unfold resumable_codex_session_for_project. maintain.
  apply (first_keeps _ _ (fun _ => True)); [by apply plain_each|]. intros kc _. by apply resumable_control_keeps.
Qed.
#[local] Hint Resolve resumable_session_keeps : maintains_db.

(** *** Acquiring a job *)

Lemma unstarted_keeps jobs :
  Forall (fun job => job.1 = pid) jobs -> keeps any (release_unstarted jobs).
Proof.
  intros Hjobs. unfold release_unstarted. apply (maintains_each _ (fun job => job.1 = pid)); [done|].
  intros job Hjob. maintain.
Qed.
#[local] Hint Resolve unstarted_keeps : maintains_db.
Lemma guarded_keeps {A} jobs (c : wio A) :
  Forall (fun job => job.1 = pid) jobs -> keeps any c -> keeps any (guarded jobs c).
Proof. intros Hjobs Hc. unfold guarded. maintain. Qed.
Lemma quiet_or_empty {A} (c : io (list A)) : keeps_registry (or_empty c).
Proof. unfold or_empty. keep_registry. apply quiet_wtry. keep_registry. Qed.
#[local] Hint Resolve @quiet_or_empty : registry_db.

Section Acquire.
Context (p : Z * project_row) (Hp : project_of pid p) (holder : string) (own : bool).
Context (selection : AgentTaskSelection) (resume : option string).
Lemma supervision_changed_keeps : keeps any (supervision_changed E p selection resume).
Proof. unfold supervision_changed. maintain. Qed.
#[local] Hint Resolve supervision_changed_keeps : maintains_db.
Lemma must_not_start_keeps : keeps any (must_not_start E p selection resume).
Proof. unfold must_not_start, resume_is_taken, nothing_ready. maintain. Qed.
Lemma try_lease_keeps timeout : keeps any (try_lease E p holder timeout).
Proof. unfold try_lease. maintain. Qed.
#[local] Hint Resolve try_lease_keeps : maintains_db.
Lemma take_lease_keeps timeout : keeps any (take_lease E p holder timeout own).
Proof. unfold take_lease. maintain. Qed.
Lemma controls_suspend_keeps : keeps any (controls_suspend E p selection resume).
Proof. unfold controls_suspend. maintain. Qed.
Lemma guarded_suspend_keeps :
  keeps any (guarded [(p.1, holder)] (controls_suspend E p selection resume)).
Proof. apply guarded_keeps; [by repeat constructor|apply controls_suspend_keeps]. Qed.
#[local] Hint Resolve must_not_start_keeps take_lease_keeps guarded_suspend_keeps : maintains_db.
Lemma acquire_keeps scan timeout max :
  keeps any (acquire_agent_job_stage E p scan holder timeout own max selection resume).
Proof. unfold acquire_agent_job_stage. maintain. Qed.
End Acquire.

(** *** Finalizing what is pending *)

Definition visit_of (v : Visit) : Prop := match v with Work p _ _ _ _ => project_of pid p | _ => True end.
Definition visits (o : option Visit) : Prop := forall v, o = Some v -> visit_of v.

Lemma gate_visit_keeps p scan : project_of pid p -> keeps visits (gate_visit E p scan).
Proof.
  intros Hp. unfold gate_visit. maintain. apply maintains_ret. intros v. by case_match; intros [= <-].
Qed.
Lemma or_else_keeps a b : keeps visits a -> keeps visit_of b -> keeps visit_of (or_else a b).
Proof.
  intros Ha Hb. unfold or_else. eapply maintains_bind; [exact Ha|cbv beta; intros [v|] Hv]; [|done].
  apply maintains_ret. by apply Hv.
Qed.
Lemma reload_keeps p message : project_of pid p -> keeps (project_of pid) (reload p message).
Proof.
  intros Hp. unfold reload. eapply maintains_bind; [apply maintains_query|cbv beta; intros o (d & _ & ->)].
  eapply maintains_weaken; [apply maintains_need|]. intros p' [_ Hp']%find_some. apply Z.eqb_eq in Hp'. own.
Qed.
Lemma prepare_pending_keeps p l :
  project_of pid p -> keeps any (prepare_pending E p l).
Proof.
  intros Hp. unfold prepare_pending. eapply maintains_bind; [|intros ? _];
    apply (maintains_each _ (fun _ => True)); try by apply plain_each.
  all: intros j _; maintain.
Qed.
#[local] Hint Resolve prepare_pending_keeps reload_keeps : maintains_db.
Lemma quiet_changed_branch p j : keeps_registry (changed_branch E p j).
Proof. unfold changed_branch. keep_registry. apply quiet_wtry. unfold verify_agent_git_resume_branch. keep_registry. Qed.
#[local] Hint Resolve quiet_changed_branch : registry_db.
Lemma report_branch_keeps p lease j e :
  project_of pid p -> keeps any (report_branch_change E X p lease j e).
Proof. intros Hp. unfold report_branch_change. maintain. Qed.
Lemma attempt_finalization_keeps p lease :
  project_of pid p -> keeps any (attempt_finalization E X p lease).
Proof.
  intros Hp. unfold attempt_finalization, record_agent_git_push_retry_error_message.
  eapply maintains_bind; [|cbv beta; intros r _; unfold pending_of; maintain].
  apply maintains_wtry. eapply maintains_weaken; [by apply reconcile_pending_keeps|done].
Qed.
Lemma quiet_relinked p lease j : keeps_registry (relink E p lease j).
Proof. unfold relink. keep_registry. Qed.
#[local] Hint Resolve quiet_relinked : registry_db.
#[local] Hint Resolve report_branch_keeps attempt_finalization_keeps : maintains_db.
Lemma under_lease_keeps p now backoff lease :
  project_of pid p -> keeps any (reconcile_under_lease E X p now backoff lease).
Proof. intros Hp. unfold reconcile_under_lease, pending_of. maintain. Qed.
#[local] Hint Resolve under_lease_keeps : maintains_db.
Lemma finalize_pending_keeps p now backoff own l :
  project_of pid p -> keeps any (finalize_pending E X p now backoff own l).
Proof. intros Hp. unfold finalize_pending. maintain. Qed.
#[local] Hint Resolve finalize_pending_keeps : maintains_db.

(** *** Scheduling *)

Lemma quiet_working p scan now backoff j : keeps_registry (working_may_resume E p scan now backoff j).
Proof. unfold working_may_resume. keep_registry. Qed.
#[local] Hint Resolve quiet_working : registry_db.
Lemma session_to_resume_keeps p scan now backoff l :
  project_of pid p -> keeps any (session_to_resume E p scan now backoff l).
Proof. intros Hp. unfold session_to_resume, git_session_to_resume. maintain. Qed.
#[local] Hint Resolve session_to_resume_keeps : maintains_db.
Lemma select_work_keeps p scan lease now cooldown backoff own abandoned forward resume :
  project_of pid p ->
  keeps visit_of (select_work E p scan lease now cooldown backoff own abandoned forward resume).
Proof.
  intros Hp. unfold select_work, resumes_interrupted, waiting_blockers. maintain.
Qed.
#[local] Hint Resolve select_work_keeps : maintains_db.
Lemma schedule_keeps p scan lease now cooldown backoff own abandoned forward l :
  project_of pid p ->
  keeps visit_of (schedule E p scan lease now cooldown backoff own abandoned forward l).
Proof. intros Hp. unfold schedule. maintain. Qed.
#[local] Hint Resolve schedule_keeps : maintains_db.

(** *** The visit *)

Lemma acknowledge_keeps p l : p = pid -> keeps any (acknowledge_completed E p l).
Proof.
  intros ->. unfold acknowledge_completed. apply (maintains_each _ (fun _ => True)); [by apply plain_each|].
  intros j _. maintain.
Qed.
Lemma reload_if_keeps (b : bool) p message :
  project_of pid p -> keeps (project_of pid) (if b then reload p message else wret p).
Proof. intros Hp. destruct b; [by apply reload_keeps|by apply maintains_ret]. Qed.
Lemma gate_if_keeps (b : bool) p scan :
  project_of pid p -> keeps visits (if b then gate_visit E p scan else wret None).
Proof. intros Hp. destruct b; [by apply gate_visit_keeps|by apply maintains_ret]. Qed.
#[local] Hint Extern 0 (maintains _ _ (if _ then reload _ _ else _)) =>
  (apply reload_if_keeps; assumption) : maintains_db.
#[local] Hint Resolve acknowledge_keeps : maintains_db.
Lemma after_finalization_keeps p scan lease now cooldown backoff own abandoned l :
  project_of pid p ->
  keeps visit_of (after_finalization E now cooldown backoff own abandoned p scan lease l).
Proof.
  intros Hp. unfold after_finalization. maintain. apply or_else_keeps; [by apply gate_if_keeps|].
  by apply schedule_keeps.
Qed.
#[local] Hint Resolve after_finalization_keeps : maintains_db.
Lemma recovery_ended_keeps (c : wio (option text)) : keeps any c -> keeps any (recovery_ended c).
Proof. intros Hc. unfold recovery_ended. maintain. Qed.
#[local] Hint Resolve recovery_ended_keeps changed_branch_keeps writer_conflicts_keep activations_keep
  : maintains_db.
Lemma finalize_then_schedule_keeps p scan lease now cooldown backoff own abandoned :
  project_of pid p ->
  keeps visit_of (finalize_then_schedule E X now cooldown backoff own abandoned p scan lease).
Proof. intros Hp. unfold finalize_then_schedule, pending_of. maintain. Qed.
Lemma supervise_keeps p scan lease now cooldown backoff own abandoned :
  project_of pid p ->
  keeps visit_of (supervise_then_finalize E X now cooldown backoff own abandoned p scan lease).
Proof.
  intros Hp. unfold supervise_then_finalize, pending_of. maintain. apply or_else_keeps; [by apply gate_if_keeps|].
  by apply finalize_then_schedule_keeps.
Qed.
#[local] Hint Resolve supervise_keeps retire_abandoned_keeps retire_superseded_keeps : maintains_db.
Lemma retire_obsolete_keeps p : project_of pid p -> keeps (project_of pid) (retire_obsolete E p).
Proof. intros Hp. unfold retire_obsolete. maintain. Qed.
#[local] Hint Resolve retire_obsolete_keeps : maintains_db.
Lemma visit_board_keeps p now cooldown backoff own abandoned :
  project_of pid p -> keeps visit_of (visit_board E X now cooldown backoff own abandoned p).
Proof. intros Hp. unfold visit_board. maintain. Qed.
#[local] Hint Resolve visit_board_keeps : maintains_db.
Lemma visit_enabled_keeps p now cooldown backoff own abandoned :
  project_of pid p -> keeps visit_of (visit_enabled E X now cooldown backoff own abandoned p).
Proof. intros Hp. unfold visit_enabled. maintain. Qed.
Lemma visit_disabled_keeps p now own :
  project_of pid p -> keeps any (visit_disabled E X now own p).
Proof. intros Hp. unfold visit_disabled. maintain. Qed.
#[local] Hint Resolve visit_enabled_keeps visit_disabled_keeps acquire_keeps : maintains_db.
Lemma book_keeps holder timeout own max v s :
  visit_of v -> keeps any (book E holder timeout own max v s).
Proof. intros Hv. unfold book. maintain. Qed.
#[local] Hint Resolve book_keeps : maintains_db.
Lemma visit_project_keeps holder timeout cooldown backoff now own max durable abandoned p s :
  project_of pid p ->
  keeps any (visit_project E X holder timeout cooldown backoff now own max durable abandoned p s).
Proof. intros Hp. unfold visit_project. maintain. Qed.
End Scheduling.
End Visit.

(** ** The pass over all projects *)

(** The commands about a project, but not about its workers. *)
Definition calm (c : command) : bool := negb (is_null (subject c)) && negb (writes_workers c).

(** The commands of a pass: calm ones, its check-in, and the end of a worker and of its
    service. *)
Definition scheduling (c : command) : bool :=
  match c with
  | AbandonWorker _ | MarkServiceCleaned _ _ | RecordDaemonCheckin _ _ _ _ _ => true
  | _ => calm c
  end.

Lemma visiting_calm pid c : visiting pid c = true -> calm c = true.
Proof.
  unfold visiting, about, calm. intros [Hs ->]%andb_true_iff. apply bool_decide_eq_true in Hs. by rewrite Hs.
Qed.
Lemma calm_scheduling c : calm c = true -> scheduling c = true.
Proof. by destruct c. Qed.

Section Pass.
Context (E : Surroundings) (X : SchedulerSurroundings) (d0 : db).
Local Notation keeps := (maintains (follows scheduling d0)).
Local Notation calmly := (maintains (follows calm d0)).
Local Notation any := (fun _ => True).

Lemma clean_worker_keeps remove path w : keeps any (clean_terminal_worker E remove path w).
Proof. unfold clean_terminal_worker. maintain. Qed.
Lemma abandon_drained_keeps token w reason lease :
  keeps any (abandon_drained E token w reason lease).
Proof. unfold abandon_drained. maintain. Qed.
Lemma redispatch_keeps token w : keeps any (redispatch E (sx_launch X) token w).
Proof. unfold redispatch. maintain. Qed.
#[local] Hint Resolve abandon_drained_keeps redispatch_keeps : maintains_db.
Lemma reconcile_worker_keeps now w : keeps any (reconcile_worker E (sx_registered X) (sx_launch X) now w).
Proof. unfold reconcile_worker. maintain. Qed.
Lemma quiet_active_workers : keeps_registry active_workers.
Proof. unfold active_workers. keep_registry. Qed.
#[local] Hint Resolve quiet_active_workers : registry_db.
Lemma reconcile_workers_keeps :
  keeps any (reconcile_independent_agent_workers E (sx_registered X) (sx_launch X) (sx_remove_worker_dir X)).
Proof.
  unfold reconcile_independent_agent_workers, cleanup_terminal_agent_worker_services,
    reconcile_agent_worker_effects_stage. maintain.
  - apply (maintains_each _ (fun _ => True)); [by apply plain_each|]. intros w _. apply clean_worker_keeps.
  - apply (maintains_each _ (fun _ => True)); [by apply plain_each|]. intros w _. apply reconcile_worker_keeps.
Qed.
#[local] Hint Resolve reconcile_workers_keeps : maintains_db.
Lemma acknowledge_idle_keeps busy : calmly any (acknowledge_idle_projects E busy).
Proof.
  unfold acknowledge_idle_projects. maintain.
  apply (maintains_each _ (fun _ => True)); [by apply plain_each|]. intros j _. maintain.
Qed.
Lemma checkin_keeps c : keeps any (record_agent_daemon_checkin E c).
Proof. unfold record_agent_daemon_checkin. maintain. Qed.
Lemma any_visit_keeps holder timeout cooldown backoff now own max durable abandoned p s :
  calmly any (visit_project E X holder timeout cooldown backoff now own max durable abandoned p s).
Proof.
  apply (keeps_mono (visiting p.1)); [intros c Hc; by eapply visiting_calm|].
  intros d. by apply visit_project_keeps.
Qed.
Lemma any_unstarted_keeps jobs : calmly any (release_unstarted jobs).
Proof.
  unfold release_unstarted. apply (maintains_each _ (fun _ => True)); [by apply plain_each|]. intros job _. maintain.
Qed.
#[local] Hint Resolve any_visit_keeps any_unstarted_keeps : maintains_db.
Lemma visits_keep holder timeout cooldown backoff now own max durable abandoned ps s :
  calmly any (visit_projects E X holder timeout cooldown backoff now own max durable abandoned ps s).
Proof.
  revert s. induction ps as [|p ps IH]; intros s; cbn [visit_projects]; unfold guarded; maintain.
Qed.
End Pass.

Section WholePass.
Context (E : Surroundings) (X : SchedulerSurroundings) (d0 : db).
Local Notation keeps := (maintains (follows scheduling d0)).
Local Notation any := (fun _ => True).

Lemma calm_keeps {A} (c : wio A) : (forall d, maintains (follows calm d) any c) -> keeps any c.
Proof. intros Hc. by apply (keeps_mono calm); [apply calm_scheduling|]. Qed.
Lemma idle_keeps busy : keeps any (acknowledge_idle_projects E busy).
Proof. apply calm_keeps. intros d. apply acknowledge_idle_keeps. Qed.
Lemma all_visits_keep holder timeout cooldown backoff now own max durable abandoned ps s :
  keeps any (visit_projects E X holder timeout cooldown backoff now own max durable abandoned ps s).
Proof. apply calm_keeps. intros d. apply visits_keep. Qed.
#[local] Hint Resolve reconcile_workers_keeps checkin_keeps idle_keeps all_visits_keep : maintains_db.
Lemma before_keeps own now active : keeps any (before_the_visits E X own now active).
Proof. unfold before_the_visits, busy_projects, abandoned_projects. maintain. Qed.
#[local] Hint Resolve before_keeps : maintains_db.
Lemma pass_is_kept own active max checkin :
  keeps any (run_agent_scheduler_pass_with_max_global_jobs E X own active max checkin).
Proof. unfold run_agent_scheduler_pass_with_max_global_jobs. maintain. Qed.
End WholePass.

(** ** What calm commands leave alone *)

Lemma dom_sql_update {K V} `{Countable K} (k : K) (p : V -> bool) f (t : gmap K V) :
  dom (sql_update k p f t).1 = dom t.
Proof.
  apply set_eq. intros q. rewrite !elem_of_dom. unfold sql_update.
  destruct (t !! k) as [v|] eqn:Hv; [|done]. destruct (p v); [|done]. cbn.
  destruct (decide (q = k)) as [->|]; [rewrite lookup_insert_eq, Hv|rewrite lookup_insert_ne by done]; naive_solver.
Qed.
Lemma dom_updated {K V} `{Countable K} (k : K) (p : V -> bool) f (t t' : gmap K V) n :
  sql_update k p f t = (t', n) -> dom t' = dom t.
Proof. intros Hu. by rewrite <- (dom_sql_update k p f t), Hu. Qed.
Ltac same_dom :=
  repeat match goal with H : sql_update _ _ _ _ = _ |- _ => apply dom_updated in H end;
  cbn in *; unfold update_project_after_run; cbn; rewrite ?dom_sql_update; try done; congruence.

Lemma calm_keeps_registered c d : calm c = true -> dom (projects (exec c d)) = dom (projects d).
Proof.
  intros Hc. destruct c; try done; clear Hc; cbn [exec].
  all: try solve [f_equal; frame].
  all: unfold_command; cbn; repeat (case_match; simplify_eq/=); try same_dom.
  all: use_footprints; same_dom.
Qed.
Lemma calm_keeps_workers c d : calm c = true -> agent_workers (exec c d) = agent_workers d.
Proof. intros Hc. destruct c; try done; clear Hc; cbn [exec]; frame. Qed.
Lemma calmly_kept d d' :
  follows calm d d' -> agent_workers d' = agent_workers d /\ dom (projects d') = dom (projects d).
Proof.
  intros (cs & Hcs & ->). revert d. induction Hcs as [|c cs Hc _ IH]; intros d; [done|].
  destruct (IH (exec c d)) as [Hw Hp]. unfold exec_all in *. cbn. rewrite Hw, Hp.
  by rewrite calm_keeps_workers, calm_keeps_registered.
Qed.

