(* ===== verification/SchedulerProps.v ===== *)
(** Properties of the scheduler and of what it calls: whom a visit concerns, what the
    jobs of a pass hold, how many there are, what a failure gives back; explicit
    recovery, dispatching and the supervision of sessions without a worker. *)
From S2P Require Import Prelude Sql AgentTypes Leases Workers Runs Sessions Handoff Journals.
From S2P Require Import Retire Recovery Holders.
From S2P Require Import Projects Text Models Markers TaskNotes Metadata TaskEntry Files Board.
From S2P Require Import BoardTree.
From S2P Require Import World Surroundings Git Manifest Scheduling SnapshotLoad Guards Workflow.
From S2P Require Import GitRetire GitPublish GitRepair GitFinalize Supervisor Completed Reattach.
From S2P Require Import GitRecovery.
From S2P Require Import Dispatch Scheduler GitQuiet Registry Footprint WorkerInv RegistryInv.
From S2P Require Import Isolation.
From S2P Require Import WorldScenario.
From S2P Require Import SupervisorProps History OperationProps WorkflowProps Store.

Lemma maintained {A} (allowed : command -> bool) (c : wio A) w r w' :
  (forall d, maintains (follows allowed d) (fun _ => True) c) -> c w = (r, w') ->
  follows allowed (registry w) (registry w').
Proof. intros Hc H. destruct (Hc (registry w) w (reflexivity _)) as [Hf _]. by rewrite H in Hf. Qed.

(** ** The workers of a pass *)

(** The listed workers are the unfinished ones, or the finished ones, of registered projects. *)
Lemma listed_workers terminal d l :
  list_workers_by_terminal_state terminal d = Ok l ->
  NoDup ((fun x => x.1.1.1) <$> l)
  /\ forall tw, tw ∈ (fun x => x.1.1) <$> l <->
       agent_workers d !! tw.1 = Some tw.2 /\ worker_state_active (w_state tw.2) = negb terminal
       /\ project_exists d (w_project_id tw.2) = true.
Proof.
  unfold list_workers_by_terminal_state. set (ws := sort_by _ _). intros Hl.
  assert (Heq : (fun x => x.1.1) <$> l = filter (fun tw => project_exists d (w_project_id tw.2) = true) ws).
  { clearbody ws. revert l Hl. induction ws as [|tw ws IH]; intros l Hl; cbn in Hl; [by injection Hl as <-|].
    unfold res_bind in Hl. destruct (worker_record d tw) as [r|] eqn:Hr; [|done].
    destruct (foldr _ _ ws) as [rs|]; [|done]. injection Hl as <-. rewrite fmap_app, (IH rs eq_refl), filter_cons.
    unfold worker_record, project_exists in *.
    destruct (projects d !! w_project_id tw.2) as [p|]; [|by injection Hr as <-].
    rewrite decide_True by done. repeat (case_match; simplify_eq/=; try done). }
  assert (Hin : forall tw, tw ∈ ws <-> agent_workers d !! tw.1 = Some tw.2
                                      /\ worker_state_active (w_state tw.2) = negb terminal).
  { intros tw. unfold ws. rewrite sort_by_perm, list_elem_of_filter. rewrite elem_of_map_to_list'. naive_solver. }
  split.
  - replace ((fun x => x.1.1.1) <$> l) with (fst <$> ((fun x => x.1.1) <$> l)) by (by rewrite <- list_fmap_compose).
    rewrite Heq. eapply sublist_NoDup; [|apply fmap_sublist, sublist_filter].
    unfold ws. rewrite sort_by_perm. eapply sublist_NoDup; [|apply fmap_sublist, sublist_filter].
    apply NoDup_fst_map_to_list.
  - intros tw. rewrite Heq, list_elem_of_filter, Hin. naive_solver.
Qed.
Lemma active_listed w ws w' :
  active_workers w = (Ok ws, w') ->
  w' = w /\ NoDup (fst <$> ws)
  /\ forall token wr, (token, wr) ∈ ws <->
       agent_workers (registry w) !! token = Some wr /\ worker_state_active (w_state wr) = true
       /\ project_exists (registry w) (w_project_id wr) = true.
Proof.
  unfold active_workers. intros H. wok H l w1 Hl. apply query_res_inv in Hl as [-> [(ls & Hl & [= <-])|(e & _ & [=])]].
  injection H as <- <-. apply listed_workers in Hl as [Hnd Hin]. split; [done|]. rewrite <- list_fmap_compose.
  split; [exact Hnd|]. intros token wr. exact (Hin (token, wr)).
Qed.

(** What a pass does before it looks at its workers leaves the unfinished ones alone. *)
Definition tidied (d d' : db) : Prop :=
  leases d' = leases d /\ projects d' = projects d
  /\ agent_git_launch_states d' = agent_git_launch_states d
  /\ forall token wr, worker_state_active (w_state wr) = true ->
       agent_workers d' !! token = Some wr <-> agent_workers d !! token = Some wr.

Lemma tidied_refl d : tidied d d.
Proof. by split_and!. Qed.
Lemma tidied_trans d1 d2 d3 : tidied d1 d2 -> tidied d2 d3 -> tidied d1 d3.
Proof.
  intros (Hl & Hp & Ha & Hw) (Hl' & Hp' & Ha' & Hw'). split_and!; [congruence..|].
  intros token wr Hact. by rewrite Hw', Hw.
Qed.

(** No Git command runs, so the clock of the model stands still. *)
Definition keeps_clock {A} (c : wio A) : Prop := forall w, git_runs (c w).2 = git_runs w.
Lemma keeps_clock_bind {A B} (c : wio A) (k : A -> wio B) :
  keeps_clock c -> (forall a, keeps_clock (k a)) -> keeps_clock (wbind c k).
Proof.
  intros Hc Hk w. specialize (Hc w). unfold wbind. destruct (c w) as [[a|e] w1]; [|done]. by rewrite Hk.
Qed.
Lemma keeps_clock_registry {A} (op : store_op A) : keeps_clock (on_registry op).
Proof. intros w. unfold on_registry. by destruct (op (registry w)) as [[]]. Qed.
Lemma keeps_clock_each {A} (f : A -> wio unit) l : (forall a, keeps_clock (f a)) -> keeps_clock (wfor_each f l).
Proof. intros Hf. induction l as [|a l IH]; [done|]. cbn [wfor_each]. by apply keeps_clock_bind. Qed.
Lemma keeps_clock_query_res {A} (f : db -> res store_error A) : keeps_clock (query_res f).
Proof. intros w. unfold query_res. by destruct (f (registry w)). Qed.
Lemma keeps_clock_need {A} (o : option A) e : keeps_clock (need o e).
Proof. by destruct o. Qed.
Lemma keeps_clock_ensure b e : keeps_clock (ensure b e).
Proof. by destruct b. Qed.

Section Ended.
Context (E : Surroundings) (X : SchedulerSurroundings).
Local Notation registered := (sx_registered X).
Local Notation cleanup := (cleanup_terminal_agent_worker_services E (sx_remove_worker_dir X) None).
Local Notation reconcile :=
  (reconcile_independent_agent_workers E registered (sx_launch X) (sx_remove_worker_dir X)).

(** Nothing was heard since [raw] for that many seconds; an unreadable time counts as never. *)
Definition silent (seconds : Z) (raw : option string) (now : Z) : Prop :=
  forall t, raw ≫= parse_u64 = Some t -> (seconds <= now - t)%Z.
Definition acts (w : worker_row) : Prop := w_state w = WRunning \/ w_state w = WFinalizing.
Definition process_gone (w : worker_row) : Prop :=
  exists pid, w_worker_pid w = Some pid /\ local_process_is_running E pid = Some false.
Definition process_alive (w : worker_row) : Prop :=
  exists pid, w_worker_pid w = Some pid /\ local_process_is_running E pid = Some true.

(** Why a worker is lost. *)
Definition worker_lost (now : Z) (d : db) (token : string) (w : worker_row) : Prop :=
  (is_inline_agent_worker w = true
   /\ (w_state w = Dispatching \/ w_worker_pid w = Some (own_pid E) /\ registered token = false))
  \/ (lease_holder_for_project (w_project_id w) d <> Some (w_lease_holder w)
      /\ (~ process_alive w \/ acts w /\ silent 60 (w_heartbeat_at w) now))
  \/ (w_state w = Dispatching
      /\ (silent 60 (Some (w_created_at w)) now \/ TaskSelection.from_label (w_task_selection w) = None))
  \/ (acts w /\ (process_gone w \/ silent 60 (w_heartbeat_at w) now))
  \/ (w_state w = WRunning /\ w_worker_pid w = None).

(** A worker that may be ended: its program is not newer than this one, its service is
    drained, and it is lost. An inline worker is not being launched, and is neither of this
    process and registered nor of another that may be alive. *)
Definition past_help (now : Z) (d : db) (token : string) (w : worker_row) : Prop :=
  (w_protocol_version w <= AGENT_WORKER_PROTOCOL_VERSION)%Z
  /\ (if is_inline_agent_worker w then
        git_launch_state (w_project_id w) token d = None
        /\ (acts w -> w_worker_pid w = Some (own_pid E) -> registered token = false)
        /\ (forall pid, acts w -> w_worker_pid w = Some pid -> pid <> own_pid E ->
              local_process_is_running E pid = Some false)
      else drain_worker E token = Some true)
  /\ worker_lost now d token w.

Lemma stale_silent raw now seconds :
  (0 < seconds)%Z -> agent_worker_observation_is_stale raw now seconds = true -> silent seconds raw now.
Proof.
  unfold agent_worker_observation_is_stale, silent, saturating_sub. intros Hs H t Ht. rewrite Ht in H.
  apply Z.leb_le in H. lia.
Qed.
Lemma acts_spec w : runs_or_finalizes (w_state w) = true <-> acts w.
Proof. unfold acts. destruct (w_state w); cbn; intuition congruence. Qed.
Lemma gone_spec w : process_state E w = Some false -> process_gone w.
Proof. unfold process_state, process_gone. destruct (w_worker_pid w) as [pid|]; [|done]. by exists pid. Qed.
Lemma alive_spec w : process_alive w -> process_state E w = Some true.
Proof. intros (pid & Hp & Hr). unfold process_state. by rewrite Hp. Qed.
Lemma heartbeat_silent w now : heartbeat_stale w now = true -> acts w /\ silent 60 (w_heartbeat_at w) now.
Proof. unfold heartbeat_stale. intros [? Hs]%andb_true_iff. split; [by apply acts_spec|by apply stale_silent in Hs]. Qed.

Lemma reason_lost now d token w reason :
  abandonment_reason E registered token w (lease_holder_for_project (w_project_id w) d == Some (w_lease_holder w)) now
    = Some reason ->
  worker_lost now d token w.
Proof.
  unfold abandonment_reason, worker_lost. destruct (is_inline_agent_worker w && _) eqn:H1.
  { intros _. left. apply andb_true_iff in H1 as [? ?%bool_decide_eq_true]. tauto. }
  destruct (current_generation _ _ _ _ false) eqn:H2.
  { intros _. left. unfold current_generation in H2. apply andb_true_iff in H2 as [[Hi Hp%bool_decide_eq_true]%andb_true_iff Hr].
    apply eqb_prop in Hr. auto. }
  destruct (negb _) eqn:Hheld.
  { apply negb_true_iff, bool_decide_eq_false in Hheld. intros H. right. left. split; [done|]. destruct (heartbeat_stale w now) eqn:Hs.
    - right. by apply heartbeat_silent.
    - left. intros Ha%alive_spec. by rewrite Ha in H. }
  destruct (startup_stale _ _) eqn:H3.
  { intros _. do 2 right. left. unfold startup_stale in H3. apply andb_true_iff in H3 as [Hs%bool_decide_eq_true H3].
    apply (stale_silent _ _ 60) in H3; [auto|lia]. }
  destruct (runs_or_finalizes _ && _) eqn:H4.
  { intros _. do 3 right. left. apply andb_true_iff in H4 as [?%acts_spec ?%bool_decide_eq_true%gone_spec]. auto. }
  destruct (heartbeat_stale w now) eqn:H5; [intros _; apply heartbeat_silent in H5 as []; tauto|].
  destruct ((w_state w == WRunning) && _) eqn:H6; [|intros [=]]. intros _. apply andb_true_iff in H6 as [?%bool_decide_eq_true ?%is_null_true]. tauto.
Qed.

Lemma not_left_alone token w :
  worker_left_alone E registered token w = false -> is_inline_agent_worker w = true ->
  (acts w -> w_worker_pid w = Some (own_pid E) -> registered token = false)
  /\ (forall pid, acts w -> w_worker_pid w = Some pid -> pid <> own_pid E ->
        local_process_is_running E pid = Some false).
Proof.
  unfold worker_left_alone, current_generation, process_state. intros [H1 H2]%orb_false_iff Hi. rewrite Hi in H1, H2.
  split.
  - intros Ha%acts_spec Hp. rewrite Ha, Hp, bool_decide_true, andb_true_r in H1 by done. cbn in H1.
    by destruct (registered token).
  - intros pid Ha%acts_spec Hp Hne. rewrite Ha, Hp, andb_true_r in H2. cbn in H2.
    rewrite (bool_decide_false (Some pid = Some (own_pid E))) in H2 by congruence. cbn in H2.
    by apply negb_false_iff, bool_decide_eq_true in H2.
Qed.

(** Unfinished workers stay as they are or are abandoned for that, and none begins. *)
Definition workers_ended (now : Z) (d0 d : db) : Prop :=
  (forall token wr, agent_workers d0 !! token = Some wr -> worker_state_active (w_state wr) = true ->
     agent_workers d !! token = Some wr
     \/ (exists wr', agent_workers d !! token = Some wr' /\ w_state wr' = Abandoned) /\ past_help now d0 token wr)
  /\ (forall token wr, agent_workers d !! token = Some wr -> worker_state_active (w_state wr) = true ->
        agent_workers d0 !! token = Some wr).

Lemma ended_refl now d : workers_ended now d d.
Proof. split; auto. Qed.

(** *** One worker *)

Lemma abandon_effect a d :
  (forall token, token <> ab_worker_token a ->
     agent_workers (abandon_worker a d).2 !! token = agent_workers d !! token)
  /\ (agent_workers (abandon_worker a d).2 = agent_workers d
      \/ exists wr, agent_workers (abandon_worker a d).2 !! ab_worker_token a = Some wr /\ w_state wr = Abandoned).
Proof.
  unfold abandon_worker, transaction, txn_try.
  repeat (case_match; simplify_eq/=; try by (split; [done|by left])).
  all: match goal with H : record_worker_run _ _ _ = Ok _ |- _ =>
         apply record_worker_run_frame in H as (? & ? & ->) end.
  all: match goal with H : sql_update _ _ _ _ = _ |- _ =>
         unfold sql_update in H; cbn in H; repeat (case_match; simplify_eq/=) end; guards.
  all: split; [intros; by rewrite lookup_insert_ne|right; eexists; by rewrite lookup_insert_eq].
Qed.

Definition abandoned_or_same (now : Z) (token : string) (w : worker_row) (d d' : db) : Prop :=
  d' = d \/ exists a, ab_worker_token a = token /\ d' = (abandon_worker a d).2 /\ past_help now d token w.

Lemma abandoned_inv now token w a v r v' :
  past_help now (registry v) token w -> ab_worker_token a = token ->
  (run! _ := on_registry (abandon_worker a) in wret tt) v = (r, v') ->
  abandoned_or_same now token w (registry v) (registry v').
Proof.
  intros Hpast Ha H. right. exists a. split; [done|].
  wstep H e b v1 Hb; apply on_registry_inv in Hb as (_ & Hd & _); [done|]. by injection H as _ <-.
Qed.

Lemma reconcile_worker_inv now token w v r v' :
  reconcile_worker E registered (sx_launch X) now (token, w) v = (r, v') ->
  abandoned_or_same now token w (registry v) (registry v').
Proof.
  unfold reconcile_worker. destruct (_ <? _)%Z eqn:Hnew; [injection 1 as _ <-; by left|]. intros H.
  apply Z.ltb_ge in Hnew. wstep H e lease v1 Hl; [discriminate Hl|]. apply query_inv in Hl as [-> [= ->]].
  wstep H e launching v1 Hl; [discriminate Hl|]. apply query_inv in Hl as [-> [= ->]].
  destruct (_ || _) eqn:Halone; [injection H as _ <-; by left|]. apply orb_false_iff in Halone as [Hlaunch Halone].
  assert (Hlost : worker_lost now (registry v) token w -> drained E token w = Some true ->
    past_help now (registry v) token w).
  { intros Hlost Hd. unfold past_help. split_and!; [done| |done]. unfold drained in Hd.
    destruct (is_inline_agent_worker w) eqn:Hi; [|done]. apply negb_false_iff, is_null_true in Hlaunch.
    split; [done|]. by apply not_left_alone. }
  destruct (abandonment_reason _ _ _ _ _ _) as [reason|] eqn:Hreason.
  - unfold abandon_drained in H. destruct (drained E token w == Some true) eqn:Hd; [|injection H as _ <-; by left].
    apply bool_decide_eq_true in Hd. wstep H e at_ v1 Ht; [discriminate Ht|]. injection Ht as _ <-.
    eapply abandoned_inv; [| |exact H]; [|done]. apply Hlost; [by eapply reason_lost|done].
  - destruct (w_state w == Dispatching) eqn:Hs; [|injection H as _ <-; by left]. apply bool_decide_eq_true in Hs.
    unfold redispatch in H. destruct (TaskSelection.from_label _) as [selection|] eqn:Hsel.
    + left. wstep H e arguments v1 Ha; apply need_inv in Ha as [-> _]; [done|].
      wstep H e u v1 Hu; unfold wtry, from_result in Hu; destruct (sx_launch X _); injection Hu as _ <-;
        try done; by injection H as _ <-.
    + wstep H e emptied v1 He; apply need_inv in He as [-> He]; [by left|]. destruct emptied; [|injection H as _ <-; by left].
      destruct He as [(b & Hb & [= <-])|[_ [=]]]. wstep H e at_ v1 Ht; [discriminate Ht|]. injection Ht as _ <-.
      eapply abandoned_inv; [| |exact H]; [|done]. apply Hlost; [unfold worker_lost; tauto|done].
Qed.

(** *** All of them *)

Lemma slice_worker q d d0 token wr :
  slice q d = slice q d0 -> agent_workers d0 !! token = Some wr -> w_project_id wr = q ->
  agent_workers d !! token = Some wr.
Proof.
  unfold slice. intros Hs Hw Hq. injection Hs as _ _ _ _ _ _ _ Hws _.
  assert (filter (fun kv => w_project_id kv.2 = q) (agent_workers d) !! token = Some wr) as Hf.
  { rewrite Hws. by apply map_lookup_filter_Some. }
  by apply map_lookup_filter_Some in Hf as [Hf _].
Qed.
Lemma past_help_slice now d d0 token wr :
  slice (w_project_id wr) d = slice (w_project_id wr) d0 ->
  past_help now d token wr -> past_help now d0 token wr.
Proof.
  unfold past_help, worker_lost, slice, lease_holder_for_project, lease_for_project, git_launch_state. intros Hs.
  injection Hs as Hp Hl _ _ _ Hlaunch _ _ _. rewrite Hp, Hl.
  assert (Hsame : agent_git_launch_states d !! (w_project_id wr, token)
                  = agent_git_launch_states d0 !! (w_project_id wr, token)); [|by rewrite Hsame].
  assert (Hof : forall t : gmap (Z * string) launch_row,
    t !! (w_project_id wr, token) = of_project (w_project_id wr) t !! (w_project_id wr, token)).
  { intros t. unfold of_project. rewrite map_lookup_filter. destruct (t !! _) as [x|]; cbn; [|done].
    by rewrite option_guard_True. }
  by rewrite (Hof (agent_git_launch_states d)), (Hof (agent_git_launch_states d0)), Hlaunch.
Qed.

Lemma loop_ended now d0 l w r w' :
  wfor_each (reconcile_worker E registered (sx_launch X) now) l w = (r, w') ->
  NoDup ((fun tw => w_project_id tw.2) <$> l) ->
  Forall (fun tw => agent_workers d0 !! tw.1 = Some tw.2 /\ worker_state_active (w_state tw.2) = true
                    /\ slice (w_project_id tw.2) (registry w) = slice (w_project_id tw.2) d0) l ->
  workers_ended now d0 (registry w) -> workers_ended now d0 (registry w').
Proof.
  revert w. induction l as [|[token wr] l IH]; intros w H Hnd Hl Hended; [by injection H as _ <-|].
  cbn [wfor_each] in H. apply Forall_cons in Hl as [(Hw & Hact & Hs) Hl]. cbn in *. apply NoDup_cons in Hnd as [Hp Hnd].
  pose proof (slice_worker _ _ _ _ _ Hs Hw eq_refl) as Hrow.
  assert (Hstep : forall d', abandoned_or_same now token wr (registry w) d' ->
    workers_ended now d0 d' /\ only_project (w_project_id wr) (registry w) d').
  { intros d' [->|(a & Ha & -> & Hpast)]; [by split|]. split; [|apply only_abandon_worker; intros v Hv; rewrite Ha, Hrow in Hv; by injection Hv as <-].
    destruct (abandon_effect a (registry w)) as [Hother Heff]. rewrite Ha in *.
    assert (Hin : forall t v, t <> token -> agent_workers (abandon_worker a (registry w)).2 !! t = Some v <->
                              agent_workers (registry w) !! t = Some v) by (intros t v Ht; by rewrite Hother).
    destruct Hended as [Hkept Hnew], Heff as [Hsame|(wr' & Hwr' & Hs')]; [by split; rewrite Hsame|].
    apply past_help_slice with (d0 := d0) in Hpast; [|done].
    split; intros t v Hv Hact'; destruct (decide (t = token)) as [->|Ht].
    - right. assert (v = wr) as -> by congruence. eauto.
    - destruct (Hkept t v Hv Hact') as [Hk|[(v' & Hv' & Hs'') Hpast']]; [left|right]; [by apply Hin|].
      split; [|done]. exists v'. split; [by apply Hin|done].
    - assert (v = wr') as -> by congruence. by rewrite Hs' in Hact'.
    - apply Hnew; [by apply Hin|done]. }
  wstep H e u w1 Hc; apply reconcile_worker_inv, Hstep in Hc as [Hended1 Honly]; [done|].
  apply (IH w1 H Hnd); [|done]. apply Forall_forall. intros tw Htw. rewrite Forall_forall in Hl.
  destruct (Hl tw Htw) as (Hw' & Hact' & Hs'). split_and!; [done..|]. rewrite <- Hs'. apply Honly. intros Heq.
  apply Hp. rewrite <- Heq. by apply (list_elem_of_fmap_2 (fun tw : string * worker_row => w_project_id tw.2)).
Qed.

Lemma one_active_projects d ws :
  one_active_worker d -> NoDup (fst <$> ws) ->
  (forall token wr, (token, wr) ∈ ws -> agent_workers d !! token = Some wr /\ worker_state_active (w_state wr) = true) ->
  NoDup ((fun tw => w_project_id tw.2) <$> ws).
Proof.
  intros Hone Hnd Hws. induction ws as [|[token wr] ws IH]; [constructor|]. cbn in *.
  apply NoDup_cons in Hnd as [Ht Hnd]. apply NoDup_cons. split; [|apply IH; [done|]; intros; apply Hws; by right].
  intros ([token' wr'] & Heq & Hin)%list_elem_of_fmap. cbn in Heq. apply Ht.
  destruct (Hws token wr) as [Hw Ha]; [by left|]. destruct (Hws token' wr') as [Hw' Ha']; [by right|].
  rewrite (Hone token token' wr wr') by done. by apply (list_elem_of_fmap_2 fst ws (token', wr')).
Qed.

Lemma effects_ended now w r w' :
  reconcile_agent_worker_effects_stage E registered (sx_launch X) now w = (r, w') ->
  one_active_worker (registry w) -> workers_ended now (registry w) (registry w').
Proof.
  unfold reconcile_agent_worker_effects_stage. intros H Hone. wstep H e ws w1 H1.
  { assert (registry w' = registry w) as -> by (by eapply keeps_registry_inv; [apply quiet_active_workers|]).
    apply ended_refl. }
  apply active_listed in H1 as (-> & Hnd & Hin).
  assert (forall token wr, (token, wr) ∈ ws ->
    agent_workers (registry w) !! token = Some wr /\ worker_state_active (w_state wr) = true) as Hrows.
  { intros token wr Htw. by apply Hin in Htw as (? & ? & _). }
  assert (Forall (fun tw => agent_workers (registry w) !! tw.1 = Some tw.2 /\ worker_state_active (w_state tw.2) = true
            /\ slice (w_project_id tw.2) (registry w) = slice (w_project_id tw.2) (registry w)) ws) as Hall.
  { apply Forall_forall. intros [token wr] Htw. by destruct (Hrows token wr Htw). }
  wstep H e u w1 Hloop; (eapply loop_ended in Hloop; [|by eapply one_active_projects|exact Hall|apply ended_refl]); [done|].
  assert (registry w' = registry w1) as -> by (by eapply keeps_registry_inv; [apply quiet_active_workers|]). done.
Qed.

(** *** Before that *)

Lemma cleaned_tidied token at_ d : tidied d (mark_worker_service_cleaned token at_ d).2.
Proof.
  split_and!; try frame. intros t wr Hact. unfold mark_worker_service_cleaned, sql_update. cbn.
  destruct (agent_workers d !! token) as [v|] eqn:Hv; [|done].
  destruct (worker_state_active (w_state v)) eqn:Ha; cbn; [done|].
  destruct (decide (t = token)) as [->|Hne]; [|by rewrite lookup_insert_ne]. rewrite lookup_insert_eq, Hv.
  split; intros [= <-]; cbn in *; congruence.
Qed.
Lemma cleanup_tidied d0 : maintains (tidied d0) (fun _ => True) cleanup.
Proof.
  unfold cleanup_terminal_agent_worker_services, clean_terminal_worker. maintain.
  apply (maintains_each _ (fun _ => True)); [by apply plain_each|]. intros x _. maintain.
  apply maintains_registry. intros d Hd. eapply tidied_trans; [exact Hd|apply cleaned_tidied].
Qed.
Lemma checkin_tidied d0 c : maintains (tidied d0) (fun _ => True) (record_agent_daemon_checkin E c).
Proof.
  unfold record_agent_daemon_checkin. maintain. apply maintains_registry. intros d Hd.
  eapply tidied_trans; [exact Hd|]. by split_and!.
Qed.
Lemma cleanup_clock : keeps_clock cleanup.
Proof.
  unfold cleanup_terminal_agent_worker_services, clean_terminal_worker.
  apply keeps_clock_bind; [apply keeps_clock_query_res|intros l]. apply keeps_clock_each.
  intros [[[token wr] name] project]. destruct (_ || _); [done|].
  apply keeps_clock_bind; [apply keeps_clock_need|intros emptied].
  apply keeps_clock_bind; [apply keeps_clock_ensure|intros _].
  apply keeps_clock_bind; [intros w; unfold from_result; by destruct (sx_remove_worker_dir X token)|intros _].
  apply keeps_clock_bind; [done|intros at_]. apply keeps_clock_bind; [apply keeps_clock_registry|done].
Qed.

Lemma tidied_ended now d d0 d1 : tidied d d0 -> workers_ended now d0 d1 -> workers_ended now d d1.
Proof.
  intros (Hl & Hp & Ha & Hw) [Hkept Hnew]. split.
  - intros token wr Hd Hact. apply (Hw token wr Hact) in Hd.
    destruct (Hkept token wr Hd Hact) as [?|[? Hpast]]; [by left|right; split; [done|]].
    unfold past_help, worker_lost, lease_holder_for_project, lease_for_project, git_launch_state in *. by rewrite <- Hl, <- Hp, <- Ha.
  - intros token wr Hd Hact. apply (Hw token wr Hact). by apply Hnew.
Qed.
Lemma tidied_one_active d d0 : tidied d d0 -> one_active_worker d -> one_active_worker d0.
Proof.
  intros (_ & _ & _ & Hw) Hone t1 t2 w1 w2 H1 H2 Ha1 Ha2. apply Hw in H1, H2; try done. by eapply Hone.
Qed.

Lemma reconcile_ended w r w' :
  reconcile w = (r, w') -> one_active_worker (registry w) ->
  workers_ended (clock E (git_runs w)) (registry w) (registry w').
Proof.
  unfold reconcile_independent_agent_workers. intros H Hone.
  pose proof (cleanup_tidied (registry w) w (tidied_refl _)) as [Ht _]. pose proof (cleanup_clock w) as Hclock.
  wstep H e u w1 Hc; rewrite Hc in Ht, Hclock; cbn in Ht, Hclock.
  { eapply tidied_ended; [exact Ht|apply ended_refl]. }
  wstep H e now w2 Hn; [discriminate Hn|]. injection Hn as <- <-. rewrite Hclock in H. apply effects_ended in H; [|by eapply tidied_one_active].
  by eapply tidied_ended.
Qed.
End Ended.

(** ** The stages of a pass *)

Definition occupied_projects (workers : list worker_record_row) (active : list Z) : list Z :=
  remove_dups (((fun w => w_project_id w.2) <$> workers) ++ active).

Section Stages.
Context (E : Surroundings) (X : SchedulerSurroundings) (own : bool).
Local Notation any := (fun _ => True).
Local Notation reconcile :=
  (reconcile_independent_agent_workers E (sx_registered X) (sx_launch X) (sx_remove_worker_dir X)).

Lemma before_inv now active w r w' :
  before_the_visits E X own now active w = (r, w') ->
  exists rr w1, reconcile w = (rr, w1) /\ follows calm (registry w1) (registry w')
    /\ forall found, r = Ok found -> exists workers, rr = Ok workers /\ found.1 = occupied_projects workers active.
Proof.
  unfold before_the_visits. intros H. apply wbind_inv in H as [(e & Hc & ->)|(workers & w1 & Hc & H)].
  { by exists (Err e), w'. }
  exists (Ok workers), w1. split; [done|]. split.
  - eapply maintained in H; [exact H|]. intros d. unfold busy_projects, abandoned_projects. maintain.
    apply acknowledge_idle_keeps.
  - intros found ->. wok H busy v2 G2. wok H u v3 G3. wok H ab v4 G4. injection H as <- _. by exists workers.
Qed.

(** A pass that does not come to its workers has changed nothing of them; otherwise they
    are reconciled, and all that follows is calm. *)
Lemma pass_stages active max checkin w r w' :
  run_agent_scheduler_pass_with_max_global_jobs E X own active max checkin w = (r, w') ->
  tidied (registry w) (registry w')
  \/ exists w0 rr w1, tidied (registry w) (registry w0) /\ git_runs w0 = git_runs w
     /\ reconcile w0 = (rr, w1) /\ follows calm (registry w1) (registry w').
Proof.
  unfold run_agent_scheduler_pass_with_max_global_jobs. intros H.
  wstep H e u w1 H1; apply ensure_inv in H1 as [-> _]; [left; apply tidied_refl|].
  assert (Hin : maintains (tidied (registry w)) any
                  (match checkin with Some c => record_agent_daemon_checkin E c | None => wret tt end)).
  { destruct checkin; [apply checkin_tidied|by apply maintains_ret]. }
  assert (Hclock : keeps_clock (match checkin with Some c => record_agent_daemon_checkin E c | None => wret tt end)).
  { destruct checkin; [|done]. unfold record_agent_daemon_checkin. repeat (apply keeps_clock_bind; [done|intros ?]). apply keeps_clock_registry. }
  specialize (Hin w (tidied_refl _)) as [Ht _]. specialize (Hclock w).
  wstep H e u2 w2 H2; rewrite H2 in Ht, Hclock; cbn in Ht, Hclock; [by left|].
  wstep H e now w3 H3; [discriminate H3|]. injection H3 as <- <-. right. exists w2.
  wstep H e found w4 H4; apply before_inv in H4 as (rr & w1 & Hrec & Hcalm & _); exists rr, w1; split_and!; try done.
  etrans; [exact Hcalm|]. eapply maintained in H; [exact H|]. intros d. destruct found as [durable abandoned].
  maintain. apply visits_keep.
Qed.

Lemma pass_ok active max checkin w s w' :
  run_agent_scheduler_pass_with_max_global_jobs E X own active max checkin w = (Ok s, w') ->
  0 < max /\ exists w0 workers w1 w2 timeout cooldown backoff now abandoned,
    reconcile w0 = (Ok workers, w1) /\ follows calm (registry w1) (registry w2)
    /\ visit_projects E X (match checkin with Some c => Scheduler.ci_holder c | None => agent_lease_holder E end)
         timeout cooldown backoff now own max (occupied_projects workers active) abandoned
         (list_projects (registry w2))
         (mkStart (mkPass 0 0 (length (occupied_projects workers active)) 0 0 0 0) []) w2 = (Ok s, w').
Proof.
  unfold run_agent_scheduler_pass_with_max_global_jobs. intros H. cbv zeta in H.
  wok H u w1 H1. apply ensure_inv in H1 as [-> [[Hmax _]|[_ [=]]]]. apply negb_true_iff, Nat.eqb_neq in Hmax.
  split; [lia|]. wok H u2 w2 H2. wok H now w3 H3. wok H found w4 H4.
  apply before_inv in H4 as (rr & v1 & Hrec & Hcalm & Hfound).
  destruct (Hfound _ eq_refl) as (workers & -> & Hd). destruct found as [durable abandoned]. cbn in Hd. subst durable.
  wok H timeout w5 H5. wok H cooldown w6 H6. wok H backoff w7 H7. wok H ps w8 H8.
  apply query_inv in H8 as [-> [= ->]].
  assert (registry w7 = registry w4) as Hw7.
  { unfold from_result in *. destruct (sx_lease_timeout X), (sx_success_cooldown X), (sx_failure_backoff X); try done.
    by simplify_eq. }
  exists w3, workers, v1, w7, timeout, cooldown, backoff, now, abandoned. rewrite Hw7. split_and!; [done|done|].
  by rewrite <- Hw7.
Qed.

(** The workers that are left are those that are unfinished when the pass ends. *)
Lemma unfinished_workers w0 workers w1 d :
  reconcile w0 = (Ok workers, w1) -> follows calm (registry w1) d ->
  forall token wr, (token, wr) ∈ workers <->
    agent_workers d !! token = Some wr /\ worker_state_active (w_state wr) = true
    /\ project_exists d (w_project_id wr) = true.
Proof.
  unfold reconcile_independent_agent_workers, reconcile_agent_worker_effects_stage. intros H Hcalm token wr.
  wok H u v1 H1. wok H now v2 H2. wok H ws v3 H3. wok H u2 v4 H4. apply active_listed in H as (-> & _ & Hin).
  destruct (calmly_kept _ _ Hcalm) as [Hw Hp]. rewrite Hin, Hw.
  assert (project_exists d (w_project_id wr) = project_exists (registry v4) (w_project_id wr)) as ->; [|done].
  assert (Hd : w_project_id wr ∈ dom (projects d) <-> w_project_id wr ∈ dom (projects (registry v4))) by by rewrite Hp.
  rewrite !elem_of_dom in Hd. unfold project_exists, is_Some in *.
  destruct (projects d !! _), (projects (registry v4) !! _); naive_solver.
Qed.
End Stages.

(** C17: A pass ends a worker only when it is lost. However the pass ends, a worker that was unfinished when it began is as it was, or it was abandoned and, by the registry the pass began with and its clock: the worker's program is not newer than this one; its service is drained, or it is an inline worker with no Git launch under way, not registered with this process and not of another that may be alive; and it was never claimed or heard of in time, its process is gone or missing, its inline generation or the project's lease is lost, or its selection cannot be read. No unfinished worker appears during a pass. *)
Theorem pass_ends_only_lost_workers E X own active max checkin w r w' :
  run_agent_scheduler_pass_with_max_global_jobs E X own active max checkin w = (r, w') ->
  reachable (registry w) ->
  (forall token wr,
     agent_workers (registry w) !! token = Some wr -> worker_state_active (w_state wr) = true ->
     agent_workers (registry w') !! token = Some wr
     \/ (exists wr', agent_workers (registry w') !! token = Some wr' /\ w_state wr' = Abandoned)
        /\ past_help E X (clock E (git_runs w)) (registry w) token wr)
  /\ (forall token wr,
        agent_workers (registry w') !! token = Some wr -> worker_state_active (w_state wr) = true ->
        agent_workers (registry w) !! token = Some wr).
Proof.
  intros H Hw. pose proof (ok_active _ (reachable_ok _ Hw)) as Hone. change (workers_ended E X (clock E (git_runs w)) (registry w) (registry w')).
  apply pass_stages in H as [Ht|(w0 & rr & w1 & Ht & Hclock & Hrec & Hcalm)].
  - eapply tidied_ended; [exact Ht|apply ended_refl].
  - eapply tidied_ended; [exact Ht|]. apply reconcile_ended in Hrec; [|by eapply tidied_one_active].
    rewrite Hclock in Hrec. apply calmly_kept in Hcalm as [Hsame _]. unfold workers_ended in *. by rewrite Hsame.
Qed.

(** Visiting a project changes no row of another project, whatever the visit does and however it ends: its lease, workers, conversations, journals, launch boundaries, runs, review and settings stay as they are. *)
Theorem visit_changes_one_project E X holder timeout cooldown backoff now own max durable abandoned p s w q :
  q <> p.1 ->
  slice q (registry (visit_project E X holder timeout cooldown backoff now own max durable abandoned p s w).2)
  = slice q (registry w).
Proof.
  destruct (visit_project _ _ _ _ _ _ _ _ _ _ _ _ _ w) as [r w'] eqn:H.
  apply (maintained (visiting p.1)) in H; [|intros d; by apply visit_project_keeps].
  intros Hq. apply (follows_isolated p.1); [|done]. eapply follows_mono; [apply visiting_about|done].
Qed.

(** ** The jobs of a pass *)

Definition holds (holder : string) (pid : Z) (d : db) : Prop := l_holder <$> leases d !! pid = Some holder.
Definition job_id (job : AgentRunJob) : Z := (j_project job).1.

Lemma holds_elsewhere holder pid q d d' :
  only_project q d d' -> pid <> q -> holds holder pid d -> holds holder pid d'.
Proof.
  intros Hd Hne. unfold holds. specialize (Hd pid Hne). unfold slice in Hd. injection Hd as _ Hl _. by rewrite Hl.
Qed.

Section Pass.
Context (E : Surroundings) (X : SchedulerSurroundings) (holder : string).

Lemma try_lease_holds p timeout w r w' :
  try_lease E p holder timeout w = (Ok r, w') -> r.1.1 = true -> holds holder p.1 (registry w').
Proof.
  unfold try_lease. intros H Hr. wok H at_ w1 Ha. wstill Ha. wok H exp w1 He. wstill He.
  wok H acquired w1 Hacq. injection H as <- <-. cbn in Hr. subst acquired.
  apply on_registry_inv in Hacq as (_ & Hd & [(a & Ha & [= <-])|(e & _ & [=])]). rewrite Hd. clear Hd.
  unfold try_acquire_lease, insert_lease_or_ignore in *. unfold holds.
  repeat (case_match; simplify_eq/=; try done). by rewrite lookup_insert_eq.
Qed.

Lemma take_lease_holds p timeout own w r w' :
  take_lease E p holder timeout own w = (Ok r, w') -> r.1.1 = true -> holds holder p.1 (registry w').
Proof.
  unfold take_lease. intros H Hr. wok H got w1 H1. destruct got.1.1 eqn:Hgot.
  - injection H as <- <-. by eapply try_lease_holds.
  - wok H lease w2 H2. wok H reclaimed w3 H3. destruct reclaimed; [by eapply try_lease_holds|].
    injection H as <- <-. congruence.
Qed.

Lemma release_unstarted_ok jobs w : (release_unstarted jobs w).1 = Ok tt.
Proof.
  unfold release_unstarted. revert w. induction jobs as [|job jobs IH]; intros w; [done|].
  cbn [wfor_each]. unfold wbind, wtry in *. cbv beta. destruct (on_registry _ w) as [r w1]. apply IH.
Qed.
Lemma guarded_inv {A} jobs (c : wio A) w r w' :
  guarded jobs c w = (r, w') ->
  exists w1, c w = (r, w1) /\ w' = match r with Ok _ => w1 | Err _ => (release_unstarted jobs w1).2 end.
Proof.
  unfold guarded, wtry, wbind. intros H. destruct (c w) as [[a|e] w1]; [injection H as <- <-; eauto|].
  pose proof (release_unstarted_ok jobs w1) as Hok. destruct (release_unstarted jobs w1) as [u w2] eqn:Hr.
  cbn in Hok. subst u. injection H as <- <-. exists w1. by rewrite Hr.
Qed.

Lemma quiet_controls_suspend p selection resume : keeps_registry (controls_suspend E p selection resume).
Proof. unfold controls_suspend. keep_registry. apply quiet_suspended. Qed.

Lemma acquire_holds p scan timeout own max selection resume w job at_ exp w' :
  acquire_agent_job_stage E p scan holder timeout own max selection resume w = (Ok (Acquired job at_ exp), w') ->
  j_project job = p /\ j_holder job = holder /\ j_worker_token job = None /\ holds holder p.1 (registry w').
Proof.
  unfold acquire_agent_job_stage. intros H. wok H stop w1 H1. destruct stop; [done|].
  wok H taken w2 H2. destruct taken as [[acquired a] e]. destruct acquired; cbn [negb] in H; [|by wok H l w3 Hl].
  wok H suspended w3 H3. destruct suspended; [by wok H u w4 Hu|]. apply guarded_inv in H3 as (v3 & H3 & ->).
  apply (keeps_registry_inv _ _ _ _ (quiet_controls_suspend _ _ _)) in H3.
  wok H contents w4 H4. apply (keeps_registry_inv _ _ _ _ (quiet_or_empty _ )) in H4.
  wok H waiting w5 H5. apply (keeps_registry_inv _ _ _ _ (quiet_or_empty _)) in H5.
  injection H as <- _ _ <-. split_and!; [done..|]. rewrite H5, H4, H3. by eapply take_lease_holds.
Qed.

Section Loop.
Context (timeout cooldown backoff now : Z) (own : bool) (max : nat) (durable abandoned : list Z).
Local Notation visit := (visit_project E X holder timeout cooldown backoff now own max durable abandoned).
Local Notation visit_all := (visit_projects E X holder timeout cooldown backoff now own max durable abandoned).

(** A new job of the project [pid]. *)
Definition new_job (pid : Z) (job : AgentRunJob) (d : db) : Prop :=
  job_id job = pid /\ j_holder job = holder /\ j_worker_token job = None /\ pid ∉ durable /\ holds holder pid d.

Lemma book_jobs v s w s' w' :
  book E holder timeout own max v s w = (Ok s', w') ->
  st_jobs s' = st_jobs s
  \/ exists p scan selection resume supervised job,
       v = Work p scan selection resume supervised /\ st_jobs s' = st_jobs s ++ [job]
       /\ job_id job = p.1 /\ j_holder job = holder /\ j_worker_token job = None
       /\ holds holder p.1 (registry w').
Proof.
  destruct v as [| |p scan selection resume supervised]; cbn [book]; [by intros [= <- _]; left|by intros [= <- _]; left|].
  destruct (at_capacity _ _); [by intros [= <- _]; left|]. intros H. wok H acquisition w1 Ha.
  injection H as <- <-. destruct acquisition as [job at_ exp|l|]; [|by left; destruct supervised|by left].
  right. apply acquire_holds in Ha as (Hj & Hh & Ht & Hl). exists p, scan, selection, resume, supervised, job.
  split_and!; try done. unfold job_id. by rewrite Hj.
Qed.

Lemma visit_jobs p s w s' w' :
  visit p s w = (Ok s', w') ->
  st_jobs s' = st_jobs s \/ exists job, st_jobs s' = st_jobs s ++ [job] /\ new_job p.1 job (registry w').
Proof.
  unfold visit_project. destruct (existsb (Z.eqb p.1) durable) eqn:Hd.
  { intros [= <- _]. left. by destruct (p_enabled p.2). }
  destruct (negb (p_enabled p.2)); [intros H; wok H u w1 Hu; injection H as <- _; by left|].
  intros H. wok H v w1 Hv.
  assert (visit_of p.1 v) as Hof.
  { destruct (visit_enabled_keeps E p.1 (registry w) X p now cooldown backoff own abandoned eq_refl w
                (reflexivity _)) as [_ Hof]. rewrite Hv in Hof. by apply Hof. }
  apply book_jobs in H as [H|(p' & scan & selection & resume & supervised & job & -> & H & Hj & Hh & Ht & Hl)]; [by left|].
  cbn in Hof. right. exists job. split; [done|]. split_and!; [congruence|done|done| |by rewrite <- Hof].
  intros Hin. apply not_true_iff_false in Hd. apply Hd, existsb_exists. exists p.1. rewrite <- list_elem_of_In.
  by rewrite Z.eqb_refl.
Qed.

(** Distinct projects that no worker was running in, each with its lease held. *)
Definition jobs_ok (s : AgentSchedulerStart) (d : db) : Prop :=
  NoDup (job_id <$> st_jobs s)
  /\ Forall (fun job => new_job (job_id job) job d) (st_jobs s).

Lemma visit_isolated p s w r w' : visit p s w = (r, w') -> only_project p.1 (registry w) (registry w').
Proof.
  intros H. apply (maintained (visiting p.1)) in H; [|intros d; by apply visit_project_keeps].
  apply follows_isolated. eapply follows_mono; [apply visiting_about|done].
Qed.

Lemma visit_jobs_ok p s w s' w' :
  visit p s w = (Ok s', w') -> Forall (fun job => job_id job <> p.1) (st_jobs s) ->
  jobs_ok s (registry w) -> jobs_ok s' (registry w').
Proof.
  intros H Hne [Hnd Hold].
  assert (Forall (fun job => new_job (job_id job) job (registry w')) (st_jobs s)) as Hkept.
  { apply Forall_forall. rewrite Forall_forall in Hold, Hne. intros job Hjob.
    destruct (Hold job Hjob) as (Hi & Hh & Ht & Hd & Hl). split_and!; try done.
    eapply holds_elsewhere; [by eapply visit_isolated|by apply Hne|done]. }
  unfold jobs_ok. apply visit_jobs in H as [->|(job & -> & Hjob)]; [done|]. rewrite fmap_app. split.
  - apply NoDup_app. split_and!; [done| |apply NoDup_singleton].
    intros i (job' & -> & Hj')%list_elem_of_fmap [Hi|[]%not_elem_of_nil]%elem_of_cons.
    rewrite Forall_forall in Hne. apply (Hne job' Hj'). rewrite Hi. by destruct Hjob.
  - apply Forall_app. split; [done|]. constructor; [|done]. destruct Hjob as (Hi & ?). rewrite Hi.
    by split.
Qed.

Lemma loop_jobs_ok ps s w s' w' :
  visit_all ps s w = (Ok s', w') -> NoDup (fst <$> ps) ->
  Forall (fun job => job_id job ∉ fst <$> ps) (st_jobs s) ->
  jobs_ok s (registry w) -> jobs_ok s' (registry w').
Proof.
  revert s w. induction ps as [|p ps IH]; intros s w H Hnd Hfresh Hok; [by injection H as <- <-|].
  cbn [visit_projects] in H. wok H s1 w1 Hv. apply guarded_inv in Hv as (w2 & Hv & ->).
  cbn in Hnd, Hfresh. apply NoDup_cons in Hnd as [Hp Hnd].
  assert (jobs_ok s1 (registry w2)) as Hok1.
  { eapply visit_jobs_ok; [exact Hv| |done]. eapply Forall_impl; [exact Hfresh|].
    intros job Hj Heq. apply Hj. rewrite Heq. by left. }
  apply (IH s1 w2 H Hnd); [|done]. apply visit_jobs in Hv as [->|(job & -> & Hjob & _)].
  - eapply Forall_impl; [exact Hfresh|]. intros j Hj Hin. apply Hj. by right.
  - apply Forall_app. split; [|by constructor; [rewrite Hjob|]].
    eapply Forall_impl; [exact Hfresh|]. intros j Hj Hin. apply Hj. by right.
Qed.

Lemma loop_jobs_visited ps s w s' w' :
  visit_all ps s w = (Ok s', w') ->
  forall job, job ∈ st_jobs s' -> job ∈ st_jobs s \/ job_id job ∈ fst <$> ps.
Proof.
  revert s w. induction ps as [|p ps IH]; intros s w H; [injection H as <- <-; auto|].
  cbn [visit_projects] in H. wok H s1 w1 Hv. apply guarded_inv in Hv as (w2 & Hv & ->). intros job Hjob.
  destruct (IH s1 w2 H job Hjob) as [Hj|?]; [|by right; right].
  apply visit_jobs in Hv as [Heq|(job' & Heq & Hid & _)]; rewrite Heq in Hj; [by left|].
  apply elem_of_app in Hj as [?| ->%list_elem_of_singleton]; [by left|]. right. rewrite Hid. by left.
Qed.
End Loop.
End Pass.

Lemma projects_distinct d : NoDup (fst <$> list_projects d).
Proof. unfold list_projects. rewrite sort_by_perm. apply NoDup_fst_map_to_list. Qed.

Lemma listed_project q d : q ∈ fst <$> list_projects d -> project_exists d q = true.
Proof.
  unfold list_projects, project_exists. rewrite sort_by_perm. intros ([q' p] & -> & Hp)%list_elem_of_fmap.
  apply elem_of_map_to_list in Hp. cbn. by rewrite Hp.
Qed.

(** An unfinished worker of a registered project. *)
Definition works_on (q : Z) (d : db) : Prop :=
  exists token wr, agent_workers d !! token = Some wr /\ worker_state_active (w_state wr) = true
    /\ w_project_id wr = q /\ project_exists d q = true.

Lemma occupied_spec E X w0 workers w1 active d q :
  reconcile_independent_agent_workers E (sx_registered X) (sx_launch X) (sx_remove_worker_dir X) w0
    = (Ok workers, w1) -> follows calm (registry w1) d ->
  q ∈ occupied_projects workers active <-> q ∈ active \/ works_on q d.
Proof.
  intros Hrec Hcalm. pose proof (unfinished_workers E X w0 workers w1 d Hrec Hcalm) as Hin.
  unfold occupied_projects, works_on. rewrite elem_of_remove_dups, elem_of_app, list_elem_of_fmap. split.
  - intros [([token wr] & -> & Htw)|?]; [right|by left]. apply Hin in Htw as (? & ? & ?). by exists token, wr.
  - intros [?|(token & wr & Hw & Ha & <- & He)]; [by right|left]. exists (token, wr). split; [done|]. by apply Hin.
Qed.

Lemma pass_jobs_ok E X own active max checkin w s w' :
  run_agent_scheduler_pass_with_max_global_jobs E X own active max checkin w = (Ok s, w') ->
  let holder := match checkin with Some c => Scheduler.ci_holder c | None => agent_lease_holder E end in
  NoDup (job_id <$> st_jobs s)
  /\ forall job, job ∈ st_jobs s ->
       j_holder job = holder /\ j_worker_token job = None /\ job_id job ∉ active
       /\ (forall token wr, agent_workers (registry w') !! token = Some wr ->
             worker_state_active (w_state wr) = true -> w_project_id wr <> job_id job)
       /\ holds holder (job_id job) (registry w').
Proof.
  intros H. cbv zeta.
  apply pass_ok in H as (_ & w0 & workers & w1 & w2 & timeout & cooldown & backoff & now & abandoned & Hrec & Hcalm & H).
  assert (follows calm (registry w2) (registry w')) as Hvisits.
  { eapply maintained in H; [exact H|]. intros d. apply visits_keep. }
  pose proof (loop_jobs_visited _ _ _ _ _ _ _ _ _ _ _ _ _ _ _ _ H) as Hvisited.
  eapply loop_jobs_ok in H as [Hnd Hjobs]; [|apply projects_distinct|constructor|split; constructor].
  split; [done|]. intros job Hjob. rewrite Forall_forall in Hjobs.
  destruct (Hjobs job Hjob) as (_ & Hh & Ht & Hd & Hl).
  rewrite (occupied_spec _ _ _ _ _ _ (registry w')) in Hd by (done || by etrans).
  split_and!; [done|done|by intros ?; apply Hd; left| |done].
  intros token wr Hw Ha Hq. apply Hd. right. exists token, wr. split_and!; try done.
  destruct (Hvisited job Hjob) as [Hnil|Hin]; [by apply elem_of_nil in Hnil|]. apply listed_project in Hin.
  apply calmly_kept in Hvisits as [_ Hdom]. unfold project_exists in *.
  assert (job_id job ∈ dom (projects (registry w'))) as [p Hp]%elem_of_dom; [|by rewrite Hp].
  rewrite Hdom. apply elem_of_dom. by destruct (projects (registry w2) !! _).
Qed.

(** C12: The jobs a pass returns are for distinct projects, none of which the caller occupied or has an unfinished worker when the pass ends, and the pass holds the lease of each of them then, under its own name. *)
Theorem pass_jobs_hold_their_leases E X own active max checkin w s w' :
  run_agent_scheduler_pass_with_max_global_jobs E X own active max checkin w = (Ok s, w') ->
  let holder := match checkin with Some c => Scheduler.ci_holder c | None => agent_lease_holder E end in
  NoDup (job_id <$> st_jobs s)
  /\ forall job, job ∈ st_jobs s ->
       j_holder job = holder /\ job_id job ∉ active
       /\ (forall token wr, agent_workers (registry w') !! token = Some wr ->
             worker_state_active (w_state wr) = true -> w_project_id wr <> job_id job)
       /\ holds holder (job_id job) (registry w').
Proof.
  intros H. cbv zeta. apply pass_jobs_ok in H as [Hnd Hjobs]. split; [done|]. intros job Hjob.
  by destruct (Hjobs job Hjob) as (? & ? & ? & ? & ?).
Qed.

(** ** The counters of a pass *)

(** [n] projects were visited. *)
Definition counted (max busy n : nat) (s : AgentSchedulerStart) : Prop :=
  let c := st_pass s in
  active_agent_jobs c = busy /\ runs_started c = length (st_jobs s)
  /\ active_agent_jobs c + length (st_jobs s) <= Nat.max max busy
  /\ runs_started c + deferred_projects c <= pending_projects c
  /\ pending_projects c <= scanned_projects c /\ scanned_projects c <= n /\ runs_recorded c = 0.

Section Counters.
Context (E : Surroundings) (X : SchedulerSurroundings) (holder : string).
Context (timeout cooldown backoff now : Z) (own : bool) (max : nat) (durable abandoned : list Z).

(** Booking counts work that was scanned but is not yet pending. *)
Lemma book_counted busy n v s w s' w' :
  book E holder timeout own max v s w = (Ok s', w') ->
  counted max busy n s -> pending_projects (st_pass s) < scanned_projects (st_pass s) -> counted max busy n s'.
Proof.
  unfold counted. destruct v as [| |p scan selection resume supervised]; cbn [book].
  - by intros [= <- _].
  - intros [= <- _]. cbn. lia.
  - destruct (at_capacity _ _) eqn:Hcap; [intros [= <- _]; cbn; lia|].
    unfold at_capacity in Hcap. cbn in Hcap. apply Nat.leb_gt in Hcap.
    intros H. wok H acquisition w1 Ha. injection H as <- _.
    destruct acquisition as [job at_ exp|l|]; [|destruct supervised|]; cbn; rewrite ?length_app; cbn; lia.
Qed.

Lemma visit_counted busy n p s w s' w' :
  visit_project E X holder timeout cooldown backoff now own max durable abandoned p s w = (Ok s', w') ->
  counted max busy n s -> counted max busy (S n) s'.
Proof.
  unfold visit_project. destruct (existsb _ _).
  { intros [= <- _] H. destruct (p_enabled p.2); unfold counted in *; cbn; lia. }
  destruct (negb (p_enabled p.2)).
  { intros H Hc. wok H u w1 Hu. injection H as <- _. unfold counted in *. lia. }
  intros H Hc. wok H v w1 Hv. eapply book_counted; [exact H| |]; unfold counted in *; cbn in *; lia.
Qed.

Lemma loop_counted busy ps n s w s' w' :
  visit_projects E X holder timeout cooldown backoff now own max durable abandoned ps s w = (Ok s', w') ->
  counted max busy n s -> counted max busy (length ps + n) s'.
Proof.
  revert n s w. induction ps as [|p ps IH]; intros n s w H Hc; [by injection H as <- _|].
  cbn [visit_projects] in H. wok H s1 w1 Hv. apply guarded_inv in Hv as (w2 & Hv & ->).
  replace (length (p :: ps) + n) with (length ps + S n) by (cbn; lia).
  eapply IH; [exact H|]. by eapply visit_counted.
Qed.
End Counters.

Lemma pass_counted E X own active max checkin w s w' :
  run_agent_scheduler_pass_with_max_global_jobs E X own active max checkin w = (Ok s, w') ->
  0 < max /\ exists busy n, counted max (length busy) n s
    /\ NoDup busy /\ forall q, q ∈ busy <-> q ∈ active \/ works_on q (registry w').
Proof.
  intros H.
  apply pass_ok in H as (Hmax & w0 & workers & w1 & w2 & timeout & cooldown & backoff & now & abandoned & Hrec & Hcalm & H).
  split; [done|]. exists (occupied_projects workers active). eexists. split_and!.
  - eapply (loop_counted _ _ _ _ _ _ _ _ _ _ _ _ _ 0); [exact H|]. unfold counted. cbn. lia.
  - apply NoDup_remove_dups.
  - intros q. eapply (occupied_spec E X); [done|]. etrans; [exact Hcalm|].
    eapply maintained in H; [exact H|]. intros d. apply visits_keep.
Qed.

(** C22: The limit on jobs holds over all projects. A pass counts as busy exactly the projects the caller occupies and those with an unfinished worker when it ends; the jobs it starts, with the busy projects, never exceed the limit unless the busy ones already do. Every started job is counted once, what started or waits was pending, and what was pending was scanned. *)
Theorem pass_respects_the_global_limit E X own active max checkin w s w' :
  run_agent_scheduler_pass_with_max_global_jobs E X own active max checkin w = (Ok s, w') ->
  let c := st_pass s in
  0 < max
  /\ (exists busy, NoDup busy /\ (forall q, q ∈ busy <-> q ∈ active \/ works_on q (registry w'))
        /\ active_agent_jobs c = length busy
        /\ length busy + length (st_jobs s) <= Nat.max max (length busy))
  /\ runs_started c = length (st_jobs s)
  /\ runs_started c + deferred_projects c <= pending_projects c
  /\ pending_projects c <= scanned_projects c.
Proof.
  intros H. cbv zeta. apply pass_counted in H as [Hmax (busy & n & Hc & Hnd & Hbusy)]. unfold counted in Hc.
  split; [done|]. split; [exists busy; split_and!; [done|done|lia|lia]|]. lia.
Qed.

(** ** A pass that fails *)

Lemma released_stays pid holder jobs w :
  ~ holds holder pid (registry w) -> ~ holds holder pid (registry (release_unstarted jobs w).2).
Proof.
  revert w. unfold release_unstarted. induction jobs as [|job jobs IH]; intros w Hw; [done|].
  cbn [wfor_each]. unfold wbind, wtry in *. cbv beta. destruct (on_registry _ w) as [r w1] eqn:Hr.
  apply IH. apply on_registry_inv in Hr as (_ & Hd & _). rewrite Hd. clear -Hw.
  unfold holds, release_lease, sql_delete in *. destruct (leases (registry w) !! job.1) as [l|] eqn:Hl; [|done].
  destruct (l_holder l == job.2); [|done]. cbn. destruct (decide (job.1 = pid)) as [->|Hne].
  - by rewrite lookup_delete_eq.
  - by rewrite lookup_delete_ne.
Qed.

Lemma all_released jobs w :
  Forall (fun job => ~ holds job.2 job.1 (registry (release_unstarted jobs w).2)) jobs.
Proof.
  revert w. induction jobs as [|[pid holder] jobs IH]; intros w; [done|].
  assert (exists w1, registry w1 = (release_lease pid holder (registry w)).2
                     /\ (release_unstarted ((pid, holder) :: jobs) w).2 = (release_unstarted jobs w1).2) as (w1 & Hw1 & Heq).
  { unfold release_unstarted. cbn [wfor_each]. unfold wbind, wtry. cbv beta.
    destruct (on_registry _ w) as [r w1] eqn:Hr. apply on_registry_inv in Hr as (_ & Hd & _). by exists w1. }
  rewrite Heq. constructor; [|apply IH]. apply released_stays. rewrite Hw1. apply release_lease_gone.
Qed.

(** C13: A pass that fails while it visits a project gives back the leases of all the jobs it had found: there is a first project whose visit failed, and afterwards the lease of none of the jobs found before it is held. *)
Theorem failed_pass_gives_leases_back E X holder timeout cooldown backoff now own max durable abandoned ps s w e w' :
  let visit := visit_project E X holder timeout cooldown backoff now own max durable abandoned in
  let visit_all := visit_projects E X holder timeout cooldown backoff now own max durable abandoned in
  visit_all ps s w = (Err e, w') ->
  exists before p after s1 w1 w2,
    ps = before ++ p :: after /\ visit_all before s w = (Ok s1, w1) /\ visit p s1 w1 = (Err e, w2)
    /\ Forall (fun job => ~ holds (j_holder job) (job_id job) (registry w')) (st_jobs s1).
Proof.
  cbv zeta. revert s w. induction ps as [|p ps IH]; intros s w H; [done|]. cbn [visit_projects] in H.
  apply wbind_inv in H as [(e' & Hv & [= <-])|(s1 & w1 & Hv & H)].
  - apply guarded_inv in Hv as (w2 & Hv & ->). exists [], p, ps, s, w, w2.
    split_and!; try done. pose proof (all_released (lease_of_job <$> st_jobs s) w2) as Hall.
    rewrite Forall_fmap in Hall. exact Hall.
  - apply guarded_inv in Hv as (w2 & Hv & ->). apply IH in H as (before & p' & after & s2 & w3 & w4 & -> & Hb & Hf & Hj).
    exists (p :: before), p', after, s2, w3, w4. split_and!; try done.
    cbn [visit_projects]. unfold wbind at 1. unfold guarded, wtry, wbind. by rewrite Hv.
Qed.

(** ** Sessions without a worker *)

Section Supervise.
Context (expected : ObservedControl) (holder : string).
Local Notation key := (ob_project_id expected, ob_session_id expected).

(** The supervisor holds the lease, and the control it watches asks for a stop. *)
Definition may_signal (d : db) : Prop :=
  holds_lease expected holder d = true
  /\ exists c, session_control (ob_project_id expected) (ob_session_id expected) d = Ok (Some c)
       /\ same_generation expected key c = true /\ Control.requested_action (sc_state c) <> None.

Lemma renewed_still_held exp d :
  holds_lease expected holder d = true ->
  holds_lease expected holder (renew_lease (ob_project_id expected) holder exp d).2 = true.
Proof.
  unfold holds_lease, agent_lease_for_project, lease_for_project, renew_lease, sql_update.
  destruct (leases d !! ob_project_id expected) as [l|] eqn:Hl; [|done].
  destruct (l_holder l == holder) eqn:Hh; cbn; [|by rewrite Hl].
  rewrite lookup_insert_eq. by destruct (projects d !! _).
Qed.

Lemma renew_inv t s w s' r w' :
  renew expected holder t s w = (Ok (s', r), w') -> holds_lease expected holder (registry w) = true ->
  stop_started s' = stop_started s /\ holds_lease expected holder (registry w') = true.
Proof.
  unfold renew. destruct (_ <? RENEWAL_MILLIS)%Z; [by intros [= <- _ <-]|]. intros H Hheld.
  wok H renewed w1 Hr. unfold wtry in Hr. destruct (on_registry _ w) as [r0 w2] eqn:Ho. injection Hr as <- <-.
  apply on_registry_inv in Ho as (_ & Hd & _). injection H as Hs <-. split.
  - by destruct r0 as [[]|e]; injection Hs as <- _.
  - rewrite Hd. by apply renewed_still_held.
Qed.

(** One turn sends nothing, or one signal while it may. *)
Lemma step_inv t s w s' signals r w' :
  supervise_step expected holder t s w = (Ok (s', signals, r), w') ->
  signals = [] /\ stop_started s' = stop_started s
  \/ may_signal (registry w')
     /\ signals = [(registry w', signal_for (default (tk_instant_millis t) (stop_started s)) t)].
Proof.
  unfold supervise_step. intros H. wok H held w1 Hq. apply query_inv in Hq as [-> [= ->]].
  destruct (holds_lease _ _ _) eqn:Hheld; [|by injection H as <- <- _ _; left]. cbn [negb] in H.
  wok H renewed w1 Hr. destruct renewed as [s1 r1]. apply renew_inv in Hr as [Hs Hheld1]; [|done].
  destruct r1 as [[]|e]; [|by injection H as <- <- _ _; left|by injection H as <- <- _ _; left].
  unfold supervise_owned in H. wok H control w2 Hc. unfold wtry, query_res in Hc.
  destruct (session_control _ _ (registry w1)) as [[c|]|e] eqn:Hcontrol; injection Hc as <- <-;
    [|by injection H as <- <- _ _; left|by injection H as <- <- _ _; left].
  destruct (same_generation _ _ _) eqn:Hgen; [|by injection H as <- <- _ _; left]. cbn [negb] in H.
  destruct (tk_is_running t) as [[]|e]; [| |by injection H as <- <- _ _; left].
  - unfold deliver in H. destruct (Control.requested_action (sc_state c)) eqn:Hasked; [|by injection H as <- <- _ _; left].
    injection H as <- <- _ <-. right. rewrite Hs. split; [|done]. split; [done|]. exists c. by rewrite Hasked.
  - wok H settled w3 Hset. injection H as <- <- _ _. by left.
Qed.

(** C24: The supervisor of a session without a worker sends a signal only while it holds the project's lease and the session is still the process it watches and asks to stop or to be interrupted, by the registry of the turn that sends it; the first signal asks the process to stop, none kills it outright. *)
Theorem signals_only_as_owner ticks s w signals ended w' :
  supervise_attached_process expected holder ticks s w = (Ok (signals, ended), w') ->
  Forall (fun sent => may_signal sent.1) signals
  /\ (stop_started s = None -> hd_error (snd <$> signals) <> Some KillProcess).
Proof.
  revert s w signals. induction ticks as [|t ticks IH]; intros s w signals H; [by injection H as <- _ _|].
  cbn [supervise_attached_process] in H. wok H u w1 H1. wok H stepped w2 H2.
  destruct stepped as [[s' sent] r]. apply step_inv in H2.
  assert (forall more, Forall (fun x => may_signal x.1) more /\ (stop_started s' = None -> hd_error (snd <$> more) <> Some KillProcess) ->
    Forall (fun x => may_signal x.1) (sent ++ more)
    /\ (stop_started s = None -> hd_error (snd <$> (sent ++ more)) <> Some KillProcess)) as Happ.
  { intros more [Hall Hhead]. destruct H2 as [[-> Hs]|[Hmay ->]]; [by rewrite <- Hs|].
    split; [by constructor|]. intros Hnone. rewrite Hnone. cbn. unfold signal_for. by rewrite Z.sub_diag. }
  assert (forall x, wret (sent, x) w2 = (Ok (signals, ended), w') ->
    Forall (fun x => may_signal x.1) signals /\ (stop_started s = None -> hd_error (snd <$> signals) <> Some KillProcess)) as Hend.
  { intros x [= <- _ _]. rewrite <- (app_nil_r sent). by apply Happ. }
  destruct r as [[]|e]; [by eapply Hend| |destruct (tk_repair_required t); [by eapply Hend|]].
  all: wok H rest w3 H3; destruct rest as [more fin]; injection H as <- <- <-; by eapply Happ, IH.
Qed.
End Supervise.

(** ** Explicit recovery *)

Section Recovery.
Context (E : Surroundings) (read_small_log : string -> option text) (automated_child : bool).
Context (holder_for_current_process : nat -> string) (today : nat -> text) (plan : GitRecoveryPlan).
Local Notation pid := ((pl_project plan).1).
Local Notation sid := (utf8 (pl_session_id plan)).

Lemma finish_inv holder chosen w r w' :
  finish_recovery E today plan holder chosen w = (r, w') ->
  exists ps, registry w' = (registry w) <| projects := ps |>.
Proof.
  unfold finish_recovery. intros H.
  assert (forall v, registry v = registry w -> exists ps, registry v = (registry w) <| projects := ps |>) as Hsame.
  { intros v ->. exists (projects (registry w)). by destruct (registry w). }
  pose proof (quiet_requeue E today) as Hq.
  apply wbind_inv in H as [(e & Hc & ->)|(u & w1 & Hc & H)]; wquiet Hc Hr1; [by apply Hsame|].
  apply wbind_inv in H as [(e & Hc2 & ->)|(at_ & w2 & Hc2 & H)]; wquiet Hc2 Hr2; [by apply Hsame; congruence|].
  apply wbind_inv in H as [(e & Hf & ->)|(u2 & w3 & Hf & H)]; apply on_registry_inv in Hf as (_ & Hd & _).
  all: try (injection H as <- <-).
  all: rewrite Hd, Hr2, Hr1; unfold finish_missing_git_recovery; destruct (sql_update _ _ _ _) as [ps n];
    exists ps; by destruct (n == 1%Z).
Qed.

(** What the recovery leaves when it got as far as reserving the project. *)
Definition reserved_and_released (q : RecoveryRequest) (d d' : db) : Prop :=
  recovery_refused q d = None
  /\ leases d' !! q_project_id q = None
  /\ (exists c, session_controls d' !! (q_project_id q, q_session_id q) = Some c /\ sc_state c = Stopped
        /\ sc_run_token c = Some (recovery_token_of (q_expected_run_id q)))
  /\ forall k, k <> (q_project_id q, q_session_id q) -> git_finalizations d' !! k = git_finalizations d !! k.

Lemma retired_elsewhere q d k :
  k <> (q_project_id q, q_session_id q) ->
  git_finalizations (retire_reviewed_journal q d) !! k = git_finalizations d !! k.
Proof.
  intros Hk. unfold retire_reviewed_journal. destruct (q_expected_journal q) as [[k0 g]|]; [|done].
  destruct (_ || _); [|done]. unfold update_journal, sql_update.
  destruct (git_finalizations d !! (q_project_id q, q_session_id q)); cbn; [|done]. by rewrite lookup_insert_ne.
Qed.
Lemma begun_inv q d d1 ps d' :
  begin_missing_git_recovery q d = (Ok tt, d1) ->
  d' = (release_lease (q_project_id q) (q_holder q) (d1 <| projects := ps |>)).2 ->
  reserved_and_released q d d'.
Proof.
  unfold begin_missing_git_recovery, transaction. destruct (recovery_refused q d) as [e|] eqn:Hq; [done|].
  intros [= <-] ->. unfold release_lease, sql_delete, stop_recovered_session. cbn. rewrite lookup_insert_eq. cbn.
  rewrite bool_decide_true by done. cbn. split_and!; [done|cbn; by rewrite lookup_delete_eq| |].
  - eexists. cbn. rewrite lookup_insert_eq. split; [done|]. by case_match.
  - intros k Hk. cbn. by apply retired_elsewhere.
Qed.

Lemma finished_and_released q holder chosen w r w' :
  q_project_id q = pid -> q_holder q = holder ->
  forall d, begin_missing_git_recovery q d = (Ok tt, registry w) ->
  (run! result := wtry (finish_recovery E today plan holder chosen) in
   run! released := wtry (on_registry (release_lease pid holder)) in
   run! message := from_result result in
   run! _ := from_result released in
   wret message) w = (r, w') ->
  reserved_and_released q d (registry w').
Proof.
  intros Hp Hh d Hbegun. unfold wbind, wtry, from_result.
  destruct (finish_recovery _ _ _ _ _ w) as [f w1] eqn:Hf. apply finish_inv in Hf as [ps Hps].
  destruct (on_registry _ w1) as [released w2] eqn:Hr. apply on_registry_inv in Hr as (_ & Hd & _).
  intros H. assert (w2 = w') as <- by (destruct f, released; cbn in H; by injection H).
  eapply begun_inv; [exact Hbegun|]. by rewrite Hp, Hh, Hd, Hps.
Qed.

Lemma after_quiet {A B} (c : wio A) (k : A -> wio B) w d r w' :
  keeps_registry c -> registry w = d -> wbind c k w = (r, w') ->
  registry w' = d \/ exists a w1, registry w1 = d /\ k a w1 = (r, w').
Proof.
  intros Hc Hd H. apply wbind_inv in H as [(e & Hce & ->)|(a & w1 & Hca & H)].
  - left. by rewrite (keeps_registry_inv _ _ _ _ Hc Hce).
  - right. exists a, w1. by rewrite (keeps_registry_inv _ _ _ _ Hc Hca).
Qed.

(** C23: A recovery either leaves the registry as it was, or every check on the reviewed attempt held when it began; then, however it ends, the project's lease is given back, the recovered conversation is stopped with the token of the recovery, and no journal of another conversation changed. *)
Theorem recovery_checks_and_releases resume w r w' :
  execute_git_recovery E read_small_log automated_child holder_for_current_process today plan resume w = (r, w') ->
  registry w' = registry w
  \/ exists holder at_ exp,
       reserved_and_released (recovery_request plan resume holder at_ exp) (registry w) (registry w').
Proof.
  unfold execute_git_recovery. intros H.
  pose proof (quiet_chosen E plan) as Q1. pose proof (quiet_checkout E plan) as Q2.
  pose proof (quiet_conflict E read_small_log plan) as Q3.
  remember (registry w) as d eqn:Hw. symmetry in Hw.
  do 13 (apply (after_quiet _ _ _ d) in H as [H|(? & w1 & Hw1 & H)];
    [by left| |solve [keep_registry]|exact Hw]; clear Hw w; rename w1 into w; rename Hw1 into Hw).
  apply wbind_inv in H as [(e & Hb & _)|([] & w1 & Hb & H)]; apply on_registry_inv in Hb as (_ & Hd & Hb).
  - left. destruct Hb as [(? & _ & [=])|(e' & He & _)]. rewrite Hd, Hw. clear -He Hw. subst d.
    unfold begin_missing_git_recovery, transaction in *. by destruct (recovery_refused _ _).
  - right. do 3 eexists. eapply (finished_and_released (recovery_request plan resume _ _ _)); [| | |exact H];
      [done..|]. rewrite <- Hw, Hd. destruct Hb as [([] & He & _)|(e' & _ & [=])]. by rewrite <- He, <- surjective_pairing.
Qed.
End Recovery.

(** ** Dispatching *)

(** Abandoning a worker gives no project a lease it had not. *)
Lemma abandoned_not_held a pid holder d :
  ~ holds holder pid d -> ~ holds holder pid (abandon_worker a d).2.
Proof.
  intros Hd. unfold abandon_worker, transaction, txn_try.
  repeat (case_match; simplify_eq/=; try done).
  all: repeat match goal with H : record_worker_run _ _ _ = Ok _ |- _ =>
         apply record_worker_run_frame in H as (? & ? & ->) end.
  all: try match goal with H : sql_delete _ _ _ = _ |- _ => unfold sql_delete in H; repeat (case_match; simplify_eq/=) end.
  all: unfold holds in *; cbn in *; try done.
  all: destruct (decide (w_project_id w = pid)) as [->|Hne]; [by rewrite lookup_delete_eq|by rewrite lookup_delete_ne].
Qed.

Lemma released_not_held pid holder w r w' :
  on_registry (release_lease pid holder) w = (r, w') -> ~ holds holder pid (registry w').
Proof. intros H. apply on_registry_inv in H as (_ & -> & _). apply release_lease_gone. Qed.

Lemma job_lease_gone {A} job (k : unit -> wio A) w r w' :
  (forall u v, registry (k u v).2 = registry v) ->
  wbind (release_agent_job_lease_for_shutdown job) k w = (r, w') ->
  ~ holds (j_holder job) (job_id job) (registry w').
Proof.
  intros Hk H. unfold release_agent_job_lease_for_shutdown in H.
  apply wbind_inv in H as [(e & Hc & ->)|(u & w1 & Hc & H)];
    apply wbind_inv in Hc as [(e' & Hd & Hr)|(b & w2 & Hd & Hr)]; try done.
  - by apply released_not_held in Hd.
  - injection Hr as <- <-. apply released_not_held in Hd. specialize (Hk tt w2). rewrite H in Hk. cbn in Hk. by rewrite Hk.
Qed.

Lemma reservation_holds q d d' :
  reserve_worker q None d = (Ok true, d') ->
  holds (worker_lease_holder (res_worker_token q)) (res_project_id q) d'.
Proof.
  intros (_ & _ & _ & Hl & _)%reservation_fences_project. unfold lease_held_by in Hl. unfold holds.
  destruct (leases d' !! _) as [l|]; [|done]. apply bool_decide_eq_true in Hl. cbn. by rewrite Hl.
Qed.
Lemma reserve_for_job_lease spec job arguments created w r w' :
  j_holder job <> worker_lease_holder (sp_worker_token spec) ->
  reserve_for_job spec job arguments created w = (r, w') ->
  ~ holds (j_holder job) (job_id job) (registry w').
Proof.
  intros Hne. unfold reserve_for_job, wbind at 1, wtry. destruct (on_registry _ w) as [reserved w1] eqn:Ho.
  destruct reserved as [[]|e]; [|by apply job_lease_gone|by apply job_lease_gone].
  intros [= _ <-]. apply on_registry_inv in Ho as (_ & Hd & [(b & Hb & [= <-])|(e & _ & [=])]).
  destruct (reserve_worker _ None (registry w)) as [res d'] eqn:Hres. cbn in Hb, Hd. subst res.
  apply reservation_holds in Hres. rewrite Hd. unfold holds, job_id. cbn in Hres. rewrite Hres. congruence.
Qed.

(** However the dispatching of a job ends, the dispatcher no longer holds the project's lease: the worker that was reserved has it, or it was given back. *)
Theorem dispatch_keeps_no_lease E launch prepare error_text command_arguments spec job w r w' :
  j_holder job <> worker_lease_holder (sp_worker_token spec) ->
  dispatch_independent_agent_worker_with E launch prepare error_text command_arguments spec job w = (r, w') ->
  ~ holds (j_holder job) (job_id job) (registry w').
Proof.
  intros Hne. unfold dispatch_independent_agent_worker_with. destruct (prepare spec) as [[]|e].
  2: by apply job_lease_gone.
  intros H. apply wbind_inv in H as [(e & [=] & _)|(at_ & w1 & _ & H)].
  apply wbind_inv in H as [(e & Hr & _)|([] & w2 & Hr & H)]; apply reserve_for_job_lease in Hr; try done.
  destruct (launch spec) as [[]|e]; [by injection H as _ <-|].
  apply wbind_inv in H as [(e' & [=] & _)|(now & w3 & Hn & H)]. injection Hn as _ <-.
  apply wbind_inv in H as [(e' & Hb & _)|(b & w4 & Hb & H)]; apply on_registry_inv in Hb as (_ & Hd & _).
  - rewrite Hd. by apply abandoned_not_held.
  - assert (w4 = w') as <- by (destruct b; by injection H). rewrite Hd. by apply abandoned_not_held.
Qed.

(** ** Witnesses *)

Definition sample_scheduler (heartbeat_lost : bool) : SchedulerSurroundings :=
  mkScheduler (mkProcesses (fun _ _ _ => Ok true) (fun _ => Ok tt)) sample_repair (fun _ => "error")
    (fun _ => false) (fun _ => Ok tt) (fun _ => Ok tt) (fun _ => str "2026-01-02") (fun _ => None) false
    (fun n => "clt-recovery-" +:+ dec (Z.of_nat n)) (fun _ _ => heartbeat_lost) (fun _ => Some false)
    (Ok 300%Z) (Ok 60%Z) (Ok 600%Z).

(** A task waits in one project; the directory of the other is missing. *)
Definition two_projects : list command :=
  [RegisterProject "/p" "p" "900"; RegisterProject "/q" "q" "900"; SetProjectEnabled 1 true "901";
   SetProjectEnabled 2 true "901"].
Definition work_waits : world := mkWorld (sample_tree [offered] [] []) (at_stage two_projects) 0.
Definition sample_pass : res refusal AgentSchedulerStart * world :=
  run_agent_scheduler_pass_with_max_global_jobs sample_surroundings (sample_scheduler false) false [] 2 None
    work_waits.
Definition sample_start : AgentSchedulerStart :=
  match sample_pass.1 with Ok s => s | Err _ => mkStart (mkPass 0 0 0 0 0 0 0) [] end.

Lemma sample_pass_starts : sample_pass = (Ok sample_start, sample_pass.2) /\ length (st_jobs sample_start) = 1.
Proof. split; vm_compute; reflexivity. Qed.

Lemma visit_changes_one_project_witness :
  slice 2 (registry (visit_project sample_surroundings (sample_scheduler false) holder 300 60 600 1010 false 2 [] []
    (1%Z, new_project "/p" "p" "900") (mkStart (mkPass 0 0 0 0 0 0 0) []) work_waits).2)
  = slice 2 (registry work_waits).
Proof. apply visit_changes_one_project. done. Defined.

(** The process of a running worker is gone. *)
Definition worker_gone : world := mkWorld (sample_tree [] [noted] []) (at_stage running) 0.
Definition gone_pass : res refusal AgentSchedulerStart * world :=
  run_agent_scheduler_pass_with_max_global_jobs sample_surroundings (sample_scheduler false) false [] 2 None
    worker_gone.

Lemma pass_ends_only_lost_workers_witness :
  exists wr, agent_workers (registry worker_gone) !! token = Some wr /\ worker_state_active (w_state wr) = true
    /\ past_help sample_surroundings (sample_scheduler false) (clock sample_surroundings (git_runs worker_gone))
         (registry worker_gone) token wr.
Proof.
  assert (Hw : exists wr, agent_workers (registry worker_gone) !! token = Some wr
                 /\ worker_state_active (w_state wr) = true) by (vm_compute; eauto).
  destruct Hw as (wr & Hw & Ha). exists wr. split; [exact Hw|]. split; [exact Ha|].
  destruct (pass_ends_only_lost_workers sample_surroundings (sample_scheduler false) false [] 2 None worker_gone
              gone_pass.1 gone_pass.2 (surjective_pairing gone_pass) (at_stage_reachable running)) as [Hkept _].
  destruct (Hkept token wr Hw Ha) as [Hsame|[_ Hpast]]; [exfalso|exact Hpast].
  assert (Hended : w_state <$> agent_workers (registry gone_pass.2) !! token = Some Abandoned)
    by (vm_compute; reflexivity).
  rewrite Hsame in Hended. cbn in Hended. injection Hended as Hs. rewrite Hs in Ha. discriminate Ha.
Defined.

Lemma pass_jobs_hold_their_leases_witness :
  length (st_jobs sample_start) = 1
  /\ forall job, job ∈ st_jobs sample_start -> holds (j_holder job) (job_id job) (registry sample_pass.2).
Proof.
  split; [exact (proj2 sample_pass_starts)|]. intros job Hjob.
  destruct (pass_jobs_hold_their_leases sample_surroundings (sample_scheduler false) false [] 2 None work_waits
              sample_start sample_pass.2 (proj1 sample_pass_starts)) as [_ Hall].
  destruct (Hall job Hjob) as (-> & _ & _ & Hl). exact Hl.
Defined.

Lemma pass_respects_the_global_limit_witness :
  runs_started (st_pass sample_start) = 1 /\ pending_projects (st_pass sample_start) <= 2.
Proof.
  destruct (pass_respects_the_global_limit sample_surroundings (sample_scheduler false) false [] 2 None work_waits
              sample_start sample_pass.2 (proj1 sample_pass_starts)) as (_ & _ & Hs & _ & Hp).
  split; [rewrite Hs; exact (proj2 sample_pass_starts)|].
  etrans; [exact Hp|]. vm_compute. repeat constructor.
Defined.

(** Work of one project is found before the finalizer of the other loses its lease. *)
Definition board_node (todo done : list text) : node :=
  Dir {[ str "tasks" := Dir (list_to_map
    [(Status.filename Todo, markdown "# Todo" todo); (Status.filename Doing, markdown "# Doing" []);
     (Status.filename Done, markdown "# Done" done); (Status.filename Backlog, markdown "# Backlog" [])]) ]}.
Definition two_boards : world :=
  mkWorld (Dir {[ str "a" := board_node [offered] []; str "p" := board_node [] [noted] ]})
    (at_stage (finished ++ [RegisterProject "/a" "a" "900"; SetProjectEnabled 1 true "901";
                            SetProjectEnabled 2 true "901"])) 0.
Definition no_jobs : AgentSchedulerStart := mkStart (mkPass 0 0 0 0 0 0 0) [].
Definition failing_pass : res refusal AgentSchedulerStart * world :=
  visit_projects sample_surroundings (sample_scheduler true) holder 300 60 600 1010 false 2 [] []
    (list_projects (registry two_boards)) no_jobs two_boards.

Lemma failed_pass_gives_leases_back_witness :
  exists before p after s1 w1 w2,
    list_projects (registry two_boards) = before ++ p :: after
    /\ visit_projects sample_surroundings (sample_scheduler true) holder 300 60 600 1010 false 2 [] []
         before no_jobs two_boards = (Ok s1, w1)
    /\ visit_project sample_surroundings (sample_scheduler true) holder 300 60 600 1010 false 2 [] []
         p s1 w1 = (Err LostFence, w2)
    /\ Forall (fun job => ~ holds (j_holder job) (job_id job) (registry failing_pass.2)) (st_jobs s1).
Proof.
  assert (H : failing_pass = (Err LostFence, failing_pass.2)) by (vm_compute; reflexivity).
  exact (failed_pass_gives_leases_back sample_surroundings (sample_scheduler true) holder 300 60 600 1010 false 2
           [] [] (list_projects (registry two_boards)) no_jobs two_boards LostFence failing_pass.2 H).
Defined.

(** A stop was asked of a process that outlived its worker. *)
Definition watched_row : control_row :=
  mkControl StopRequested (Some 77%Z) (Some token) None None (Some "out") (Some "err") "1003".
Definition watched : ObservedControl := mkObserved 1 sid watched_row.
Definition orphan_holder : string := "clt-reattached-9".
Definition outlived : world :=
  mkWorld (sample_tree [] [] [])
    (at_stage [RegisterProject "/p" "p" "900"; TryAcquireLease 1 orphan_holder "1000" "1300";
               MarkSessionRunning 1 sid 77 token "out" "err" None "1003"; RequestStop 1 sid 77 token "1004"]) 0.
Definition tick (millis : Z) : Tick := mkTick (fun d => d) 1010 millis (Ok true) (Ok tt) false.
Definition supervision : res refusal (list sent * bool) * world :=
  supervise_attached_process watched orphan_holder [tick 0; tick 3000] (mkSupervision None 0) outlived.
Definition sent_signals : list sent := match supervision.1 with Ok (s, _) => s | Err _ => [] end.

Lemma signals_only_as_owner_witness :
  snd <$> sent_signals = [StopProcess; KillProcess]
  /\ Forall (fun x => may_signal watched orphan_holder x.1) sent_signals.
Proof.
  assert (H : supervision = (Ok (sent_signals, false), supervision.2)) by (vm_compute; reflexivity).
  split; [vm_compute; reflexivity|].
  exact (proj1 (signals_only_as_owner watched orphan_holder [tick 0; tick 3000] (mkSupervision None 0) outlived
                  sent_signals false supervision.2 H)).
Defined.

(** A failed run's task is restarted. *)
Definition to_recover : world :=
  mkWorld (sample_tree [str "Fix the parser codex:session"] [] [])
    (at_stage [RegisterProject "/p" "p" "900";
               RecordRunOutcome (mkOutcome 1 "failure" "950" (Some "960") (Some 1%Z) None None None None (Some sid))]) 0.
Definition sample_plan : GitRecoveryPlan :=
  match (plan_task_restart sample_surroundings (1%Z, new_project "/p" "p" "900") (str "session") to_recover).1 with
  | Ok plan => plan
  | Err _ => mkPlan (1%Z, new_project "/p" "p" "900") [] None 0 None None false false None None
  end.
Definition recovery : res refusal text * world :=
  execute_git_recovery sample_surroundings (fun _ => None) false (fun _ => "clt-recovery-1")
    (fun _ => str "2026-01-02") sample_plan false to_recover.

Lemma recovery_checks_and_releases_witness :
  session_control 1 sid (registry to_recover) = Ok None
  /\ exists holder at_ exp,
       reserved_and_released (recovery_request sample_plan false holder at_ exp) (registry to_recover)
         (registry recovery.2).
Proof.
  assert (H : session_controls (registry recovery.2) !! (1%Z, sid) <> session_controls (registry to_recover) !! (1%Z, sid))
    by (vm_compute; discriminate).
  split; [vm_compute; reflexivity|].
  destruct (recovery_checks_and_releases sample_surroundings (fun _ => None) false (fun _ => "clt-recovery-1")
              (fun _ => str "2026-01-02") sample_plan false to_recover recovery.1 recovery.2
              (surjective_pairing recovery)) as [Hsame|Hdone]; [|exact Hdone].
  destruct H. by rewrite Hsame.
Defined.

(** The service of a reserved worker cannot be started. *)
Definition sample_job : AgentRunJob :=
  mkJob (1%Z, new_project "/p" "p" "900") holder None 4 NextTodo None 0 [] [].
Definition sample_spec : AgentWorkerLaunchSpec := spec_of_job "/bin/clt" token "service" None "/bin" sample_job.
Definition leased_world : world := mkWorld (sample_tree [offered] [] []) (at_stage leased) 0.
Definition dispatch : res refusal unit * world :=
  dispatch_independent_agent_worker_with sample_surroundings (fun _ => Err ServiceError) (fun _ => Ok tt)
    (fun _ => "error") (fun _ => "[]") sample_spec sample_job leased_world.

Lemma dispatch_keeps_no_lease_witness :
  holds holder 1 (registry leased_world) /\ ~ holds holder 1 (registry dispatch.2).
Proof.
  split; [vm_compute; reflexivity|].
  exact (dispatch_keeps_no_lease sample_surroundings (fun _ => Err ServiceError) (fun _ => Ok tt) (fun _ => "error")
           (fun _ => "[]") sample_spec sample_job leased_world dispatch.1 dispatch.2 ltac:(discriminate)
           (surjective_pairing dispatch)).
Defined.
