(* ===== verification/JobProps.v ===== *)
(** Properties of jobs: the task a run is found to have added, what a job leaves in
    the registry, when a run counts as a success, how a job ends its worker, and the
    control of its conversation. *)
From S2P Require Import Prelude Sql AgentTypes Leases Workers Runs Sessions Handoff Journals.
From S2P Require Import Retire Recovery Holders.
From S2P Require Import Projects Text Models Markers TaskNotes Metadata TaskEntry Files Board.
From S2P Require Import BoardTree.
From S2P Require Import World Surroundings Git Manifest Scheduling SnapshotLoad Guards Workflow.
From S2P Require Import GitRetire GitPublish GitRepair GitFinalize Supervisor Completed Reattach.
From S2P Require Import Dispatch Scheduler Job GitQuiet Registry Footprint WorkerInv RegistryInv.
From S2P Require Import Isolation WorldScenario.
From S2P Require Import OperationProps SupervisorProps GitFinalizeProps History SchedulerProps.
From S2P Require Import Store.

(** ** The task a run added *)

Definition occurrences {K} `{EqDecision K} (k : K) (l : list K) : nat := length (filter (k =.) l).

Section Occurrences.
Context {K : Type} `{Countable K}.
Implicit Types (k x : K) (l : list K).

Lemma occurrences_cons k x l : occurrences k (x :: l) = (if decide (k = x) then 1 else 0) + occurrences k l.
Proof. unfold occurrences. rewrite filter_cons. by destruct (decide (k = x)). Qed.
Lemma occurrences_perm k l l' : l ≡ₚ l' -> occurrences k l = occurrences k l'.
Proof. intros Hl. unfold occurrences. by rewrite Hl. Qed.
Lemma occurrences_zero k l : occurrences k l = 0 <-> k ∉ l.
Proof.
  induction l as [|x l IH]; [split; [by intros _ ?%elem_of_nil|done]|].
  rewrite occurrences_cons, not_elem_of_cons, <- IH. destruct (decide (k = x)); naive_solver lia.
Qed.
Lemma count_keys_spec l k : default 0 (count_keys l !! k) = occurrences k l.
Proof.
  assert (forall m, default 0 (foldl (fun (m : gmap K nat) x => <[x := S (default 0 (m !! x))]> m) m l !! k)
                    = default 0 (m !! k) + occurrences k l) as Hm; [|unfold count_keys; by rewrite (Hm ∅), lookup_empty].
  induction l as [|x l IH]; intros m; cbn [foldl]; [cbn; lia|].
  rewrite IH, occurrences_cons. destruct (decide (k = x)) as [->|Hne].
  - rewrite lookup_insert_eq. cbn. lia.
  - by rewrite lookup_insert_ne.
Qed.

Context {A : Type} (key : A -> K).
Implicit Types (a : A) (m : gmap K nat).

Lemma unmatched_count k m (l : list A) :
  occurrences k (key <$> unmatched key m l) = occurrences k (key <$> l) - default 0 (m !! k).
Proof.
  revert m. induction l as [|a l IH]; intros m; cbn [unmatched]; [done|].
  rewrite fmap_cons, occurrences_cons.
  destruct (m !! key a) as [[|n]|] eqn:Ha; rewrite ?fmap_cons, ?occurrences_cons, IH.
  - destruct (decide (k = key a)) as [->|]; [rewrite Ha; cbn; lia|lia].
  - destruct (decide (k = key a)) as [->|]; [rewrite lookup_insert_eq, Ha; cbn; lia|].
    by rewrite lookup_insert_ne.
  - destruct (decide (k = key a)) as [->|]; [rewrite Ha; cbn; lia|lia].
Qed.
Lemma unmatched_elem m (l : list A) a : a ∈ unmatched key m l -> a ∈ l.
Proof.
  revert m. induction l as [|b l IH]; intros m; cbn; [done|].
  destruct (m !! key b) as [[|n]|]; rewrite ?elem_of_cons; naive_solver.
Qed.

(** A key that occurs once is at one position. *)
Lemma sole_position k (l : list A) rest i j a b :
  (key <$> l) ≡ₚ k :: rest -> k ∉ rest -> l !! i = Some a -> l !! j = Some b ->
  key a = k -> key b = k -> i = j.
Proof.
  intros Hperm Hk Hi Hj Ha Hb. destruct (decide (i = j)) as [|Hne]; [done|]. destruct Hk.
  assert ((key <$> l) !! i = Some k) as Hi' by by rewrite list_lookup_fmap, Hi; cbn; rewrite Ha.
  assert ((key <$> l) !! j = Some k) as Hj' by by rewrite list_lookup_fmap, Hj; cbn; rewrite Hb.
  pose proof (delete_Permutation _ _ _ Hi') as Hd.
  assert (rest ≡ₚ delete i (key <$> l)) as -> by (apply (Permutation_cons_inv (a := k)); by rewrite <- Hperm).
  apply list_elem_of_lookup.
  destruct (decide (j < i)); [exists j; by rewrite list_lookup_delete_lt by lia|].
  exists (pred j). rewrite list_lookup_delete_ge by lia. by replace (S (pred j)) with j by lia.
Qed.

(** A list in which one key occurs, once. *)
Lemma sole_key k a (l : list A) :
  (forall k', occurrences k' (key <$> a :: l) = if decide (k' = k) then 1 else 0) -> key a = k /\ l = [].
Proof.
  intros Hl. assert (forall b, b ∈ a :: l -> key b = k) as Hk.
  { intros b Hb. specialize (Hl (key b)). destruct (decide (key b = k)); [done|].
    apply occurrences_zero in Hl. destruct Hl. by apply list_elem_of_fmap_2. }
  split; [apply Hk; constructor|]. destruct l as [|b l]; [done|]. specialize (Hl k).
  rewrite !fmap_cons, !occurrences_cons, !decide_True in Hl by (done || (symmetry; apply Hk; set_solver)). lia.
Qed.
End Occurrences.

Lemma insertion_point before l i :
  i ∈ insertion_points before l -> exists x, l !! i = Some x /\ l ≡ₚ x :: before.
Proof.
  unfold insertion_points. rewrite list_elem_of_In, filter_In, <- list_elem_of_In, elem_of_seq.
  intros [Hi Hd%bool_decide_eq_true]. destruct (lookup_lt_is_Some_2 l i) as [x Hx]; [lia|].
  exists x. split; [done|]. rewrite <- Hd. by apply delete_Permutation.
Qed.

Lemma insertion_points_nodup before l : NoDup (insertion_points before l).
Proof. unfold insertion_points. apply NoDup_ListNoDup, List.NoDup_filter, NoDup_ListNoDup, NoDup_seq. Qed.

Lemma newly_added_sound before after e :
  newly_added_task_entry before after = Some e ->
  e ∈ after /\ occurrences (content e) before < occurrences (content e) (content <$> after).
Proof.
  unfold newly_added_task_entry. case_match; [done|].
  destruct (if _ : bool then _ else _) as [|i [|? ?]] eqn:Hpoints; intros He; [| |done].
  - destruct (unmatched _ _ _) as [|e' [|? ?]] eqn:Hrest; simplify_eq.
    split; [apply (unmatched_elem content (count_keys before)); rewrite Hrest; set_solver|].
    pose proof (unmatched_count content (content e) (count_keys before) after) as Hc.
    rewrite Hrest, count_keys_spec, fmap_cons, occurrences_cons, decide_True in Hc by done. lia.
  - case_match; [|done]. split; [by eapply list_elem_of_lookup_2|].
    destruct (insertion_point before (content <$> after) i) as (x & Hx & Hperm); [rewrite Hpoints; set_solver|].
    rewrite list_lookup_fmap, He in Hx. injection Hx as <-.
    rewrite (occurrences_perm _ _ _ Hperm), occurrences_cons, decide_True by done. lia.
Qed.

Lemma newly_added_complete before after e :
  e ∈ after -> (content <$> after) ≡ₚ content e :: before -> content e ∉ before ->
  newly_added_task_entry before after = Some e.
Proof.
  intros [j Hj]%list_elem_of_lookup Hperm Hnew. unfold newly_added_task_entry.
  pose proof (Permutation_length Hperm) as Hlen. rewrite length_fmap in Hlen. cbn in Hlen.
  destruct (length after <=? length before) eqn:Hle; [apply Nat.leb_le in Hle; lia|].
  rewrite Hlen, Nat.eqb_refl.
  assert (forall i a, after !! i = Some a -> content a = content e -> i = j) as Hsole.
  { intros i a Hi Ha. by apply (sole_position content (content e) after before i j a e). }
  assert (Forall (j =.) (insertion_points before (content <$> after))) as Hpoints.
  { apply Forall_forall. intros i (x & Hx & Hperm')%insertion_point. rewrite list_lookup_fmap in Hx.
    apply fmap_Some in Hx as (a & Hi & ->). symmetry. apply (Hsole i a Hi).
    assert (occurrences (content a) (content e :: before) = occurrences (content a) (content a :: before)) as Ho.
    { apply occurrences_perm. by rewrite <- Hperm, <- Hperm'. }
    rewrite !occurrences_cons, (decide_True (P := content a = content a)) in Ho by done.
    by destruct (decide (content a = content e)); [|lia]. }
  assert (forall k, occurrences k (content <$> unmatched content (count_keys before) after)
                    = if decide (k = content e) then 1 else 0) as Hleft.
  { intros k. rewrite unmatched_count, count_keys_spec, (occurrences_perm _ _ _ Hperm), occurrences_cons. lia. }
  pose proof (insertion_points_nodup before (content <$> after)) as Hnodup.
  destruct (insertion_points _ _) as [|i [|i' l]]; [|by inversion Hpoints; subst|].
  2: { inversion Hpoints as [|? ? <- Hl]; inversion Hl; subst. by apply NoDup_cons in Hnodup as [[] _]; constructor. }
  destruct (unmatched content (count_keys before) after) as [|a l] eqn:Hrest.
  - specialize (Hleft (content e)). rewrite decide_True in Hleft by done. done.
  - assert (content a = content e /\ l = []) as [Ha ->].
    { apply (sole_key content). intros k. by rewrite <- Hleft. }
    assert (a ∈ after) as [i Hi]%list_elem_of_lookup.
    { apply (unmatched_elem content (count_keys before)). rewrite Hrest. constructor. }
    rewrite (Hsole i a Hi Ha) in Hi. congruence.
Qed.

(** C21: The task a run is found to have added is one: it is on the list afterwards, and its text occurs there more often than before. When exactly one task was added and its text is new, it is found, whatever the order of the others has become. *)
Theorem newly_added_task_is_new before after e :
  (newly_added_task_entry before after = Some e ->
     e ∈ after /\ occurrences (content e) before < occurrences (content e) (content <$> after))
  /\ (e ∈ after -> (content <$> after) ≡ₚ content e :: before -> content e ∉ before ->
      newly_added_task_entry before after = Some e).
Proof. split; [apply newly_added_sound|apply newly_added_complete]. Qed.

(** ** What a job leaves in the registry *)

Section Own.
Context (E : Surroundings) (JX : JobSurroundings) (pid : Z) (d0 : db).
Let X := jx_scheduler JX.
Local Notation keeps := (maintains (follows (about pid) d0)).
Local Notation any := (fun _ => True).

Lemma save_review_kept p r : p = pid -> keeps any (save_review p r).
Proof. intros Hp. apply visits_about. intros d. by apply save_review_keeps. Qed.
Lemma clear_review_kept p : p = pid -> keeps any (clear_review E p).
Proof. intros Hp. apply visits_about. intros d. by apply clear_review_keeps. Qed.
#[local] Hint Resolve save_review_kept clear_review_kept : maintains_db.
#[local] Hint Resolve quiet_evidence quiet_candidates quiet_idle quiet_date quiet_note quiet_block : registry_db.
#[local] Hint Extern 2 (project_of _ _) => solve [own] : maintains_db.

Lemma begin_review_kept p : project_of pid p -> keeps any (begin_review E p).
Proof. intros Hp. unfold begin_review, review_of. maintain. Qed.
Lemma defer_wait_kept today p task d r :
  project_of pid p -> keeps any (defer_wait E today p task d r).
Proof. intros Hp. unfold defer_wait. maintain. Qed.
#[local] Hint Resolve begin_review_kept defer_wait_kept : maintains_db.
Lemma quiet_approve p task r : keeps_registry (approve_retry E p task r).
Proof. unfold approve_retry. keep_registry. Qed.
#[local] Hint Resolve quiet_approve : registry_db.
Lemma finish_review_kept dj today p answer : project_of pid p -> keeps any (finish_review E dj today p answer).
Proof. intros Hp. unfold finish_review, review_of. maintain. Qed.
Lemma prepare_retry_kept today p : project_of pid p -> keeps any (prepare_retry E today p).
Proof. intros Hp. unfold prepare_retry, review_of. maintain. Qed.
Lemma hold_error_kept p error : p = pid -> keeps any (hold_error E p error).
Proof. intros ->. unfold hold_error, review_of. maintain. Qed.
Lemma queue_review_kept p old : project_of pid p -> keeps any (queue_review E p old).
Proof. intros Hp. unfold queue_review. maintain. Qed.
#[local] Hint Resolve queue_review_kept : maintains_db.
Lemma after_task_run_kept today p selection status :
  project_of pid p -> keeps any (after_task_run E today p selection status).
Proof. intros Hp. unfold after_task_run, review_of. maintain. Qed.
#[local] Hint Resolve finish_review_kept prepare_retry_kept hold_error_kept after_task_run_kept : maintains_db.

(** *** The start of a job *)

Definition job_of (job : AgentRunJob) : Prop := (j_project job).1 = pid.

Lemma launch_mode_kept p session : project_of pid p -> keeps any (agent_git_mode_for_launch E p session).
Proof. intros Hp. unfold agent_git_mode_for_launch, effective_agent_git_mode. maintain. Qed.
#[local] Hint Resolve quiet_ready_work quiet_coordination : registry_db.
Lemma quiet_automated root selection : keeps_registry (automated_codex_session_to_resume E root selection).
Proof. unfold automated_codex_session_to_resume. keep_registry. Qed.
#[local] Hint Resolve quiet_automated : registry_db.
Lemma quiet_session_of_job job : keeps_registry (session_of_job E job).
Proof. unfold session_of_job. keep_registry. Qed.
#[local] Hint Resolve quiet_session_of_job : registry_db.
#[local] Hint Resolve launch_mode_kept : maintains_db.
#[local] Hint Extern 2 (project_of _ (j_project _)) => assumption : maintains_db.
Lemma uses_git_kept job : job_of job -> keeps any (agent_job_uses_git E job).
Proof. intros Hj. unfold agent_job_uses_git. maintain. Qed.
Lemma supersede_kept job : job_of job -> keeps any (supersede_abandoned job).
Proof. intros Hj. unfold supersede_abandoned, job_pid. rewrite Hj. maintain. Qed.

(** The job that runs: of the project, for the worker and the lease it was given. *)
Definition start_of (job : AgentRunJob) (s : JobStart) : Prop :=
  job_of (js_job s) /\ j_worker_token (js_job s) = j_worker_token job /\ j_holder (js_job s) = j_holder job.

Lemma start_supervised_kept job :
  job_of job ->
  keeps (fun job' => job_of job' /\ j_worker_token job' = j_worker_token job /\ j_holder job' = j_holder job)
    (start_supervised E JX job).
Proof.
  intros Hj. unfold start_supervised. apply (maintains_bind _ any); [maintain|cbv beta; intros _ _].
  destruct (negb (reviews job)); [by apply maintains_ret|].
  eapply maintains_bind; [apply begin_review_kept; exact Hj|cbv beta; intros _ _].
  eapply maintains_bind; [apply maintains_query|cbv beta; intros p (d & _ & ->)]. by apply maintains_ret.
Qed.
Lemma start_job_kept job : job_of job -> keeps (start_of job) (start_job E JX job).
Proof.
  intros Hj. unfold start_job. eapply maintains_bind; [apply maintains_quiet; keep_registry|cbv beta; intros session _].
  eapply maintains_bind; [by apply launch_mode_kept|cbv beta; intros mode _].
  eapply maintains_bind; [by apply supersede_kept|cbv beta; intros _ _].
  eapply maintains_bind; [apply maintains_query|cbv beta; intros before _].
  eapply maintains_bind; [apply maintains_quiet; unfold resumed_for_proof; keep_registry|cbv beta; intros proof _].
  eapply maintains_bind; [by apply (start_supervised_kept (with_mode job mode))|cbv beta; intros job' Hj'].
  eapply maintains_bind; [apply maintains_quiet; keep_registry|cbv beta; intros at_ _].
  by apply maintains_ret.
Qed.

(** *** The judgement of a run *)

#[local] Hint Resolve quiet_scan : registry_db.
Lemma quiet_no_progress job : keeps_registry (blocked_recovery_made_no_progress E JX job).
Proof. unfold blocked_recovery_made_no_progress. keep_registry. apply quiet_wtry. keep_registry. Qed.
#[local] Hint Resolve quiet_no_progress : registry_db.
Lemma quiet_link_stage job session status : keeps_registry (link_agent_session_after_run_stage E job session status).
Proof. unfold link_agent_session_after_run_stage, link_new_task, task_of_run. keep_registry. Qed.
#[local] Hint Resolve quiet_link_stage : registry_db.
Lemma conclude_review_kept job result : job_of job -> keeps any (conclude_review E JX job result).
Proof.
  intros Hj. unfold conclude_review, job_pid. rewrite Hj.
  destruct (negb (reviews job)); [by apply maintains_ret|].
  apply (maintains_bind _ any); [|maintain]. apply maintains_wtry. maintain.
Qed.
Lemma quiet_idle_recovery job result : keeps_registry (refuse_idle_recovery E JX job result).
Proof. unfold refuse_idle_recovery. keep_registry. Qed.
Lemma quiet_idle_report job result : keeps_registry (refuse_idle_report E JX job result).
Proof. unfold refuse_idle_report, linked_status. keep_registry. Qed.
Lemma quiet_link_result job result : keeps_registry (link_result E JX job result).
Proof. unfold link_result. keep_registry. Qed.
#[local] Hint Resolve quiet_idle_recovery quiet_idle_report quiet_link_result : registry_db.
#[local] Hint Resolve conclude_review_kept : maintains_db.
Lemma outcome_kept job run : job_of job -> keeps any (outcome_of_run E JX job run).
Proof. intros Hj. unfold outcome_of_run. maintain. Qed.

Lemma retire_unlinked_kept p j token :
  project_of pid p -> journal_of pid j ->
  keeps any (retire_unlinked_working_git_finalization_after_run E p j token).
Proof.
  intros Hp Hj. unfold retire_unlinked_working_git_finalization_after_run,
    cancel_unlinked_working_git_finalization.
  destruct token as [token|]; [|maintain]. destruct j as [[jp sid] g]. cbn in *. maintain.
Qed.
#[local] Hint Resolve retire_unlinked_kept : maintains_db.
Lemma reconcile_session_kept job o session :
  job_of job ->
  keeps (fun r => forall i j, r = Some (i, j) -> journal_of pid j) (reconcile_session_journal E JX job o session).
Proof.
  intros Hj. unfold reconcile_session_journal, reconcile_agent_git_finalization, job_pid. rewrite Hj.
  eapply maintains_bind; [apply visits_about; intros d; by apply snapshot_keeps|cbv beta; intros [j|] Hown]; [|by apply maintains_ret].
  eapply maintains_bind; [apply visits_about; intros d; by apply rounds_keep, Hown|cbv beta; intros j' Hj'].
  apply maintains_ret. by intros ? ? [= <- <-].
Qed.
Lemma after_working_kept job o j : job_of job -> journal_of pid j -> keeps any (after_working E job o j).
Proof. intros Hj Hown. unfold after_working. maintain. Qed.
#[local] Hint Resolve after_working_kept : maintains_db.
Lemma after_reconciliation_kept job before proof o initial j :
  job_of job -> journal_of pid j -> keeps any (after_reconciliation E job before proof o initial j).
Proof. intros Hj Hown. unfold after_reconciliation. maintain. Qed.
Lemma after_journal_kept job before proof o session :
  job_of job -> keeps any (after_journal E JX job before proof o session).
Proof.
  intros Hj. unfold after_journal. eapply maintains_bind.
  - apply (maintains_wtry_result _ _ _ (reconcile_session_kept job o session Hj)).
  - cbv beta. intros [[[i j]|]|e] Hr; [|maintain|maintain].
    apply after_reconciliation_kept; [done|]. by apply (Hr _ eq_refl i).
Qed.
#[local] Hint Resolve after_journal_kept : maintains_db.
Lemma settle_journal_kept job before proof o :
  job_of job -> keeps any (settle_journal E JX job before proof o).
Proof. intros Hj. unfold settle_journal. maintain. Qed.

(** *** The control of the conversation *)

Lemma look_kept job o session token : job_of job -> keeps any (look_at_control job o session token).
Proof. intros Hj. unfold look_at_control, job_pid. rewrite Hj. maintain. Qed.
#[local] Hint Resolve look_kept : maintains_db.
Lemma looks_kept n job o session token : job_of job -> keeps any (look_until_settled n job o session token).
Proof. intros Hj. revert o. induction n as [|n IH]; intros o; cbn [look_until_settled]; maintain. Qed.
#[local] Hint Resolve looks_kept : maintains_db.
Lemma resolve_kept n job o : job_of job -> keeps any (resolve_control JX n job o).
Proof. intros Hj. unfold resolve_control. maintain. Qed.
Lemma finish_control_kept job o : job_of job -> keeps any (finish_control E JX job o).
Proof.
  intros Hj. unfold finish_control, finish_stop, finish_interrupt, release_control, already_stopped, handed_over,
    job_pid.
  rewrite Hj. maintain.
Qed.
#[local] Hint Resolve outcome_kept settle_journal_kept resolve_kept : maintains_db.
Lemma judge_kept n job start run : start_of job start -> keeps any (judge_run E JX n start run).
Proof. intros (Hj & _). unfold judge_run. maintain. Qed.
Lemma report_kept job o : job_of job -> keeps any (report_to_supervisor E JX job o).
Proof. intros Hj. unfold report_to_supervisor, job_pid. maintain. Qed.
End Own.

(** ** A job concerns its project *)

(** The commands issued since [d0], which wrote rows of the project only. *)
Definition kept (pid : Z) (d0 d : db) : Prop :=
  follows (fun _ => true) d0 d /\ only_project pid d0 d.

#[export] Instance kept_preorder pid : PreOrder (kept pid).
Proof.
  split; [by split|]. intros d1 d2 d3 [H12 O12] [H23 O23]. by split; [etrans; [exact H12|]|etrans; [exact O12|]].
Qed.

(** What a job relies on: its runner issues commands of the registry, and writes
    rows of the project it runs on. *)
Class IsolatedRunner `{AgentRunner} : Prop :=
  runner_isolated req d : maintains (kept (rq_project req).1 d) (fun _ => True) (run_project req).

(** Besides, [K] holds of the registry before and after. *)
Definition within (K : db -> db -> Prop) (pid : Z) (d0 d : db) : Prop := kept pid d0 d /\ K d0 d.

#[export] Instance within_preorder K `{!PreOrder K} pid : PreOrder (within K pid).
Proof.
  split; [by split|]. intros d1 d2 d3 [H12 K12] [H23 K23]. by split; [etrans; [exact H12|]|etrans; [exact K12|]].
Qed.
Definition runner_within (K : db -> db -> Prop) `{AgentRunner} : Prop :=
  forall req d, maintains (within K (rq_project req).1 d) (fun _ => True) (run_project req).

Definition same_history (d d' : db) : Prop := runs d ⊆ runs d'.
#[export] Instance same_history_preorder : PreOrder same_history.
Proof. unfold same_history. split; [by intros ?|]. intros d1 d2 d3 H1 H2. by etrans. Qed.
Definition unconstrained (_ _ : db) : Prop := True.
#[export] Instance unconstrained_preorder : PreOrder unconstrained.
Proof. by split. Qed.

Lemma isolated_within `{IsolatedRunner} : runner_within unconstrained.
Proof.
  intros req d w [Hw _]. destruct (runner_isolated req d w Hw) as [Hd _]. by split.
Qed.
(** A runner that deletes no run. *)
Definition runner_keeps_runs `{AgentRunner} : Prop :=
  forall req w, runs (registry w) ⊆ runs (registry (run_project req w).2).
Lemma keeping_within `{IsolatedRunner} : runner_keeps_runs -> runner_within same_history.
Proof.
  intros Hruns req d w [Hw Hd]. destruct (runner_isolated req d w Hw) as [Hk _].
  split; [|done]. split; [exact Hk|]. etrans; [exact Hd|]. apply Hruns.
Qed.
Lemma follows_keeps (K : db -> db -> Prop) `{!PreOrder K} (allowed : command -> bool) d d' :
  (forall c d, keeps_history c = true -> K d (exec c d)) -> (forall c, allowed c = true -> keeps_history c = true) ->
  follows allowed d d' -> K d d'.
Proof.
  intros HK Ha (cs & Hcs & ->). revert d. induction Hcs as [|c cs Hc Hcs IH]; intros d; cbn; [reflexivity|].
  etrans; [|apply IH]. by apply HK, Ha.
Qed.
Lemma about_keeps_history pid c : about pid c = true -> keeps_history c = true.
Proof. by destruct c. Qed.
Lemma scheduling_keeps_history c : scheduling c = true -> keeps_history c = true.
Proof. by destruct c. Qed.

Section Kept.
Context (K : db -> db -> Prop) `{!PreOrder K} (HK : forall c d, keeps_history c = true -> K d (exec c d)).
Context (pid : Z) (d0 : db).
Local Notation keeps := (maintains (within K pid d0)).
Local Notation any := (fun _ => True).

Lemma own_kept {A} (Q : A -> Prop) (c : wio A) :
  (forall d, maintains (follows (about pid) d) Q c) -> keeps Q c.
Proof.
  intros Hc w Hw. destruct (Hc (registry w) w (reflexivity _)) as [Hd Ha]. split; [|done].
  etrans; [exact Hw|]. split; [split; [by eapply follows_mono|by apply follows_isolated]|].
  by apply (follows_keeps K (about pid)); [|apply about_keeps_history|].
Qed.
Lemma command_kept {A} (c : command) (op : store_op A) :
  keeps_history c = true -> (forall d, only_project pid d0 d -> only_project pid d (exec c d)) -> (forall d, exec c d = (op d).2) ->
  keeps any (on_registry op).
Proof.
  intros Hh Hc Hop. apply maintains_registry. intros d [[Hf Ho] Hd]. rewrite <- Hop.
  split; [split; [by apply follows_exec|]|]; [etrans; [exact Ho|by apply Hc]|]. etrans; [exact Hd|by apply HK].
Qed.
Lemma kept_of {A} (Q : A -> Prop) (c : wio A) w r w' : keeps Q c -> within K pid d0 (registry w) -> c w = (r, w') -> within K pid d0 (registry w').
Proof. intros Hc Hw H. destruct (Hc w Hw) as [Hw' _]. by rewrite H in Hw'. Qed.

(** *** The commands of the job's worker *)

Context (E : Surroundings) (JX : JobSurroundings).

Definition worker_is_own (job : AgentRunJob) (d : db) : Prop :=
  match j_worker_token job with Some token => worker_of pid token d | None => True end.

Lemma renew_fence_kept job : worker_is_own job d0 -> keeps any (renew_agent_job_worker_fence E JX job).
Proof.
  unfold worker_is_own, renew_agent_job_worker_fence. intros Hown.
  destruct (j_worker_token job) as [token|]; [|by apply maintains_ret].
  eapply maintains_bind; [apply maintains_quiet; keep_registry|intros timeout _].
  eapply maintains_bind; [apply maintains_quiet; keep_registry|intros exp _].
  eapply maintains_bind; [apply maintains_quiet; keep_registry|intros now _].
  eapply maintains_bind; [|intros renewed _; apply maintains_quiet; keep_registry].
  apply (command_kept (RenewWorker token (own_pid E) now exp)); [done| |done]. intros d Hd.
  by apply only_renew_worker, (worker_of_only _ _ d0).
Qed.
Lemma abandon_kept token error :
  worker_of pid token d0 -> keeps any (abandon_agent_worker_after_error E token error).
Proof.
  intros Hown. unfold abandon_agent_worker_after_error.
  eapply maintains_bind; [apply maintains_quiet; unfold active_workers; keep_registry|intros workers _].
  destruct (find_worker token workers) as [[t w]|]; [|by apply maintains_ret].
  eapply maintains_bind; [apply maintains_quiet; keep_registry|intros launching _].
  destruct launching; [by apply maintains_ret|].
  eapply maintains_bind; [apply maintains_quiet; keep_registry|intros lease _].
  eapply maintains_bind; [apply maintains_quiet; keep_registry|intros now _].
  eapply maintains_bind; [|intros ? _; by apply maintains_ret].
  set (a := abandonment _ _ _ _ _). apply (command_kept (AbandonWorker a)); [done| |done]. intros d Hd.
  by apply only_abandon_worker, (worker_of_only _ _ d0).
Qed.
(** Without a worker the run gets an identifier that was free at some moment. *)
Definition was_free (job : AgentRunJob) (id : Z) : Prop :=
  j_worker_token job = None -> exists d, K d0 d /\ runs d !! id = None.

Lemma outcome_was_free job o :
  o_project_id o = pid -> keeps (was_free job) (on_registry (record_run_outcome o)).
Proof.
  intros Ho w Hw. split.
  - apply (command_kept (RecordRunOutcome o)); [done| |done|exact Hw]. intros d _.
    apply (follows_isolated pid). exists [RecordRunOutcome o]. split; [|done]. constructor; [|done].
    apply about_self. cbn. by rewrite Ho.
  - intros id Hid _. exists (registry w). split; [apply Hw|]. unfold on_registry, record_run_outcome, autocommit in Hid.
    destruct (project_exists _ _); [|done]. injection Hid as <-. apply next_rowid_fresh.
Qed.
Lemma record_kept job holder transferred started finished o :
  (j_project job).1 = pid -> worker_is_own job d0 ->
  keeps (was_free job) (record_agent_result_stage E job holder transferred started finished o).
Proof.
  intros Hj Hown. unfold record_agent_result_stage, job_pid. rewrite Hj.
  apply (maintains_bind _ (fun recorded => forall id, recorded = Ok id -> was_free job id)).
  { apply maintains_wtry_result. unfold worker_is_own in Hown. destruct (j_worker_token job) as [token|] eqn:Ht; [|by apply outcome_was_free].
    apply (maintains_weaken _ any); [|intros id _ ?; congruence].
    apply (maintains_bind _ any); [|intros id _; apply maintains_quiet; keep_registry].
    set (f := finalization_of _ _ _ _ _). apply (command_kept (FinalizeWorker f)); [done| |done]. intros d Hd.
    by apply only_finalize_worker, (worker_of_only _ _ d0). }
  intros recorded Hrec.
  apply (maintains_bind _ any); [apply maintains_wtry, own_kept; intros d; maintain|intros released _].
  apply (maintains_bind _ (was_free job)); [|intros id Hid].
  - intros w Hw. unfold from_result. destruct recorded; (split; [done|]); [intros ? [= <-]; by apply Hrec|done].
  - apply (maintains_bind _ any); [apply maintains_quiet; keep_registry|intros _ _]. by apply maintains_ret.
Qed.
Lemma quiet_may_wait job session status task : keeps_registry (may_wait_in_todo E job session status task).
Proof. unfold may_wait_in_todo. keep_registry. apply quiet_coordination. Qed.
Lemma defer_kept job session : worker_is_own job d0 -> keeps any (defer_blocked_task_after_run E JX job session).
Proof.
  intros Hown. unfold defer_blocked_task_after_run.
  apply (maintains_bind _ any); [by apply renew_fence_kept|intros _ _].
  apply maintains_quiet. unfold task_is_owned, move_to_todo. keep_registry. apply quiet_may_wait.
Qed.
Lemma defer_blocked_kept job finished o : worker_is_own job d0 -> keeps any (defer_blocked E JX job finished o).
Proof.
  intros Hown. unfold defer_blocked. destruct (session_of_outcome job o); [|by apply maintains_ret].
  destruct (negb _); [by apply maintains_ret|].
  apply (maintains_bind _ any); [by apply defer_kept|intros ? _; by apply maintains_ret].
Qed.
Lemma conclude_kept job start finished_at o :
  start_of pid job start -> worker_is_own job d0 ->
  keeps (fun c => was_free job (cp_run_id c)) (conclude_run E JX start finished_at o).
Proof.
  intros (Hj & Htoken & _) Hown. assert (worker_is_own (js_job start) d0) as Hown'.
  { unfold worker_is_own. by rewrite Htoken. }
  unfold conclude_run.
  apply (maintains_bind _ any); [apply maintains_wtry, own_kept; intros d; by apply finish_control_kept|intros finished _].
  apply (maintains_bind _ any); [by apply defer_blocked_kept|intros o' _].
  apply (maintains_bind _ any); [apply own_kept; intros d; by apply report_kept|intros _ _].
  eapply maintains_bind; [by apply record_kept|cbv beta; intros id Hid].
  apply (maintains_bind _ any); [apply maintains_quiet; keep_registry|intros _ _]. apply maintains_ret.
  unfold was_free in *. by rewrite Htoken in Hid.
Qed.

Context `{AgentRunner} (HR : runner_within K) (rounds : nat).

Lemma run_project_kept req : (rq_project req).1 = pid -> keeps any (run_project req).
Proof.
  intros <- w Hw. destruct (HR req (registry w) w (reflexivity _)) as [Hd _]. split; [|done].
  by etrans.
Qed.
Lemma inner_kept job :
  (j_project job).1 = pid -> worker_is_own job d0 ->
  keeps (fun c => was_free job (cp_run_id c)) (run_agent_job_inner E JX rounds job).
Proof.
  intros Hj Hown. unfold run_agent_job_inner.
  eapply maintains_bind; [apply own_kept; intros d; by apply start_job_kept|cbv beta; intros start Hstart].
  pose proof Hstart as (Hj' & Htoken & _).
  assert (worker_is_own (js_job start) d0) as Hown'. { unfold worker_is_own. by rewrite Htoken. }
  apply (maintains_bind _ any); [by apply maintains_wtry, run_project_kept|intros run _].
  apply (maintains_bind _ any); [by apply renew_fence_kept|intros _ _].
  apply (maintains_bind _ any); [apply maintains_quiet; keep_registry|intros finished_at _].
  apply (maintains_bind _ any); [apply own_kept; intros d; by eapply judge_kept|intros o _].
  apply (maintains_bind _ any); [by apply renew_fence_kept|intros _ _].
  by eapply conclude_kept.
Qed.
End Kept.

(** ** Inline ownership *)

Lemma active_found w l w' token t wr :
  active_workers w = (Ok l, w') -> find_worker token l = Some (t, wr) ->
  w' = w /\ t = token /\ agent_workers (registry w) !! token = Some wr /\ worker_state_active (w_state wr) = true.
Proof.
  intros H Hf. apply active_listed in H as (-> & _ & Hin). unfold find_worker in Hf.
  apply find_some in Hf as [Hl Ht%bool_decide_eq_true]. cbn in Ht. subst t.
  by apply list_elem_of_In, Hin in Hl as (? & ? & _).
Qed.

Definition runs_as (pid : Z) (E : Surroundings) (token : string) (d : db) : Prop :=
  exists wr, agent_workers d !! token = Some wr /\ w_project_id wr = pid /\ w_state wr = WRunning
    /\ w_worker_pid wr = Some (own_pid E) /\ w_lease_holder wr = worker_lease_holder token.

Lemma runs_as_own pid E token d : runs_as pid E token d -> worker_of pid token d.
Proof. intros (wr & Hw & Hp & _) wr' Hw'. congruence. Qed.

Section Inline.
Context (E : Surroundings) (JX : JobSurroundings).

Lemma release_job_inv job w r w' :
  release_job_lease job w = (r, w') -> registry w' = (release_lease (job_pid job) (j_holder job) (registry w)).2.
Proof.
  unfold release_job_lease. intros H. wstep H e a w1 Ho; apply on_registry_inv in Ho as (_ & Hd & _); [done|].
  by injection H as _ <-.
Qed.

(** The reservation succeeds only as a running worker of the project. *)
Lemma reserve_inline_owned job token w w' :
  reserve_inline E JX job token w = (Ok tt, w') -> runs_as (job_pid job) E token (registry w').
Proof.
  unfold reserve_inline. intros H. wok H at_ w1 Ha. injection Ha as <- <-. wok H reserved w2 Hres.
  unfold wtry in Hres. destruct (on_registry _ w) as [res w3] eqn:Ho. injection Hres as <- <-.
  apply on_registry_inv in Ho as (_ & Hd & [(b & Hb & ->)|(e & Hb & ->)]).
  - destruct b; [|by wok H u w4 Hrel]. injection H as <-.
    destruct (reserve_worker _ _ (registry w)) as [r d'] eqn:Hr. cbn in Hb, Hd. subst r. rewrite Hd.
    apply reservation_fences_project in Hr as (_ & _ & _ & _ & wr & Hw & Hi & Hs & Hp).
    exists wr. unfold worker_identity in Hi. injection Hi. intros. split_and!; done.
  - wok H com w4 Hc. unfold wtry in Hc. destruct (reservation_committed _ _ _ w3) as [c w5] eqn:Hrc.
    injection Hc as <- <-. destruct c as [[]|e']; [|by wok H u w6 Hrel|done]. injection H as <-.
    unfold reservation_committed in Hrc. wok Hrc workers w6 Hact.
    destruct (find_worker token workers) as [[t wr]|] eqn:Hf; [|done].
    destruct (active_found _ _ _ _ _ _ Hact Hf) as (-> & -> & Hw & _). injection Hrc as Hg <-.
    exists wr. rewrite !andb_true_iff, !bool_decide_eq_true in Hg. naive_solver.
Qed.

Lemma reserve_inline_kept pid d0 job token :
  (j_project job).1 = pid -> maintains (follows (about pid) d0) (fun _ => True) (reserve_inline E JX job token).
Proof.
  intros Hj. unfold reserve_inline, reservation_committed, release_job_lease, job_pid. rewrite Hj.
  eapply maintains_bind; [apply maintains_quiet; keep_registry|intros at_ _].
  apply (maintains_bind _ (fun _ => True)); [apply maintains_wtry; maintain|intros [[]|e] _]; [by apply maintains_ret|maintain|].
  apply (maintains_bind _ (fun _ => True)); [|intros [[]|e'] _]; maintain.
  - apply maintains_wtry, maintains_quiet. unfold active_workers. keep_registry.
  - apply maintains_wtry. maintain.
Qed.
Lemma ensure_inline_kept pid d0 job :
  (j_project job).1 = pid ->
  maintains (follows (about pid) d0) (fun job' => job_of pid job') (ensure_durable_inline_git_worker E JX job).
Proof.
  intros Hj. unfold ensure_durable_inline_git_worker. destruct (negb _); [by apply maintains_ret|].
  eapply maintains_bind; [by apply uses_git_kept|intros uses _]. destruct (negb uses); [by apply maintains_ret|].
  eapply maintains_bind; [apply maintains_quiet; intros ?; reflexivity|intros token _].
  eapply maintains_bind; [by apply reserve_inline_kept|intros _ _]. by apply maintains_ret.
Qed.

(** What the job runs as: without Git as it was, with Git as a running worker. *)
Lemma ensure_inline_job job w job' w' :
  ensure_durable_inline_git_worker E JX job w = (Ok job', w') ->
  job_pid job' = job_pid job /\ j_resume_session_id job' = j_resume_session_id job.
Proof.
  unfold ensure_durable_inline_git_worker. intros H. destruct (negb _); [by injection H as <- _|].
  wok H uses w1 Hu. destruct (negb uses); [by injection H as <- _|]. wok H tk w2 Ht. wok H u w3 Hr. by injection H as <- _.
Qed.
Lemma ensure_inline_inv job w job' w' :
  ensure_durable_inline_git_worker E JX job w = (Ok job', w') ->
  job' = job
  \/ exists token, j_worker_token job = None /\ j_worker_token job' = Some token
       /\ j_holder job' = worker_lease_holder token /\ runs_as (job_pid job) E token (registry w').
Proof.
  unfold ensure_durable_inline_git_worker. destruct (j_worker_token job) as [t|] eqn:Ht; cbn [is_null negb].
  { intros [= <- _]. by left. }
  intros H. wok H uses w1 Hu. destruct (negb uses); [injection H as <- _; by left|].
  wok H tk w2 Htok. injection Htok as _ <-. wok H u w3 Hr. injection H as <- <-. destruct u. right. exists tk.
  split_and!; [done|done|done|]. by eapply reserve_inline_owned.
Qed.
End Inline.

Section Job.
Context (K : db -> db -> Prop) `{!PreOrder K} (HK : forall c d, keeps_history c = true -> K d (exec c d)).
Context (E : Surroundings) (JX : JobSurroundings) `{AgentRunner} (HR : runner_within K) (rounds : nat).

Lemma owned_kept pid d0 job :
  (j_project job).1 = pid -> worker_is_own pid job d0 ->
  maintains (within K pid d0) (fun _ => True) (run_owned_job E JX rounds job).
Proof.
  intros Hj Hown. unfold run_owned_job.
  eapply maintains_bind; [by apply maintains_wtry_result, inner_kept|cbv beta; intros [c|e] _]; [by apply maintains_ret|].
  unfold worker_is_own in Hown. destruct (j_worker_token job) as [token|]; [|apply maintains_refuse].
  apply (maintains_bind _ (fun _ => True)); [by apply maintains_wtry, abandon_kept|intros _ _; apply maintains_refuse].
Qed.
Lemma ensure_inline_within job w r w' :
  ensure_durable_inline_git_worker E JX job w = (r, w') ->
  within K (job_pid job) (registry w) (registry w')
  /\ forall job', r = Ok job' -> job_of (job_pid job) job'
       /\ (worker_is_own (job_pid job) job (registry w) -> worker_is_own (job_pid job) job' (registry w')).
Proof.
  intros He. destruct (own_kept K HK (job_pid job) (registry w) _ _
    (fun d => ensure_inline_kept E JX (job_pid job) d job eq_refl) w (reflexivity _)) as [Hkept Hof].
  rewrite He in Hkept, Hof. split; [done|]. intros job' ->. split; [by apply Hof|]. intros Hown.
  apply ensure_inline_inv in He as [->|(token & _ & Ht & _ & Hruns)]; unfold worker_is_own in *.
  - destruct (j_worker_token job); [|done]. by apply (worker_of_only _ _ (registry w)); [apply Hkept|].
  - rewrite Ht. by eapply runs_as_own.
Qed.
Lemma job_kept job w :
  worker_is_own (job_pid job) job (registry w) ->
  within K (job_pid job) (registry w) (registry (run_agent_job E JX rounds job w).2).
Proof.
  intros Hown. unfold run_agent_job, wbind.
  destruct (ensure_durable_inline_git_worker E JX job w) as [r w1] eqn:He.
  apply ensure_inline_within in He as [Hkept Hof]. destruct r as [job'|e]; [|done].
  destruct (Hof _ eq_refl) as [Hj Hown']. etrans; [exact Hkept|].
  apply (owned_kept (job_pid job) (registry w1) job' Hj); [by apply Hown'|reflexivity].
Qed.
End Job.

(** C19: A job concerns its project: when its runner issues commands of the registry that write rows of that project, and its worker is the project's, all that the job leaves in the registry, however it ends, is what commands of the transition system lead to, and no row of another project is changed. *)
Theorem job_changes_one_project E JX rounds (R : AgentRunner) (HR : IsolatedRunner) job w :
  worker_is_own (job_pid job) job (registry w) ->
  let d' := registry (run_agent_job E JX rounds job w).2 in
  (reachable (registry w) -> reachable d') /\ forall q, q <> job_pid job -> slice q d' = slice q (registry w).
Proof.
  intros Hown. cbv zeta.
  destruct (job_kept unconstrained ltac:(done) E JX isolated_within rounds job w Hown) as [[Hf Ho] _]. split; [|exact Ho].
  by apply (follows_reachable (fun _ => true)).
Qed.

(** ** How a job ends *)

(** The row of the run, the worker that ended with it, and a lease that was given back. *)
Definition recorded_run (pid : Z) (status : string) (id : Z) (d : db) : Prop :=
  exists run, runs d !! id = Some run /\ r_status run = status /\ r_project_id run = pid.
Definition completed_worker (token : string) (id : Z) (d : db) : Prop :=
  exists wr, agent_workers d !! token = Some wr /\ w_state wr = WCompleted /\ w_run_id wr = Some id.

Lemma record_run_outcome_row o d id d' :
  record_run_outcome o d = (Ok id, d') -> recorded_run (o_project_id o) (o_status o) id d'.
Proof.
  unfold record_run_outcome, autocommit, recorded_run. destruct (project_exists d _); [|done]. intros [= <- <-].
  eexists. split; [unfold update_project_after_run; cbn; apply lookup_insert_eq|done].
Qed.
Lemma released_lease pid holder d : ~ holds holder pid (release_lease pid holder d).2.
Proof.
  unfold holds, release_lease, sql_delete. destruct (leases d !! pid) as [l|] eqn:Hl; [|cbn; by rewrite ?Hl].
  destruct (l_holder l == holder) eqn:Hh; cbn; [by rewrite lookup_delete_eq|]. rewrite ?Hl. cbn. intros [= <-].
  by rewrite bool_decide_true in Hh.
Qed.
Lemma release_keeps_runs pid holder d : runs (release_lease pid holder d).2 = runs d.
Proof. unfold release_lease. by destruct (sql_delete _ _ _). Qed.

Section Ends.
Context (E : Surroundings) (JX : JobSurroundings).

Definition job_ended (job : AgentRunJob) (status : string) (released : Prop) (id : Z) (d : db) : Prop :=
  match j_worker_token job with
  | Some token => completed_worker token id d
  | None => recorded_run (job_pid job) status id d /\ (released -> ~ holds (j_holder job) (job_pid job) d)
  end.

Lemma record_stage_ends job holder transferred started finished o w id w' :
  record_agent_result_stage E job holder transferred started finished o w = (Ok id, w') ->
  job_ended job (jo_status o) (transferred = false) id (registry w').
Proof.
  unfold record_agent_result_stage, job_ended. intros H. wok H recorded w1 H1. wok H released w2 H2.
  wok H id' w3 H3. injection H3 as -> <-. wok H u w4 H4.
  injection H4 as -> <-. injection H as <- <-. unfold wtry in H1, H2.
  destruct (j_worker_token job) as [token|]; cbn [is_null negb orb] in H2.
  - injection H2 as <-. destruct (wbind _ _ w) as [r1 v1] eqn:Hf. injection H1 as -> Hv. subst v1.
    wok Hf found v2 Hf2. apply on_registry_inv in Hf2 as (_ & Hd & [(a & Ha & [= <-])|(e & _ & [=])]).
    apply need_inv in Hf as [Hv [(b & -> & [= <-])|[_ [=]]]]. subst. rewrite Hd.
    destruct (finalize_worker _ _) as [r d'] eqn:Hfin. cbn in *. subst r.
    by apply finalize_worker_completed in Hfin.
  - destruct (on_registry _ w) as [r1 v1] eqn:Ho. injection H1 as -> <-.
    apply on_registry_inv in Ho as (_ & Hd & [(a & Ha & [= <-])|(e & _ & [=])]).
    destruct (record_run_outcome _ _) as [r d'] eqn:Hrec. cbn in *. subst r. rewrite <- Hd in Hrec.
    apply record_run_outcome_row in Hrec. destruct transferred; [by injection H2 as _ <-|].
    destruct (wbind _ _ v1) as [r2 v2] eqn:Hr. injection H2 as -> <-. wok Hr b v3 Hb.
    injection Hr as _ <-. apply on_registry_inv in Hb as (_ & Hb & _). rewrite Hb. split; [|intros _; apply released_lease].
    destruct Hrec as (run & Hrun & ?). exists run. by rewrite release_keeps_runs.
Qed.

Lemma job_ended_weaken job status (P Q : Prop) id d : (Q -> P) -> job_ended job status P id d -> job_ended job status Q id d.
Proof. unfold job_ended. destruct (j_worker_token job); [done|]. intros HQ [Hr Hl]. split; [done|]. auto. Qed.

(** The lease goes to an interactive session only with a handoff. *)
Lemma finish_control_holder job o w holder w' :
  finish_control E JX job o w = (Ok (Some holder), w') -> jo_control_action o = Some ActInterrupt.
Proof.
  unfold finish_control. destruct (jo_control_action o) as [[]|]; [|done|]; intros H; by wok H u w1 H1.
Qed.
Lemma defer_blocked_interrupted job finished o w o' w' :
  jo_control_action o = Some ActInterrupt -> defer_blocked E JX job finished o w = (Ok o', w') -> o' = o.
Proof.
  intros Ha. unfold defer_blocked, may_defer. rewrite Ha. cbn [is_null]. rewrite !andb_false_r. cbn [negb andb].
  by destruct (session_of_outcome job o); intros [= <- _].
Qed.

Lemma conclude_ends start finished_at o w c w' :
  conclude_run E JX start finished_at o w = (Ok c, w') ->
  (jo_control_action o = Some ActInterrupt -> jo_status o = "handoff") ->
  job_ended (js_job start) (cp_status c) (cp_status c <> "handoff") (cp_run_id c) (registry w').
Proof.
  unfold conclude_run. intros H Ho. wok H ended w1 H1. wok H o' w2 H2. wok H u w3 H3. wok H rid w4 H4.
  wok H u' w5 H5. injection H5 as H5 <-. injection H as <- <-. cbn.
  apply record_stage_ends in H4. eapply job_ended_weaken; [|exact H4]. intros Hstatus.
  destruct ended as [[holder|]|e]; [|done|done]. destruct Hstatus.
  unfold wtry in H1. destruct (finish_control _ _ _ _ w) as [r v] eqn:Hf. injection H1 as -> _.
  apply finish_control_holder in Hf. by rewrite (defer_blocked_interrupted _ _ _ _ _ _ Hf H2), (Ho Hf).
Qed.

Context `{AgentRunner} (rounds : nat).

Lemma start_job_of job w s w' : start_job E JX job w = (Ok s, w') -> start_of (job_pid job) job s.
Proof.
  intros Hs. destruct (start_job_kept E JX (job_pid job) (registry w) job eq_refl w (reflexivity _)) as [_ Hof].
  rewrite Hs in Hof. by apply Hof.
Qed.

Lemma inner_ends job w c w' :
  run_agent_job_inner E JX rounds job w = (Ok c, w') ->
  job_ended job (cp_status c) (cp_status c <> "handoff") (cp_run_id c) (registry w').
Proof.
  unfold run_agent_job_inner. intros Hi. wok Hi begun w1 H1. wok Hi ran w2 H2. wok Hi u w3 H3. wok Hi at_ w4 H4.
  wok Hi o w5 H5. wok Hi u2 w6 H6. apply start_job_of in H1 as (Hp & Ht & Hh).
  apply conclude_ends in Hi; swap 1 2.
  - unfold judge_run in H5. wok H5 o1 v1 G1. wok H5 o2 v2 G2. wok H5 o3 v3 G3. injection H5 as <- _.
    unfold apply_control_action. destruct (jo_control_action o3) as [[]|] eqn:Ha; cbn; congruence.
  - unfold job_ended, job_of, job_pid in *. by rewrite Ht, Hh, Hp in Hi.
Qed.
End Ends.

(** The run of a job that returns, as the worker it was given. *)
Lemma job_inner E JX rounds `{AgentRunner} job w c w' :
  run_agent_job E JX rounds job w = (Ok c, w') ->
  exists job' w1, ensure_durable_inline_git_worker E JX job w = (Ok job', w1)
    /\ run_agent_job_inner E JX rounds job' w1 = (Ok c, w').
Proof.
  unfold run_agent_job. intros H1. wok H1 job' w1 He. exists job', w1. split; [done|]. unfold run_owned_job in H1.
  wok H1 got w2 Hr. unfold wtry in Hr. destruct (run_agent_job_inner E JX rounds job' w1) as [r v]. injection Hr as <- <-.
  destruct r as [c'|e]; [by injection H1 as -> <-|destruct (j_worker_token job'); [by wok H1 u w3 Hu|done]].
Qed.

(** C11: A job that returns has ended: with a worker, its own or the inline one it got, that worker is completed and names the run; without one, the run is recorded with the returned status, and the project's lease was given back unless the session was handed over. *)
Theorem job_ends_its_worker E JX rounds (R : AgentRunner) job w c w' :
  run_agent_job E JX rounds job w = (Ok c, w') ->
  (exists token, (j_worker_token job = None \/ j_worker_token job = Some token)
     /\ completed_worker token (cp_run_id c) (registry w'))
  \/ (j_worker_token job = None /\ recorded_run (job_pid job) (cp_status c) (cp_run_id c) (registry w')
      /\ (cp_status c <> "handoff" -> ~ holds (j_holder job) (job_pid job) (registry w'))).
Proof.
  intros H. apply job_inner in H as (job' & w1 & He & Hi). apply inner_ends in Hi. unfold job_ended in Hi.
  apply ensure_inline_inv in He as [->|(tk & Hn & Ht & _)].
  - destruct (j_worker_token job) as [tk|]; [left; eauto|by right].
  - rewrite Ht in Hi. left. eauto.
Qed.

(** ** A foreground pass *)

Lemma new_run_project pid d d' id run :
  only_project pid d d' -> runs d !! id = None -> runs d' !! id = Some run -> r_project_id run = pid.
Proof.
  intros Hd Hn Hrun. destruct (decide (r_project_id run = pid)) as [|Hne]; [done|exfalso].
  specialize (Hd _ Hne). unfold slice in Hd. injection Hd as _ _ _ _ _ _ _ _ Hruns.
  assert (filter (fun kv => r_project_id kv.2 = r_project_id run) (runs d') !! id = Some run) as Hf.
  { by apply map_lookup_filter_Some. }
  rewrite Hruns in Hf. apply map_lookup_filter_Some in Hf as [Hf _]. congruence.
Qed.

Section Recorded.
Context (E : Surroundings) (JX : JobSurroundings) `{AgentRunner} (rounds : nat).
Context (HR : runner_within same_history).

Lemma grows c d : keeps_history c = true -> same_history d (exec c d).
Proof. apply exec_runs_grow. Qed.

(** A job that returns recorded one new run, of its project. *)
Lemma job_records job w c w' :
  j_worker_token job = None -> reachable (registry w) -> run_agent_job E JX rounds job w = (Ok c, w') ->
  exists run, runs (registry w) !! cp_run_id c = None /\ runs (registry w') !! cp_run_id c = Some run
              /\ r_project_id run = job_pid job.
Proof.
  intros Ht Hw Hjob. assert (Hown : worker_is_own (job_pid job) job (registry w)) by (unfold worker_is_own; by rewrite Ht).
  pose proof (job_kept same_history grows E JX HR rounds job w Hown) as [[Hf Honly] _]. rewrite Hjob in Hf, Honly. cbn in Hf, Honly.
  assert (Hw' : reachable (registry w')) by (by eapply follows_reachable).
  apply job_inner in Hjob as (job' & w1 & He & Hi).
  destruct (ensure_inline_within same_history grows E JX job w _ _ He) as [[[Hf1 _] Hgrow1] Hof].
  destruct (Hof _ eq_refl) as [Hj' Hown']. specialize (Hown' Hown).
  destruct (inner_kept same_history grows (job_pid job) (registry w1) E JX HR rounds job' Hj' Hown' w1 (reflexivity _))
    as [[_ Hgrow2] Hfree].
  rewrite Hi in Hgrow2, Hfree. cbn in Hgrow2. specialize (Hfree c eq_refl). apply inner_ends in Hi. unfold job_ended in Hi.
  enough (exists run, runs (registry w1) !! cp_run_id c = None /\ runs (registry w') !! cp_run_id c = Some run)
    as (run & Hn & Hrun).
  { assert (runs (registry w) !! cp_run_id c = None) as Hnew by (by eapply lookup_weaken_None).
    exists run. split_and!; [done..|]. by eapply new_run_project. }
  apply ensure_inline_inv in He as [->|(tk & _ & Ht' & _ & wr1 & Hwr1 & _ & Hs1 & _)].
  - rewrite Ht in Hi. destruct Hi as [(run & Hrun & _) _]. exists run. split; [|done].
    destruct (Hfree Ht) as (d & Hd & Hn). by eapply lookup_weaken_None.
  - rewrite Ht' in Hi. destruct Hi as (wr & Hwr & _ & Hid).
    destruct (worker_names_run _ (reachable_runs_linked _ Hw') _ _ _ Hwr Hid) as (run & Hrun & Htok & _).
    exists run. split; [|done]. destruct (runs (registry w1) !! cp_run_id c) as [run1|] eqn:Hrun1; [exfalso|done].
    assert (run1 = run) as -> by (pose proof (lookup_weaken _ _ _ _ Hrun1 Hgrow2); congruence).
    assert (Hw1 : reachable (registry w1)) by (by eapply follows_reachable).
    destruct (run_names_worker _ (reachable_runs_linked _ Hw1) _ _ _ Hrun1 Htok) as (v & Hv & Hvid & _).
    pose proof (ok_workers _ (reachable_ok _ Hw1) tk v Hv) as [_ Hshape]. assert (v = wr1) as -> by congruence.
    rewrite Hs1 in Hshape. destruct Hshape as [_ Hno]. congruence.
Qed.

(** The jobs of a pass, whatever they do. *)
Lemma jobs_kept K `{!PreOrder K} jobs w :
  (forall c d, keeps_history c = true -> K d (exec c d)) -> runner_within K ->
  Forall (fun job => j_worker_token job = None) jobs ->
  follows (fun _ => true) (registry w) (registry (run_jobs E JX rounds jobs w).2)
  /\ K (registry w) (registry (run_jobs E JX rounds jobs w).2).
Proof.
  intros HK HRK Hjobs. revert w. induction Hjobs as [|job jobs Ht Hjobs IH]; intros w; [split; cbn; reflexivity|]. cbn [run_jobs].
  assert (worker_is_own (job_pid job) job (registry w)) as Hown by (unfold worker_is_own; by rewrite Ht).
  destruct (job_kept K HK E JX HRK rounds job w Hown) as [[Hj _] HKj]. unfold wbind.
  destruct (run_agent_job E JX rounds job w) as [[c|e] w1]; cbn in *; [|done].
  specialize (IH w1). destruct (run_jobs E JX rounds jobs w1) as [[n|e] w2], IH as [IH1 IH2];
    (split; [etrans; [exact Hj|exact IH1]|etrans; [exact HKj|exact IH2]]).
Qed.

Definition newly_recorded (d d' : db) (run : Z * run_row) : Prop :=
  runs d !! run.1 = None /\ runs d' !! run.1 = Some run.2.

Lemma jobs_record jobs w n w' :
  Forall (fun job => j_worker_token job = None) jobs -> reachable (registry w) ->
  run_jobs E JX rounds jobs w = (Ok n, w') ->
  n = length jobs
  /\ exists recorded, (fun run => r_project_id run.2) <$> recorded = job_id <$> jobs
       /\ Forall (newly_recorded (registry w) (registry w')) recorded.
Proof.
  intros Hjobs. revert w n. induction Hjobs as [|job jobs Ht Hjobs IH]; intros w n Hw Hn.
  { injection Hn as <- <-. split; [done|]. by exists []. }
  cbn [run_jobs] in Hn. wok Hn c w1 Hc. wok Hn m w2 Hm. injection Hn as <- <-.
  assert (worker_is_own (job_pid job) job (registry w)) as Hown by (unfold worker_is_own; by rewrite Ht).
  pose proof (job_kept same_history grows E JX HR rounds job w Hown) as [[Hf _] Hgrow].
  pose proof (jobs_kept same_history jobs w1 grows HR Hjobs) as [_ Hgrow'].
  rewrite Hc in Hf, Hgrow. rewrite Hm in Hgrow'. cbn in Hf, Hgrow, Hgrow'.
  destruct (job_records job w c w1 Ht Hw Hc) as (run & Hnew & Hrun & Hp).
  destruct (IH w1 m (follows_reachable _ _ _ Hf Hw) Hm) as [-> (recorded & Hids & Hrec)].
  split; [done|]. exists ((cp_run_id c, run) :: recorded). split; [cbn; by rewrite Hids, Hp|].
  constructor; [split; [done|by eapply lookup_weaken]|]. eapply Forall_impl; [exact Hrec|].
  intros run' [Hn' Hr']. split; [|done]. by eapply lookup_weaken_None.
Qed.
End Recorded.

(** C18: A pass in the foreground with the jobs it starts is a sequence of commands of the registry's transition system, wherever it fails. When it returns, each run it started was recorded: as long as the runner itself deletes no run, as many runs are new in the registry as the pass counts as started and as recorded, each of a different project. *)
Theorem foreground_pass_records_its_runs E JX rounds (R : AgentRunner) (HR : IsolatedRunner) w r w' :
  run_agent_once_with_runner E JX rounds w = (r, w') ->
  (exists cs, registry w' = exec_all cs (registry w))
  /\ (runner_keeps_runs -> reachable (registry w) -> forall pass, r = Ok pass ->
        runs_recorded pass = runs_started pass
        /\ exists recorded : list (Z * run_row),
             length recorded = runs_started pass
             /\ NoDup ((fun run => r_project_id run.2) <$> recorded)
             /\ Forall (fun run => runs (registry w) !! run.1 = None /\ runs (registry w') !! run.1 = Some run.2) recorded).
Proof.
  unfold run_agent_once_with_runner. intros H. wstep H e limit w1 H1; (apply keeps_registry_inv in H1; [|keep_registry]).
  { rewrite H1. split; [by exists []|done]. }
  rewrite <- H1. clear H1. wstep H e begun w2 H2.
  all: pose proof (maintained scheduling _ _ _ _ ltac:(intros d; apply pass_is_kept) H2) as Hpass.
  { split; [|done]. destruct Hpass as (cs & _ & ->). by exists cs. }
  pose proof (pass_counted _ _ _ _ _ _ _ _ _ H2) as [_ (busy & m & Hc & _)]. apply pass_jobs_ok in H2 as [Hnd Hnone].
  assert (Forall (fun job => j_worker_token job = None) (st_jobs begun)) as Hjobs.
  { apply Forall_forall. intros job Hj. by apply Hnone in Hj as (_ & ? & _). }
  split.
  - destruct (jobs_kept E JX rounds unconstrained (st_jobs begun) w2 ltac:(done) isolated_within Hjobs) as [Hrun _].
    assert (follows (fun _ => true) (registry w1) (registry w')) as (cs & _ & ->); [|by exists cs].
    etrans; [by eapply follows_mono|]. wstep H e n w3 H3; rewrite H3 in Hrun; [exact Hrun|]. by injection H as _ <-.
  - intros Hkeeps Hw pass ->. wok H n w3 H3. injection H as <- <-.
    apply jobs_record in H3 as [-> (recorded & Hids & Hrec)];
      [|by apply keeping_within|done|by eapply follows_reachable].
    assert (same_history (registry w1) (registry w2)) as Hgrow.
    { by apply (follows_keeps same_history scheduling); [apply exec_runs_grow|apply scheduling_keeps_history|]. }
    unfold counted in Hc. assert (length recorded = length (st_jobs begun)) as Hlen.
    { by rewrite <- (length_fmap (fun run : Z * run_row => r_project_id run.2)), Hids, length_fmap. }
    cbn. split; [lia|]. exists recorded. split_and!; [lia|by rewrite Hids|].
    eapply Forall_impl; [exact Hrec|]. intros run [Hn' Hr']. split; [|done]. by eapply lookup_weaken_None.
Qed.

(** ** When a run is a success *)

(** The conversation has no journal left to finish. *)
Definition settled (pid : Z) (session : string) (d : db) : Prop :=
  match git_finalization pid session d with
  | Some g => Finalization.is_terminal (g_state g) = true
  | None => True
  end.

Section Success.
Context (E : Surroundings) (JX : JobSurroundings).

(** *** The conversation an outcome names *)

Definition session_of_run (job : AgentRunJob) (run : res refusal AgentRunResult) : option string :=
  match run with
  | Ok r => coalesce (rr_codex_session_id r) (j_resume_session_id job)
  | Err _ => j_resume_session_id job
  end.

Lemma coalesce_self (s : option string) : coalesce s s = s.
Proof. by destruct s. Qed.

Lemma conclude_review_session job r w r' w' :
  conclude_review E JX job r w = (Ok r', w') -> rr_codex_session_id r' = rr_codex_session_id r.
Proof.
  unfold conclude_review. intros H. destruct (negb (reviews job)); [by injection H as <- _|].
  wok H decided w1 H1. destruct decided; [by injection H as <- _|]. wok H u w2 H2. injection H as <- _.
  by destruct (is_null (rr_control_action r)).
Qed.
Lemma refuse_recovery_session job r w r' w' :
  refuse_idle_recovery E JX job r w = (Ok r', w') -> rr_codex_session_id r' = rr_codex_session_id r.
Proof.
  unfold refuse_idle_recovery. intros H. destruct (negb _); [by injection H as <- _|].
  wok H b w1 H1. injection H as <- _. by destruct b.
Qed.
Lemma refuse_report_session job r w r' w' :
  refuse_idle_report E JX job r w = (Ok r', w') -> rr_codex_session_id r' = rr_codex_session_id r.
Proof.
  unfold refuse_idle_report. intros H. destruct (rr_status r =! "idle"); [by injection H as <- _|].
  wok H scan w1 H1. wok H owner w2 H2. injection H as <- _. by case_match.
Qed.
Lemma link_result_session job r w r' w' :
  link_result E JX job r w = (Ok r', w') -> rr_codex_session_id r' = rr_codex_session_id r.
Proof.
  unfold link_result. intros H. destruct (rr_codex_session_id r) eqn:Hs; [|by injection H as <- _].
  wok H owner w1 H1. injection H as <- _. by destruct owner.
Qed.
Lemma outcome_session job run w o w' :
  outcome_of_run E JX job run w = (Ok o, w') -> session_of_outcome job o = session_of_run job run.
Proof.
  unfold outcome_of_run, session_of_outcome, session_of_run. intros H. destruct run as [r|e].
  - wok H r1 w1 H1. wok H r2 w2 H2. wok H r3 w3 H3. wok H r4 w4 H4. injection H as <- _. cbn.
    by rewrite (link_result_session _ _ _ _ _ H4), (refuse_report_session _ _ _ _ _ H3),
      (refuse_recovery_session _ _ _ _ _ H2), (conclude_review_session _ _ _ _ _ H1).
  - injection H as <- _. cbn. apply coalesce_self.
Qed.

(** *** The journal's stage *)

Lemma reconciled_snapshot job o session w i j w' :
  reconcile_session_journal E JX job o session w = (Ok (Some (i, j)), w') ->
  snapshot (job_pid job) session (registry w') = Some j.
Proof.
  unfold reconcile_session_journal. intros H. wok H found w1 H1. apply query_inv in H1 as [-> [= ->]].
  unfold snapshot at 1 in H. destruct (git_finalization _ _ _) as [g|] eqn:Hg; [|by injection H].
  wok H j' w2 H2. injection H as _ <- <-. unfold reconcile_agent_git_finalization in H2.
  eapply reconcile_rounds_outcome in H2 as [_ Hj]; [|exact Hg]. by apply Hj.
Qed.
Lemma snapshot_settled pid session d j :
  snapshot pid session d = Some j -> Finalization.is_terminal (g_state j.2) = true -> settled pid session d.
Proof. unfold snapshot, settled. destruct (git_finalization _ _ _); [intros [= <-]; done|done]. Qed.

Lemma snapshot_project pid session d j : snapshot pid session d = Some j -> j.1.1 = pid.
Proof. unfold snapshot. destruct (git_finalization _ _ _); [by intros [= <-]|done]. Qed.

Lemma retire_unlinked_settles p j token w w' :
  retire_unlinked_working_git_finalization_after_run E p j token w = (Ok true, w') ->
  settled j.1.1 j.1.2 (registry w').
Proof.
  unfold retire_unlinked_working_git_finalization_after_run, cancel_unlinked_working_git_finalization. intros H.
  destruct token as [tk|]; [|done]. destruct (_ == Some tk); [|done]. destruct j as [[jp session] g].
  wok H owner w1 H1. destruct (negb (is_null owner)); [done|]. wok H found w2 H2.
  destruct found as [current|]; [|done]. destruct (_ || _); [done|]. wok H now w3 H3.
  apply on_registry_inv in H as (_ & Hd & [(b & Hb & [= <-])|(e & _ & [=])]).
  destruct (compare_and_set_owned_git_finalization _ _ _ _ _ _ _ _ _) as [r d'] eqn:Hc. cbn in Hb, Hd. subst r.
  unfold compare_and_set_owned_git_finalization in Hc. apply compare_and_set_true in Hc as (g1 & _ & _ & _ & Hg').
  unfold settled, git_finalization. cbn. rewrite Hd. unfold git_finalization in Hg'. by rewrite Hg'.
Qed.

(** The run an outcome is of stays the same. *)
Definition same_run (o o' : JobOutcome) : Prop :=
  jo_codex_session_id o' = jo_codex_session_id o /\ jo_control_action o' = jo_control_action o.

Lemma after_working_settles job o j w o' w' :
  after_working E job o j w = (Ok o', w') -> snapshot (job_pid job) j.1.2 (registry w) = Some j ->
  same_run o o' /\ (jo_status o' = "success" -> settled (job_pid job) j.1.2 (registry w')).
Proof.
  unfold after_working. intros H Hj. wok H owner w1 H1. wok H waiting w2 H2.
  destruct waiting; [injection H as <- _; by repeat split|].
  destruct (match owner with Some _ => _ | None => _ end); [injection H as <- _; by repeat split|].
  destruct (is_null owner && _).
  - wok H cancelled w3 H3. injection H as <- <-. destruct cancelled; [|by repeat split]. split; [done|]. intros _.
    apply retire_unlinked_settles in H3. by rewrite (snapshot_project _ _ _ _ Hj) in H3.
  - destruct (jo_status o =! "blocked") eqn:Hb; injection H as <- _; [by repeat split|]. split; [done|].
    intros Hs. rewrite Hs in Hb. by vm_compute in Hb.
Qed.

Lemma after_reconciliation_settles job before proof o i j w o' w' :
  after_reconciliation E job before proof o i j w = (Ok o', w') ->
  snapshot (job_pid job) j.1.2 (registry w) = Some j ->
  same_run o o' /\ (jo_status o' = "success" -> settled (job_pid job) j.1.2 (registry w')).
Proof.
  unfold after_reconciliation. intros H Hj. destruct (_ && _) eqn:Hc.
  { injection H as <- <-. split; [done|]. intros _. apply andb_true_iff in Hc as [Hc%bool_decide_eq_true _].
    eapply snapshot_settled; [exact Hj|]. by rewrite Hc. }
  destruct (g_state j.2 == Working); [by eapply after_working_settles|].
  destruct (g_state j.2 == PushPending); [injection H as <- <-; by repeat split|].
  destruct (negb _) eqn:Ht; [wok H diagnostic w1 H1; injection H as <- <-; by repeat split|].
  injection H as <- <-. split; [done|]. intros _. eapply snapshot_settled; [exact Hj|].
  by apply negb_false_iff in Ht.
Qed.

Lemma after_journal_settles job before proof o session w o' w' :
  after_journal E JX job before proof o session w = (Ok o', w') ->
  same_run o o' /\ (jo_status o' = "success" -> settled (job_pid job) session (registry w')).
Proof.
  unfold after_journal. intros H. wok H reconciled w1 H1. unfold wtry in H1.
  destruct (reconcile_session_journal _ _ _ _ _ w) as [r v] eqn:Hr. injection H1 as <- <-.
  destruct r as [[[i j]|]|e].
  - apply reconciled_snapshot in Hr. assert (j.1.2 = session) as <-.
    { unfold snapshot in Hr. destruct (git_finalization _ _ _); [|done]. by injection Hr as <-. }
    by eapply after_reconciliation_settles.
  - wok H unrecorded w2 H2. injection H as <- <-. destruct unrecorded; [by repeat split|]. split; [done|]. intros _.
    apply keeps_registry_inv in H2; [|keep_registry]. rewrite H2. clear H2.
    unfold reconcile_session_journal in Hr. wok Hr found w3 H3. apply query_inv in H3 as [-> [= ->]].
    unfold snapshot in Hr. unfold settled. destruct (git_finalization _ _ _) eqn:Hg; [by wok Hr jr w4 H4|].
    injection Hr as <-. by rewrite Hg.
  - wok H pushing w2 H2. injection H as <- <-. by destruct pushing; repeat split.
Qed.

Lemma settle_journal_settles job before proof o w o' w' :
  settle_journal E JX job before proof o w = (Ok o', w') ->
  jo_control_action o' = jo_control_action o
  /\ (jo_status o' = "success" -> jo_control_action o = None ->
      forall session, session_of_outcome job o = Some session -> settled (job_pid job) session (registry w')).
Proof.
  unfold settle_journal. intros H. destruct (jo_control_action o) eqn:Ha; [injection H as <- _; by repeat split|].
  destruct (session_of_outcome job o) as [session|] eqn:Hs; [|by injection H as <- _].
  apply after_journal_settles in H as [[_ Hact] H]. split; [congruence|]. intros Hok _ ? [= <-]. by apply H.
Qed.

(** *** What follows leaves the journals alone *)

Section Journals.
Context (T : gmap (Z * string) journal_row).
Local Notation same := (maintains (fun d => git_finalizations d = T) (fun _ => True)).

Lemma same_journals {A} (op : store_op A) :
  (forall d, git_finalizations (op d).2 = git_finalizations d) -> same (on_registry op).
Proof. intros Hop. apply maintains_registry. intros d <-. apply Hop. Qed.
#[local] Hint Extern 3 (maintains _ _ (on_registry _)) => apply same_journals; intros; frame : maintains_db.

Lemma look_same job o session token : same (look_at_control job o session token).
Proof. unfold look_at_control. maintain. Qed.
#[local] Hint Resolve look_same : maintains_db.
Lemma looks_same n job o session token : same (look_until_settled n job o session token).
Proof. revert o. induction n as [|n IH]; intros o; cbn [look_until_settled]; maintain. Qed.
#[local] Hint Resolve looks_same : maintains_db.
Lemma resolve_same n job o : same (resolve_control JX n job o).
Proof. unfold resolve_control. maintain. Qed.
Lemma finish_same job o : same (finish_control E JX job o).
Proof.
  unfold finish_control, finish_stop, finish_interrupt, release_control, already_stopped, handed_over. maintain.
Qed.
Lemma fence_same job : same (renew_agent_job_worker_fence E JX job).
Proof. unfold renew_agent_job_worker_fence. maintain. Qed.
Lemma report_same job o : same (report_to_supervisor E JX job o).
Proof.
  unfold report_to_supervisor, hold_error, after_task_run, queue_review, save_review, clear_review. maintain.
Qed.
Lemma record_same job holder transferred started at_ o :
  same (record_agent_result_stage E job holder transferred started at_ o).
Proof. unfold record_agent_result_stage. maintain; apply maintains_wtry; maintain. Qed.
End Journals.

Lemma unchanged_journals {A} (c : wio A) w r w' :
  (forall T, maintains (fun d => git_finalizations d = T) (fun _ => True) c) -> c w = (r, w') ->
  forall pid session, settled pid session (registry w) -> settled pid session (registry w').
Proof.
  intros Hc H pid session. destruct (Hc (git_finalizations (registry w)) w eq_refl) as [He _]. rewrite H in He. cbn in He.
  unfold settled, git_finalization. by rewrite He.
Qed.

Lemma defer_same job session T :
  maintains (fun d => git_finalizations d = T) (fun _ => True) (defer_blocked_task_after_run E JX job session).
Proof.
  unfold defer_blocked_task_after_run. apply (maintains_bind _ (fun _ => True)); [apply fence_same|intros _ _].
  apply maintains_quiet. unfold task_is_owned, move_to_todo. keep_registry. apply quiet_may_wait.
Qed.
Lemma defer_blocked_settled job finished o w o' w' :
  defer_blocked E JX job finished o w = (Ok o', w') ->
  (forall pid session, settled pid session (registry w) -> settled pid session (registry w'))
  /\ (jo_status o' = "success" -> o' = o).
Proof.
  unfold defer_blocked. destruct (session_of_outcome job o) as [session|]; [|by intros [= <- <-]].
  destruct (negb _); [by intros [= <- <-]|]. intros H. wok H deferred w1 H1. injection H as <- <-. split.
  - by eapply (unchanged_journals _ _ _ _ (defer_same job session)).
  - by destruct deferred.
Qed.

Lemma look_unchanged job o session token w o' w' :
  look_at_control job o session token w = (Ok (Some o'), w') -> o' = o \/ jo_control_action o' <> None.
Proof.
  unfold look_at_control. intros H. wok H c w1 H1. destruct c as [c|]; [|injection H as <- _; by left].
  destruct (_ =! Some token); [injection H as <- _; by left|].
  destruct (Control.requested_action _); [injection H as <- _; by right|].
  destruct (sc_state c =! Running); [injection H as <- _; by left|].
  destruct (retries_exactly job o); [injection H as <- _; by left|].
  wok H cleared w2 H2. injection H as H _. left. destruct cleared; [congruence|done].
Qed.
Lemma looks_unchanged n job o session token w o' w' :
  look_until_settled n job o session token w = (Ok (Some o'), w') -> o' = o \/ jo_control_action o' <> None.
Proof.
  revert w. induction n as [|n IH]; intros w H; [done|]. cbn [look_until_settled] in H. wok H looked w1 H1.
  destruct looked as [o1|]; [injection H as <- <-; by eapply look_unchanged|by eapply IH].
Qed.
Lemma resolve_unchanged n job o w o' w' :
  resolve_control JX n job o w = (Ok o', w') -> jo_control_action o' = None -> jo_status o' = "success" -> o' = o.
Proof.
  unfold resolve_control. intros H Ha Hs. destruct (jo_control_action o), (jo_codex_session_id o) as [session|],
    (jo_session_run_token o) as [token|]; try by injection H as <- _.
  wok H resolved w1 H1. unfold wtry in H1. destruct (look_until_settled _ _ _ _ _ w) as [r v] eqn:Hl.
  injection H1 as -> ->. destruct resolved as [[o1|]|e]; [|done|by injection H as <- _].
  injection H as <- _. by apply looks_unchanged in Hl as [->|].
Qed.

(** The judgement and the conclusion of a run. *)
Lemma judge_settles rounds start run w o w' :
  judge_run E JX rounds start run w = (Ok o, w') -> jo_status o = "success" ->
  forall session, session_of_run (js_job start) run = Some session ->
  settled (job_pid (js_job start)) session (registry w').
Proof.
  unfold judge_run. intros H Hs session Hsession. wok H o1 w1 H1. wok H o2 w2 H2. wok H o3 w3 H3. injection H as <- <-.
  apply outcome_session in H1. apply settle_journal_settles in H2 as [Hact H2].
  assert (jo_control_action o3 = None /\ jo_status o3 = "success") as [Ha3 Hs3].
  { unfold apply_control_action in Hs. by destruct (jo_control_action o3) as [[]|]. }
  eapply unchanged_journals; [intros T; apply resolve_same|exact H3|].
  apply resolve_unchanged in H3 as ->; [|done|done]. unfold keep_branch_error in *.
  destruct (branch_recovery_error JX run); [destruct (jo_status o2 =! "success") eqn:Hn; [done|]|].
  all: apply H2; congruence.
Qed.
Lemma conclude_settled start finished_at o w c w' :
  conclude_run E JX start finished_at o w = (Ok c, w') ->
  (forall pid session, settled pid session (registry w) -> settled pid session (registry w'))
  /\ (cp_status c = "success" -> jo_status o = "success").
Proof.
  unfold conclude_run. intros H. wok H ended w1 H1. wok H o' w2 H2. wok H u w3 H3. wok H rid w4 H4.
  wok H u' w5 H5. injection H5 as H5 <-. injection H as <- <-. apply defer_blocked_settled in H2 as [H2 Ho]. split.
  - intros pid session Hw. eapply unchanged_journals; [intros T; apply record_same|exact H4|].
    eapply unchanged_journals; [intros T; apply report_same|exact H3|]. apply H2.
    eapply unchanged_journals; [|exact H1|exact Hw]. intros T. apply maintains_wtry. by apply finish_same.
  - cbn. intros Hs. rewrite (Ho Hs) in Hs. by destruct ended.
Qed.

Lemma start_job_request job w s w' :
  start_job E JX job w = (Ok s, w') -> j_resume_session_id (js_job s) = j_resume_session_id job.
Proof.
  unfold start_job, start_supervised. intros H. wok H session w1 H1. wok H mode w2 H2. wok H u w3 H3.
  wok H before w4 H4. wok H proof w5 H5. wok H prepared w6 H6. wok H at_ w7 H7. injection H as <- _. cbn.
  wok H6 u' w8 H8. destruct (negb _); [by injection H6 as <- _|]. wok H6 u9 w9 H9. wok H6 p w10 H10.
  by injection H6 as <- _.
Qed.

Context `{AgentRunner} (rounds : nat).

(** The run a job asked the runner for, and the conversation it is about. *)
Definition ran (pid : Z) (resumed : option string) (session : option string) : Prop :=
  exists req w1 run w2, run_project req w1 = (run, w2) /\ (rq_project req).1 = pid
    /\ session = coalesce (match run with Ok r => rr_codex_session_id r | Err _ => None end) resumed.

Lemma inner_settles job w c w' :
  run_agent_job_inner E JX rounds job w = (Ok c, w') -> cp_status c = "success" ->
  exists session, ran (job_pid job) (j_resume_session_id job) session
    /\ forall s, session = Some s -> settled (job_pid job) s (registry w').
Proof.
  unfold run_agent_job_inner. intros Hi Hs. wok Hi begun w1 H1. wok Hi got w2 H2. wok Hi u w3 H3. wok Hi at_ w4 H4.
  wok Hi o w5 H5. wok Hi u2 w6 H6. pose proof (start_job_request _ _ _ _ H1) as Hresume.
  apply start_job_of in H1 as (Hp & _). unfold wtry in H2.
  destruct (run_project (request_of (js_job begun)) w1) as [run v] eqn:Hrun. injection H2 as -> ->.
  exists (session_of_run (js_job begun) got). split.
  - exists (request_of (js_job begun)), w1, got, w2. split_and!; [done|exact Hp|]. rewrite <- Hresume.
    by destruct got.
  - intros s Hsession. apply conclude_settled in Hi as [Hi Ho]. apply Hi.
    eapply unchanged_journals; [intros T; apply fence_same|exact H6|].
    apply (judge_settles _ _ _ _ _ _ H5 (Ho Hs)) in Hsession. unfold job_pid in *. by rewrite Hp in Hsession.
Qed.
End Success.

(** C10: A job that returns with the status "success" leaves nothing to finish in Git: its runner was asked for a run of the job's project, and the journal of the conversation that the run reports, or else of the one the job resumed, is completed, cancelled or absent when the job has returned. *)
Theorem successful_job_finished_its_journal E JX rounds (R : AgentRunner) job w c w' :
  run_agent_job E JX rounds job w = (Ok c, w') -> cp_status c = "success" ->
  exists session, ran (job_pid job) (j_resume_session_id job) session
    /\ forall s, session = Some s -> settled (job_pid job) s (registry w').
Proof.
  intros H Hs. apply job_inner in H as (job' & w1 & He & Hi).
  apply inner_settles in Hi; [|done]. by apply ensure_inline_job in He as [<- <-].
Qed.

(** ** The loop that settles the control *)

(** The control is Running for this run, is to be cleared, and the worker of the run no
    longer holds its project. *)
Definition cannot_clear (job : AgentRunJob) (o : JobOutcome) (session token : string) (d : db) : bool :=
  match session_control (job_pid job) session d with
  | Ok (Some c) => (sc_run_token c == Some token) && (sc_state c == Running) && negb (retries_exactly job o)
                   && known_worker token d && negb (fenced_worker token (job_pid job) d)
  | _ => false
  end.

Lemma clear_running_spec pid session token c d :
  session_controls d !! (pid, session) = Some c -> sc_run_token c = Some token -> sc_state c = Running ->
  let cleared := negb (known_worker token d) || fenced_worker token pid d in
  (clear_running_session_control pid session (Some token) d).1 = Ok cleared
  /\ (cleared = false -> (clear_running_session_control pid session (Some token) d).2 = d).
Proof.
  intros Hc Ht Hs. cbv zeta. unfold clear_running_session_control, transaction.
  destruct (negb (known_worker token d) || _); [|done]. unfold delete_control, sql_delete.
  assert (((sc_state c == Running) && sql_eq (sc_run_token c) (Some token)) = true) as Hp.
  { rewrite Hs, Ht. apply andb_true_iff. split; [done|]. by apply sql_eq_Some. }
  by rewrite Hc, Hp.
Qed.

Lemma session_control_row pid session d c :
  session_control pid session d = Ok (Some c) -> session_controls d !! (pid, session) = Some c.
Proof.
  unfold session_control, control_record. intros H. destruct (session_controls d !! _) as [c0|]; [|done].
  by repeat (case_match; simplify_eq/=).
Qed.

(** One look: it ends the loop, or the registry is as it was. *)
Lemma look_spec job o session token w :
  if cannot_clear job o session token (registry w)
  then exists w', look_at_control job o session token w = (Ok None, w') /\ registry w' = registry w
  else (look_at_control job o session token w).1 <> Ok None.
Proof.
  unfold cannot_clear, look_at_control, wbind, query_res.
  destruct (session_control _ _ _) as [[c|]|e] eqn:Hcontrol; [|done|done]. apply session_control_row in Hcontrol.
  destruct (decide (sc_run_token c = Some token)) as [Ht|Ht]; [|by rewrite bool_decide_false].
  rewrite bool_decide_true by done. destruct (sc_state c) eqn:Hs; try done.
  rewrite !(bool_decide_true (Running = Running)) by done. destruct (retries_exactly job o); [done|].
  unfold on_registry. cbn -[clear_running_session_control].
  destruct (clear_running_spec _ _ _ _ _ Hcontrol Ht Hs) as [Hr Hd].
  destruct (clear_running_session_control _ _ _ _) as [r d']. cbn in Hr, Hd. subst r.
  destruct (known_worker token (registry w)), (fenced_worker token _ (registry w)); cbn; try done.
  eexists. split; [reflexivity|by apply Hd].
Qed.

(** C20: The loop of a job that clears the control of its conversation ends at the first look, unless the control is Running for a run whose worker is in the registry and has lost its project: then no number of looks ends it, as long as no other process changes the registry. *)
Theorem control_loop_terminates job o session token w :
  if cannot_clear job o session token (registry w)
  then forall n, (look_until_settled n job o session token w).1 = Ok None
  else forall n, (look_until_settled (S n) job o session token w).1 <> Ok None.
Proof.
  pose proof (look_spec job o session token w) as Hlook.
  destruct (cannot_clear job o session token (registry w)) eqn:Hstuck.
  - intros n. revert w Hstuck Hlook. induction n as [|n IH]; intros w Hstuck (w' & Hl & Hd); [done|].
    cbn [look_until_settled]. unfold wbind. rewrite Hl. rewrite <- Hd in Hstuck. apply IH; [done|].
    pose proof (look_spec job o session token w') as Hl'. by rewrite Hstuck in Hl'.
  - intros n. cbn [look_until_settled]. unfold wbind.
    destruct (look_at_control job o session token w) as [[[o'|]|e] w']; [done|by destruct Hlook|done].
Qed.

(** ** Witnesses *)

Definition entry (line : N) (words : string) : TaskEntry :=
  mkEntry (MarkdownLine line) (str words) (str words) None false.

Lemma newly_added_task_is_new_witness :
  newly_added_task_entry [str "one"] [entry 1 "two"; entry 2 "one"] = Some (entry 1 "two").
Proof.
  apply (proj2 (newly_added_task_is_new [str "one"] [entry 1 "two"; entry 2 "one"] (entry 1 "two"))); [set_solver| |].
  - reflexivity.
  - apply not_elem_of_cons. split; [discriminate|apply not_elem_of_nil].
Defined.

(** A runner that completed the task, in the foreground of the scheduler and for a
    worker whose task is committed already. *)
Definition sample_jobs : JobSurroundings :=
  mkJobSurroundings (sample_scheduler false) (fun _ => None) (fun _ => None)
    (fun n pid => "inline-" +:+ dec (Z.of_nat n)) "/bin/clt" "[]" "/bin" None (Ok 2).
Definition sample_result : AgentRunResult :=
  mkRunResult "success" (Some 0%Z) "log" "out" "err" "Works." (Some sid) None None.
Definition sample_runner : AgentRunner := fun _ w =>
  (Ok sample_result, mkWorld (sample_tree [] [] [noted]) (registry w) (git_runs w)).
Lemma sample_runner_isolated : @IsolatedRunner sample_runner.
Proof. intros req d w Hw. by split. Qed.

Definition foreground : res refusal AgentSchedulerPass * world :=
  run_agent_once_with_runner sample_surroundings sample_jobs (H := sample_runner) 3 work_waits.

Lemma foreground_pass_records_its_runs_witness :
  exists pass, foreground.1 = Ok pass /\ runs_started pass = 1
    /\ exists run, runs (registry work_waits) !! run.1 = None /\ runs (registry foreground.2) !! run.1 = Some run.2.
Proof.
  destruct (foreground_pass_records_its_runs sample_surroundings sample_jobs 3 sample_runner sample_runner_isolated
              work_waits foreground.1 foreground.2 (surjective_pairing foreground)) as [_ Hall].
  assert (exists pass, foreground.1 = Ok pass /\ runs_started pass = 1) as (pass & Hp & Hs)
    by (eexists; split; vm_compute; reflexivity).
  exists pass. split; [exact Hp|]. split; [exact Hs|].
  destruct (Hall (fun _ _ => reflexivity _) (at_stage_reachable two_projects) pass Hp) as [_ (recorded & Hlen & _ & Hrec)].
  rewrite Hs in Hlen. destruct recorded as [|run recorded]; [discriminate Hlen|].
  apply Forall_cons in Hrec as [Hrun _]. exists run. exact Hrun.
Defined.

Definition worker_surroundings : Surroundings :=
  mkSurroundings (unicode committed_surroundings) (to_json committed_surroundings) sample_json sample_print
    sample_parse (fun _ => true) (fun _ _ _ _ => []) (fun t => t) (fun _ _ => None) committed_git true None
    (fun _ => false) (fun _ => 1010%Z) 42 (fun _ => Some false) (fun _ => Some true) (fun _ _ _ => true).
Definition sealed_job : AgentRunJob :=
  mkJob (1%Z, new_project "/p" "p" "900") (worker_lease_holder token) (Some token) 4 NextTodo None 0 [] [].
Definition sealed_run : res refusal AgentRunCompletion * world :=
  run_agent_job worker_surroundings sample_jobs (H := sample_runner) 3 sealed_job sealed_world.
Definition sealed_completion : AgentRunCompletion :=
  match sealed_run.1 with Ok c => c | Err _ => mkCompletion 0 "" "" "" "" None None end.

Lemma sealed_run_completes : sealed_run = (Ok sealed_completion, sealed_run.2) /\ cp_status sealed_completion = "success".
Proof. split; vm_compute; reflexivity. Qed.

Lemma job_changes_one_project_witness :
  git_finalization 1 sid (registry sealed_run.2) <> git_finalization 1 sid (registry sealed_world)
  /\ slice 2 (registry sealed_run.2) = slice 2 (registry sealed_world).
Proof.
  split; [vm_compute; discriminate|].
  apply (job_changes_one_project worker_surroundings sample_jobs 3 sample_runner sample_runner_isolated sealed_job
           sealed_world); [intros w0 H; vm_compute in H; injection H as <-; reflexivity|discriminate].
Defined.

Lemma job_ends_its_worker_witness :
  completed_worker token (cp_run_id sealed_completion) (registry sealed_run.2).
Proof.
  destruct (job_ends_its_worker worker_surroundings sample_jobs 3 sample_runner sealed_job sealed_world
              sealed_completion sealed_run.2 (proj1 sealed_run_completes)) as [(tk & [H|H] & Hw)|[H _]].
  - discriminate H.
  - injection H as <-. exact Hw.
  - discriminate H.
Defined.

Lemma successful_job_finished_its_journal_witness :
  exists session, ran (H := sample_runner) 1 None session
    /\ forall s, session = Some s -> settled 1 s (registry sealed_run.2).
Proof.
  exact (successful_job_finished_its_journal worker_surroundings sample_jobs 3 sample_runner sealed_job sealed_world
           sealed_completion sealed_run.2 (proj1 sealed_run_completes) (proj2 sealed_run_completes)).
Defined.
