(* ===== verification/InteractiveProps.v ===== *)
(** Properties of what a terminal does to a conversation: what a takeover leaves to the
    terminal, when a reservation hands its conversation back to automation, and what the
    stop key changes. *)
From S2P Require Import Prelude Sql AgentTypes Leases Workers Runs Sessions Handoff Journals.
From S2P Require Import Retire Recovery Holders.
From S2P Require Import Projects Text Models Markers TaskNotes Metadata TaskEntry Files Board.
From S2P Require Import BoardTree.
From S2P Require Import World Surroundings Git Manifest Scheduling SnapshotLoad Guards Workflow.
From S2P Require Import GitRetire GitPublish GitRepair GitFinalize Supervisor Completed Reattach.
From S2P Require Import Dispatch Scheduler Job Interactive GitQuiet Registry Footprint WorkerInv.
From S2P Require Import RegistryInv.
From S2P Require Import Isolation WorldScenario.
From S2P Require Import OperationProps SupervisorProps GitFinalizeProps History SchedulerProps.
From S2P Require Import JobProps Store.

(** ** Taking a conversation over *)

(** Cleaning up never fails. *)
Definition always_ok (cleanup : wio unit) : Prop := forall w, (cleanup w).1 = Ok tt.

Lemma or_drop_inv {A} (cleanup : wio unit) (c : wio A) w r w' :
  always_ok cleanup -> or_drop cleanup c w = (r, w') ->
  exists w1, c w = (r, w1) /\ w' = match r with Ok _ => w1 | Err _ => (cleanup w1).2 end.
Proof.
  intros Hok. unfold or_drop, wbind, wtry. destruct (c w) as [[a|e] w1]; [intros [= <- <-]; eauto|].
  specialize (Hok w1). destruct (cleanup w1) as [u w2] eqn:Hc. cbn in Hok. subst u. intros [= <- <-].
  exists w1. by rewrite Hc.
Qed.

Section Takeover.
Context (E : Surroundings) (JX : JobSurroundings) (pid : Z) (holder : string).
Local Notation free := (fun d => ~ holds holder pid d).
Local Notation stays_free := (maintains free (fun _ => True)).

Lemma drop_lease_ok : always_ok (drop_lease pid holder).
Proof. intros w. unfold drop_lease, wbind, wtry. by destruct (on_registry _ w). Qed.
Lemma drop_lease_frees w : free (registry (drop_lease pid holder w).2).
Proof.
  unfold drop_lease, wbind, wtry. destruct (on_registry _ w) as [r w1] eqn:Hr. cbn.
  apply on_registry_inv in Hr as (_ & -> & _). apply released_lease.
Qed.
Lemma drop_pending_ok session : always_ok (drop_pending_handoff E pid session holder).
Proof.
  intros w. unfold drop_pending_handoff, wbind, wtry, agent_timestamp. destruct (on_registry _ w) as [r w1].
  apply drop_lease_ok.
Qed.
Lemma drop_pending_frees session w : free (registry (drop_pending_handoff E pid session holder w).2).
Proof.
  unfold drop_pending_handoff, wbind, wtry, agent_timestamp. destruct (on_registry _ w) as [r w1].
  apply drop_lease_frees.
Qed.

Lemma release_stays_free q h : stays_free (on_registry (release_lease q h)).
Proof.
  apply maintains_registry. intros d Hd. unfold holds, release_lease, sql_delete in *.
  destruct (leases d !! q) as [l|] eqn:Hl; [|done]. destruct (l_holder l == h); [|done]. cbn.
  destruct (decide (q = pid)) as [->|Hne]; [by rewrite lookup_delete_eq|by rewrite lookup_delete_ne].
Qed.
Lemma same_leases {A} (op : store_op A) :
  (forall d, leases (op d).2 = leases d) -> stays_free (on_registry op).
Proof. intros Hop. apply maintains_registry. intros d Hd. unfold holds. by rewrite Hop. Qed.
#[local] Hint Resolve release_stays_free : maintains_db.
#[local] Hint Extern 4 (maintains _ _ (on_registry _)) => apply same_leases; intros; frame : maintains_db.

Lemma interrupt_stays_free session c : stays_free (interrupt_running E JX pid session holder c).
Proof.
  unfold interrupt_running, ensure_orphaned_session_supervision, reattach, try_reclaim_inactive_agent_lease,
    recorded_child, recorded_run.
  maintain.
Qed.

Lemma try_acquire_free at_ exp d :
  free d -> (try_acquire_lease pid holder at_ exp d).1 <> Ok true -> free (try_acquire_lease pid holder at_ exp d).2.
Proof.
  unfold try_acquire_lease, insert_lease_or_ignore, clear_expired_lease, sql_delete, holds. cbn. intros Hd Hr.
  repeat (case_match; simplify_eq/=; try done); rewrite ?lookup_delete_eq in *; try done. by match goal with Hl : leases d !! pid = Some _ |- _ => rewrite Hl end.
Qed.
Lemma acquire_frees_or_holds timeout w r w' :
  try_acquire_with_holder_at E pid holder timeout w = (r, w') -> free (registry w) ->
  match r with Ok true => holds holder pid (registry w') | _ => free (registry w') end.
Proof.
  unfold try_acquire_with_holder_at. intros H Hw. wstep H e at_ w1 H1. { done. }
  injection H1 as _ <-. wstep H e exp w1 H1. { done. } injection H1 as _ <-.
  wstep H e board w1 H1; (apply keeps_registry_inv in H1; [|apply quiet_project_board]). { by rewrite H1. }
  rewrite <- H1 in Hw. apply on_registry_inv in H as (_ & Hd & Hr). rewrite Hd.
  pose proof (try_acquire_free at_ exp _ Hw) as Hfree.
  destruct (try_acquire_lease pid holder at_ exp (registry w1)) as [res d] eqn:Ht. cbn in *.
  destruct Hr as [([] & -> & ->)|(e & -> & ->)]; [|by apply Hfree|by apply Hfree].
  revert Ht. unfold try_acquire_lease, insert_lease_or_ignore, holds. intros Ht.
  repeat (case_match; simplify_eq/=; try done). rewrite <- H4. cbn. by rewrite lookup_insert_eq.
Qed.

Definition takeover_done (r : res refusal string) (d : db) : Prop :=
  match r with Ok h => h = holder /\ holds holder pid d | Err _ => free d end.

Lemma open_stopped_done session c timeout w r w' :
  open_stopped E pid session holder c timeout w = (r, w') -> free (registry w) -> takeover_done r (registry w').
Proof.
  unfold open_stopped. intros H Hw. wstep H e acquired w1 H1; apply acquire_frees_or_holds in H1; try done.
  destruct acquired; cbn [ensure] in H; [|by injection H as <- <-].
  wstep H e u w2 H2; [done|]. injection H2 as _ <-.
  apply or_drop_inv in H as (w2 & H & ->); [|apply drop_lease_ok]. destruct r as [h|e]; [|apply drop_lease_frees].
  wok H now w3 H3. injection H3 as _ <-. wok H begun w3 H3. wok H u' w4 H4. apply ensure_inv in H4 as [-> _].
  injection H as <- <-. split; [done|]. apply on_registry_inv in H3 as (_ & Hd & _). rewrite Hd. unfold holds.
  replace (leases (begin_stopped_session_interactive _ _ _ _ _ _).2) with (leases (registry w1)); [exact H1|].
  symmetry. frame.
Qed.

Lemma wait_done looks session w h w' :
  wait_for_handoff E JX looks pid session holder w = (Ok h, w') -> h = holder /\ holds holder pid (registry w').
Proof.
  revert w. induction looks as [|[change expired] looks IH]; intros w H; [done|]. cbn [wait_for_handoff] in H.
  wok H u w1 H1. wok H ready w2 H2. destruct ready; [|destruct expired; [done|by eapply IH]].
  injection H as <- <-. split; [done|]. unfold look_at_handoff in H2. wok H2 control w3 H3. wok H2 c w4 H4.
  destruct (sc_state c); try done; [by wok H2 u' w5 H5|]. destruct (_ == Some holder); [|done].
  wok H2 adopted w5 H5. wok H2 u' w6 H6. apply ensure_inv in H6 as [-> [[-> _]|[_ [=]]]].
  injection H2 as <-. unfold adopt_at in H5. apply query_inv in H5 as [-> [= H5]]. unfold holds.
  unfold agent_lease_for_project, lease_for_project in H5.
  destruct (leases (registry w4) !! pid) as [l|]; [|done]. destruct (projects _ !! pid); [|done]. cbn in *.
  symmetry in H5. apply bool_decide_eq_true in H5. by rewrite H5.
Qed.

Lemma takeover_inv looks session timeout w r w' :
  prepare_tui_codex_session_interrupt_at E JX looks pid session holder timeout w = (r, w') ->
  free (registry w) -> takeover_done r (registry w').
Proof.
  unfold prepare_tui_codex_session_interrupt_at. intros H Hw. wstep H e control w1 H1.
  { apply query_res_inv in H1 as [-> _]. done. }
  apply query_res_inv in H1 as [-> _]. wstep H e c w2 H2; apply need_inv in H2 as [-> _]; [done|].
  destruct (sc_state c); try by injection H as <- <-.
  - destruct (interrupt_stays_free session c w Hw) as [Hfree _]. wstep H e u w3 H3; rewrite H3 in Hfree; [done|].
    apply or_drop_inv in H as (w4 & H & ->); [|apply drop_pending_ok]. destruct r as [h|e]; [by eapply wait_done|].
    apply drop_pending_frees.
  - by eapply open_stopped_done.
Qed.
End Takeover.

(** C14: A terminal that takes a conversation over ends up with exactly what it was told: when the takeover succeeds, the lease it returns is its own and it holds the project; however it fails (the conversation is busy or changes, the runner does not hand over, the time is up), it does not hold the project. Other processes may change the registry in any way between two looks. *)
Theorem takeover_holds_iff_it_succeeds E JX looks pid session holder timeout w r w' :
  prepare_tui_codex_session_interrupt_at E JX looks pid session holder timeout w = (r, w') ->
  ~ holds holder pid (registry w) ->
  match r with
  | Ok h => h = holder /\ holds holder pid (registry w')
  | Err _ => ~ holds holder pid (registry w')
  end.
Proof. intros H Hw. by eapply takeover_inv. Qed.

(** ** Reserving an idle conversation *)

Definition reserved_by (holder : string) (o : option control_row) : Prop :=
  exists c, o = Some c /\ sc_state c = ReadyInteractive /\ sc_interactive_holder c = Some holder.

Lemma updated_control k (p : control_row -> bool) f d :
  (0 <? (update_control k p f d).2)%Z = true ->
  exists c, p c = true /\ session_controls (update_control k p f d).1 !! k = Some (f c).
Proof.
  unfold update_control, sql_update. destruct (session_controls d !! k) as [c|]; [|done]. destruct (p c) eqn:Hp; [|done].
  intros _. exists c. split; [done|]. cbn. apply lookup_insert_eq.
Qed.

Lemma reserve_idle_true pid session holder token state now d :
  (reserve_idle_session_interactive_for_state pid session holder token state now d).1 = Ok true ->
  reserved_by holder (session_controls (reserve_idle_session_interactive_for_state pid session holder token state now d).2
                        !! (pid, session)).
Proof.
  unfold reserve_idle_session_interactive_for_state, autocommit.
  destruct (Prelude.starts_with _ _).
  - match goal with |- context [update_control ?k ?p ?f d] => pose proof (updated_control k p f d) as Hu;
      destruct (update_control k p f d) as [d' n] end.
    cbn in *. intros [= Hn]. destruct (Hu Hn) as (c & _ & Hc). rewrite Hc. by eexists.
  - destruct (negb _); [|done]. unfold insert_control. destruct (session_controls d !! _); [done|].
    cbn. destruct (project_exists d pid); cbn; [|by intros [=]]. intros _. rewrite lookup_insert_eq. by eexists.
Qed.

Lemma session_control_lookup pid session d o :
  session_control pid session d = Ok o -> session_controls d !! (pid, session) = o.
Proof.
  unfold session_control, control_record. intros H. destruct (session_controls d !! _) as [c|]; [|by injection H].
  by repeat (case_match; simplify_eq/=).
Qed.

Lemma one_task_to_resume tasks control journal :
  (unfinished_in_doing tasks || queued_unbound_recovery tasks control journal) = true ->
  exists status task, tasks = [(status, task)] /\ task_entry_is_stopped task = false.
Proof.
  unfold unfinished_in_doing, queued_unbound_recovery. intros H.
  destruct tasks as [|[status task] [|? ?]]; [done| |by destruct status].
  exists status, task. split; [done|]. destruct (task_entry_is_stopped task); [|done].
  by destruct status, control as [c|], journal.
Qed.

(** The board as the first question of a reservation leaves it: reading a store may remove
    temporary files. *)
Definition manual_session_looked_up (E : Surroundings) (p : Z * project_row) (session : string) (w : world)
    : world :=
  (on_board (board_has_manual_session (unicode E) (board_of p) (of_utf8 session)) w).2.

(** C15: A reservation of an idle conversation that succeeds leaves its control waiting for the terminal that asked, and it hands the conversation back to automation afterwards only when automation was free to continue it: it was not stopped (its control was absent or queued to resume), its journal is not terminal, and exactly one task is linked to it on the project's board, as the reservation read it, and that task is not stopped. *)
Theorem reservation_never_undoes_a_stop E pid session holder token w mode w' :
  reserve_idle_codex_session_interactive E pid session holder token w = (Ok (Some mode), w') ->
  reserved_by holder (session_controls (registry w') !! (pid, session))
  /\ (mode = ModeResumeExec ->
      match session_controls (registry w) !! (pid, session) with
      | Some c => sc_state c = ResumeRequested
      | None => True
      end
      /\ match git_finalization pid session (registry w) with
         | Some g => Finalization.is_terminal (g_state g) = false
         | None => True
         end
      /\ exists p status task,
           project_with_id pid (registry w) = Some p
           /\ (linked_tasks E (board_of p) session (manual_session_looked_up E p session w)).1
              = Ok [(status, task)]
           /\ task_entry_is_stopped task = false).
Proof.
  unfold reserve_idle_codex_session_interactive. intros H. wok H board w1 H1. unfold lock_project_board in H1.
  wok H1 found v1 F1. apply query_inv in F1 as [-> [= F1]]. wok H1 p v2 F2. apply need_inv in F2 as [-> [(p' & -> & [= <-])|[_ [=]]]].
  injection H1 as <- <-. wok H manual w2 Hlook. pose proof Hlook as H2.
  apply keeps_registry_inv in H2; [|keep_registry].
  wok H u w3 H3. apply ensure_inv in H3 as [-> _]. wok H control w4 H4. apply query_res_inv in H4 as [-> H4].
  wok H tasks w5 H5. pose proof H5 as Hread. unfold linked_tasks in H5. apply keeps_registry_inv in H5; [|keep_registry].
  wok H journal w6 H6. apply query_inv in H6 as [-> [= ->]]. wok H ran_before w7 H7. apply query_inv in H7 as [-> _].
  wok H now w8 H8. injection H8 as _ <-. wok H reserved w9 H9. injection H as H <-.
  destruct reserved; [|done]. injection H as <-.
  apply on_registry_inv in H9 as (_ & Hd & [(b & Hb & [= <-])|(e & _ & [=])]). rewrite Hd. split.
  { by apply reserve_idle_true. }
  destruct (resumes_exec _ _ _ _) eqn:Hr; [intros _|done]. unfold resumes_exec in Hr.
  rewrite H2, H5 in *.
  apply andb_true_iff in Hr as [[[Htask Hc]%andb_true_iff Hj]%andb_true_iff _].
  destruct H4 as [(o & Ho & [= <-])|(e & _ & [=])]. apply session_control_lookup in Ho. rewrite Ho.
  split_and!; [by destruct control; [apply bool_decide_eq_true in Hc|]| |].
  { destruct (git_finalization _ _ _); [by apply negb_true_iff in Hj|done]. }
  apply one_task_to_resume in Htask as (status & task & -> & Hstop). exists p, status, task.
  split_and!; [done| |done]. unfold manual_session_looked_up, board_of, project_root. rewrite Hlook.
  cbn [snd]. by rewrite Hread.
Qed.

(** ** The stop key *)

(** Where the stop key leads a control to. *)
Definition toggles_to (c c' : control_row) : Prop :=
  (sc_state c, sc_state c') ∈ [(Running, StopRequested); (Stopped, ResumeRequested); (Interactive, StopRequested)]
  /\ sc_run_token c' = sc_run_token c.

Definition toggled (k : Z * string) (d d' : db) : Prop :=
  session_controls d' = session_controls d
  \/ exists c c', session_controls d !! k = Some c /\ toggles_to c c'
       /\ session_controls d' = <[k := c']> (session_controls d).

Lemma update_toggles k (p : control_row -> bool) f d :
  (forall c, p c = true -> toggles_to c (f c)) -> toggled k d (update_control k p f d).1.
Proof.
  intros Hf. unfold toggled, update_control, sql_update. destruct (session_controls d !! k) as [c|]; [|by left].
  destruct (p c) eqn:Hp; [|by left]. right. exists c, (f c). auto.
Qed.

Section Toggle.
Context (E : Surroundings) (JX : JobSurroundings) (pid : Z) (session : string).

Ltac toggles :=
  match goal with
  | |- context [update_control ?k ?p ?f ?d] =>
      let Hu := fresh in let c := fresh in let Hc := fresh in
      pose proof (update_toggles k p f d) as Hu; destruct (update_control k p f d);
      apply Hu; intros c Hc; repeat apply andb_true_iff in Hc as [Hc _]; apply bool_decide_eq_true in Hc;
      unfold toggles_to, settle; cbn; rewrite Hc; split; [set_solver|done]
  end.

Lemma stop_toggles child tok now d : toggled (pid, session) d (request_session_stop pid session child tok now d).2.
Proof. unfold request_session_stop, runs_generation. toggles. Qed.
Lemma interactive_stop_toggles child holder now d :
  toggled (pid, session) d (request_interactive_session_stop pid session child holder now d).2.
Proof. unfold request_interactive_session_stop. toggles. Qed.
Lemma resume_toggles tok now d :
  toggled (pid, session) d (request_stopped_session_resume pid session tok now d).2.
Proof. unfold request_stopped_session_resume. toggles. Qed.

#[local] Hint Extern 4 (maintains _ _ (on_registry _)) =>
  apply maintains_registry; intros ? <-; frame : maintains_db.
Lemma ensure_same_controls T :
  maintains (fun d => session_controls d = T) (fun _ => True)
    (ensure_orphaned_session_supervision E (sx_processes (jx_scheduler JX)) pid session).
Proof.
  unfold ensure_orphaned_session_supervision, reattach, try_reclaim_inactive_agent_lease. maintain.
Qed.
Lemma ensure_controls w r w' :
  ensure_orphaned_session_supervision E (sx_processes (jx_scheduler JX)) pid session w = (r, w') ->
  session_controls (registry w') = session_controls (registry w).
Proof. intros H. destruct (ensure_same_controls _ w eq_refl) as [Hs _]. by rewrite H in Hs. Qed.

(** The three requests, on the world. *)
Lemma request_inv (op : store_op bool) w r w' :
  on_registry op w = (r, w') -> (forall d, toggled (pid, session) d (op d).2) ->
  toggled (pid, session) (registry w) (registry w').
Proof. intros H Hop. apply on_registry_inv in H as (_ & -> & _). apply Hop. Qed.

Lemma stop_running_toggles c w r w' :
  stop_running E JX pid session c w = (r, w') -> toggled (pid, session) (registry w) (registry w').
Proof.
  unfold stop_running, recorded_child, recorded_run. intros H.
  wstep H e child w1 H1; apply need_inv in H1 as [-> _]; [by left|].
  wstep H e tok w1 H1; apply need_inv in H1 as [-> _]; [by left|].
  wstep H e now w1 H1; [done|]. injection H1 as <- <-.
  wstep H e requested w1 H1; apply request_inv in H1; (try by intros; apply stop_toggles); [done|].
  destruct (negb requested); [by injection H as _ <-|]. wstep H e u w2 H2.
  all: unfold wtry in H2; destruct (ensure_orphaned_session_supervision _ _ _ _ w1) as [r2 v] eqn:He;
    injection H2 as ? ->; apply ensure_controls in He; unfold toggled in *.
  - by rewrite He.
  - injection H as _ <-. by rewrite He.
Qed.
Lemma resume_stopped_toggles c w r w' :
  resume_stopped E pid session c w = (r, w') -> toggled (pid, session) (registry w) (registry w').
Proof.
  unfold resume_stopped, only_planned. intros H.
  wstep H e planned w1 H1; (apply keeps_registry_inv in H1; [|keep_registry]); rewrite <- H1; [by left|].
  destruct planned; [injection H as _ <-; by left|]. wstep H e now w2 H2; [done|]. injection H2 as <- <-.
  wstep H e requested w2 H2; apply request_inv in H2; (try by intros; apply resume_toggles); [done|].
  by injection H as _ <-.
Qed.

Lemma stop_interactive_toggles c w r w' :
  stop_interactive E pid session c w = (r, w') -> toggled (pid, session) (registry w) (registry w').
Proof.
  unfold stop_interactive. intros H. wstep H e child w1 H1; apply need_inv in H1 as [-> _]; [by left|].
  wstep H e guardian w1 H1; apply need_inv in H1 as [-> _]; [by left|].
  wstep H e now w1 H1; [done|]. injection H1 as <- <-.
  wstep H e requested w1 H1; apply request_inv in H1; (try by intros; apply interactive_stop_toggles); [done|].
  by injection H as _ <-.
Qed.
End Toggle.

(** C16: The stop key moves at most the control of its own conversation, and only where the user means it to: a running or interactive one is asked to stop, a stopped one is queued to resume, with the run token it had; whatever it answers or fails with, every other control of the registry is as it was. *)
Theorem stop_key_moves_one_control E JX pid session w r w' :
  toggle_tui_codex_session_stop_at E JX pid session w = (r, w') ->
  session_controls (registry w') = session_controls (registry w)
  \/ exists c c',
      session_controls (registry w) !! (pid, session) = Some c
      /\ ((sc_state c, sc_state c') ∈ [(Running, StopRequested); (Stopped, ResumeRequested); (Interactive, StopRequested)]
          /\ sc_run_token c' = sc_run_token c)
      /\ session_controls (registry w') = <[(pid, session) := c']> (session_controls (registry w)).
Proof.
  unfold toggle_tui_codex_session_stop_at. intros H.
  change (toggled (pid, session) (registry w) (registry w')).
  wstep H e control w1 H1; apply query_res_inv in H1 as [-> _]; [by left|].
  destruct control as [c|]; [|injection H as _ <-; by left].
  destruct (sc_state c); try (injection H as _ <-; by left).
  - by eapply stop_running_toggles.
  - wstep H e reattached w1 H1; apply ensure_controls in H1; left; [exact H1|]. injection H as _ <-. exact H1.
  - by eapply resume_stopped_toggles.
  - by eapply stop_interactive_toggles.
Qed.

(** ** Witnesses *)

(** A worker runs the conversation when a terminal asks for it, and hands it over. *)
Definition terminal : string := "clt-interactive-9-1-1".
Definition watched_run : world := mkWorld (sample_tree [] [noted] []) (at_stage running) 0.
Definition runner_hands_over (d : db) : db :=
  (complete_session_interrupt_handoff 1 sid token (worker_lease_holder token) "1010" "1300" "1010" d).2.
Definition takeover (looks : list ((db -> db) * bool)) : res refusal string * world :=
  prepare_tui_codex_session_interrupt sample_surroundings sample_jobs looks 1 sid terminal watched_run.
Definition handed_over_run : res refusal string * world := takeover [(runner_hands_over, false)].
Definition timed_out_run : res refusal string * world := takeover [(fun d => d, true)].

Lemma takeover_holds_iff_it_succeeds_witness :
  holds terminal 1 (registry handed_over_run.2) /\ ~ holds terminal 1 (registry timed_out_run.2).
Proof.
  assert (Hw : ~ holds terminal 1 (registry watched_run)) by (vm_compute; discriminate).
  assert (H1 : handed_over_run = (Ok terminal, handed_over_run.2)) by (vm_compute; reflexivity).
  assert (H2 : timed_out_run =
               (Err (Bail "Timed out waiting for the Codex runner to enter interactive mode"), timed_out_run.2))
    by (vm_compute; reflexivity).
  split.
  - exact (proj2 (takeover_holds_iff_it_succeeds sample_surroundings sample_jobs [(runner_hands_over, false)] 1 sid
                    terminal HANDOFF_LEASE_SECONDS watched_run _ _ H1 Hw)).
  - exact (takeover_holds_iff_it_succeeds sample_surroundings sample_jobs [(fun d => d, true)] 1 sid
             terminal HANDOFF_LEASE_SECONDS watched_run _ _ H2 Hw).
Defined.

(** A failed run left its task in Doing. *)
Definition linked_doing : world :=
  mkWorld (sample_tree [] [str "Fix the parser codex:session"] [])
    (at_stage [RegisterProject "/p" "p" "900";
               RecordRunOutcome (mkOutcome 1 "failure" "950" (Some "960") (Some 1%Z) (Some "log") (Some "out") None
                                   None (Some sid))]) 0.
Definition idle_terminal : string := "clt-idle-interactive-9-1-1".
Definition reserved_run : res refusal (option InteractiveCodexResumeMode) * world :=
  reserve_idle_codex_session_interactive sample_surroundings 1 sid idle_terminal None linked_doing.

Lemma reservation_never_undoes_a_stop_witness :
  reserved_by idle_terminal (session_controls (registry reserved_run.2) !! (1%Z, sid))
  /\ exists p status task,
       project_with_id 1 (registry linked_doing) = Some p
       /\ (linked_tasks sample_surroundings (board_of p) sid
             (manual_session_looked_up sample_surroundings p sid linked_doing)).1 = Ok [(status, task)]
       /\ task_entry_is_stopped task = false.
Proof.
  assert (H : reserved_run = (Ok (Some ModeResumeExec), reserved_run.2)) by (vm_compute; reflexivity).
  destruct (reservation_never_undoes_a_stop sample_surroundings 1 sid idle_terminal None linked_doing ModeResumeExec
              reserved_run.2 H) as [Hc Hresume].
  split; [exact Hc|]. exact (proj2 (proj2 (Hresume eq_refl))).
Defined.

Definition stopped_run : res refusal string * world :=
  toggle_tui_codex_session_stop_at sample_surroundings sample_jobs 1 sid watched_run.

Lemma stop_key_moves_one_control_witness :
  exists c c', session_controls (registry watched_run) !! (1%Z, sid) = Some c /\ sc_run_token c' = sc_run_token c
    /\ session_controls (registry stopped_run.2) = <[(1%Z, sid) := c']> (session_controls (registry watched_run)).
Proof.
  assert (Hmoved : session_controls (registry stopped_run.2) !! (1%Z, sid)
                   <> session_controls (registry watched_run) !! (1%Z, sid)) by (vm_compute; discriminate).
  destruct (stop_key_moves_one_control sample_surroundings sample_jobs 1 sid watched_run stopped_run.1 stopped_run.2
              (surjective_pairing stopped_run)) as [Hsame|(c & c' & Hc & [_ Ht] & Hd)].
  - destruct Hmoved. by rewrite Hsame.
  - exists c, c'. split; [exact Hc|]. split; [exact Ht|exact Hd].
Defined.
